(* ===== verification/_CoqProject ===== *)
-Q . S2P
Prelude.v
Collections.v
Binary64.v
Records.v
Config.v
Seeds.v
Partition.v
Reconstruction.v
PyStr.v
Resources.v
Options.v
Planner.v
Writer.v
WriterPool.v
PoolProofs.v
Cgroups.v
Native.v
Metadata.v
FileSystem.v
RecordCodec.v
OrderedPipeline.v
IndexFile.v
MetadataFile.v
Interface.v
Dataset.v
Refinement.v
Passes.v
Export.v
Loader.v
Construction.v
Epoch.v
Runtime.v
Manifest.v
CacheStore.v
ReaderCache.v
StoreProofs.v
StoreReads.v
CacheRoundtrip.v
NativeInput.v
NativeWriter.v
WriterSafety.v
WriterRoundtrip.v
SourceList.v
StorageReader.v
Migration.v
TypeCheck.v
ApiDocs.v
BenchReader.v
BenchProofs.v
BenchGates.v
BenchWriter.v
BenchBaseline.v
BenchReports.v
Training.v
BuildLocal.v
Distributed.v
Channel.v
WorkerPool.v
ArrowTable.v
CompressionWire.v
Observability.v
Facade.v
