(* ===== verification/Prelude.v ===== *)
(** * DatasetRT: a verification library

    DatasetRT caches preprocessed training samples in immutable local
    directories and reads them back through a native reader, alone or inside
    the loading workers of a distributed PyTorch job. This library models the
    Python package ([src/dataset_rt/]), its scripts, and the native side
    ([src/src/dataset_rt/*.rs]) from the bytes on disk to the dataset state, as
    executable definitions, and proves the theorems that make it correct.

    ** The program and the files that model it

    Writing. [DatasetRuntime] ([runtime.py]) turns sources into cache
    directories, serially in the native runtime or through a pool of supervised
    child processes ([writer.py]).
    - [Writer]: source names ([validate_source_name]), the preflight of all
      sources ([_preflight]), the child process ([_worker], [_run_source]).
    - [WriterPool]: the supervising parent as a state monad over [pool]
      (child states, outcomes, handed-out and released temporary paths):
      [_dispatch], [_poll], [_supervise], [_stop_all], [write_parallel].
    - [PoolProofs]: ownership, completeness, order and termination of the pool.
    - [Runtime]: result conversion, [write_cache], [from_cache_sources], the legacy
      Torch view.
    - [NativeInput]: what the native writer takes from Python: names, payloads,
      metadata, configuration ([writer.rs], [extract_*]).
    - [NativeWriter]: one source, or a list of sources as a stream of pipeline events,
      written into a temporary directory and published by a rename ([writer.rs],
      [writer/pipeline.rs]). [OrderedPipeline] is the window of concurrent jobs both
      are built on ([SampleWritePipeline], [SourceListWritePipeline]).
    - [WriterSafety], [WriterRoundtrip], [SourceList]: what a write may change on the
      disk, that it reads back, and that every source gets its record.
    - [Observability]: the stage profiler with its summary file, and the progress bars
      ([writer/profiler.rs], [writer/progress.rs], [finish_with_profile]).

    Threads. The native side runs its jobs on one pool per runtime.
    - [Channel]: the bounded channel ([channel.rs]): its state under the lock, and a system
      of calls that sleep on its two condition variables and run in any order, with
      spurious wakeups, deadlines and dropped handles.
    - [WorkerPool]: [worker_pool.rs] on top of it: worker threads, operations with their
      result channels, jobs that return or panic, and a dropped pool.

    Storage. A cache is a directory of shards, an index, a metadata table and a manifest
    ([storage.rs]).
    - [FileSystem]: paths, files and directories as a map, and the calls the storage
      makes, each of which may fail before or in the middle of its effect; the two
      logics the proofs use ([runs] for calls that succeed, [keeps] for any run).
    - [RecordCodec]: stored records, their JSON metadata and the codec framings
      ([compression.rs], [compression/brotli.rs]).
    - [IndexFile] ([storage/index.rs]) and [MetadataFile]: the index and the metadata
      table with its batches.
    - [CacheStore]: [CacheBuilder], [load_cache] with its checks, [ShardReaderCache] and
      [read_sample_with_cache]. [ReaderCache], [StoreProofs], [StoreReads] and
      [CacheRoundtrip] hold its proofs: the reader cache, what the builder leaves on
      disk, what opening and reading it gives, and the round trip.
    - [StorageReader]: the storage as an implementation of the interface the reading
      side is proved against, and the whole way from a source to a dataset's items.

    Reading. [CachedDataset] ([dataset.py]) wraps a native dataset and keeps a
    frozen recipe from which worker processes rebuild the same reader.
    - [Native]: [DatasetState] ([dataset.rs]), epoch plans and the reordering
      iterator ([runtime.rs]), samplers ([sampling.rs]); machine integers are
      64 bits wide, with checked arithmetic written out.
    - [Metadata]: the columnar tables ([metadata.py], [samples_metadata.rs],
      [arrow_metadata.rs]), their validation, and row identities, on flat tables.
    - [ArrowTable]: the same tables as the code holds them, in record batches with row
      offsets and selections ([ArrowMetadata], [MetadataReader],
      [visit_samples_metadata]), shown to be the flat ones.
    - [Interface]: the class [NativeReader] of what the storage layer and the
      generators give, with its laws [NativeReaderLaws]; every component above
      is defined and proved against it.
    - [Dataset]: [CachedDataset]: load, iterate through a generator, random
      access, [set_epoch_len], [get_metadata], [update_metadata], [from_config].
    - [Refinement]: the abstract reader a dataset promises to be (active rows,
      epoch length, one position in one stream), and the simulation.
    - [Passes]: whole passes over a loaded dataset, used by the measuring scripts.
    - [Manifest] and [Migration]: the versioned manifest of a cache
      ([storage/manifest.rs]) and the upgrade of a dataset's manifests
      ([storage/migration.rs]) as a program over a filesystem in which every call
      may fail, a signal may arrive and the process may die.

    Saving. [reconstruction.py] exports a dataset for its workers.
    - [Reconstruction]: the validated [DatasetConfiguration], the shared row
      order file and the two ways a population is selected from it.
    - [Export]: [dump_configuration] as a program over a directory in which every
      step may fail before, during or after its effect, and
      [ConstructionArtifacts], which owns the directory.

    Loading. [integrations/] builds one PyTorch loader per rank.
    - [Seeds], [Partition], [Resources], [Cgroups], [Options]: the functions of
      [loading.py], [resources.py] and [loader_options.py]: derived seeds, row
      spans, rank and worker budgets, CPU limits, validated settings.
    - [Planner]: [WorkerPlan] and the whole of [prepare_partitions].
    - [Loader]: [ReaderAdapter], the process-local state machine that sets up a
      reader once and serves budgeted passes from one retained stream.
    - [Construction]: [make_dataloader] with its argument checks, its export and
      the removal of the export on any failure.
    - [Epoch]: the composition: one epoch of all consumers of all ranks.

    Tools. The scripts and the example of the repository, over the same components.
    - [BenchReader], [BenchProofs], [BenchGates]: [scripts/bench_reader.py]: cases,
      fixture, measured passes, trials and their supervision, performance gates.
    - [BenchWriter]: [scripts/bench_writer.py]; [BenchBaseline]:
      [scripts/bench_parallel.py] and [scripts/bench_smoke.py]; [BenchReports]: the
      commands of the three benchmarks with their reports.
    - [TypeCheck]: [scripts/check_precise_types.py]; [ApiDocs]:
      [scripts/sync_api_docs.py], both over syntax trees.
    - [BuildLocal]: [scripts/build_local.py]; [Training]: [examples/ddp_loading.py].
    - [Distributed]: [run_benchmark.py] and [benchmarks/]: configuration, launch,
      fixtures, the independent check of worker plans, one measured pass, resources.

    Shared: [Collections] (sorting, insertion-ordered dictionaries, byte strings),
    [Binary64] (rounded arithmetic, [statistics.median]), [Prelude] (Python values, exceptions as [outcome], warnings, sums,
    contiguous tilings, tactics and hint databases), [Records] ([records.py]),
    [Config] ([config.py] and the native extraction of a compression policy),
    [CompressionWire] (the policy a mapping selects and its manifest entry), [Facade]
    ([api.py] and [__init__.py]: public names and the references of pickled classes),
    [PyStr] (the [str] operations the parsers use).

    ** How code is modelled

    A Python function that may raise returns [outcome] ([Ret] or [Raise] with
    the exception's class and message); an expected failure is [result] ([Ok] or
    [Err]) as in the source. A stateful object is a record, and a method returns
    the new record, also on its error branches. A generator is a value of
    [generator] that [gen_next] advances. An argument whose type the code
    inspects is a [pyval]. Strings are lists of code points, paths lists of
    segments. A Python [int] is [Z]; NumPy and native integers wrap or are
    checked at 64 bits where the source computes with them. A [float] is its
    exact rational value, an infinity or a NaN; the sums of [validate_weights] and
    the rates, differences and medians of the scripts are rounded to 53 bits.

    ** Parameters and hypotheses

    Code outside the repository is a parameter: random generators (of the class
    [NativeReader], and the NumPy shuffle), Unicode normalization, reading files under
    [/proc] and [/sys], the process group, the clock and children of the writer
    pool, [mkdtemp], Torch's constructor. The reading side is proved for every
    [NativeReader]; [storage_reader] instantiates it with the modelled storage, whose
    own libraries are classes with laws: [NativeCodecs] (the allocator, LZ4 and
    Brotli: what they compress decompresses to the same bytes, and [memory] bytes can be
    allocated), [RecordJson] (serde_json on flat objects; only
    finite floats with an exact text read back), [ArrowFiles] (record batches and IPC
    files read back) and [Hashing] (SHA-256, of which nothing is assumed, and the
    buffer of a file writer). What a theorem needs of them is a named hypothesis or a law of the class: a generator
    answers within the range it is asked for ([generators_ok]) and validated
    weights make a distribution ([distribution_accepts]); shuffling rearranges; a fresh
    directory is new ([mkdtemp_fresh]); a resolved path opens the same cache;
    a child never says [Ready] after another message ([ready_first];
    [Writer.child_message_trace] shows it of the modelled child); the clock
    passes every instant. The JSON library of a manifest is the class [ManifestFormat]
    with [ManifestFormatLaws] (text reads back, numbers and typed fields too). In the
    scripts the hash, the clocks, the resource observers, Torch's loader, and Python's
    parser and unparser are parameters; [parse_shrinks] says that parsing a quoted
    annotation gives a smaller tree and [unique_ids] that the nodes of one tree are
    distinct objects; Torch groups each consumer's quota into batches. Each such
    theorem has a witness at concrete values.

    ** Faults, schedules and signals of the native writer

    A [disk] carries the faults its next calls will meet: a call may fail with an error
    after any part of its effect (a directory half made or half removed, a prefix of a
    file written), and a buffered writer that is dropped may have kept any part of its
    buffer. Theorems without further hypotheses ([publication_atomic]) hold for every
    sequence of faults; those that promise success ask for a [reliable] disk. A
    [schedule] says which outstanding job finishes next each time the pipeline waits, or
    that a Python signal handler raises; [undisturbed] schedules have no signals. What a
    source yields is a finite list of pulls, each an item, an exception or a signal.

    ** What the theorems show

    - One epoch and its stream: [loader_epoch_covers], [passes_continue_stream],
      [iterators_continue], [split_full_pass_covers], [prepare_partitions_total];
      [ranks_stay_in_step] for the training example.
    - From a source to its dataset: [written_dataset_reads_back] through the pipeline,
      the storage and the Python layer; [cache_roundtrip] for the storage alone.
    - Safety of a write: [publication_atomic]; [source_list_records] (every source gets
      its record); [nonfinite_metadata_lost], [manifest_flush_unreported],
      [reserved_name_reported], [iterator_failure_leaves_temporary] and
      [extraction_coerces] state where the code does less or other than it means to.
    - Parts of the storage: [reader_cache_lru], [index_addressing],
      [metadata_table_batches], [pipeline_sequential].
    - Threads: [channel_fifo] and [channel_wakes] (nothing is lost, reordered or left
      waiting, in any interleaving), [pool_delivers] (one result per job, and the workers
      come to rest).
    - Refinement: [dataset_refines_spec] (a dataset is the abstract reader),
      [iterator_refines_reader] (the concurrent native window is a sequential
      reader, failures included), with [iterator_never_stuck]; [arrow_table_refines]
      (batched tables are the flat ones).
    - Isolation between processes and iterators: [native_state_process_local],
      [recipe_tracks_native], [running_iterator_isolated].
    - Saving: [config_roundtrip], [export_publication_safe],
      [export_all_or_nothing], [construction_artifacts_owned],
      [selection_matches_reference].
    - Manifests: [manifest_upgrade_roundtrip], [migration_atomic],
      [migration_resumes].
    - Identities and metadata: [row_identity_roundtrip], [get_item_agrees],
      [metadata_reads_back], [slice_metadata_partition].
    - Arithmetic of a plan: [partition_rows_exact], [worker_rows_cover],
      [rank_budget_spec], [worker_budgets_exact], [derive_seed_unique],
      [plan_seeds_distinct], [mix_u64_permutes], [common_seed_agreement].
    - The writer: [write_parallel_ordered], [pool_ownership],
      [supervise_complete], [write_parallel_terminates], [preflight_spec],
      [child_message_trace], [accepted_name_is_segment],
      [from_cache_sources_keeps_successes].
    - Settings and budgets: [resolved_workers_consistent],
      [automatic_counts_within_budget], [available_cpu_count_conservative],
      [cpuset_limit_counts], [unescape_mount_roundtrip],
      [compression_reaches_native], [mapping_selects_policy],
      [compression_wire_roundtrip].
    - Measurements: [native_trial_measures], [pass_accounts], [payload_identity],
      [gates_pair_rounds], [writer_measurement_verified],
      [speedups_pair_controls], [baseline_reads_back], [smoke_reads_back],
      [prepared_plans_accepted], [observe_bounds], [reports_are_complete] (a report is
      written only after a complete run), [profile_exact], [progress_counts].
    - Development tools: [check_source_exact], [sync_then_check],
      [render_args_defaults], [build_follows_plan]; [facade_keeps_references].

    ** Fuel

    [supervise] takes fuel for its polling loop; [write_parallel_terminates]
    proves that from some number of rounds on the write always has its result.
    [climb] (ancestors of a control group) has one more than the number of path
    segments below the mount, which [climb_total] shows to be enough. The
    scheduling loop of the native iterator has the number of planned samples;
    each of its rounds schedules one. [create_new] (the name of a temporary manifest)
    has one more than the number of files, which [free_candidate] shows to be enough.
    In the scripts, [consume] has the samples a pass must accept (every batch accepts
    one), [for_each] two more than the samples of the dataset ([for_each_total] shows
    that it ends), a tree walk the number of nodes, and a quoted annotation the size of
    its tree. [metadata_batches] has the number of rows (every batch takes one, shown in
    [metadata_table_batches]); [commit_ready] one more than the pending jobs and
    [drain_jobs] the number in flight, of which each round removes one ([drained]).
    [read_batches] and [gather_run] have the rows of the table, of which every batch and
    every index takes one, and [visit_chunks] the rows of its batch; [arrow_table_refines]
    shows that this reads everything. Channels and pools are run for a given sequence of
    actions; that they come to rest is a bound on the turns ([channel_wakes],
    [pool_delivers]).
    Everything else is structural.

    ** Not modelled

    Inside the native window and the two writing pipelines the completions of jobs are
    schedules, not turns of [WorkerPool]'s threads; [pool_delivers] is what lets a
    schedule choose among the outstanding jobs and shows that no job is refused. The lock
    of a channel is taken as the standard library documents it, and its poisoning by a
    panic is left out, since nothing panics while holding it. Of the metadata tables, reading the footer of a memory-mapped Arrow
    file ([arrow_metadata/mapped.rs]), the C stream interface and the variants that pass a
    table as IPC bytes are calls into the Arrow library. The [pickle], [pydantic], [logging]
    and Torch libraries and the conversion to Polars appear only as far as the code inspects
    their results; JSON and Arrow text and files only through laws. Names the operating
    system itself refuses appear as failing calls; what it does to open handles of files
    removed meanwhile, and the writes a dropped shard writer still makes into the temporary
    directory being discarded, are left out. The source's [name] is read once and taken as
    stable, and whether cache directories exist when a configuration is validated is not
    looked at. That every consumer covers its rows is proved for sequential epochs
    ([loader_epoch_covers]) and for one full shuffled pass over a split table
    ([split_full_pass_covers]); shuffled epochs of other lengths draw at random. Of the
    distributed benchmark ([benchmarks/]) the model, the process group and the report are
    left out. Type-checking stubs, overload signatures, protocols and imports have no
    behaviour to model. *)
From stdpp Require Import base tactics list numbers strings pretty gmap sets.
Open Scope Z_scope.

(** * Python values, exceptions and results *)

(** A Python [str] is its sequence of Unicode code points. *)
Abbreviation pystr := (list Z).

(** The code points of an ASCII literal. *)
Fixpoint lit (s : string) : pystr :=
  match s with
  | EmptyString => []
  | String c s' => Z.of_N (Ascii.N_of_ascii c) :: lit s'
  end.

(** [str(n)] of a Python [int]. *)
Definition dec (z : Z) : pystr := lit (pretty z).
Arguments lit : simpl never.
Arguments dec : simpl never.

#[export] Instance lit_inj : Inj (=) (=) lit.
Proof.
  intros s. induction s as [|c s IH]; intros [|c' s'] H; try discriminate H; [done|].
  unfold lit in H; fold lit in H. injection H as Hc Hs. apply N2Z.inj in Hc.
  rewrite <- (Ascii.ascii_N_embedding c), Hc, Ascii.ascii_N_embedding. f_equal. by apply IH.
Qed.

#[export] Instance dec_inj : Inj (=) (=) dec.
Proof. intros a b H. unfold dec in H. by apply (inj lit), (inj pretty) in H. Qed.

(** A Python [float]: the finite ones by their exact rational value. *)
Inductive pyfloat :=
| Finite (num : Z) (den : positive)
| Infinite (negative : bool)
| NotANumber.

(** [math.isfinite(f)], [f > 0], [f < 0] and [f != 0]. *)
Definition float_isfinite (f : pyfloat) : bool :=
  match f with Finite _ _ => true | _ => false end.
Definition float_gt0 (f : pyfloat) : bool :=
  match f with Finite n _ => 0 <? n | Infinite neg => negb neg | NotANumber => false end.
Definition float_lt0 (f : pyfloat) : bool :=
  match f with Finite n _ => n <? 0 | Infinite neg => neg | NotANumber => false end.
Definition float_ne0 (f : pyfloat) : bool :=
  match f with Finite n _ => negb (n =? 0) | _ => true end.
Definition float_eq1 (f : pyfloat) : bool :=
  match f with Finite n d => n =? Zpos d | _ => false end.

(** Dynamically typed arguments, where the code inspects [type(value)].
    [POther] stands for any object of another type. *)
Inductive pyval :=
| PNone
| PBool (b : bool)
| PInt (z : Z)
| PFloat (f : pyfloat)
| PStr (s : pystr)
| POther.

(** The exceptions the modelled code raises or lets through. *)
Inductive py_exc :=
| ValueError (msg : pystr)
| TypeError (msg : pystr)
| IndexError (msg : pystr)
| RuntimeError (msg : pystr)
| ZeroDivisionError
| FileExistsError (msg : pystr)
| FileNotFoundError
| OSError (msg : pystr)
| ValidationError (model : pystr)
| KeyboardInterrupt (msg : pystr)
| SystemExit (status : pyval)
| OtherException (kind msg : pystr).

(** A computation returns or raises. *)
Inductive outcome (A : Type) :=
| Ret (a : A)
| Raise (e : py_exc).
Arguments Ret {A} a.
Arguments Raise {A} e.

#[export] Instance outcome_ret : MRet outcome := @Ret.
#[export] Instance outcome_bind : MBind outcome := fun A B f m =>
  match m with Ret a => f a | Raise e => Raise e end.
#[export] Instance outcome_fmap : FMap outcome := fun A B f m =>
  match m with Ret a => Ret (f a) | Raise e => Raise e end.

#[export] Instance pyfloat_eq_dec : EqDecision pyfloat.
Proof. solve_decision. Defined.
#[export] Instance pyfloat_countable : Countable pyfloat.
Proof.
  apply (inj_countable'
    (fun f => match f with Finite n d => inl (n, d) | Infinite b => inr (Some b) | NotANumber => inr None end)
    (fun x => match x with inl (n, d) => Finite n d | inr (Some b) => Infinite b | inr None => NotANumber end)).
  by intros [].
Defined.
#[export] Instance pyval_eq_dec : EqDecision pyval.
Proof. solve_decision. Defined.
#[export] Instance py_exc_eq_dec : EqDecision py_exc.
Proof. solve_decision. Defined.
#[export] Instance outcome_eq_dec `{EqDecision A} : EqDecision (outcome A).
Proof. solve_decision. Defined.

(** [if not cond: raise e]. *)
Definition require (cond : bool) (e : py_exc) : outcome unit :=
  if cond then Ret tt else Raise e.

(** The computation raises nothing. *)
Definition returns {A} (m : outcome A) : Prop := exists a, m = Ret a.

(** [[f(x) for x in l]] for an [f] that may raise: the first exception wins. *)
Fixpoint traverse {A B} (f : A -> outcome B) (l : list A) : outcome (list B) :=
  match l with
  | [] => Ret []
  | x :: r => y ← f x; ys ← traverse f r; Ret (y :: ys)
  end.

Lemma bind_ret {A B} (m : outcome A) (k : A -> outcome B) b :
  m ≫= k = Ret b -> exists a, m = Ret a /\ k a = Ret b.
Proof. destruct m; simpl; [eauto|discriminate]. Qed.

Lemma traverse_ret {A B} (f : A -> outcome B) (g : A -> B) l :
  (forall x, x ∈ l -> f x = Ret (g x)) -> traverse f l = Ret (map g l).
Proof.
  induction l as [|x l IH]; intros H; simpl; [done|].
  rewrite H by left. simpl. rewrite IH; [done|]. intros y Hy. apply H. by right.
Qed.

(** Warnings issued through [warnings.warn]. *)
Inductive py_warning :=
| UserWarning (msg : pystr)
| RuntimeWarning (msg : pystr)
| DeprecationWarning (msg : pystr).

#[export] Instance py_warning_eq_dec : EqDecision py_warning.
Proof. solve_decision. Defined.

(** [divmod(a, b)] on Python integers (floor division). *)
Definition py_divmod (a b : Z) : outcome (Z * Z) :=
  if b =? 0 then Raise ZeroDivisionError else Ret (a / b, a mod b).

Definition py_div (a b : Z) : outcome Z := fst <$> py_divmod a b.
Definition py_mod (a b : Z) : outcome Z := snd <$> py_divmod a b.

Lemma py_divmod_pos a b : 0 < b -> py_divmod a b = Ret (a / b, a mod b).
Proof. intros. unfold py_divmod. by destruct (Z.eqb_spec b 0); [lia|]. Qed.

Lemma py_div_pos a b : 0 < b -> py_div a b = Ret (a / b).
Proof. intros. unfold py_div. by rewrite py_divmod_pos. Qed.

Lemma py_mod_pos a b : 0 < b -> py_mod a b = Ret (a mod b).
Proof. intros. unfold py_mod. by rewrite py_divmod_pos. Qed.

(** * Proof automation *)

Create HintDb drt.

(** Linear arithmetic with division and remainder by (possibly symbolic)
    divisors. *)
Ltac dlia := Z.to_euclidean_division_equations; nia.

(** Split the boolean tests of the code into the facts they decide. *)
Ltac bools :=
  repeat match goal with
  | H : (_ && _)%bool = true |- _ => apply andb_true_iff in H; destruct H
  | H : (_ && _)%bool = false |- _ => apply andb_false_iff in H
  | H : (_ || _)%bool = false |- _ => apply orb_false_iff in H; destruct H
  | H : (_ || _)%bool = true |- _ => apply orb_true_iff in H
  | H : negb _ = true |- _ => apply negb_true_iff in H
  | H : negb _ = false |- _ => apply negb_false_iff in H
  | H : (_ <=? _)%Z = true |- _ => apply Z.leb_le in H
  | H : (_ <=? _)%Z = false |- _ => apply Z.leb_gt in H
  | H : (_ <? _)%Z = true |- _ => apply Z.ltb_lt in H
  | H : (_ <? _)%Z = false |- _ => apply Z.ltb_ge in H
  | H : (_ =? _)%Z = true |- _ => apply Z.eqb_eq in H
  | H : (_ =? _)%Z = false |- _ => apply Z.eqb_neq in H
  end.

(** Case on the comparison of two integers occurring in the goal, keeping the
    fact decided. *)
Ltac zcase :=
  match goal with
  | |- context [(?a <=? ?b)%Z] => destruct (Z.leb_spec a b)
  | |- context [(?a <? ?b)%Z] => destruct (Z.ltb_spec a b)
  | |- context [(?a =? ?b)%Z] => destruct (Z.eqb_spec a b)
  end.

(** Expose the first test or match a hypothesis about an [outcome] depends on. *)
Ltac ocase H :=
  match type of H with
  | context [match ?x with _ => _ end] => destruct x eqn:?; try discriminate H
  end.

(** * Lists of integers *)

(** [sum(l)]. *)
Definition Zsum (l : list Z) : Z := foldr Z.add 0 l.
Arguments Zsum : simpl never.

Lemma Zsum_nil : Zsum [] = 0.
Proof. reflexivity. Qed.

Lemma Zsum_cons x l : Zsum (x :: l) = x + Zsum l.
Proof. reflexivity. Qed.

Lemma Zsum_app l1 l2 : Zsum (l1 ++ l2) = Zsum l1 + Zsum l2.
Proof. induction l1 as [|x l1 IH]; simpl; [done|]. rewrite !Zsum_cons. lia. Qed.

Lemma Zsum_replicate n x : Zsum (replicate n x) = Z.of_nat n * x.
Proof. induction n as [|n IH]; [done|]. simpl. rewrite Zsum_cons, IH. lia. Qed.

Lemma Zsum_map_mul {A} (f : A -> Z) b l :
  Zsum (map (fun x => f x * b) l) = Zsum (map f l) * b.
Proof. induction l as [|x l IH]; [done|]. simpl. rewrite !Zsum_cons, IH. lia. Qed.

Lemma Zsum_nonneg l : Forall (Z.le 0) l -> 0 <= Zsum l.
Proof. induction 1; [done|]. rewrite Zsum_cons. lia. Qed.

Lemma Zsum_const {A} (c : Z) (l : list A) : Zsum (map (fun _ => c) l) = Z.of_nat (length l) * c.
Proof. induction l as [|x l IH]; [done|]. simpl. rewrite Zsum_cons, IH. lia. Qed.

Lemma map_const_replicate {A B} (b : B) (l : list A) : map (fun _ => b) l = replicate (length l) b.
Proof. induction l as [|x l IH]; simpl; [done|]. by rewrite IH. Qed.

Create Rewrite HintDb zsum.
#[export] Hint Rewrite Zsum_nil Zsum_cons Zsum_app Zsum_replicate : zsum.

Lemma map_ext_elem {A B} (f g : A -> B) l :
  (forall x, x ∈ l -> f x = g x) -> map f l = map g l.
Proof.
  intros H. induction l as [|x l IH]; simpl; [done|]. f_equal.
  - apply H. left.
  - apply IH. intros y Hy. apply H. by right.
Qed.

Lemma seqZ_S m n : 0 < n -> seqZ m n = m :: seqZ (m + 1) (n - 1).
Proof.
  intros Hn. rewrite (seqZ_cons m n) by lia.
  by replace (Z.succ m) with (m + 1) by lia; replace (Z.pred n) with (n - 1) by lia.
Qed.

Lemma seqZ_app_lengths m a b : 0 <= a -> 0 <= b -> seqZ m (a + b) = seqZ m a ++ seqZ (m + a) b.
Proof. intros. by apply seqZ_app. Qed.

Lemma seqZ_length_pos m n : 0 <= n -> Z.of_nat (length (seqZ m n)) = n.
Proof. intros. rewrite length_seqZ. lia. Qed.

(** Spans that follow one another from [offset]: each starts where the previous
    one ends. *)
Fixpoint tiles (offset : Z) (spans : list (Z * Z)) : Prop :=
  match spans with
  | [] => True
  | (o, n) :: r => o = offset /\ 0 <= n /\ tiles (offset + n) r
  end.

Definition span_rows (s : Z * Z) : list Z := seqZ s.1 s.2.

Lemma tiles_nonneg spans : forall offset, tiles offset spans -> 0 <= Zsum (map snd spans).
Proof.
  induction spans as [|[o n] r IH]; intros offset; simpl; [done|].
  intros (_ & Hn & Hr). rewrite Zsum_cons. apply IH in Hr. lia.
Qed.

(** The rows of consecutive spans are the consecutive rows. *)
Lemma tiles_rows spans : forall offset, tiles offset spans ->
  concat (map span_rows spans) = seqZ offset (Zsum (map snd spans)).
Proof.
  induction spans as [|[o n] r IH]; intros offset; simpl.
  - intros _. by rewrite seqZ_nil by done.
  - intros (-> & Hn & Hr). rewrite (IH _ Hr), Zsum_cons. unfold span_rows; simpl.
    rewrite seqZ_app_lengths; [done|done|].
    by eapply tiles_nonneg.
Qed.

Lemma tiles_app a b : forall offset,
  tiles offset (a ++ b) <-> tiles offset a /\ tiles (offset + Zsum (map snd a)) b.
Proof.
  induction a as [|[o n] a IH]; intros offset; simpl.
  - rewrite Zsum_nil, Z.add_0_r. tauto.
  - rewrite Zsum_cons, IH. rewrite (Z.add_assoc offset n). tauto.
Qed.

Lemma seqZ_snoc m n : 0 <= n -> seqZ m (n + 1) = seqZ m n ++ [m + n].
Proof. intros. by rewrite seqZ_app by lia. Qed.

(** Spans given by a function of their number tile when each starts where its
    predecessor ends. *)
Lemma tiles_map (f : Z -> Z * Z) n : 0 <= n ->
  (forall i, 0 <= i < n -> 0 <= (f i).2 /\ (f (i + 1)).1 = (f i).1 + (f i).2) ->
  tiles (f 0).1 (map f (seqZ 0 n)) /\
  Zsum (map snd (map f (seqZ 0 n))) = (f n).1 - (f 0).1.
Proof.
  intros Hn. pattern n. apply natlike_ind; [|clear n Hn|done].
  - intros _. rewrite seqZ_nil by done. simpl. rewrite Zsum_nil. split; [done|lia].
  - intros n Hn IH Hf. unfold Z.succ.
    destruct IH as [T S]; [intros i Hi; apply Hf; lia|].
    rewrite seqZ_snoc, map_app, map_app, Zsum_app, S by lia. simpl.
    rewrite Zsum_cons, Zsum_nil, tiles_app, S. destruct (Hf n) as [H1 H2]; [lia|].
    rewrite Z.add_0_l. split; [|lia]. split; [done|]. destruct (f n) as [o l]; simpl in *.
    split_and!; [lia|done|done].
Qed.

Lemma map_seqZ_shift {A} (f : Z -> A) d n : map f (seqZ d n) = map (fun i => f (d + i)) (seqZ 0 n).
Proof.
  transitivity (map f (Z.add d <$> seqZ 0 n)); [by rewrite fmap_add_seqZ, Z.add_0_r|].
  apply (map_map (Z.add d)).
Qed.

Lemma tiles_offsets spans : forall offset, tiles offset spans ->
  Forall (fun s => offset <= s.1) spans.
Proof.
  induction spans as [|[o n] r IH]; intros offset; simpl; [constructor|].
  intros (-> & Hn & Hr). constructor; [done|]. eapply Forall_impl; [by apply IH|]. simpl. lia.
Qed.

Lemma Zsum_elem_le l x : Forall (Z.le 0) l -> x ∈ l -> x <= Zsum l.
Proof.
  induction 1 as [|y l Hy Hl IH]; [by intros ?%elem_of_nil|].
  rewrite Zsum_cons. apply Zsum_nonneg in Hl.
  intros [->|Hx]%elem_of_cons; [lia|]. apply IH in Hx. lia.
Qed.

Lemma map_eq_elem {A B} (f g : A -> B) l x : map f l = map g l -> x ∈ l -> f x = g x.
Proof.
  induction l as [|y l IH]; simpl; [by intros _ ?%elem_of_nil|].
  intros [= Hy Hl] [->|Hx]%elem_of_cons; auto.
Qed.

(** * Indexing *)

(** Element [i] of a sequence; a negative or too large index raises. *)
Definition index_at {A} (l : list A) (i : Z) : outcome A :=
  if i <? 0 then Raise (IndexError (lit "index out of range"))
  else match l !! Z.to_nat i with
       | Some x => Ret x
       | None => Raise (IndexError (lit "index out of range"))
       end.

(** [l[start:start+len]] for nonnegative bounds. *)
Definition slice {A} (start len : Z) (l : list A) : list A :=
  take (Z.to_nat len) (drop (Z.to_nat start) l).

Lemma index_at_lookup {A} `{Inhabited A} (l : list A) i : 0 <= i < Z.of_nat (length l) ->
  index_at l i = Ret (l !!! Z.to_nat i).
Proof.
  intros Hi. unfold index_at. destruct (Z.ltb_spec i 0); [lia|].
  destruct (lookup_lt_is_Some_2 l (Z.to_nat i)) as [x Hx]; [lia|].
  by rewrite Hx, (list_lookup_total_correct _ _ _ Hx).
Qed.

Lemma seqZ_lookup_all {A} `{Inhabited A} (l : list A) :
  map (fun i => l !!! Z.to_nat i) (seqZ 0 (Z.of_nat (length l))) = l.
Proof.
  apply list_eq. intros i. change (map ?f ?l) with (f <$> l). rewrite list_lookup_fmap.
  destruct (decide (i < length l)%nat) as [Hi|Hi].
  - rewrite lookup_seqZ_lt by lia. simpl. rewrite Z.add_0_l, Nat2Z.id. symmetry.
    by apply list_lookup_lookup_total_lt.
  - rewrite lookup_seqZ_ge by lia. simpl. symmetry. apply lookup_ge_None. lia.
Qed.

Lemma slice_lookup {A} `{Inhabited A} (l : list A) start len :
  0 <= start -> 0 <= len -> start + len <= Z.of_nat (length l) ->
  slice start len l = map (fun i => l !!! Z.to_nat i) (seqZ start len).
Proof.
  intros Hs Hl Hle. unfold slice. apply list_eq. intros i.
  change (map ?f ?l) with (f <$> l). rewrite list_lookup_fmap.
  destruct (decide (i < Z.to_nat len)%nat) as [Hi|Hi].
  - rewrite lookup_take_lt by done. rewrite lookup_drop, lookup_seqZ_lt by lia. simpl.
    replace (Z.to_nat (start + Z.of_nat i)) with (Z.to_nat start + i)%nat by lia.
    apply list_lookup_lookup_total_lt. lia.
  - rewrite lookup_take_ge by lia. by rewrite lookup_seqZ_ge by lia.
Qed.

(** * Strings *)

(** [separator.join(l)]. *)
Fixpoint join_with (separator : pystr) (l : list pystr) : pystr :=
  match l with
  | [] => []
  | [x] => x
  | x :: r => x ++ separator ++ join_with separator r
  end.
