(* ===== verification/Collections.v ===== *)
(** Python's [sorted], [set] and insertion-ordered [dict] over decidable types, the
    rotation of a sequence, and little-endian byte strings. *)
From stdpp Require Import base tactics list numbers strings sorting list_numbers.
From S2P Require Import Prelude.
Open Scope Z_scope.

(** * Sorting *)

Section Sorting.
Context {A : Type} (leb : A -> A -> bool).

Fixpoint insert_by (x : A) (l : list A) : list A :=
  match l with
  | [] => [x]
  | y :: r => if leb x y then x :: l else y :: insert_by x r
  end.

(** [sorted(l)]: stable. *)
Definition sort_by (l : list A) : list A := foldr insert_by [] l.

Lemma insert_by_perm x l : insert_by x l ≡ₚ x :: l.
Proof. induction l as [|y r IH]; simpl; [done|]. destruct (leb x y); [done|]. rewrite IH. constructor. Qed.

Lemma sort_by_perm l : sort_by l ≡ₚ l.
Proof. induction l as [|x l IH]; simpl; [done|]. by rewrite insert_by_perm, IH. Qed.

Lemma sort_by_length l : length (sort_by l) = length l.
Proof. apply Permutation_length, sort_by_perm. Qed.

Definition leq (a b : A) : Prop := leb a b = true.

Context (Htotal : forall a b, leq a b \/ leq b a) (Htrans : forall a b c, leq a b -> leq b c -> leq a c).

Lemma insert_by_sorted x l : StronglySorted leq l -> StronglySorted leq (insert_by x l).
Proof.
  induction 1 as [|y r Hr IH Hy]; simpl; [by repeat constructor|].
  destruct (leb x y) eqn:E.
  - constructor; [by constructor|]. constructor; [done|]. eapply Forall_impl; [exact Hy|]. eauto.
  - constructor; [done|]. rewrite insert_by_perm. constructor; [|done].
    destruct (Htotal x y); [unfold leq in *; congruence|done].
Qed.

Lemma sort_by_sorted l : StronglySorted leq (sort_by l).
Proof. induction l; simpl; [constructor|]. by apply insert_by_sorted. Qed.

(** Sorting gives the only sorted permutation. *)
Lemma sort_by_unique (Hanti : forall a b, leq a b -> leq b a -> a = b) l k :
  l ≡ₚ k -> StronglySorted leq k -> sort_by l = k.
Proof.
  intros Hp Hk. eapply (StronglySorted_unique_strong leq); [|apply sort_by_sorted|done|].
  - intros x y _ _. auto.
  - by rewrite sort_by_perm.
Qed.
End Sorting.

(** Lexicographic order of code points. *)
Fixpoint str_leb (a b : pystr) : bool :=
  match a, b with
  | [], _ => true
  | _, [] => false
  | x :: a, y :: b => (x <? y) || ((x =? y) && str_leb a b)
  end.

Lemma str_leb_total a : forall b, str_leb a b = true \/ str_leb b a = true.
Proof.
  induction a as [|x a IH]; intros [|y b]; simpl; [auto..|].
  destruct (Z.ltb_spec x y), (Z.ltb_spec y x), (Z.eqb_spec x y), (Z.eqb_spec y x); simpl; try lia; auto.
Qed.

Lemma str_leb_trans a : forall b c, str_leb a b = true -> str_leb b c = true -> str_leb a c = true.
Proof.
  induction a as [|x a IH]; intros [|y b] [|z c]; simpl; try done.
  intros H1 H2. destruct (Z.ltb_spec x y), (Z.ltb_spec y z), (Z.eqb_spec x y), (Z.eqb_spec y z); simpl in *;
    try done; try lia; destruct (Z.ltb_spec x z), (Z.eqb_spec x z); simpl; try done; try lia; eauto.
Qed.

Lemma str_leb_anti a : forall b, str_leb a b = true -> str_leb b a = true -> a = b.
Proof.
  induction a as [|x a IH]; intros [|y b]; simpl; try done.
  intros H1 H2. destruct (Z.ltb_spec x y), (Z.ltb_spec y x), (Z.eqb_spec x y), (Z.eqb_spec y x); simpl in *;
    try done; try lia. subst. f_equal. eauto.
Qed.

(** * Membership *)

Lemma elem_of_map {A B} (f : A -> B) l x : x ∈ map f l <-> exists y, x = f y /\ y ∈ l.
Proof. apply list_elem_of_fmap. Qed.

Lemma concat_map_singleton {A B} (g : A -> B) l : concat (map (fun x => [g x]) l) = map g l.
Proof. induction l as [|x l IH]; simpl; [done|]. by rewrite IH. Qed.

Lemma elem_of_concat_map {A B} (f : A -> list B) l x : x ∈ concat (map f l) <-> exists y, y ∈ l /\ x ∈ f y.
Proof.
  induction l as [|y l IH]; simpl; [split; [by intros ?%elem_of_nil|by intros (y & ?%elem_of_nil & _)]|].
  rewrite elem_of_app, IH. setoid_rewrite elem_of_cons. split; [intros [H|(z & H & Hz)]; eauto|].
  intros (z & [->|Hz] & Hx); eauto.
Qed.

(** * Dictionaries *)

Section Dictionary.
Context {K V : Type} `{EqDecision K}.

(** [d[k] = v]: a new key comes last, an old one keeps its place. *)
Fixpoint dict_set (k : K) (v : V) (d : list (K * V)) : list (K * V) :=
  match d with
  | [] => [(k, v)]
  | (k', v') :: r => if decide (k' = k) then (k', v) :: r else (k', v') :: dict_set k v r
  end.

(** [d.get(k)]. *)
Fixpoint dict_get (k : K) (d : list (K * V)) : option V :=
  match d with
  | [] => None
  | (k', v) :: r => if decide (k' = k) then Some v else dict_get k r
  end.

(** [d[k]]. *)
Definition dict_index (k : K) (d : list (K * V)) : outcome V :=
  match dict_get k d with Some v => Ret v | None => Raise (OtherException (lit "KeyError") []) end.

(** [{k: v for (k, v) in l}]: the last value of a key wins. *)
Definition dict_of (l : list (K * V)) : list (K * V) :=
  fold_left (fun d kv => dict_set kv.1 kv.2 d) l [].

Lemma dict_set_fresh k v d : k ∉ d.*1 -> dict_set k v d = d ++ [(k, v)].
Proof.
  induction d as [|[k' v'] d IH]; simpl; [done|]. rewrite not_elem_of_cons. intros [H1 H2].
  rewrite decide_False by done. by rewrite IH.
Qed.

(** A list of distinct keys is its own dictionary. *)
Lemma dict_of_NoDup l : NoDup l.*1 -> dict_of l = l.
Proof.
  intros Hn. unfold dict_of. enough (H : forall d, NoDup (d ++ l).*1 ->
    fold_left (fun d kv => dict_set kv.1 kv.2 d) l d = d ++ l) by (by apply (H [])).
  clear Hn. induction l as [|[k v] l IH]; intros d Hd; simpl; [by rewrite app_nil_r|].
  rewrite dict_set_fresh.
  - rewrite IH; [by rewrite <- app_assoc|]. by rewrite <- app_assoc.
  - rewrite fmap_app in Hd. apply NoDup_app in Hd as (_ & Hd & _). intros H. apply (Hd k H). left.
Qed.

Lemma dict_get_lookup i k v d : NoDup d.*1 -> d !! i = Some (k, v) -> dict_get k d = Some v.
Proof.
  revert i. induction d as [|[k' v'] d IH]; intros i Hn Hi; simpl; [done|].
  apply NoDup_cons in Hn as [Hk Hn]. destruct i as [|i]; simpl in Hi.
  - injection Hi as -> ->. by rewrite decide_True.
  - rewrite decide_False; [by eapply IH|]. intros ->. apply Hk. eapply list_elem_of_fmap_2'.
    + by eapply list_elem_of_lookup_2.
    + done.
Qed.

Lemma dict_get_elem k v d : NoDup d.*1 -> (k, v) ∈ d -> dict_get k d = Some v.
Proof. intros Hn [i Hi]%list_elem_of_lookup_1. by eapply dict_get_lookup. Qed.

Lemma dict_get_set k v k' d : dict_get k' (dict_set k v d) = if decide (k = k') then Some v else dict_get k' d.
Proof.
  induction d as [|[k2 v2] d IH]; simpl; [done|]. destruct (decide (k2 = k)) as [->|Hne]; simpl.
  - by destruct (decide (k = k')).
  - rewrite IH. destruct (decide (k2 = k')) as [->|]; [|done]. by rewrite decide_False.
Qed.
End Dictionary.

(** * Rotation *)

(** [l[k:] + l[:k]]. *)
Definition rotate {A} (k : Z) (l : list A) : list A := drop (Z.to_nat k) l ++ take (Z.to_nat k) l.

Lemma rotate_perm {A} k (l : list A) : rotate k l ≡ₚ l.
Proof. unfold rotate. rewrite Permutation_app_comm. by rewrite take_drop. Qed.

(** A selection of a rotation that picks one element picks the same one. *)
Lemma filter_rotate {A} (P : A -> Prop) `{!forall x, Decision (P x)} k l x :
  filter P l = [x] -> filter P (rotate k l) = [x].
Proof. intros Hf. apply Permutation_singleton_r. by rewrite rotate_perm, Hf. Qed.

(** * Bytes *)

(** [z.to_bytes(n, "little")] and [int.from_bytes(b, "little")]. *)
Definition to_bytes (n z : Z) : outcome (list Z) :=
  if z <? 0 then Raise (OtherException (lit "OverflowError") (lit "can't convert negative int to unsigned"))
  else if 2 ^ (8 * n) <=? z then Raise (OtherException (lit "OverflowError") (lit "int too big to convert"))
  else Ret (Z_to_little_endian n 8 z).
Definition from_bytes (b : list Z) : Z := little_endian_to_Z 8 b.

(** [b * n]. *)
Definition repeat_bytes (n : Z) (b : list Z) : list Z := concat (replicate (Z.to_nat n) b).

Lemma to_bytes_ok n z : 0 <= n -> 0 <= z < 2 ^ (8 * n) ->
  exists b, to_bytes n z = Ret b /\ Z.of_nat (length b) = n /\ from_bytes b = z.
Proof.
  intros Hn Hz. unfold to_bytes. destruct (Z.ltb_spec z 0); [lia|].
  destruct (Z.leb_spec (2 ^ (8 * n)) z); [lia|]. eexists. split; [done|].
  split; [rewrite length_Z_to_little_endian; lia|]. unfold from_bytes.
  rewrite little_endian_to_Z_to_little_endian by lia. rewrite (Z.mul_comm n 8). by rewrite Z.mod_small.
Qed.

Lemma length_repeat_bytes n b : 0 <= n -> Z.of_nat (length (repeat_bytes n b)) = n * Z.of_nat (length b).
Proof.
  intros Hn. unfold repeat_bytes. rewrite length_concat, fmap_replicate. replace n with (Z.of_nat (Z.to_nat n)) at 2 by lia.
  induction (Z.to_nat n); simpl; lia.
Qed.
