(* ===== verification/Binary64.v ===== *)
(** Binary64 arithmetic on [pyfloat]: rounding to the nearest representable value,
    the operations of Python's [float] and Rust's [f64] the program uses, and
    [statistics.median]. The sign of a zero is not kept; no modelled code observes
    it. *)
From stdpp Require Import base tactics list numbers strings.
From S2P Require Import Prelude Collections.
Open Scope Z_scope.

(** * Rounding *)

(** The binary64 value nearest to [num/den], ties to even; overflow is infinite. *)
Definition round_f64 (num : Z) (den : positive) : pyfloat :=
  if num =? 0 then Finite 0 1
  else
    let n := Z.abs num in
    let e0 := Z.log2 n - Z.log2 (Zpos den) in
    let below := if 0 <=? e0 then n <? Zpos den * 2 ^ e0 else n * 2 ^ (- e0) <? Zpos den in
    let e := if below then e0 - 1 else e0 in
    let k := Z.max (e - 52) (-1074) in
    let a := if k <=? 0 then n * 2 ^ (- k) else n in
    let b := if k <=? 0 then Zpos den else Zpos den * 2 ^ k in
    let q := a / b in
    let r := a mod b in
    let up := (b <? 2 * r) || ((2 * r =? b) && Z.odd q) in
    let m := if up then q + 1 else q in
    if (1024 - k <=? Z.log2 m) && (0 <? m) then Infinite (num <? 0)
    else if 0 <=? k then Finite (Z.sgn num * m * 2 ^ k) 1
    else let g := Z.gcd m (2 ^ (- k)) in Finite (Z.sgn num * (m / g)) (Z.to_pos (2 ^ (- k) / g)).

(** [a + b]. *)
Definition f64_add (a b : pyfloat) : pyfloat :=
  match a, b with
  | Finite n1 d1, Finite n2 d2 => round_f64 (n1 * Zpos d2 + n2 * Zpos d1) (d1 * d2)
  | NotANumber, _ | _, NotANumber => NotANumber
  | Infinite s, Finite _ _ | Finite _ _, Infinite s => Infinite s
  | Infinite s1, Infinite s2 => if eqb s1 s2 then Infinite s1 else NotANumber
  end.

(** * Operations *)

Definition f64_neg (a : pyfloat) : pyfloat :=
  match a with
  | Finite n d => Finite (- n) d
  | Infinite s => Infinite (negb s)
  | NotANumber => NotANumber
  end.

(** [a - b]. *)
Definition f64_sub (a b : pyfloat) : pyfloat := f64_add a (f64_neg b).

(** [a / b]: a zero divisor raises, an overflow is infinite. *)
Definition f64_div (a b : pyfloat) : outcome pyfloat :=
  match a, b with
  | _, Finite 0 _ => Raise ZeroDivisionError
  | NotANumber, _ | _, NotANumber => Ret NotANumber
  | Finite n1 d1, Finite n2 d2 => Ret (round_f64 (n1 * Zpos d2 * Z.sgn n2) (d1 * Z.to_pos (Z.abs n2)))
  | Infinite s, Finite n _ => Ret (Infinite (xorb s (n <? 0)))
  | Finite _ _, Infinite _ => Ret (Finite 0 1)
  | Infinite _, Infinite _ => Ret NotANumber
  end.

(** [float(z)], as in [z / f]. *)
Definition float_of_int (z : Z) : outcome pyfloat :=
  match round_f64 z 1 with
  | Infinite _ => Raise (OtherException (lit "OverflowError") (lit "int too large to convert to float"))
  | f => Ret f
  end.

(** [a < b] and [a <= b]; nothing compares with a NaN. *)
Definition float_ltb (a b : pyfloat) : bool :=
  match a, b with
  | Finite n1 d1, Finite n2 d2 => n1 * Zpos d2 <? n2 * Zpos d1
  | Infinite s, Finite _ _ => s
  | Finite _ _, Infinite s => negb s
  | Infinite s1, Infinite s2 => s1 && negb s2
  | NotANumber, _ | _, NotANumber => false
  end.
Definition float_leb (a b : pyfloat) : bool :=
  match a, b with
  | Finite n1 d1, Finite n2 d2 => n1 * Zpos d2 <=? n2 * Zpos d1
  | Infinite s, Finite _ _ => s
  | Finite _ _, Infinite s => negb s
  | Infinite s1, Infinite s2 => s1 || negb s2
  | NotANumber, _ | _, NotANumber => false
  end.

(** [statistics.median]: the middle of the sorted data, or the mean of the middle
    two. *)
Definition median (data : list pyfloat) : outcome pyfloat :=
  let data := sort_by (fun a b => negb (float_ltb b a)) data in
  let n := Z.of_nat (length data) in
  if n =? 0 then Raise (OtherException (lit "StatisticsError") (lit "no median for empty data"))
  else if n mod 2 =? 1 then index_at data (n / 2)
  else
    a ← index_at data (n / 2 - 1);
    b ← index_at data (n / 2);
    f64_div (f64_add a b) (Finite 2 1).

(** * Lemmas *)

(** Integers up to [2^53] are exact. *)
Lemma round_f64_int n : 0 <= n <= 2 ^ 53 -> round_f64 n 1 = Finite n 1.
Proof.
  intros Hn. destruct (decide (n = 2 ^ 53)) as [->|Hlt]; [vm_compute; reflexivity|].
  unfold round_f64. destruct (Z.eqb_spec n 0) as [->|H0]; [done|].
  rewrite Z.abs_eq by lia. change (Z.log2 1) with 0. rewrite Z.sub_0_r.
  pose proof (Z.log2_nonneg n). pose proof (Z.log2_spec n ltac:(lia)) as [Hlo Hhi].
  assert (Hl : Z.log2 n < 53) by (apply Z.log2_lt_pow2; lia).
  destruct (Z.leb_spec 0 (Z.log2 n)); [|lia].
  destruct (Z.ltb_spec n (1 * 2 ^ Z.log2 n)); [lia|].
  rewrite Z.max_l by lia. set (k := Z.log2 n - 52). assert (Hk : -52 <= k <= 0) by lia.
  destruct (Z.leb_spec k 0); [|lia]. rewrite Z.div_1_r, Z.mod_1_r. simpl (_ || _).
  change (1 <? 2 * 0) with false. change (2 * 0 =? 1) with false. simpl.
  rewrite <- Z.shiftl_mul_pow2 at 1 by lia. rewrite Z.log2_shiftl by lia.
  destruct (Z.leb_spec (1024 - k) (Z.log2 n + - k)); [lia|]. simpl.
  rewrite Z.sgn_pos by lia. rewrite Z.mul_1_l.
  assert (Hp : 0 < 2 ^ (- k)) by (apply Z.pow_pos_nonneg; lia).
  destruct (Z.leb_spec 0 k); [replace k with 0 by lia; simpl; f_equal; lia|].
  rewrite (Z.gcd_comm _ (2 ^ (- k))). rewrite (Z.mul_comm n (2 ^ (- k))) at 2 3.
  rewrite Z.gcd_mul_diag_l by lia. rewrite Z.mul_1_l, Z.div_mul, Z.div_same by lia. done.
Qed.

(** The median of nonempty data exists. *)
Lemma median_returns data : data <> [] -> returns (median data).
Proof.
  intros Hne. unfold median. set (s := sort_by _ data).
  assert (Hl : 0 < Z.of_nat (length s)).
  { unfold s. rewrite sort_by_length. destruct data; [done|simpl; lia]. }
  destruct (Z.eqb_spec (Z.of_nat (length s)) 0); [lia|].
  assert (Hi : forall i, 0 <= i < Z.of_nat (length s) -> returns (index_at s i)).
  { intros i Hi. unfold index_at. destruct (Z.ltb_spec i 0); [lia|].
    destruct (lookup_lt_is_Some_2 s (Z.to_nat i)) as [x Hx]; [lia|]. rewrite Hx. by exists x. }
  destruct (Z.eqb_spec (Z.of_nat (length s) mod 2) 1) as [E|E]; [apply Hi; dlia|].
  destruct (Hi (Z.of_nat (length s) / 2 - 1)) as [a ->]; [dlia|].
  destruct (Hi (Z.of_nat (length s) / 2)) as [b ->]; [dlia|]. simpl.
  unfold f64_div. destruct (f64_add a b); by eexists.
Qed.
