(* ===== verification/Records.v ===== *)
(** Shared records of [src/dataset_rt/records.py]: typed results, row spans,
    cached samples, cache write results and manifest-update results. *)
From stdpp Require Import base tactics list numbers strings gmap.
From S2P Require Import Prelude.
Open Scope Z_scope.

(** [Result]: an expected success or failure carried as a value. *)
Inductive result (T E : Type) :=
| Ok (value : T)
| Err (error : E).
Arguments Ok {T E} value.
Arguments Err {T E} error.

(** A filesystem path as its sequence of segments. *)
Abbreviation path := (list pystr).

(** [path / name] for a plain segment [name]. *)
Definition path_join (p : path) (name : pystr) : path := p ++ [name].

(** Contiguous active-row positions. *)
Record RowSpan := mk_span { span_offset : Z; span_length : Z }.

(** Primitive metadata values. *)
Inductive MetadataValue :=
| MBool (b : bool)
| MInt (z : Z)
| MFloat (f : pyfloat)
| MString (s : pystr).

(** One sample emitted by iteration: payload bytes, metadata row, identity. *)
Record CachedSample := mk_sample {
  sample_data : list Z;
  sample_metadata : gmap pystr MetadataValue;
  sample_cache_id : Z;
  sample_sample_id : Z }.

(** Per-source cache write outcome. *)
Inductive CacheWriteResult :=
| CacheWriteSuccess (source_name : pystr) (published : path)
| CacheWriteError (source_name : pystr) (message : pystr).

(** Replacement state of one manifest. *)
Inductive ManifestStatus := Updated | Unchanged | DurabilityUnknown.

Record ManifestUpdateEntry := mk_entry {
  entry_path : path;
  entry_cache_id : Z;
  entry_status : ManifestStatus }.

Record ManifestUpdateReport := mk_report { report_entries : list ManifestUpdateEntry }.

(** The failed manifest, or the reason why the request has none. *)
Inductive ManifestTarget :=
| TargetPath (p : path)
| AbsentManifestTarget (reason : pystr).

Record ManifestUpdateError := mk_update_error {
  error_path : ManifestTarget;
  error_message : pystr;
  error_entries : list ManifestUpdateEntry }.

#[export] Instance RowSpan_eq_dec : EqDecision RowSpan.
Proof. solve_decision. Defined.
#[export] Instance MetadataValue_eq_dec : EqDecision MetadataValue.
Proof. solve_decision. Defined.
#[export] Instance CachedSample_eq_dec : EqDecision CachedSample.
Proof. solve_decision. Defined.
#[export] Instance CacheWriteResult_eq_dec : EqDecision CacheWriteResult.
Proof. solve_decision. Defined.
#[export] Instance ManifestStatus_eq_dec : EqDecision ManifestStatus.
Proof. solve_decision. Defined.
#[export] Instance ManifestUpdateEntry_eq_dec : EqDecision ManifestUpdateEntry.
Proof. solve_decision. Defined.
