(* ===== verification/Config.v ===== *)
(** Frozen configuration of [src/dataset_rt/config.py], with the field bounds its
    models declare, and the native extraction of a compression policy
    ([src/src/dataset_rt/writer.rs] and [types.rs]). *)
From stdpp Require Import base tactics list numbers strings.
From S2P Require Import Prelude Records.
Open Scope Z_scope.

(** * Compression policies *)

(** Codec names of the legacy facade. *)
Inductive CompressionAlgo := AlgoNone | AlgoLz4 | AlgoBrotli.

(** [NoCompression], [Lz4Fast], [Lz4HC], [Brotli] and the deprecated
    [ShardCompression]. *)
Inductive Compression :=
| NoCompression
| Lz4Fast (acceleration : Z)
| Lz4HC (level : Z)
| Brotli (level : Z)
| LegacyCompression (algo : CompressionAlgo) (ratio : pyfloat).

#[export] Instance CompressionAlgo_eq_dec : EqDecision CompressionAlgo.
Proof. solve_decision. Defined.
#[export] Instance Compression_eq_dec : EqDecision Compression.
Proof. solve_decision. Defined.

(** The declared bounds of each variant; the legacy codec is one of [none] and
    [lz4]. *)
Definition compression_valid (c : Compression) : bool :=
  match c with
  | NoCompression => true
  | Lz4Fast a => (1 <=? a) && (a <=? 65537)
  | Lz4HC l => (1 <=? l) && (l <=? 12)
  | Brotli l => (0 <=? l) && (l <=? 11)
  | LegacyCompression algo ratio =>
      match algo with AlgoBrotli => false | _ => true end && float_gt0 ratio
  end.

(** [_validate_legacy]: what reaches the deprecated model is one of its instances, a
    mapping with some keys, or anything else; [handler] is the validation of its own
    fields. Only a new policy warns, and options of the other variants are refused before
    the fields are looked at. *)
Inductive legacy_input :=
| ExistingLegacy (c : Compression)
| LegacyMapping (keys : list pystr)
| LegacyOther.

Definition legacy_warning : py_warning :=
  DeprecationWarning (lit "ShardCompression is deprecated; use NoCompression(), Lz4Fast(acceleration=1), Lz4HC(level=9), or Brotli(level=5). Legacy ratio never controlled compression and remains ignored. Legacy calls write payload-only v3 caches; new variants write whole-record v4 caches.").

Definition validate_legacy (handler : legacy_input -> outcome Compression) (value : legacy_input)
  : outcome (Compression * list py_warning) :=
  match value with
  | ExistingLegacy _ => c ← handler value; Ret (c, [])
  | _ =>
      if match value with
         | LegacyMapping keys => existsb (fun k => bool_decide (k ∈ keys)) (map lit ["mode"; "level"; "acceleration"]%string)
         | _ => false
         end
      then Raise (ValueError (lit "compression options belong to NoCompression, Lz4Fast, Lz4HC, or Brotli"))
      else c ← handler value; Ret (c, [legacy_warning])
  end.

(** Construct a policy from its arguments; the deprecated one, whose arguments are a
    mapping of its own fields, warns. *)
Definition make_compression (c : Compression) : outcome (Compression * list py_warning) :=
  let validated := if compression_valid c then Ret c else Raise (ValidationError (lit "shard_compression")) in
  match c with
  | LegacyCompression _ _ => validate_legacy (fun _ => validated) (LegacyMapping [lit "algo"; lit "ratio"])
  | _ => c ← validated; Ret (c, [])
  end.

Definition DEFAULT_SHARD_COMPRESSION : Compression := Lz4Fast 1.

(** * Writer and reader settings *)

Record WriterProfilerConfig := mk_profiler { profiler_enabled : bool; profiler_path : path }.

Definition DEFAULT_WRITER_PROFILER_CONFIG : WriterProfilerConfig :=
  mk_profiler false [lit "dataset_rt_profile.json"].

Record WriterConfig := mk_writer_config {
  num_processes : Z;
  process_timeout_seconds : pyfloat;
  writer_prefetch_size : Z;
  max_shard_bytes : Z;
  shard_compression : Compression;
  show_progress : bool;
  writer_validate_cache : bool;
  profiler : WriterProfilerConfig }.

Definition writer_config_valid (c : WriterConfig) : bool :=
  (0 <=? num_processes c) &&
  float_isfinite (process_timeout_seconds c) && float_gt0 (process_timeout_seconds c) &&
  (0 <? writer_prefetch_size c) && (0 <? max_shard_bytes c) &&
  compression_valid (shard_compression c).

Definition make_writer_config (c : WriterConfig) : outcome WriterConfig :=
  if writer_config_valid c then Ret c else Raise (ValidationError (lit "WriterConfig")).

Definition DEFAULT_WRITER_CONFIG : WriterConfig :=
  mk_writer_config 0 (Finite 3600 1) 64 (64 * 1024 * 1024) DEFAULT_SHARD_COMPRESSION true false
    DEFAULT_WRITER_PROFILER_CONFIG.

Record ReaderConfig := mk_reader_config {
  reader_seed_value : Z;
  reader_prefetch_size : Z;
  reader_shuffle : bool;
  reader_validate_cache : bool }.

Definition reader_config_valid (c : ReaderConfig) : bool := 0 <? reader_prefetch_size c.

Definition make_reader_config (c : ReaderConfig) : outcome ReaderConfig :=
  if reader_config_valid c then Ret c else Raise (ValidationError (lit "ReaderConfig")).

(** * The native side of a policy *)

(** Native policy: the structural variants of [types.rs]. *)
Inductive NativeCompression :=
| NativeNone
| NativeLz4Fast (acceleration : Z)
| NativeLz4HC (level : Z)
| NativeBrotli (level : Z)
| NativeLegacy (algo : CompressionAlgo) (ratio : pyfloat).

(** [extract::<i32>]. *)
Definition extract_i32 (z : Z) : result Z pystr :=
  if (- 2 ^ 31 <=? z) && (z <? 2 ^ 31) then Ok z else Err (lit "out of range integral type conversion attempted").

Definition native_fast (a : Z) : result NativeCompression pystr :=
  if (1 <=? a) && (a <=? 65537) then Ok (NativeLz4Fast a)
  else Err (lit "LZ4 acceleration must be between 1 and 65537").

Definition native_hc (l : Z) : result NativeCompression pystr :=
  if (1 <=? l) && (l <=? 12) then Ok (NativeLz4HC l)
  else Err (lit "LZ4 HC level must be between 1 and 12").

Definition native_brotli (l : Z) : result NativeCompression pystr :=
  if (0 <=? l) && (l <=? 11) then Ok (NativeBrotli l)
  else Err (lit "Brotli level must be between 0 and 11").

Definition native_legacy (algo : CompressionAlgo) (ratio : pyfloat) : result NativeCompression pystr :=
  if decide (algo = AlgoBrotli) then Err (lit "Brotli requires the typed whole-record policy")
  else if negb (float_isfinite ratio) || negb (float_gt0 ratio)
  then Err (lit "shard_compression.ratio must be positive and finite")
  else if bool_decide (algo = AlgoNone) && negb (float_eq1 ratio)
  then Err (lit "shard_compression.ratio must be 1.0 when algo is 'none'")
  else Ok (NativeLegacy algo ratio).

(** [extract_shard_compression]: the object's [algo] and [mode] select the
    constructor; an object without a [mode] is the legacy policy. *)
Definition extract_shard_compression (c : Compression) : result NativeCompression pystr :=
  match c with
  | NoCompression => Ok NativeNone
  | Brotli l => match extract_i32 l with Ok l => native_brotli l | Err e => Err e end
  | Lz4Fast a => match extract_i32 a with Ok a => native_fast a | Err e => Err e end
  | Lz4HC l => match extract_i32 l with Ok l => native_hc l | Err e => Err e end
  | LegacyCompression algo ratio => native_legacy algo ratio
  end.

(** The variant the native side stores for a policy. *)
Definition native_of (c : Compression) : NativeCompression :=
  match c with
  | NoCompression => NativeNone
  | Lz4Fast a => NativeLz4Fast a
  | Lz4HC l => NativeLz4HC l
  | Brotli l => NativeBrotli l
  | LegacyCompression a r => NativeLegacy a r
  end.

(** Only the modern variants compress whole records. *)
Definition whole_record (c : NativeCompression) : bool :=
  match c with NativeLegacy _ _ => false | _ => true end.

Definition is_legacy (c : Compression) : bool :=
  match c with LegacyCompression _ _ => true | _ => false end.

(** Every typed whole-record policy the Python models accept reaches the
    native writer as the same variant with the same setting; of the accepted
    legacy policies the native side refuses exactly those with an infinite ratio
    or with codec [none] and a ratio other than one. *)
Theorem compression_reaches_native (c : Compression) (Hc : compression_valid c = true) :
  (is_legacy c = false -> extract_shard_compression c = Ok (native_of c) /\
                          whole_record (native_of c) = true) /\
  (forall algo ratio, c = LegacyCompression algo ratio ->
     (extract_shard_compression c = Ok (native_of c) <->
      float_isfinite ratio = true /\ (algo = AlgoNone -> float_eq1 ratio = true))).
Proof.
  split.
  - intros Hl. destruct c as [|a|l|l|algo r]; try discriminate Hl; simpl in Hc; bools; simpl;
      unfold extract_i32, native_fast, native_hc, native_brotli; repeat (zcase; simpl; try lia); done.
  - intros algo ratio ->. simpl in Hc. bools. unfold extract_shard_compression, native_legacy, native_of.
    destruct algo; try discriminate; simpl;
      destruct (float_isfinite ratio) eqn:Ef; rewrite H0; simpl;
      try destruct (float_eq1 ratio) eqn:E1; simpl; split; intros H';
      try discriminate; repeat split; try done; try (destruct H' as [? H']; try discriminate);
      try (by specialize (H' eq_refl)).
Qed.

Lemma compression_reaches_native_witness :
  (is_legacy (Lz4HC 9) = false -> extract_shard_compression (Lz4HC 9) = Ok (native_of (Lz4HC 9)) /\
                                  whole_record (native_of (Lz4HC 9)) = true) /\
  (forall algo ratio, Lz4HC 9 = LegacyCompression algo ratio ->
     (extract_shard_compression (Lz4HC 9) = Ok (native_of (Lz4HC 9)) <->
      float_isfinite ratio = true /\ (algo = AlgoNone -> float_eq1 ratio = true))).
Proof. apply (compression_reaches_native (Lz4HC 9)). reflexivity. Defined.
