(* ===== verification/Seeds.v ===== *)
(** Consumer seeds of [src/dataset_rt/integrations/loading.py]: the captured
    replica identity, the SplitMix64 finalizer, the derivation of one native
    seed per (rank, worker), and the agreement on one common seed. *)
From stdpp Require Import base tactics list numbers strings.
From S2P Require Import Prelude Records.
Open Scope Z_scope.

Definition U64_MAX : Z := Z.shiftl 1 64 - 1.

Definition is_u64 (z : Z) : Prop := 0 <= z <= U64_MAX.
Definition is_u32 (z : Z) : Prop := 0 <= z < Z.shiftl 1 32.

(** * Replica identity *)

(** Captured data-parallel identity. *)
Record ReplicaIdentity := mk_replica { rank : Z; world_size : Z }.

Definition in_range (lo hi z : Z) : bool := (lo <=? z) && (z <? hi).

(** The field bounds and the membership validator of [ReplicaIdentity]. *)
Definition make_replica (r w : Z) : outcome ReplicaIdentity :=
  if in_range 0 (Z.shiftl 1 32) r && in_range 1 (Z.shiftl 1 32 + 1) w && negb (w <=? r)
  then Ret (mk_replica r w)
  else Raise (ValidationError (lit "ReplicaIdentity")).

(** [worker] is [get_worker_info()] of the calling process, [group] the rank and
    size of the initialized default process group. *)
Definition capture_replica {I} (worker : option I) (group : option (Z * Z))
  : outcome ReplicaIdentity :=
  match worker with
  | Some _ =>
      Raise (RuntimeError (lit "capture_replica must run before DataLoader workers start"))
  | None =>
      match group with
      | None => make_replica 0 1
      | Some (r, w) => make_replica r w
      end
  end.

Definition wf_replica (p : ReplicaIdentity) : Prop :=
  0 <= rank p < world_size p /\ is_u32 (rank p) /\ world_size p <= Z.shiftl 1 32.

(** * Seed derivation *)

(** Reject coercions and values that cannot be encoded in seed identities; the
    accepted integer is returned. *)
Definition require_u64 (name : pystr) (value : pyval) : outcome Z :=
  match value with
  | PInt z =>
      if (0 <=? z) && (z <=? U64_MAX) then Ret z
      else Raise (ValueError (name ++ lit " must be a u64 integer"))
  | _ => Raise (ValueError (name ++ lit " must be a u64 integer"))
  end.

Arguments require_u64 : simpl never.

(** SplitMix64 finalizer. *)
Definition mix_u64 (value : Z) : Z :=
  let value := Z.land (Z.lxor value (Z.shiftr value 30) * 0xBF58476D1CE4E5B9) U64_MAX in
  let value := Z.land (Z.lxor value (Z.shiftr value 27) * 0x94D049BB133111EB) U64_MAX in
  Z.lxor value (Z.shiftr value 31).

Definition derive_seed (base_seed rank_id worker_id : pyval) : outcome Z :=
  base ← require_u64 (lit "base_seed") base_seed;
  rank ← require_u64 (lit "rank_id") rank_id;
  worker ← require_u64 (lit "worker_id") worker_id;
  if (Z.shiftl 1 32 <=? rank) || (Z.shiftl 1 32 <=? worker)
  then Raise (ValueError (lit "rank_id and worker_id must fit u32"))
  else
    let slot := Z.lor (Z.shiftl rank 32) worker in
    let key := mix_u64 (Z.lxor base 0x4453545253454544) in
    Ret (mix_u64 (Z.lxor slot key)).

(** [fresh] is the value [secrets.randbits(64)] would return. *)
Definition reader_seed (fresh : Z) (shuffle : bool) (seed : option Z) (rank_id worker_id : Z)
  : outcome Z :=
  if negb shuffle then Ret 0
  else
    let base_seed := match seed with None => fresh | Some s => s end in
    derive_seed (PInt base_seed) (PInt rank_id) (PInt worker_id).

(** [fresh] is the value [secrets.randbits(64)] would return in this process and
    [broadcast] is [torch.distributed.broadcast_object_list(values, src=0)], which
    replaces the list of every member by the one of rank zero. *)
Definition common_seed (fresh : Z) (broadcast : list pyval -> list pyval)
    (replica : ReplicaIdentity) (shuffle : bool) (seed : option pyval) : outcome (option Z) :=
  if negb shuffle then Ret None
  else match seed with
  | Some s => z ← require_u64 (lit "seed") s; Ret (Some z)
  | None =>
      if world_size replica =? 1 then Ret (Some fresh)
      else
        let values := broadcast [PInt (if rank replica =? 0 then fresh else 0)] in
        match values with
        | v :: _ => z ← require_u64 (lit "seed") v; Ret (Some z)
        | [] => Raise (IndexError (lit "list index out of range"))
        end
  end.

(** * The finalizer is a permutation of the u64 values *)

Lemma U64_MAX_eq : U64_MAX = 2 ^ 64 - 1.
Proof. reflexivity. Qed.

Lemma is_u64_iff z : is_u64 z <-> 0 <= z < 2 ^ 64.
Proof. unfold is_u64. rewrite U64_MAX_eq. lia. Qed.

Lemma land_u64 z : Z.land z U64_MAX = z mod 2 ^ 64.
Proof. change U64_MAX with (Z.ones 64). by rewrite Z.land_ones by lia. Qed.

Lemma mod_u64 z : is_u64 (z mod 2 ^ 64).
Proof. apply is_u64_iff, Z.mod_pos_bound. lia. Qed.

Lemma small_shiftr w x : 0 <= w -> 0 <= x < 2 ^ w -> Z.shiftr x w = 0.
Proof. intros. rewrite Z.shiftr_div_pow2 by lia. by apply Z.div_small. Qed.

Lemma shiftr_small w x : 0 <= w -> 0 <= x -> Z.shiftr x w = 0 -> x < 2 ^ w.
Proof.
  intros Hw Hx. rewrite Z.shiftr_div_pow2 by lia. intros Hz.
  apply Z.div_small_iff in Hz; [|pose proof (Z.pow_pos_nonneg 2 w); lia]. lia.
Qed.

Lemma lxor_bound w a b : 0 <= w -> 0 <= a < 2 ^ w -> 0 <= b < 2 ^ w -> 0 <= Z.lxor a b < 2 ^ w.
Proof.
  intros Hw Ha Hb. assert (0 <= Z.lxor a b) by (apply Z.lxor_nonneg; lia).
  split; [done|]. apply shiftr_small; [lia..|].
  by rewrite Z.shiftr_lxor, !small_shiftr by lia.
Qed.

Lemma lxor_u64 a b : is_u64 a -> is_u64 b -> is_u64 (Z.lxor a b).
Proof. rewrite !is_u64_iff. intros. apply lxor_bound; lia. Qed.

Lemma shiftr_u64 a k : 0 <= k -> is_u64 a -> is_u64 (Z.shiftr a k).
Proof.
  rewrite !is_u64_iff. intros Hk Ha. rewrite Z.shiftr_div_pow2 by lia.
  pose proof (Z.pow_pos_nonneg 2 k). split; [apply Z.div_pos; lia|].
  apply Z.le_lt_trans with a; [|lia]. apply Z.div_le_upper_bound; nia.
Qed.

Lemma lxor_cancel_r a b c : Z.lxor a c = Z.lxor b c -> a = b.
Proof.
  intros H. apply (f_equal (fun z => Z.lxor z c)) in H.
  by rewrite !Z.lxor_assoc, Z.lxor_nilpotent, !Z.lxor_0_r in H.
Qed.

Lemma shiftr_three k x : 64 <= 3 * k -> is_u64 x -> Z.shiftr x (3 * k) = 0.
Proof.
  rewrite is_u64_iff. intros H3 Hx. apply small_shiftr; [lia|].
  split; [lia|]. apply Z.lt_le_trans with (2 ^ 64); [lia|]. by apply Z.pow_le_mono_r; lia.
Qed.

(** Three rounds of the shift cover the 64 bits, so the xor-shift is inverted by
    two more xor-shifts. *)
Lemma xorshift_inverse k x : 0 <= k -> 64 <= 3 * k -> is_u64 x ->
  let y := Z.lxor x (Z.shiftr x k) in
  Z.lxor (Z.lxor y (Z.shiftr y k)) (Z.shiftr y (2 * k)) = x.
Proof.
  intros Hk H3 Hx y. subst y.
  rewrite !Z.shiftr_lxor, !Z.shiftr_shiftr by lia.
  replace (k + k) with (2 * k) by lia. replace (k + 2 * k) with (3 * k) by lia.
  rewrite shiftr_three, Z.lxor_0_r by done. generalize (Z.shiftr x k), (Z.shiftr x (2 * k)). intros a b.
  by rewrite !Z.lxor_assoc, Z.lxor_nilpotent, Z.lxor_0_r, Z.lxor_nilpotent, Z.lxor_0_r.
Qed.

Lemma xorshift_inj k x y : 0 <= k -> 64 <= 3 * k -> is_u64 x -> is_u64 y ->
  Z.lxor x (Z.shiftr x k) = Z.lxor y (Z.shiftr y k) -> x = y.
Proof.
  intros Hk H3 Hx Hy E.
  rewrite <- (xorshift_inverse k x), <- (xorshift_inverse k y) by done. simpl. by rewrite E.
Qed.

(** Multiplication by an odd constant, with its inverse modulo 2^64. *)
Lemma mul_u64_inj c c' x y : (c * c') mod 2 ^ 64 = 1 -> is_u64 x -> is_u64 y ->
  Z.land (x * c) U64_MAX = Z.land (y * c) U64_MAX -> x = y.
Proof.
  rewrite !is_u64_iff, !land_u64. intros Hc Hx Hy E.
  assert (H : forall z, 0 <= z < 2 ^ 64 -> z = (((z * c) mod 2 ^ 64) * c') mod 2 ^ 64).
  { intros z Hz. rewrite Z.mul_mod_idemp_l, <- Z.mul_assoc, <- Z.mul_mod_idemp_r, Hc by lia.
    by rewrite Z.mul_1_r, Z.mod_small. }
  by rewrite (H x Hx), E, <- (H y Hy).
Qed.

Lemma mix_u64_range v : is_u64 v -> is_u64 (mix_u64 v).
Proof.
  intros Hv. unfold mix_u64. rewrite !land_u64.
  apply lxor_u64; [|apply shiftr_u64; [lia|]]; apply mod_u64.
Qed.

Lemma mix_u64_inj x y : is_u64 x -> is_u64 y -> mix_u64 x = mix_u64 y -> x = y.
Proof.
  intros Hx Hy E. unfold mix_u64 in E.
  apply xorshift_inj in E; [|rewrite ?land_u64; first [lia|apply mod_u64]..].
  apply (mul_u64_inj _ 0x319642B2D24D8EC3) in E;
    [|done|apply lxor_u64; [|apply shiftr_u64; [lia|]]; rewrite land_u64; apply mod_u64..].
  apply xorshift_inj in E; [|rewrite ?land_u64; first [lia|apply mod_u64]..].
  apply (mul_u64_inj _ 0x96DE1B173F119089) in E;
    [|done|apply lxor_u64; [|apply shiftr_u64; [lia|]]; done..].
  by apply xorshift_inj in E.
Qed.

(** * Derived seeds *)

Lemma require_u64_int name z : is_u64 z -> require_u64 name (PInt z) = Ret z.
Proof.
  intros [H1 H2]. unfold require_u64. by rewrite (proj2 (Z.leb_le _ _) H1), (proj2 (Z.leb_le _ _) H2).
Qed.

Lemma require_u64_inv name v z : require_u64 name v = Ret z -> v = PInt z /\ is_u64 z.
Proof.
  destruct v; unfold require_u64; try discriminate. intros H. ocase H. bools. injection H as ->. done.
Qed.

Lemma is_u32_u64 z : is_u32 z -> is_u64 z.
Proof. unfold is_u32. rewrite is_u64_iff. change (Z.shiftl 1 32) with (2 ^ 32). lia. Qed.

Lemma slot_u64 r w : is_u32 r -> is_u32 w -> is_u64 (Z.lor (Z.shiftl r 32) w).
Proof.
  unfold is_u32. change (Z.shiftl 1 32) with (2 ^ 32). intros Hr Hw.
  apply is_u64_iff. rewrite Z.shiftl_mul_pow2 by lia.
  assert (0 <= Z.lor (r * 2 ^ 32) w) by (apply Z.lor_nonneg; lia).
  split; [done|]. apply shiftr_small; [lia..|].
  rewrite Z.shiftr_lor, !small_shiftr by lia. done.
Qed.

(** The packed identity determines rank and worker. *)
Lemma slot_inj r w r' w' : is_u32 r -> is_u32 w -> is_u32 r' -> is_u32 w' ->
  Z.lor (Z.shiftl r 32) w = Z.lor (Z.shiftl r' 32) w' -> r = r' /\ w = w'.
Proof.
  unfold is_u32. change (Z.shiftl 1 32) with (2 ^ 32). intros Hr Hw Hr' Hw' E.
  assert (H : forall a b, 0 <= b < 2 ^ 32 -> Z.shiftr (Z.lor (Z.shiftl a 32) b) 32 = a).
  { intros a b Hb. by rewrite Z.shiftr_lor, Z.shiftr_shiftl_l, (small_shiftr 32 b), Z.lor_0_r, Z.shiftl_0_r
      by lia. }
  assert (H' : forall a b, 0 <= b < 2 ^ 32 -> Z.land (Z.lor (Z.shiftl a 32) b) (Z.ones 32) = b).
  { intros a b Hb. rewrite Z.land_ones by lia. rewrite <- (Z.mod_small b (2 ^ 32)) at 2 by lia.
    rewrite <- !Z.land_ones, Z.land_lor_distr_l by lia.
    rewrite (Z.land_ones (Z.shiftl a 32)), Z.shiftl_mul_pow2, Z.mod_mul by lia. done. }
  split.
  - by rewrite <- (H r w), E, H.
  - by rewrite <- (H' r w), E, H'.
Qed.

Lemma derive_seed_eq b r w : is_u64 b -> is_u32 r -> is_u32 w ->
  derive_seed (PInt b) (PInt r) (PInt w) =
  Ret (mix_u64 (Z.lxor (Z.lor (Z.shiftl r 32) w) (mix_u64 (Z.lxor b 0x4453545253454544)))).
Proof.
  intros Hb Hr Hw. unfold derive_seed.
  rewrite !require_u64_int by auto using is_u32_u64. simpl.
  destruct Hr as [_ Hr], Hw as [_ Hw].
  by rewrite (proj2 (Z.leb_gt _ _) Hr), (proj2 (Z.leb_gt _ _) Hw).
Qed.

Lemma key_u64 b : is_u64 b -> is_u64 (mix_u64 (Z.lxor b 0x4453545253454544)).
Proof. intros Hb. apply mix_u64_range, lxor_u64; [done|]. apply is_u64_iff. lia. Qed.

(** The inverse finalizer: undo each xor-shift by two more, each product by the
    inverse constant. *)
Definition unxorshift (k y : Z) : Z := Z.lxor (Z.lxor y (Z.shiftr y k)) (Z.shiftr y (2 * k)).

Definition unmix_u64 (y : Z) : Z :=
  let y := Z.land (unxorshift 31 y * 0x319642B2D24D8EC3) U64_MAX in
  let y := Z.land (unxorshift 27 y * 0x96DE1B173F119089) U64_MAX in
  unxorshift 30 y.

Lemma unxorshift_u64 k y : 0 <= k -> is_u64 y -> is_u64 (unxorshift k y).
Proof.
  intros Hk Hy. unfold unxorshift.
  repeat apply lxor_u64; try done; (apply shiftr_u64; [lia|done]).
Qed.

Lemma xorshift_unxorshift k y : 0 <= k -> 64 <= 3 * k -> is_u64 y ->
  Z.lxor (unxorshift k y) (Z.shiftr (unxorshift k y) k) = y.
Proof.
  intros Hk H3 Hy. unfold unxorshift.
  rewrite !Z.shiftr_lxor, !Z.shiftr_shiftr by lia.
  replace (k + k) with (2 * k) by lia. replace (2 * k + k) with (3 * k) by lia.
  rewrite shiftr_three, Z.lxor_0_r by done. generalize (Z.shiftr y k), (Z.shiftr y (2 * k)). intros a b.
  by rewrite !Z.lxor_assoc, <- (Z.lxor_assoc a b (Z.lxor a b)), Z.lxor_nilpotent, Z.lxor_0_r.
Qed.

Lemma mul_u64_cancel c c' x : (c' * c) mod 2 ^ 64 = 1 -> is_u64 x ->
  Z.land (Z.land (x * c') U64_MAX * c) U64_MAX = x.
Proof.
  rewrite is_u64_iff, !land_u64. intros Hc Hx.
  rewrite Z.mul_mod_idemp_l, <- Z.mul_assoc, <- Z.mul_mod_idemp_r, Hc by lia.
  by rewrite Z.mul_1_r, Z.mod_small.
Qed.

Lemma land_is_u64 x : is_u64 (Z.land x U64_MAX).
Proof. rewrite land_u64. apply mod_u64. Qed.

#[export] Hint Resolve unxorshift_u64 land_is_u64 mix_u64_range key_u64 slot_u64 lxor_u64 : drt.

Lemma mix_unmix y : is_u64 y -> mix_u64 (unmix_u64 y) = y.
Proof.
  intros Hy. unfold mix_u64, unmix_u64. cbv zeta.
  rewrite (xorshift_unxorshift 30), mul_u64_cancel by (try done; auto with drt lia).
  rewrite (xorshift_unxorshift 27), mul_u64_cancel by (try done; auto with drt lia).
  by apply xorshift_unxorshift.
Qed.

Lemma unmix_u64_range y : is_u64 y -> is_u64 (unmix_u64 y).
Proof. intros Hy. unfold unmix_u64. apply unxorshift_u64; [lia|]. apply land_is_u64. Qed.

(** * Properties *)

(** The seed finalizer permutes the u64 values: every u64 value is the image
    of exactly one u64 value. *)
Theorem mix_u64_permutes (y : Z) (Hy : is_u64 y) :
  exists! x, is_u64 x /\ mix_u64 x = y.
Proof.
  exists (unmix_u64 y). split.
  - split; [by apply unmix_u64_range|by apply mix_unmix].
  - intros x [Hx <-]. symmetry. apply mix_u64_inj; [done|by apply unmix_u64_range, mix_u64_range|].
    symmetry. by apply mix_unmix, mix_u64_range.
Qed.

Lemma mix_u64_permutes_witness : exists! x, is_u64 x /\ mix_u64 x = 12345.
Proof. apply (mix_u64_permutes 12345). split; vm_compute; discriminate. Defined.

Lemma derive_seed_inv b r w s : derive_seed b r w = Ret s ->
  exists b' r' w', b = PInt b' /\ r = PInt r' /\ w = PInt w' /\ is_u64 b' /\ is_u32 r' /\ is_u32 w'.
Proof.
  unfold derive_seed. intros H.
  destruct (require_u64 _ b) as [b'|] eqn:Eb; [|discriminate]. simpl in H.
  destruct (require_u64 _ r) as [r'|] eqn:Er; [|discriminate]. simpl in H.
  destruct (require_u64 _ w) as [w'|] eqn:Ew; [|discriminate]. simpl in H.
  apply require_u64_inv in Eb as [-> Hb], Er as [-> Hr], Ew as [-> Hw].
  ocase H. bools. exists b', r', w'. split_and!; try done.
  - destruct Hr. by split.
  - destruct Hw. by split.
Qed.

Lemma derive_seed_inj b r w r' w' s :
  derive_seed (PInt b) (PInt r) (PInt w) = Ret s ->
  derive_seed (PInt b) (PInt r') (PInt w') = Ret s -> is_u64 s /\ r = r' /\ w = w'.
Proof.
  intros H H'.
  destruct (derive_seed_inv _ _ _ _ H) as (? & ? & ? & [= <-] & [= <-] & [= <-] & Hb & Hr & Hw).
  destruct (derive_seed_inv _ _ _ _ H') as (? & ? & ? & [= <-] & [= <-] & [= <-] & _ & Hr' & Hw').
  rewrite derive_seed_eq in H, H' by done. injection H as <-. injection H' as E.
  split; [auto with drt|].
  apply mix_u64_inj, lxor_cancel_r, slot_inj in E; auto with drt. by destruct E.
Qed.

(** C33. For one base seed, two distinct (rank, worker) identities never receive
    the same native seed, and every derived seed is a u64 value. *)
Theorem derive_seed_unique (b r w r' w' s : Z)
    (H : derive_seed (PInt b) (PInt r) (PInt w) = Ret s)
    (H' : derive_seed (PInt b) (PInt r') (PInt w') = Ret s) :
  is_u64 s /\ r = r' /\ w = w'.
Proof. by apply (derive_seed_inj b). Qed.

Lemma derive_seed_unique_witness : is_u64 (mix_u64 (Z.lxor (Z.lor (Z.shiftl 1 32) 2)
    (mix_u64 (Z.lxor 7 0x4453545253454544)))) /\ 1 = 1 /\ 2 = 2.
Proof. apply (derive_seed_unique 7 1 2 1 2); vm_compute; reflexivity. Defined.

(** The derivation accepts exactly the plain integers that fit: a u64 base
    seed with u32 rank and worker identities. Everything else, booleans and
    floats included, is refused with a ValueError. *)
Lemma derive_seed_domain (b r w : pyval) :
  (returns (derive_seed b r w) <->
   exists b' r' w', b = PInt b' /\ r = PInt r' /\ w = PInt w' /\
     is_u64 b' /\ is_u32 r' /\ is_u32 w') /\
  (returns (derive_seed b r w) \/ exists m, derive_seed b r w = Raise (ValueError m)).
Proof.
  split.
  - split.
    + intros [s Hs]. by apply derive_seed_inv in Hs.
    + intros (b' & r' & w' & -> & -> & -> & Hb & Hr & Hw). eexists. by apply derive_seed_eq.
  - unfold derive_seed.
    assert (R : forall n v, (exists z, require_u64 n v = Ret z) \/
                       exists m, require_u64 n v = Raise (ValueError m)).
    { intros n v. destruct v; unfold require_u64; eauto. destruct (_ && _); eauto. }
    destruct (R (lit "base_seed") b) as [[? ->]|[? ->]]; [|right; simpl; eauto]; simpl.
    destruct (R (lit "rank_id") r) as [[? ->]|[? ->]]; [|right; simpl; eauto]; simpl.
    destruct (R (lit "worker_id") w) as [[? ->]|[? ->]]; [|right; simpl; eauto]; simpl.
    destruct (_ || _); [right; eauto|left; eexists; eauto].
Qed.

(** * Agreement on the common seed *)

(** The collective of rank zero: every member leaves with the list rank zero
    entered with. [contribution] gives the list each rank passes. *)
Definition broadcasts_rank_zero (contribution : Z -> list pyval)
    (broadcast : Z -> list pyval -> list pyval) : Prop :=
  forall r, broadcast r (contribution r) = contribution 0.

(** The list a rank passes to the collective. *)
Definition seed_contribution (fresh : Z -> Z) (r : Z) : list pyval :=
  [PInt (if r =? 0 then fresh r else 0)].

(** All members of one process group resolve the same partition seed,
    whatever each process draws; shuffled reading always has a seed, and it is a
    u64 value. *)
Theorem common_seed_agreement (fresh : Z -> Z) (broadcast : Z -> list pyval -> list pyval)
    (w : Z) (seed : option Z)
    (Hfresh : forall r, is_u64 (fresh r))
    (Hseed : forall s, seed = Some s -> is_u64 s)
    (Hbroadcast : broadcasts_rank_zero (seed_contribution fresh) broadcast)
    (Hw : 0 < w) :
  exists s, is_u64 s /\ forall r, 0 <= r < w ->
    common_seed (fresh r) (broadcast r) (mk_replica r w) true (PInt <$> seed) = Ret (Some s).
Proof.
  destruct seed as [s|].
  - exists s. split; [by apply Hseed|]. intros r Hr. unfold common_seed; simpl.
    by rewrite require_u64_int by (by apply Hseed).
  - exists (fresh 0). split; [done|]. intros r Hr. unfold common_seed; simpl.
    destruct (Z.eqb_spec w 1) as [->|]; [by replace r with 0 by lia|].
    fold (seed_contribution fresh r). rewrite Hbroadcast. simpl.
    by rewrite require_u64_int.
Qed.

Lemma common_seed_agreement_witness : exists s, is_u64 s /\ forall r, 0 <= r < 4 ->
    common_seed 10 (fun _ => [PInt 10]) (mk_replica r 4) true (PInt <$> None) = Ret (Some s).
Proof.
  apply (common_seed_agreement (fun _ => 10) (fun _ _ => [PInt 10]) 4 None).
  - intros _. split; vm_compute; discriminate.
  - discriminate.
  - intros r. reflexivity.
  - reflexivity.
Defined.
