(* ===== verification/Partition.v ===== *)
(** Row partitions and sample budgets of
    [src/dataset_rt/integrations/loading.py]: contiguous balanced spans, rank
    budgets, and per-worker budgets in whole batches plus one tail. *)
From stdpp Require Import base tactics list numbers strings.
From S2P Require Import Prelude Records Seeds.
Open Scope Z_scope.

(** * Operations *)

(** Split a finite count into contiguous spans; the first spans receive one extra
    row when the division has a remainder. *)
Definition partition_rows (count parts part_id : pyval) : outcome RowSpan :=
  count ← require_u64 (lit "count") count;
  parts ← require_u64 (lit "parts") parts;
  part_id ← require_u64 (lit "part_id") part_id;
  if (parts =? 0) || (parts <=? part_id)
  then Raise (ValueError (lit "part_id must belong to a positive partition count"))
  else
    '(size, extra) ← py_divmod count parts;
    Ret (mk_span (part_id * size + Z.min part_id extra)
                 (size + (if part_id <? extra then 1 else 0))).

Definition worker_rows (count : pyval) (replica : ReplicaIdentity) (num_workers worker_id : pyval)
  : outcome RowSpan :=
  workers ← require_u64 (lit "num_workers") num_workers;
  rank_span ← partition_rows count (PInt (world_size replica)) (PInt (rank replica));
  local ← partition_rows (PInt (span_length rank_span)) (PInt (Z.max 1 workers)) worker_id;
  Ret (mk_span (span_offset rank_span + span_offset local) (span_length local)).

(** Adjust one global budget to equal rank-local counts; rank zero warns when the
    effective global count differs from the requested one. *)
Definition rank_budget (samples : Z) (replica : ReplicaIdentity) (batch_size : Z) (drop_last : bool)
  : outcome (Z * list py_warning) :=
  let ranks := world_size replica in
  local ← (if drop_last
           then q ← py_div samples (ranks * batch_size); Ret (q * batch_size)
           else py_div (samples + ranks - 1) ranks);
  let effective := local * ranks in
  if negb (effective =? samples) && (rank replica =? 0)
  then
    let action := if samples <? effective then lit "padded" else lit "discarded" in
    Ret (local, [UserWarning
      (lit "samples_per_epoch adjusted: requested " ++ dec samples ++
       lit " global samples, effective " ++ dec effective ++ lit "; " ++ action ++ lit " " ++
       dec (Z.abs (effective - samples)) ++ lit " for equal rank batch counts")])
  else Ret (local, []).

(** [budgets[-1] += tail]. *)
Fixpoint add_to_last (tail : Z) (budgets : list Z) : outcome (list Z) :=
  match budgets with
  | [] => Raise (IndexError (lit "list index out of range"))
  | [b] => Ret [b + tail]
  | b :: r => r' ← add_to_last tail r; Ret (b :: r')
  end.

Definition worker_budgets (samples workers populations batch_size : Z) : outcome (list Z) :=
  if samples =? 0 then Ret (replicate (Z.to_nat workers) 0)
  else if populations =? 0
  then Raise (ValueError (lit "samples_per_epoch requires a nonempty population"))
  else
    '(batches, tail) ← py_divmod samples batch_size;
    let active := Z.min workers (Z.min populations (Z.max 1 batches)) in
    budgets ← traverse
      (fun i => span ← partition_rows (PInt batches) (PInt active) (PInt i);
                Ret (span_length span * batch_size)) (seqZ 0 active);
    budgets ← add_to_last tail budgets;
    Ret (budgets ++ replicate (Z.to_nat (workers - active)) 0).

(** * Spans *)

(** The span of the i-th part, for a valid request. *)
Definition row_span (count parts i : Z) : RowSpan :=
  mk_span (i * (count / parts) + Z.min i (count mod parts))
          (count / parts + (if i <? count mod parts then 1 else 0)).
Arguments row_span : simpl never.

Definition span_pair (s : RowSpan) : Z * Z := (span_offset s, span_length s).

Lemma partition_rows_ok count parts i :
  is_u64 count -> is_u64 parts -> 0 <= i < parts ->
  partition_rows (PInt count) (PInt parts) (PInt i) = Ret (row_span count parts i).
Proof.
  intros Hc Hp Hi. unfold partition_rows.
  rewrite !require_u64_int by (try done; destruct Hp; split; lia). simpl.
  destruct (Z.eqb_spec parts 0); [lia|]. destruct (Z.leb_spec parts i); [lia|]. simpl.
  by rewrite py_divmod_pos by lia.
Qed.

Lemma row_span_step count parts i : 0 <= count -> 0 < parts -> 0 <= i < parts ->
  0 <= span_length (row_span count parts i) /\
  span_offset (row_span count parts (i + 1)) =
  span_offset (row_span count parts i) + span_length (row_span count parts i).
Proof.
  intros Hc Hp Hi. unfold row_span; simpl.
  pose proof (Z.mod_pos_bound count parts ltac:(lia)).
  pose proof (Z.div_pos count parts Hc ltac:(lia)).
  split; destruct (Z.ltb_spec i (count mod parts)); lia.
Qed.

(** The spans of a partition follow one another and add up to the count. *)
Lemma row_span_tiles count parts : 0 <= count -> 0 < parts ->
  tiles 0 (map span_pair (map (row_span count parts) (seqZ 0 parts))) /\
  Zsum (map span_length (map (row_span count parts) (seqZ 0 parts))) = count.
Proof.
  intros Hc Hp.
  destruct (tiles_map (fun i => span_pair (row_span count parts i)) parts) as [T S]; [lia| |].
  - intros i Hi. by apply row_span_step.
  - rewrite !map_map in *. unfold row_span in T, S |- *. simpl in *. split.
    + replace (Z.min 0 (count mod parts)) with 0 in T; [done|].
      pose proof (Z.mod_pos_bound count parts ltac:(lia)). lia.
    + rewrite S. pose proof (Z.mod_pos_bound count parts ltac:(lia)).
      rewrite (Z.min_l 0) by lia. rewrite Z.min_r by lia.
      pose proof (Z.div_mod count parts ltac:(lia)). lia.
Qed.

Lemma row_span_rows count parts : 0 <= count -> 0 < parts ->
  concat (map (fun i => span_rows (span_pair (row_span count parts i))) (seqZ 0 parts)) = seqZ 0 count.
Proof.
  intros Hc Hp. destruct (row_span_tiles count parts Hc Hp) as [T S].
  rewrite !map_map in T. apply tiles_rows in T. rewrite !map_map in T. rewrite T.
  f_equal. by rewrite map_map in S.
Qed.

Lemma row_span_length_pos count parts i : 0 < parts <= count -> 0 <= i < parts ->
  0 < span_length (row_span count parts i).
Proof.
  intros Hp Hi. unfold row_span; simpl. pose proof (Z.div_str_pos count parts ltac:(lia)).
  destruct (i <? _); lia.
Qed.

Lemma row_span_offset count parts i : 0 <= count -> 0 < parts -> 0 <= i ->
  0 <= span_offset (row_span count parts i).
Proof.
  intros Hc Hp Hi. unfold row_span; simpl. pose proof (Z.div_pos count parts Hc Hp).
  pose proof (Z.mod_pos_bound count parts Hp). nia.
Qed.

Lemma row_span_end count parts i : 0 <= count -> 0 < parts -> 0 <= i < parts ->
  span_offset (row_span count parts i) + span_length (row_span count parts i) <= count.
Proof.
  intros Hc Hp Hi. unfold row_span; simpl. pose proof (Z.div_pos count parts Hc ltac:(lia)).
  pose proof (Z.div_mod count parts ltac:(lia)). pose proof (Z.mod_pos_bound count parts Hp).
  destruct (Z.ltb_spec i (count mod parts)); nia.
Qed.

Lemma row_span_u64 count parts i : is_u64 count -> 0 < parts -> 0 <= i < parts ->
  is_u64 (span_length (row_span count parts i)).
Proof.
  intros [Hc Hc'] Hp Hi. unfold row_span; simpl. pose proof (Z.div_pos count parts Hc ltac:(lia)).
  pose proof (Z.div_mod count parts ltac:(lia)). pose proof (Z.mod_pos_bound count parts Hp).
  split; destruct (Z.ltb_spec i (count mod parts)); nia.
Qed.

(** A partition is exact and balanced: the spans of all parts, in order, list
    every row position of the table exactly once, and two parts differ by at
    most one row. *)
Theorem partition_rows_exact (count parts : Z)
    (Hc : is_u64 count) (Hp : 0 < parts <= U64_MAX) :
  exists spans,
    traverse (fun i => partition_rows (PInt count) (PInt parts) (PInt i)) (seqZ 0 parts) = Ret spans /\
    concat (map (fun s => span_rows (span_pair s)) spans) = seqZ 0 count /\
    (forall s s', s ∈ spans -> s' ∈ spans -> span_length s <= span_length s' + 1).
Proof.
  exists (map (row_span count parts) (seqZ 0 parts)). split_and!.
  - apply traverse_ret. intros i Hi%elem_of_seqZ. apply partition_rows_ok; [done|split; lia|lia].
  - rewrite map_map. apply row_span_rows; [apply Hc|lia].
  - intros s s' [i [-> _]]%list_elem_of_fmap [j [-> _]]%list_elem_of_fmap. unfold row_span; simpl.
    do 2 destruct (_ <? _); lia.
Qed.

Lemma partition_rows_exact_witness : exists spans,
    traverse (fun i => partition_rows (PInt 10) (PInt 3) (PInt i)) (seqZ 0 3) = Ret spans /\
    concat (map (fun s => span_rows (span_pair s)) spans) = seqZ 0 10 /\
    (forall s s', s ∈ spans -> s' ∈ spans -> span_length s <= span_length s' + 1).
Proof. apply (partition_rows_exact 10 3); split; vm_compute; try discriminate; reflexivity. Defined.

(** The rows of every worker of one rank, in worker order. *)
Definition rank_rows (count : Z) (w r nw : Z) : outcome (list Z) :=
  spans ← traverse (fun k => worker_rows (PInt count) (mk_replica r w) (PInt nw) (PInt k))
            (seqZ 0 (Z.max 1 nw));
  Ret (concat (map (fun s => span_rows (span_pair s)) spans)).

(** A span inside a span. *)
Definition nested_span (s l : RowSpan) : RowSpan :=
  mk_span (span_offset s + span_offset l) (span_length l).

Lemma nested_span_rows s l :
  span_rows (span_pair (nested_span s l)) = Z.add (span_offset s) <$> span_rows (span_pair l).
Proof. unfold span_rows, span_pair, nested_span; simpl. by rewrite fmap_add_seqZ. Qed.

Lemma rank_rows_ok count w r nw : is_u64 count -> is_u64 w -> 0 <= r < w -> is_u64 nw ->
  rank_rows count w r nw = Ret (span_rows (span_pair (row_span count w r))).
Proof.
  intros Hc Hw Hr Hnw.
  assert (Hl : is_u64 (span_length (row_span count w r))) by (apply row_span_u64; [done|lia|lia]).
  remember (row_span count w r) as s eqn:Es.
  assert (Hm : is_u64 (Z.max 1 nw)).
  { destruct Hnw. split; [lia|]. apply Z.max_lub; [vm_compute; discriminate|done]. }
  unfold rank_rows.
  rewrite (traverse_ret _ (fun k => nested_span s (row_span (span_length s) (Z.max 1 nw) k))).
  - simpl. f_equal. rewrite map_map. erewrite map_ext; [|intros k; apply nested_span_rows].
    rewrite <- (map_map _ (fmap (Z.add (span_offset s)))), <- concat_map.
    rewrite row_span_rows by (destruct Hl, Hnw; lia).
    change (map ?f ?l) with (f <$> l). rewrite fmap_add_seqZ. by rewrite Z.add_0_r.
  - intros k Hk%elem_of_seqZ. unfold worker_rows. rewrite require_u64_int by done. simpl.
    rewrite partition_rows_ok, <- Es by done. simpl.
    by rewrite partition_rows_ok by (done || lia).
Qed.

(** Splitting rows first among ranks and then among each rank's own loading
    workers covers the table exactly, also when the ranks run different numbers
    of workers (zero meaning the rank process itself). *)
Theorem worker_rows_cover (count w : Z) (workers : Z -> Z)
    (Hc : is_u64 count) (Hw : 0 < w <= U64_MAX) (Hn : forall r, is_u64 (workers r)) :
  exists rows,
    traverse (fun r => rank_rows count w r (workers r)) (seqZ 0 w) = Ret rows /\
    concat rows = seqZ 0 count.
Proof.
  eexists. split.
  - apply (traverse_ret _ (fun r => span_rows (span_pair (row_span count w r)))).
    intros r Hr%elem_of_seqZ. apply rank_rows_ok; [done|split; lia|lia|done].
  - apply row_span_rows; [apply Hc|lia].
Qed.

Lemma worker_rows_cover_witness : exists rows,
    traverse (fun r => rank_rows 11 2 r (if r =? 0 then 3 else 0)) (seqZ 0 2) = Ret rows /\
    concat rows = seqZ 0 11.
Proof.
  apply (worker_rows_cover 11 2 (fun r => if r =? 0 then 3 else 0)).
  - split; vm_compute; discriminate.
  - split; vm_compute; try discriminate; reflexivity.
  - intros r. destruct (r =? 0); split; vm_compute; discriminate.
Defined.

(** * Rank budgets *)

(** The local budget of every rank. *)
Definition local_budget (samples w batch : Z) (drop_last : bool) : Z :=
  if drop_last then samples / (w * batch) * batch else (samples + w - 1) / w.

Lemma rank_budget_ret samples r w batch drop_last : 0 < w -> 0 < batch ->
  exists ws, rank_budget samples (mk_replica r w) batch drop_last =
               Ret (local_budget samples w batch drop_last, ws) /\
    (ws <> [] <-> r = 0 /\ local_budget samples w batch drop_last * w <> samples).
Proof.
  intros Hw Hb. unfold rank_budget; simpl.
  assert (E : (if drop_last then q ← py_div samples (w * batch); Ret (q * batch)
               else py_div (samples + w - 1) w) = Ret (local_budget samples w batch drop_last)).
  { unfold local_budget. destruct drop_last; rewrite py_div_pos by nia; done. }
  rewrite E. simpl. generalize (local_budget samples w batch drop_last). intros local.
  destruct (Z.eqb_spec (local * w) samples) as [->|Hne]; simpl.
  - eexists. split; [done|]. split; [done|intros [_ ?]; congruence].
  - destruct (Z.eqb_spec r 0) as [->|]; (eexists; split; [done|]); split; try done.
    intros [? _]; congruence.
Qed.

Lemma local_budget_bounds samples w batch drop_last : 0 <= samples -> 0 < w -> 0 < batch ->
  0 <= local_budget samples w batch drop_last <= samples /\
  (if drop_last
   then local_budget samples w batch drop_last mod batch = 0 /\
        local_budget samples w batch drop_last * w <= samples
          < local_budget samples w batch drop_last * w + w * batch
   else samples <= local_budget samples w batch drop_last * w < samples + w).
Proof.
  intros Hs Hw Hb. unfold local_budget. destruct drop_last; [|split; dlia].
  rewrite Z.mod_mul by lia.
  pose proof (Z.div_mod samples (w * batch) ltac:(nia)).
  pose proof (Z.mod_pos_bound samples (w * batch) ltac:(nia)).
  pose proof (Z.div_pos samples (w * batch) ltac:(lia) ltac:(nia)).
  split; [|split]; [nia|done|nia].
Qed.

(** Every rank computes the same local budget. Without [drop_last] the global
    count is padded by fewer samples than there are ranks; with it the local
    budget is whole batches and the discarded remainder is less than one batch
    per rank. Exactly rank zero warns, and only when the count changed. *)
Theorem rank_budget_spec (samples w batch : Z) (drop_last : bool)
    (Hs : 0 <= samples) (Hw : 0 < w) (Hb : 0 < batch) :
  exists local, 0 <= local /\
    (forall r, 0 <= r < w -> exists ws,
       rank_budget samples (mk_replica r w) batch drop_last = Ret (local, ws) /\
       (ws <> [] <-> r = 0 /\ local * w <> samples)) /\
    (if drop_last
     then local mod batch = 0 /\ local * w <= samples < local * w + w * batch
     else samples <= local * w < samples + w).
Proof.
  destruct (local_budget_bounds samples w batch drop_last Hs Hw Hb) as [? ?].
  exists (local_budget samples w batch drop_last). split_and!; [lia| |done].
  intros r _. by apply rank_budget_ret.
Qed.

Lemma rank_budget_spec_witness :
  exists local, 0 <= local /\
    (forall r, 0 <= r < 3 -> exists ws,
       rank_budget 1000 (mk_replica r 3) 32 true = Ret (local, ws) /\
       (ws <> [] <-> r = 0 /\ local * 3 <> 1000)) /\
    (local mod 32 = 0 /\ local * 3 <= 1000 < local * 3 + 3 * 32).
Proof. apply (rank_budget_spec 1000 3 32 true); lia. Defined.

(** * Worker budgets *)

Lemma add_to_last_snoc tail l b : add_to_last tail (l ++ [b]) = Ret (l ++ [b + tail]).
Proof.
  induction l as [|x l IH]; [done|].
  change ((x :: l) ++ [b]) with (x :: (l ++ [b])).
  simpl. destruct (l ++ [b]) eqn:E; [by destruct l|]. by rewrite IH.
Qed.

(** The shape of the budgets: whole batches for every active worker, the tail on
    the last one, nothing for the idle ones. *)
Lemma worker_budgets_shape samples workers populations batch :
  0 < samples <= U64_MAX -> 0 < workers <= U64_MAX -> 0 < populations -> 0 < batch ->
  exists lens last idle,
    worker_budgets samples workers populations batch =
      Ret (map (fun n => n * batch) lens ++
           (last * batch + samples mod batch) :: replicate idle 0) /\
    Forall (Z.lt 0) lens /\ 0 <= last /\ 0 < last * batch + samples mod batch /\
    Zsum lens + last = samples / batch /\
    (Z.of_nat (length lens) + 1 + Z.of_nat idle = workers) /\
    (Z.of_nat (length lens) + 1 <= populations).
Proof.
  intros Hs Hw Hp Hb. unfold worker_budgets.
  destruct (Z.eqb_spec samples 0); [lia|]. destruct (Z.eqb_spec populations 0); [lia|].
  rewrite py_divmod_pos by lia. simpl.
  set (batches := samples / batch). set (active := Z.min _ _).
  assert (Hbt : 0 <= batches <= samples) by (unfold batches; dlia).
  assert (Ha : 0 < active <= workers /\ active <= populations /\ active <= Z.max 1 batches) by lia.
  clearbody active. set (len := fun i => span_length (row_span batches active i)).
  exists (map len (seqZ 0 (active - 1))), (len (active - 1)), (Z.to_nat (workers - active)).
  assert (HL : forall i, 0 <= i < active -> 0 <= len i).
  { intros i Hi. unfold len. apply row_span_step; lia. }
  assert (Hsum : Zsum (map len (seqZ 0 active)) = batches).
  { destruct (row_span_tiles batches active) as [_ S]; [lia..|]. by rewrite map_map in S. }
  assert (Hsplit : seqZ 0 active = seqZ 0 (active - 1) ++ [active - 1]).
  { replace active with (active - 1 + 1) at 1 by lia. by rewrite seqZ_snoc by lia. }
  split_and!.
  - rewrite (traverse_ret _ (fun i => len i * batch)).
    + simpl. rewrite Hsplit, map_app. simpl. rewrite add_to_last_snoc. simpl.
      by rewrite map_map, <- (assoc_L (++)).
    + intros i Hi%elem_of_seqZ. rewrite partition_rows_ok; [done| | |lia]; split; lia.
  - apply Forall_forall. intros x [i [-> Hi%elem_of_seqZ]]%list_elem_of_fmap.
    apply row_span_length_pos; lia.
  - apply HL; lia.
  - specialize (HL (active - 1) ltac:(lia)).
    destruct (decide (batches = 0)) as [E|].
    + assert (samples mod batch = samples) by (unfold batches in E; dlia). nia.
    + assert (0 < len (active - 1)) by (apply row_span_length_pos; lia).
      pose proof (Z.mod_pos_bound samples batch Hb). nia.
  - rewrite <- Hsum, Hsplit, map_app, Zsum_app. simpl. rewrite Zsum_cons, Zsum_nil. lia.
  - rewrite length_map, length_seqZ. lia.
  - rewrite length_map, length_seqZ. lia.
Qed.

(** The budgets as the planner uses them: positive ones first, then idle workers. *)
Lemma worker_budgets_active samples workers populations batch :
  0 <= samples <= U64_MAX -> 0 < workers <= U64_MAX -> (0 < samples -> 0 < populations) -> 0 < batch ->
  exists active idle,
    worker_budgets samples workers populations batch = Ret (active ++ replicate idle 0) /\
    Forall (Z.lt 0) active /\ Zsum active = samples /\
    Z.of_nat (length active) + Z.of_nat idle = workers /\
    (0 < samples -> 0 < Z.of_nat (length active) <= populations) /\
    (samples = 0 -> active = []).
Proof.
  intros Hs Hw Hp Hb. destruct (decide (samples = 0)) as [->|].
  { exists [], (Z.to_nat workers). unfold worker_budgets; simpl. split_and!; try done; lia. }
  destruct (worker_budgets_shape samples workers populations batch)
    as (lens & last & idle & -> & Hlens & Hlast & Hpos & Hsum & Hlen & Hpop); [lia..|].
  exists (map (fun n => n * batch) lens ++ [last * batch + samples mod batch]), idle.
  rewrite <- (assoc_L (++)). pose proof (Z.div_mod samples batch ltac:(lia)).
  rewrite length_app, length_map. simpl. split_and!; try lia; [done|..].
  - apply Forall_app. split; [|by repeat constructor].
    apply Forall_map. eapply Forall_impl; [exact Hlens|]. simpl. nia.
  - rewrite Zsum_app, Zsum_cons, Zsum_nil, (Zsum_map_mul id), map_id. nia.
Qed.

(** Batches a Torch worker forms from its quota, without and with [drop_last]. *)
Definition ceil_batches (batch n : Z) : Z := (n + batch - 1) / batch.
Definition floor_batches (batch n : Z) : Z := n / batch.

Lemma Zsum_whole_batches batch (f : Z -> Z) lens : 0 < batch ->
  (forall n, f (n * batch) = n) -> Zsum (map f (map (fun n => n * batch) lens)) = Zsum lens.
Proof. intros Hb Hf. induction lens as [|n l IH]; [done|]. simpl. by rewrite !Zsum_cons, Hf, IH. Qed.

Lemma Zsum_zero_fun f n : f 0 = 0 -> Zsum (map f (replicate n 0)) = 0.
Proof. intros E. induction n as [|n IH]; [done|]. simpl. by rewrite Zsum_cons, E, IH. Qed.

Lemma Zsum_batch_budgets batch f lens x idle : 0 < batch ->
  (forall n, f (n * batch) = n) ->
  Zsum (map f (map (fun n => n * batch) lens ++ x :: replicate idle 0)) = Zsum lens + f x.
Proof.
  intros Hb Hf. rewrite map_app, Zsum_app, Zsum_whole_batches by done. simpl.
  rewrite Zsum_cons, Zsum_zero_fun; [lia|]. by rewrite <- (Hf 0) at 2.
Qed.

Lemma ceil_batches_mul batch n : 0 < batch -> ceil_batches batch (n * batch) = n.
Proof. intros. unfold ceil_batches. dlia. Qed.

Lemma floor_batches_mul batch n : 0 < batch -> floor_batches batch (n * batch) = n.
Proof. intros. unfold floor_batches. by apply Z.div_mul; lia. Qed.

(** The batches of the quotas are the batches of the whole count. *)
Lemma worker_budgets_batches samples workers populations batch budgets :
  0 <= samples <= U64_MAX -> 0 < workers <= U64_MAX -> (0 < samples -> 0 < populations) -> 0 < batch ->
  worker_budgets samples workers populations batch = Ret budgets ->
  Zsum (map (ceil_batches batch) budgets) = ceil_batches batch samples /\
  Zsum (map (floor_batches batch) budgets) = floor_batches batch samples.
Proof.
  intros Hs Hw Hp Hb E. destruct (decide (samples = 0)) as [->|Hn].
  { unfold worker_budgets in E. simpl in E. injection E as <-.
    unfold ceil_batches, floor_batches.
    split; rewrite Zsum_zero_fun; dlia. }
  destruct (worker_budgets_shape samples workers populations batch)
    as (lens & last & idle & E' & _ & Hlast & Hpos & Hsum & _ & _); [lia..|].
  rewrite E in E'. injection E' as ->. pose proof (Z.div_mod samples batch ltac:(lia)). split.
  - rewrite (Zsum_batch_budgets batch) by (done || intros; by apply ceil_batches_mul).
    unfold ceil_batches. rewrite (Z.div_mod samples batch) at 2 by lia.
    replace (last * batch + samples mod batch + batch - 1)
      with (last * batch + (samples mod batch + batch - 1)) by lia.
    replace (batch * (samples / batch) + samples mod batch + batch - 1)
      with ((samples / batch) * batch + (samples mod batch + batch - 1)) by lia.
    rewrite !Z.div_add_l by lia. lia.
  - rewrite (Zsum_batch_budgets batch) by (done || intros; by apply floor_batches_mul).
    unfold floor_batches. rewrite Z.div_add_l, (Z.div_small (_ mod _)) by
      (try apply Z.mod_pos_bound; lia). lia.
Qed.

(** Worker budgets are exact: they share the whole sample count, the batches
    the workers form separately number exactly the batches of one reader, for
    both [drop_last] settings, the active workers come first, and there are
    never more of them than populations. *)
Theorem worker_budgets_exact (samples workers populations batch : Z)
    (Hs : 0 < samples <= U64_MAX) (Hw : 0 < workers <= U64_MAX)
    (Hp : 0 < populations) (Hb : 0 < batch) :
  exists active idle,
    worker_budgets samples workers populations batch = Ret (active ++ replicate idle 0) /\
    Z.of_nat (length (active ++ replicate idle 0)) = workers /\
    Zsum active = samples /\
    Zsum (map (ceil_batches batch) (active ++ replicate idle 0)) = ceil_batches batch samples /\
    Zsum (map (floor_batches batch) (active ++ replicate idle 0)) = floor_batches batch samples /\
    Forall (Z.lt 0) active /\ Z.of_nat (length active) <= populations.
Proof.
  destruct (worker_budgets_active samples workers populations batch)
    as (active & idle & E & HF & Hsum & Hlen & Hpos & _); [lia..|].
  destruct (worker_budgets_batches samples workers populations batch _ ltac:(lia) Hw ltac:(done) Hb E) as [Hc Hf].
  exists active, idle. split_and!; try done.
  - rewrite length_app, length_replicate. lia.
  - apply Hpos. lia.
Qed.

Lemma worker_budgets_exact_witness :
  exists active idle,
    worker_budgets 10 4 9 3 = Ret (active ++ replicate idle 0) /\
    Z.of_nat (length (active ++ replicate idle 0)) = 4 /\
    Zsum active = 10 /\
    Zsum (map (ceil_batches 3) (active ++ replicate idle 0)) = ceil_batches 3 10 /\
    Zsum (map (floor_batches 3) (active ++ replicate idle 0)) = floor_batches 3 10 /\
    Forall (Z.lt 0) active /\ Z.of_nat (length active) <= 9.
Proof.
  apply (worker_budgets_exact 10 4 9 3); try (split; vm_compute; try discriminate; reflexivity); reflexivity.
Defined.
