(* ===== verification/Reconstruction.v ===== *)
(** Construction artifacts of [src/dataset_rt/reconstruction.py]: the validated
    dataset configuration, the shared row order, the selection of a worker's
    population, and the reference selection. *)
From stdpp Require Import base tactics list numbers strings gmap.
From S2P Require Import Prelude Records Config Seeds.
Open Scope Z_scope.

(** * Configuration *)

Record DatasetConfiguration := mk_configuration {
  config_cache_paths : list path;
  config_reader : ReaderConfig;
  config_num_workers : Z;
  config_epoch_len : Z;
  config_row_count : Z }.

Definition configuration_valid (c : DatasetConfiguration) : bool :=
  match config_cache_paths c with [] => false | _ => true end &&
  reader_config_valid (config_reader c) &&
  (0 <? config_num_workers c) && (0 <? config_epoch_len c) && (0 <? config_row_count c).

Definition make_configuration (c : DatasetConfiguration) : outcome DatasetConfiguration :=
  if configuration_valid c then Ret c else Raise (ValidationError (lit "DatasetConfiguration")).

(** The row-count check of [load_metadata] on the mapped table. *)
Definition load_metadata {Row} (table : list Row) (c : DatasetConfiguration) : outcome (list Row) :=
  if Z.of_nat (length table) =? config_row_count c then Ret table
  else Raise (ValueError (lit "metadata row count does not match dataset configuration")).

(** * Row order *)

(** A mapped [.npy] array: element type, shape and contents. *)
Record npy := mk_npy { npy_uint64 : bool; npy_shape : list Z; npy_values : list Z }.

Definition CHUNK : Z := 65536.

(** [order[start:start+len(vals)] = vals]. *)
Definition assign_slice (order : list Z) (start : Z) (vals : list Z) : list Z :=
  take (Z.to_nat start) order ++ vals ++ drop (Z.to_nat start + length vals) order.

(** The initialization loop: [for start in range(0, count, chunk)]. *)
Definition fill_order (chunk count : Z) (order : list Z) (starts : list Z) : list Z :=
  fold_left (fun order start =>
    let stop := Z.min count (start + chunk) in
    assign_slice order start (seqZ start (stop - start))) starts order.

(** [range(0, count, chunk)]. *)
Definition range_starts (chunk count : Z) : list Z :=
  map (fun k => k * chunk) (seqZ 0 ((count + chunk - 1) / chunk)).

(** [shuffle seed l] is [np.random.default_rng(seed).shuffle(l)]. *)
Definition prepare_row_order (shuffle : Z -> list Z -> list Z) (count seed : Z) : npy :=
  let order := replicate (Z.to_nat count) 0 in
  let order := fill_order CHUNK count order (range_starts CHUNK count) in
  mk_npy true [count] (shuffle seed order).

(** * Population selection *)

Definition wrap_u64 (z : Z) : Z := z mod 2 ^ 64.
Definition wrap_i64 (z : Z) : Z := (z + 2 ^ 63) mod 2 ^ 64 - 2 ^ 63.

(** Row positions of one consumer, [None] for the whole table in order. [order]
    is the shared permutation file when it exists. *)
Definition population_selection (order : option npy) (count offset len : Z)
    (partition_seed : option Z) : outcome (option (list Z)) :=
  if (offset <? 0) || (len <=? 0)
  then Raise (ValueError (lit "population selection requires a nonnegative offset and positive length"))
  else match partition_seed with
  | None =>
      if (offset =? 0) && (len =? count) then Ret None
      else
        o ← py_mod offset count;
        Ret (Some (map (fun i => wrap_u64 (i + o) mod count) (seqZ 0 len)))
  | Some _ =>
      match order with
      | None => Raise FileNotFoundError
      | Some f =>
          if negb (npy_uint64 f) || negb (bool_decide (npy_shape f = [count]))
          then Raise (ValueError (lit "partition order does not match metadata row count"))
          else
            start ← py_mod offset count;
            if start + len <=? count then Ret (Some (slice start len (npy_values f)))
            else
              indices ← traverse
                (fun i => index_at (npy_values f) (wrap_u64 (i + start) mod count)) (seqZ 0 len);
              Ret (Some indices)
      end
  end.

(** The reference selection on a table of rows; [permutation seed n] is
    [np.random.default_rng(seed).permutation(n)]. *)
Definition select_population {Row} (permutation : Z -> Z -> list Z) (table : list Row)
    (offset len : Z) (partition_seed : option Z) : outcome (list Row) :=
  if (len <? 0) || (offset <? 0)
  then Raise (ValueError (lit "population selection requires nonnegative offset and length"))
  else if len =? 0 then Ret []
  else
    let count := Z.of_nat (length table) in
    if match partition_seed with None => offset + len <=? count | Some _ => false end
    then Ret (slice offset len table)
    else
      o ← py_mod offset count;
      let indices := map (fun i => wrap_i64 (i + o) mod count) (seqZ 0 len) in
      indices ← match partition_seed with
                | None => Ret indices
                | Some s => traverse (index_at (permutation s count)) indices
                end;
      traverse (index_at table) indices.

(** * The shared order is initialized completely *)

Lemma assign_slice_next a b (vals rest : list Z) start :
  length a = Z.to_nat start -> length b = length vals ->
  assign_slice (a ++ b ++ rest) start vals = a ++ vals ++ rest.
Proof.
  intros Ha Hb. unfold assign_slice. rewrite <- Ha, <- Hb, take_app_length.
  rewrite drop_app_add. by rewrite drop_app_length.
Qed.

Lemma fill_order_upto chunk count k : 0 < chunk -> 0 <= count -> 0 <= k ->
  (k - 1) * chunk < count ->
  fill_order chunk count (replicate (Z.to_nat count) 0) (map (fun k => k * chunk) (seqZ 0 k)) =
  seqZ 0 (Z.min count (k * chunk)) ++ replicate (Z.to_nat (count - k * chunk)) 0.
Proof.
  intros Hch Hc Hk. pattern k. apply natlike_ind; [| |done].
  - intros _. rewrite seqZ_nil by done. simpl. rewrite Z.min_r, seqZ_nil by lia. simpl.
    by rewrite Z.sub_0_r.
  - clear k Hk. intros k Hk IH Hlt. unfold Z.succ in *.
    rewrite seqZ_snoc, map_app by done. unfold fill_order in *. rewrite fold_left_app, IH by nia. simpl.
    rewrite Z.add_0_l, Z.min_r by lia.
    set (d := Z.min count (k * chunk + chunk) - k * chunk).
    assert (Hd : 0 <= d <= count - k * chunk) by lia.
    replace (replicate (Z.to_nat (count - k * chunk)) 0)
      with (replicate (Z.to_nat d) 0 ++ replicate (Z.to_nat (count - (k + 1) * chunk)) 0)
      by (rewrite <- replicate_add; f_equal; lia).
    rewrite assign_slice_next by (rewrite ?length_seqZ, ?length_replicate; lia).
    rewrite (assoc_L (++)). f_equal.
    replace (Z.min count ((k + 1) * chunk)) with (k * chunk + d) by lia.
    by rewrite seqZ_app_lengths by lia.
Qed.

Lemma fill_order_complete chunk count : 0 < chunk -> 0 <= count ->
  fill_order chunk count (replicate (Z.to_nat count) 0) (range_starts chunk count) = seqZ 0 count.
Proof.
  intros Hch Hc. unfold range_starts. set (k := (count + chunk - 1) / chunk).
  assert (Hk : 0 <= k /\ (k - 1) * chunk < count <= k * chunk) by (unfold k; split; dlia).
  rewrite fill_order_upto by lia. rewrite Z.min_l by lia.
  replace (Z.to_nat (count - k * chunk)) with 0%nat by lia. simpl. by rewrite app_nil_r.
Qed.

(** * Both selections *)

(** The cyclic span of [len] positions of a table of [count] rows. *)
Definition cyclic_rows (count offset len : Z) : list Z :=
  map (fun i => (offset + i) mod count) (seqZ 0 len).

Definition order_at (order : list Z) (i : Z) : Z := order !!! Z.to_nat i.

(** The rows a reader sees through a selection. *)
Definition selected_rows {Row} (table : list Row) (sel : option (list Z)) : outcome (list Row) :=
  match sel with None => Ret table | Some idx => traverse (index_at table) idx end.

Lemma cyclic_index_u64 count offset i : 0 < count -> 0 <= i -> 0 <= offset -> count + i <= 2 ^ 63 ->
  wrap_u64 (i + offset mod count) mod count = (offset + i) mod count.
Proof.
  intros Hc Hi Ho Hb. pose proof (Z.mod_pos_bound offset count Hc).
  unfold wrap_u64. rewrite (Z.mod_small _ (2 ^ 64)) by lia.
  rewrite Z.add_mod_idemp_r by lia. by rewrite Z.add_comm.
Qed.

Lemma cyclic_index_i64 count offset i : 0 < count -> 0 <= i -> 0 <= offset -> count + i <= 2 ^ 63 ->
  wrap_i64 (i + offset mod count) mod count = (offset + i) mod count.
Proof.
  intros Hc Hi Ho Hb. pose proof (Z.mod_pos_bound offset count Hc).
  unfold wrap_i64. rewrite (Z.mod_small _ (2 ^ 64)) by lia.
  replace (i + offset mod count + 2 ^ 63 - 2 ^ 63) with (i + offset mod count) by lia.
  rewrite Z.add_mod_idemp_r by lia. by rewrite Z.add_comm.
Qed.

Lemma cyclic_rows_straight count offset len : 0 <= offset -> 0 <= len -> offset + len <= count ->
  cyclic_rows count offset len = seqZ offset len.
Proof.
  intros Ho Hl Hle. unfold cyclic_rows.
  transitivity (Z.add offset <$> seqZ 0 len); [|by rewrite fmap_add_seqZ, Z.add_0_r].
  apply map_ext_elem. intros i Hi%elem_of_seqZ. apply Z.mod_small. lia.
Qed.

Lemma cyclic_rows_shift count offset len : 0 < count ->
  cyclic_rows count (offset mod count) len = cyclic_rows count offset len.
Proof. intros Hc. apply map_ext_elem. intros i _. by rewrite Z.add_mod_idemp_l by lia. Qed.

Lemma cyclic_rows_range count offset len i : 0 < count -> i ∈ cyclic_rows count offset len ->
  0 <= i < count.
Proof. intros Hc [j [-> _]]%list_elem_of_fmap. by apply Z.mod_pos_bound. Qed.

Lemma traverse_index_at {A} `{Inhabited A} (l : list A) idx :
  (forall i, i ∈ idx -> 0 <= i < Z.of_nat (length l)) ->
  traverse (index_at l) idx = Ret (map (fun i => l !!! Z.to_nat i) idx).
Proof. intros Hi. apply traverse_ret. intros i Hin. by apply index_at_lookup, Hi. Qed.

(** The shared order file of a prepared loader. *)
Definition order_ok (count : Z) (order : list Z) (f : npy) : Prop :=
  npy_uint64 f = true /\ npy_shape f = [count] /\ npy_values f = order /\
  Z.of_nat (length order) = count.

(** The positions selected for a consumer: its cyclic span, through the shared
    order when there is one. *)
Definition planned_rows (order : option (list Z)) (count offset len : Z) : list Z :=
  match order with
  | None => cyclic_rows count offset len
  | Some o => map (order_at o) (cyclic_rows count offset len)
  end.

Definition seed_order (order : list Z) (partition_seed : option Z) : option (list Z) :=
  match partition_seed with None => None | Some _ => Some order end.

Lemma population_selection_plan order f count offset len seed :
  0 < count -> 0 <= offset -> 0 < len -> count + len <= 2 ^ 63 -> order_ok count order f ->
  exists sel, population_selection (Some f) count offset len seed = Ret sel /\
    default (seqZ 0 count) sel = planned_rows (seed_order order seed) count offset len.
Proof.
  intros Hc Ho Hl Hb (Hd & Hs & Hv & Hlen). unfold population_selection.
  destruct (Z.ltb_spec offset 0); [lia|]. destruct (Z.leb_spec len 0); [lia|]. simpl.
  destruct seed as [s|]; simpl.
  - rewrite Hd, Hs, Hv, bool_decide_true by done. simpl. rewrite py_mod_pos by lia. simpl.
    pose proof (Z.mod_pos_bound offset count Hc).
    rewrite <- cyclic_rows_shift by done.
    destruct (Z.leb_spec (offset mod count + len) count).
    + eexists. split; [done|]. simpl. rewrite slice_lookup by lia.
      by rewrite cyclic_rows_straight by lia.
    + rewrite (traverse_ret _ (fun i => order_at order ((offset mod count + i) mod count))).
      * eexists. split; [done|]. simpl. unfold cyclic_rows. by rewrite map_map.
      * intros i Hi%elem_of_seqZ. rewrite cyclic_index_u64 by lia. rewrite Z.add_mod_idemp_l by lia.
        apply index_at_lookup. rewrite Hlen. by apply Z.mod_pos_bound.
  - destruct (Z.eqb_spec offset 0) as [->|]; [destruct (Z.eqb_spec len count) as [->|]|]; simpl.
    + eexists. split; [done|]. simpl. by rewrite cyclic_rows_straight by lia.
    + rewrite py_mod_pos by lia. eexists. split; [done|]. simpl.
      apply map_ext_elem. intros i Hi%elem_of_seqZ. by rewrite cyclic_index_u64 by lia.
    + rewrite py_mod_pos by lia. eexists. split; [done|]. simpl.
      apply map_ext_elem. intros i Hi%elem_of_seqZ. by rewrite cyclic_index_u64 by lia.
Qed.

Lemma select_population_plan {Row} `{Inhabited Row} permutation (table : list Row) offset len seed :
  let count := Z.of_nat (length table) in
  0 < count -> 0 <= offset -> 0 < len -> count + len <= 2 ^ 63 ->
  (forall s, permutation s count ≡ₚ seqZ 0 count) ->
  select_population permutation table offset len seed =
  Ret (map (fun i => table !!! Z.to_nat i)
         (planned_rows (s ← seed; Some (permutation s count)) count offset len)).
Proof.
  intros count Hc Ho Hl Hb Hp. unfold select_population. fold count.
  destruct (Z.ltb_spec len 0); [lia|]. destruct (Z.ltb_spec offset 0); [lia|].
  destruct (Z.eqb_spec len 0); [lia|]. simpl.
  destruct seed as [s|]; [|destruct (Z.leb_spec (offset + len) count)]; simpl.
  - rewrite py_mod_pos by lia. simpl.
    assert (Hlen : Z.of_nat (length (permutation s count)) = count).
    { rewrite (Hp s), length_seqZ. lia. }
    assert (E : map (fun i => wrap_i64 (i + offset mod count) mod count) (seqZ 0 len) =
                cyclic_rows count offset len).
    { apply map_ext_elem. intros i Hi%elem_of_seqZ. by rewrite cyclic_index_i64 by lia. }
    rewrite E, traverse_index_at
      by (intros i Hi; rewrite Hlen; by eapply cyclic_rows_range). simpl.
    apply traverse_index_at. intros j [i [-> Hi]]%list_elem_of_fmap. fold count. unfold order_at.
    apply cyclic_rows_range in Hi; [|done].
    destruct (lookup_lt_is_Some_2 (permutation s count) (Z.to_nat i)) as [x Hx]; [lia|].
    rewrite (list_lookup_total_correct _ _ _ Hx).
    apply list_elem_of_lookup_2 in Hx. rewrite (Hp s) in Hx. apply elem_of_seqZ in Hx. lia.
  - rewrite slice_lookup by lia. by rewrite cyclic_rows_straight by lia.
  - rewrite py_mod_pos by lia. simpl.
    rewrite (map_ext_elem _ (fun i => (offset + i) mod count)).
    + apply traverse_index_at. intros i Hi. fold count. by eapply cyclic_rows_range.
    + intros i Hi%elem_of_seqZ. by rewrite cyclic_index_i64 by lia.
Qed.

Section NumpyShuffle.
(** [np.random.default_rng(seed).shuffle(l)] rearranges [l], and
    [np.random.default_rng(seed).permutation(n)] is the shuffled range. *)
Context (shuffle : Z -> list Z -> list Z) (permutation : Z -> Z -> list Z).
Context (shuffle_rearranges : forall s l, shuffle s l ≡ₚ l).
Context (permutation_shuffles_range : forall s n, permutation s n = shuffle s (seqZ 0 n)).

Lemma prepare_row_order_ok count seed : 0 <= count ->
  order_ok count (shuffle seed (seqZ 0 count)) (prepare_row_order shuffle count seed).
Proof.
  intros Hc. unfold prepare_row_order.
  rewrite fill_order_complete by (done || reflexivity).
  split_and!; [done..|]. rewrite shuffle_rearranges, length_seqZ. lia.
Qed.

(** C32. A worker that maps the shared permutation file and hands row positions
    to the native reader sees exactly the rows of the reference selection,
    wrap-around, whole-table and shuffled cases included. *)
Theorem selection_matches_reference {Row} `{Inhabited Row} (table : list Row)
    (offset len : Z) (seed : Z) (partition_seed : option Z)
    (Hc : 0 < Z.of_nat (length table)) (Ho : 0 <= offset) (Hl : 0 < len)
    (Hb : Z.of_nat (length table) + len <= 2 ^ 63)
    (Hseed : forall s, partition_seed = Some s -> s = seed) :
  (sel ← population_selection
           (Some (prepare_row_order shuffle (Z.of_nat (length table)) seed))
           (Z.of_nat (length table)) offset len partition_seed;
   selected_rows table sel) =
  select_population permutation table offset len partition_seed.
Proof.
  set (count := Z.of_nat (length table)) in *.
  destruct (population_selection_plan _ _ count offset len partition_seed Hc Ho Hl Hb
              (prepare_row_order_ok count seed ltac:(lia))) as (sel & -> & Hsel). simpl.
  rewrite (select_population_plan permutation table) by
    (try done; intros s; by rewrite permutation_shuffles_range, shuffle_rearranges). fold count.
  assert (E : seed_order (shuffle seed (seqZ 0 count)) partition_seed =
              (s ← partition_seed; Some (permutation s count))).
  { destruct partition_seed as [s|]; [|done]. simpl.
    by rewrite (Hseed s eq_refl), permutation_shuffles_range. }
  rewrite <- E, <- Hsel. destruct sel as [idx|]; simpl.
  - apply traverse_index_at. intros i Hi. fold count. simpl in Hsel. rewrite Hsel in Hi.
    destruct partition_seed as [s|]; simpl in Hi.
    + apply list_elem_of_fmap in Hi as [j [-> Hj]]. apply cyclic_rows_range in Hj; [|done].
      unfold order_at.
      destruct (lookup_lt_is_Some_2 (shuffle seed (seqZ 0 count)) (Z.to_nat j)) as [x Hx].
      { rewrite shuffle_rearranges, length_seqZ. lia. }
      rewrite (list_lookup_total_correct _ _ _ Hx). apply list_elem_of_lookup_2 in Hx.
      rewrite shuffle_rearranges in Hx. apply elem_of_seqZ in Hx. lia.
    + by eapply cyclic_rows_range.
  - unfold count. by rewrite seqZ_lookup_all.
Qed.
End NumpyShuffle.

Lemma selection_matches_reference_witness :
  (sel ← population_selection (Some (prepare_row_order (fun _ l => reverse l) 3 5)) 3 2 2 (Some 5);
   selected_rows [10; 20; 30] sel) =
  select_population (fun _ n => reverse (seqZ 0 n)) [10; 20; 30] 2 2 (Some 5).
Proof.
  apply (selection_matches_reference (fun _ l => reverse l) (fun _ n => reverse (seqZ 0 n))
           (fun _ l => reverse_Permutation l) (fun _ _ => eq_refl) [10; 20; 30] 2 2 5 (Some 5)).
  - reflexivity.
  - discriminate.
  - reflexivity.
  - discriminate.
  - intros s [= <-]. reflexivity.
Defined.
