(* ===== verification/PyStr.v ===== *)
(** The string operations of the Python standard library that the package uses
    on kernel files and environment variables: [split], [splitlines], [strip],
    [replace], [join] and [int]. Strings are lists of code points; [int] accepts
    the ASCII digits, the only ones these inputs contain. *)
From stdpp Require Import base tactics list numbers strings.
From S2P Require Import Prelude.
Open Scope Z_scope.

(** * Classification *)

(** [str.isspace] of one character. *)
Definition is_space (c : Z) : bool :=
  ((9 <=? c) && (c <=? 13)) || ((28 <=? c) && (c <=? 32)) || (c =? 0x85) || (c =? 0xA0) ||
  (c =? 0x1680) || ((0x2000 <=? c) && (c <=? 0x200A)) || (c =? 0x2028) || (c =? 0x2029) ||
  (c =? 0x202F) || (c =? 0x205F) || (c =? 0x3000).

(** The line boundaries of [str.splitlines]. *)
Definition is_line_break (c : Z) : bool :=
  ((10 <=? c) && (c <=? 13)) || ((28 <=? c) && (c <=? 30)) || (c =? 0x85) ||
  (c =? 0x2028) || (c =? 0x2029).

Definition is_digit (c : Z) : bool := (48 <=? c) && (c <=? 57).

(** * Splitting *)

(** [s.split(sep)] for a one-character separator; [cur] is the current field
    reversed. *)
Fixpoint split_aux (sep : Z) (cur : pystr) (s : pystr) : list pystr :=
  match s with
  | [] => [rev cur]
  | c :: r => if c =? sep then rev cur :: split_aux sep [] r else split_aux sep (c :: cur) r
  end.
Definition split_char (sep : Z) (s : pystr) : list pystr := split_aux sep [] s.

(** [s.split(sep, n)]: at most [n] cuts. *)
Fixpoint split_max_aux (sep : Z) (n : nat) (cur : pystr) (s : pystr) : list pystr :=
  match s with
  | [] => [rev cur]
  | c :: r =>
      if c =? sep then
        match n with
        | O => [rev cur ++ s]
        | S n' => rev cur :: split_max_aux sep n' [] r
        end
      else split_max_aux sep n (c :: cur) r
  end.
Definition split_char_max (sep : Z) (n : nat) (s : pystr) : list pystr := split_max_aux sep n [] s.

(** [s.startswith(p)], with the rest of the string. *)
Fixpoint strip_prefix (p s : pystr) : option pystr :=
  match p, s with
  | [], _ => Some s
  | a :: p', b :: s' => if a =? b then strip_prefix p' s' else None
  | _ :: _, [] => None
  end.

(** [s.split(sep, 1)] for a longer separator. *)
Fixpoint split_once_aux (sep : pystr) (cur : pystr) (s : pystr) : list pystr :=
  match strip_prefix sep s with
  | Some r => [rev cur; r]
  | None =>
      match s with
      | [] => [rev cur]
      | c :: r => split_once_aux sep (c :: cur) r
      end
  end.
Definition split_once (sep s : pystr) : list pystr := split_once_aux sep [] s.

(** [s.splitlines()]: a carriage return and line feed pair is one boundary. *)
Fixpoint splitlines_aux (cur : pystr) (started : bool) (s : pystr) : list pystr :=
  match s with
  | [] => if started then [rev cur] else []
  | c :: r =>
      if is_line_break c then
        rev cur ::
        match r with
        | d :: r' => if (c =? 13) && (d =? 10) then splitlines_aux [] false r'
                     else splitlines_aux [] false r
        | [] => splitlines_aux [] false r
        end
      else splitlines_aux (c :: cur) true r
  end.
Definition splitlines (s : pystr) : list pystr := splitlines_aux [] false s.

(** Leading whitespace removed. *)
Fixpoint lstrip (s : pystr) : pystr :=
  match s with
  | c :: r => if is_space c then lstrip r else s
  | [] => []
  end.
Definition strip (s : pystr) : pystr := rev (lstrip (rev (lstrip s))).

(** [s.split(maxsplit=n)] on whitespace runs, and [s.split()]. *)
Fixpoint split_ws_aux (n : option nat) (cur : pystr) (s : pystr) : list pystr :=
  match s with
  | [] => match cur with [] => [] | _ => [rev cur] end
  | c :: r =>
      if is_space c then
        match cur with
        | [] => split_ws_aux n [] r
        | _ => rev cur ::
               match n with
               | Some (S O) => match lstrip r with [] => [] | t => [t] end
               | Some (S n') => split_ws_aux (Some n') [] r
               | Some O => []
               | None => split_ws_aux None [] r
               end
        end
      else split_ws_aux n (c :: cur) r
  end.
Definition split_ws (s : pystr) : list pystr := split_ws_aux None [] s.
Definition split_ws_max (n : nat) (s : pystr) : list pystr := split_ws_aux (Some n) [] s.

(** [s.replace(old, new)], scanning with [skip] characters of a match left. *)
Fixpoint replace_aux (old new : pystr) (skip : nat) (s : pystr) : pystr :=
  match s with
  | [] => []
  | c :: r =>
      match skip with
      | S k => replace_aux old new k r
      | O => match strip_prefix old s with
             | Some _ => new ++ replace_aux old new (Nat.pred (length old)) r
             | None => c :: replace_aux old new O r
             end
      end
  end.
Definition replace (old new s : pystr) : pystr := replace_aux old new O s.

(** [sep.join(parts)]. *)
Fixpoint join (sep : pystr) (parts : list pystr) : pystr :=
  match parts with
  | [] => []
  | [p] => p
  | p :: r => p ++ sep ++ join sep r
  end.

(** * Integers *)

(** Digits with single underscores between them; [after] tells whether the
    previous character was a digit. *)
Fixpoint digits_value (acc : Z) (after : bool) (s : pystr) : option Z :=
  match s with
  | [] => if after then Some acc else None
  | c :: r =>
      if is_digit c then digits_value (acc * 10 + (c - 48)) true r
      else if (c =? 95) && after then
        match r with
        | d :: _ => if is_digit d then digits_value acc false r else None
        | [] => None
        end
      else None
  end.

(** [int(s)]. *)
Definition py_int (s : pystr) : outcome Z :=
  let bad := Raise (ValueError (lit "invalid literal for int() with base 10: " ++ s)) in
  let value t := match digits_value 0 false t with Some z => Ret z | None => bad end in
  match strip s with
  | 43 :: t => value t
  | 45 :: t => z ← value t; Ret (- z)
  | t => value t
  end.
