(* ===== verification/Resources.v ===== *)
(** Worker counts from a CPU budget: [native_worker_count] and
    [loading_worker_count] of [src/dataset_rt/resources.py], and the resolution
    of automatic counts of [src/dataset_rt/integrations/loading.py]. *)
From stdpp Require Import base tactics list numbers strings.
From S2P Require Import Prelude PyStr.
Open Scope Z_scope.

(** Share a CPU budget across consumers, capped at four native threads. *)
Definition native_worker_count (cpu_count num_workers local_ranks : Z) : outcome Z :=
  if (cpu_count <? 1) || (num_workers <? 0) || (local_ranks <? 1)
  then Raise (ValueError
    (lit "CPU and rank budgets must be positive; loading workers nonnegative"))
  else
    q ← py_div cpu_count (Z.max 1 num_workers * local_ranks);
    Ret (Z.max 1 (Z.min 4 q)).

(** Up to four loading processes per rank, leaving one CPU for training. *)
Definition loading_worker_count (cpu_count local_ranks : Z) : outcome Z :=
  if (cpu_count <? 1) || (local_ranks <? 1)
  then Raise (ValueError (lit "CPU and rank budgets must be positive"))
  else
    q ← py_div cpu_count local_ranks;
    Ret (Z.min 4 (Z.max 0 (q - 1))).

(** [local_world_size] is the [LOCAL_WORLD_SIZE] environment variable. *)
Definition local_rank_count (local_world_size : option pystr) (world_size : Z) : outcome Z :=
  if 1 <? world_size then
    match local_world_size with
    | None => Ret world_size
    | Some configured =>
        local_ranks ← py_int configured;
        if (1 <=? local_ranks) && (local_ranks <=? world_size) then Ret local_ranks
        else Raise (ValueError
          (lit "LOCAL_WORLD_SIZE must be between one and the distributed world size"))
    end
  else Ret world_size.

(** An explicit count or the mode ["auto"]. *)
Inductive Count := Auto | Exactly (n : Z).

Record WorkerCounts := mk_counts { processes : Z; native_threads : Z }.

(** [cpus] is what [available_cpu_count()] returns; it is read only when a count
    is automatic. *)
Definition resolve_worker_counts (cpus : Z) (local_world_size : option pystr)
    (num_workers native_num_workers : Count) (world_size : Z) : outcome WorkerCounts :=
  match num_workers, native_num_workers with
  | Exactly processes, Exactly threads => Ret (mk_counts processes threads)
  | _, _ =>
      ranks ← local_rank_count local_world_size world_size;
      processes ← match num_workers with
                  | Auto => loading_worker_count cpus ranks
                  | Exactly n => Ret n
                  end;
      threads ← match native_num_workers with
                | Auto => native_worker_count cpus processes ranks
                | Exactly n => Ret n
                end;
      Ret (mk_counts processes threads)
  end.

Definition automatic_native_workers (cpus : Z) (local_world_size : option pystr)
    (num_workers world_size : Z) : outcome Z :=
  counts ← resolve_worker_counts cpus local_world_size (Exactly num_workers) Auto world_size;
  Ret (native_threads counts).

Lemma local_rank_count_range env w n : 1 <= w -> local_rank_count env w = Ret n -> 1 <= n <= w.
Proof.
  unfold local_rank_count. intros Hw H. ocase H; [|injection H as <-; lia].
  destruct env as [s|]; [|injection H as <-; lia].
  destruct (py_int s) as [z|]; [|discriminate]. simpl in H. ocase H.
  bools. injection H as <-. lia.
Qed.

(** Fully automatic counts stay in their documented ranges and within the
    budget: 0 to 4 loading processes and 1 to 4 native threads; with loading
    processes, one CPU per local rank stays free of the processes; and whenever
    more than the one-thread minimum is chosen, the native threads of all
    consumers of all local ranks fit the CPU budget. *)
Theorem automatic_counts_within_budget (cpus w ranks : Z) (env : option pystr)
    (Hcpus : 1 <= cpus) (Hw : 1 <= w) (Hranks : local_rank_count env w = Ret ranks) :
  exists p t, resolve_worker_counts cpus env Auto Auto w = Ret (mk_counts p t) /\
    0 <= p <= 4 /\ 1 <= t <= 4 /\
    (0 < p -> (p + 1) * ranks <= cpus) /\
    (1 < t -> t * Z.max 1 p * ranks <= cpus).
Proof.
  apply local_rank_count_range in Hranks as Hr; [|done].
  unfold resolve_worker_counts. rewrite Hranks. simpl.
  unfold loading_worker_count, native_worker_count.
  destruct (Z.ltb_spec cpus 1); [lia|]. destruct (Z.ltb_spec ranks 1); [lia|]. simpl.
  rewrite py_div_pos by lia. simpl. set (p := Z.min 4 _).
  assert (Hp : 0 <= p <= 4) by lia. destruct (Z.ltb_spec p 0); [lia|]. simpl.
  rewrite py_div_pos by nia. simpl. eexists p, _. split; [done|].
  split_and!; try lia.
  - intros Hp0. assert (p + 1 <= cpus / ranks) by lia.
    pose proof (Z.mul_div_le cpus ranks ltac:(lia)). nia.
  - intros Ht. set (q := cpus / (Z.max 1 p * ranks)) in *.
    assert (Z.max 1 (Z.min 4 q) <= q) by lia.
    pose proof (Z.mul_div_le cpus (Z.max 1 p * ranks) ltac:(nia)). fold q in H3.
    transitivity (Z.max 1 p * ranks * q); [|done]. nia.
Qed.

Lemma automatic_counts_within_budget_witness :
  exists p t, resolve_worker_counts 16 (Some (lit "2")) Auto Auto 8 = Ret (mk_counts p t) /\
    0 <= p <= 4 /\ 1 <= t <= 4 /\
    (0 < p -> (p + 1) * 2 <= 16) /\ (1 < t -> t * Z.max 1 p * 2 <= 16).
Proof.
  apply (automatic_counts_within_budget 16 8 2 (Some (lit "2"))).
  - discriminate.
  - discriminate.
  - reflexivity.
Defined.
