(* ===== verification/Options.v ===== *)
(** Loader settings of [src/dataset_rt/integrations/loader_options.py]: the
    construction-time validation of [LoaderOptions] and the resolution of its
    automatic modes. Arguments arrive as dynamic Python values. *)
From stdpp Require Import base tactics list numbers strings.
From S2P Require Import Prelude PyStr Resources.
Open Scope Z_scope.

(** [sys.maxsize] of a 64-bit build. *)
Definition sys_maxsize : Z := 2 ^ 63 - 1.
Definition MAX_SAMPLE_BUDGET : Z := Z.min sys_maxsize (Z.shiftl 1 53).

(** The [multiprocessing_context] argument: a string, a context object carrying
    its start method, or anything else. *)
Inductive ContextArg :=
| ContextName (s : pystr)
| ContextObject (method : pystr)
| ContextOther.

(** The settings as supplied by the caller. *)
Record LoaderOptions := mk_options {
  opt_shuffle : pyval;
  opt_seed : pyval;
  opt_samples_per_epoch : pyval;
  opt_partition : pyval;
  opt_batch_size : pyval;
  opt_num_workers : pyval;
  opt_native_num_workers : pyval;
  opt_drop_last : pyval;
  opt_pin_memory : pyval;
  opt_persistent_workers : pyval;
  opt_timeout : pyval;
  opt_context : ContextArg;
  opt_prefetch : pyval;
  opt_verbose : pyval }.

Inductive WorkerPartition := Split | Replicate.

#[export] Instance WorkerPartition_eq_dec : EqDecision WorkerPartition.
Proof. solve_decision. Defined.

(** [_validate_count]: ["auto"], or a plain integer in the range. *)
Definition validate_count (value : pyval) (name : pystr) (minimum maximum : Z) : outcome unit :=
  let bad := Raise (ValueError
    (name ++ lit " must be 'auto' or an integer between " ++ dec minimum ++ lit " and " ++ dec maximum)) in
  match value with
  | PStr s => if decide (s = lit "auto") then Ret tt else bad
  | PInt z => if (minimum <=? z) && (z <=? maximum) then Ret tt else bad
  | _ => bad
  end.

Definition validate_bool (name : pystr) (value : pyval) : outcome unit :=
  match value with
  | PBool _ => Ret tt
  | _ => Raise (ValueError (name ++ lit " must be a boolean"))
  end.

(** [isfinite(timeout)] and [timeout < 0] on the numeric types. An integer that
    rounds beyond the largest float cannot be converted. *)
Definition validate_timeout (value : pyval) : outcome unit :=
  let bad := Raise (ValueError (lit "timeout must be finite and nonnegative")) in
  match value with
  | PInt z =>
      if 2 ^ 1024 - 2 ^ 970 <=? Z.abs z
      then Raise (OtherException (lit "OverflowError") (lit "int too large to convert to float"))
      else if z <? 0 then bad else Ret tt
  | PBool _ => Ret tt
  | PFloat f => if negb (float_isfinite f) || float_lt0 f then bad else Ret tt
  | _ => Raise (TypeError (lit "must be real number"))
  end.

(** The literal patterns [True] and [False] match by identity, so an integer equal
    to one of them is refused. *)
Definition validate_persistent (value : pyval) : outcome unit :=
  match value with
  | PBool _ => Ret tt
  | PStr s => if decide (s = lit "auto") then Ret tt
              else Raise (ValueError (lit "persistent_workers must be a boolean or 'auto'"))
  | _ => Raise (ValueError (lit "persistent_workers must be a boolean or 'auto'"))
  end.

Definition validate_seed (shuffle : bool) (seed : pyval) : outcome unit :=
  let bad := Raise (ValueError (lit "seed must be 'random' or an unsigned 64-bit integer")) in
  match seed with
  | PStr s => if decide (s = lit "random") then Ret tt else bad
  | PInt z =>
      if negb shuffle
      then Raise (ValueError (lit "seed requires shuffle=True; use 'random' for sequential reading"))
      else if (0 <=? z) && (z <? Z.shiftl 1 64) then Ret tt else bad
  | _ => bad
  end.

(** [methods] is [get_all_start_methods()] of the platform. *)
Definition validate_context (methods : list pystr) (context : ContextArg) : outcome unit :=
  let bad := Raise (ValueError
    (lit "multiprocessing_context must be 'inherit', an available start method, or BaseContext")) in
  match context with
  | ContextObject _ => Ret tt
  | ContextName s =>
      if decide (s = lit "inherit") then Ret tt
      else if bool_decide (s ∈ methods) then Ret tt else bad
  | ContextOther => bad
  end.

Definition validate_partition (value : pyval) : outcome unit :=
  match value with
  | PNone => Ret tt
  | PStr s => if decide (s = lit "split") then Ret tt
              else if decide (s = lit "replicate") then Ret tt
              else Raise (ValueError (lit "worker_partition must be 'split', 'replicate', or None"))
  | _ => Raise (ValueError (lit "worker_partition must be 'split', 'replicate', or None"))
  end.

Definition validate_batch_size (value : pyval) : outcome unit :=
  let bad := Raise (ValueError (lit "batch_size must be a positive integer fitting sys.maxsize")) in
  match value with
  | PInt z => if (1 <=? z) && (z <=? sys_maxsize) then Ret tt else bad
  | _ => bad
  end.

Definition validate_samples (value : pyval) : outcome unit :=
  let bad := Raise (ValueError
    (lit "samples_per_epoch must be a positive integer <= " ++ dec MAX_SAMPLE_BUDGET ++ lit " or None")) in
  match value with
  | PNone => Ret tt
  | PInt z => if (1 <=? z) && (z <=? MAX_SAMPLE_BUDGET) then Ret tt else bad
  | _ => bad
  end.

(** Truth of a validated boolean. *)
Definition truth (v : pyval) : bool := match v with PBool b => b | _ => false end.

(** [LoaderOptions.__post_init__]: every check in the order of the code. *)
Definition post_init (methods : list pystr) (o : LoaderOptions) : outcome unit :=
  _ ← validate_count (opt_num_workers o) (lit "num_workers") 0 (Z.shiftl 1 32 - 1);
  _ ← validate_count (opt_native_num_workers o) (lit "native_num_workers") 1 sys_maxsize;
  _ ← validate_bool (lit "shuffle") (opt_shuffle o);
  _ ← validate_bool (lit "drop_last") (opt_drop_last o);
  _ ← validate_bool (lit "pin_memory") (opt_pin_memory o);
  _ ← validate_bool (lit "verbose") (opt_verbose o);
  _ ← validate_batch_size (opt_batch_size o);
  _ ← validate_samples (opt_samples_per_epoch o);
  _ ← validate_timeout (opt_timeout o);
  _ ← validate_count (opt_prefetch o) (lit "prefetch_factor") 1 sys_maxsize;
  _ ← validate_persistent (opt_persistent_workers o);
  _ ← validate_seed (truth (opt_shuffle o)) (opt_seed o);
  _ ← validate_context methods (opt_context o);
  validate_partition (opt_partition o).

(** * Resolution *)

(** A validated count argument. *)
Definition count_of (v : pyval) : Count := match v with PInt z => Exactly z | _ => Auto end.

Record ResolvedWorkers := mk_resolved {
  counts : WorkerCounts;
  persistent : bool;
  prefetch : option Z;
  context : option pystr }.

(** [default_method] is the start method of [get_context()]. *)
Definition resolve_context (default_method : pystr) (ctx : ContextArg) (procs : Z)
  : outcome (option pystr) :=
  if procs =? 0 then Ret None
  else match ctx with
  | ContextName s => if decide (s = lit "inherit") then Ret (Some default_method) else Ret (Some s)
  | ContextObject m => Ret (Some m)
  | ContextOther => Ret None
  end.

Definition resolve_persistence (v : pyval) (procs : Z) : outcome bool :=
  match v with
  | PStr s => if decide (s = lit "auto") then Ret (0 <? procs)
              else Raise (ValueError (lit "persistent_workers must be a boolean or 'auto'"))
  | PBool b =>
      if b && (procs =? 0)
      then Raise (ValueError (lit "persistent_workers=True requires num_workers > 0"))
      else Ret b
  | _ => Raise (ValueError (lit "persistent_workers must be a boolean or 'auto'"))
  end.

Definition resolve_prefetch (v : pyval) (procs : Z) : outcome (option Z) :=
  match v with
  | PStr s => if decide (s = lit "auto") then Ret (if 0 <? procs then Some 2 else None)
              else Raise (ValueError (lit "prefetch_factor must be a positive integer or 'auto'"))
  | PInt z => if procs =? 0
              then Raise (ValueError (lit "prefetch_factor requires num_workers > 0"))
              else Ret (Some z)
  | _ => Raise (ValueError (lit "prefetch_factor must be a positive integer or 'auto'"))
  end.

Definition timeout_nonzero (v : pyval) : bool :=
  match v with
  | PInt z => negb (z =? 0)
  | PBool b => b
  | PFloat f => float_ne0 f
  | _ => true
  end.

Definition resolve_workers (cpus : Z) (local_world_size : option pystr) (default_method : pystr)
    (o : LoaderOptions) (world_size : Z) : outcome ResolvedWorkers :=
  c ← resolve_worker_counts cpus local_world_size
        (count_of (opt_num_workers o)) (count_of (opt_native_num_workers o)) world_size;
  if (processes c =? 0) && timeout_nonzero (opt_timeout o)
  then Raise (ValueError (lit "timeout must be zero with num_workers=0"))
  else
    p ← resolve_persistence (opt_persistent_workers o) (processes c);
    f ← resolve_prefetch (opt_prefetch o) (processes c);
    ctx ← resolve_context default_method (opt_context o) (processes c);
    Ret (mk_resolved c p f ctx).

Definition resolved_seed (o : LoaderOptions) : option pyval :=
  match opt_seed o with PStr _ => None | v => Some v end.

Definition resolved_partition (o : LoaderOptions) : WorkerPartition :=
  match opt_partition o with
  | PStr s => if decide (s = lit "split") then Split else Replicate
  | _ => if truth (opt_shuffle o) then Replicate else Split
  end.

(** * Properties *)

(** What accepted settings guarantee to the planner. *)
Record accepted (o : LoaderOptions) : Prop := mk_accepted {
  acc_shuffle : exists b, opt_shuffle o = PBool b;
  acc_drop_last : exists b, opt_drop_last o = PBool b;
  acc_batch : exists n, opt_batch_size o = PInt n /\ 1 <= n <= sys_maxsize;
  acc_samples : opt_samples_per_epoch o = PNone \/
                exists n, opt_samples_per_epoch o = PInt n /\ 1 <= n <= MAX_SAMPLE_BUDGET;
  acc_workers : opt_num_workers o = PStr (lit "auto") \/
                exists n, opt_num_workers o = PInt n /\ 0 <= n < Z.shiftl 1 32;
  acc_threads : opt_native_num_workers o = PStr (lit "auto") \/
                exists n, opt_native_num_workers o = PInt n /\ 1 <= n <= sys_maxsize;
  acc_prefetch : opt_prefetch o = PStr (lit "auto") \/
                exists n, opt_prefetch o = PInt n /\ 1 <= n <= sys_maxsize;
  acc_persistent : opt_persistent_workers o = PStr (lit "auto") \/
                exists b, opt_persistent_workers o = PBool b;
  acc_seed : opt_seed o = PStr (lit "random") \/
             exists s, opt_seed o = PInt s /\ opt_shuffle o = PBool true /\ 0 <= s < Z.shiftl 1 64;
  acc_context : opt_context o <> ContextOther;
  acc_partition : opt_partition o = PNone \/ opt_partition o = PStr (lit "split") \/
                  opt_partition o = PStr (lit "replicate") }.

Lemma validate_count_inv v n lo hi : validate_count v n lo hi = Ret tt ->
  v = PStr (lit "auto") \/ exists z, v = PInt z /\ lo <= z <= hi.
Proof.
  unfold validate_count. destruct v; try discriminate; intros H; ocase H; bools; subst; eauto.
Qed.

Lemma validate_bool_inv n v : validate_bool n v = Ret tt -> exists b, v = PBool b.
Proof. destruct v; try discriminate. eauto. Qed.

Lemma validate_seed_inv b s : validate_seed b s = Ret tt ->
  s = PStr (lit "random") \/ exists z, s = PInt z /\ b = true /\ 0 <= z < Z.shiftl 1 64.
Proof.
  unfold validate_seed. destruct s; try discriminate; intros H; [|ocase H; subst; eauto].
  destruct b; [|discriminate]. simpl in H. ocase H. bools. eauto 10.
Qed.

Lemma post_init_accepted methods o : post_init methods o = Ret tt -> accepted o.
Proof.
  unfold post_init. intros H.
  repeat match type of H with
  | _ ≫= _ = Ret _ => let x := fresh "x" in let Hx := fresh "Hx" in
                      apply bind_ret in H as (x & Hx & H); destruct x
  end.
  apply validate_bool_inv in Hx1 as [b Hb], Hx2, Hx3, Hx4.
  rewrite Hb in Hx10. simpl in Hx10. apply validate_seed_inv in Hx10.
  constructor; eauto using validate_count_inv.
  - unfold validate_batch_size in Hx5. destruct (opt_batch_size o); try discriminate.
    ocase Hx5. bools. eauto.
  - unfold validate_samples in Hx6. destruct (opt_samples_per_epoch o); try discriminate; eauto.
    ocase Hx6. bools. eauto.
  - apply validate_count_inv in Hx as [|(z & ? & ?)]; [by left|right; exists z]. split; [done|].
    change (Z.shiftl 1 32) with (Z.shiftl 1 32 - 1 + 1). lia.
  - unfold validate_persistent in Hx9. destruct (opt_persistent_workers o); try discriminate; eauto.
    ocase Hx9. subst. eauto.
  - destruct Hx10 as [?|(z & ? & -> & ?)]; [by left|right; eauto].
  - intros E. rewrite E in Hx11. discriminate.
  - unfold validate_partition in H. destruct (opt_partition o); try discriminate; eauto.
    ocase H; subst; eauto. ocase H. subst. eauto.
Qed.


Definition sample_options : LoaderOptions :=
  mk_options (PBool true) (PInt 7) PNone PNone (PInt 32) (PInt 2) (PStr (lit "auto"))
    (PBool false) (PBool false) (PStr (lit "auto")) (PInt 0) (ContextName (lit "spawn"))
    (PStr (lit "auto")) (PBool true).

