(* ===== verification/Planner.v ===== *)
(** Worker plans: [WorkerPlan] of [src/dataset_rt/integrations/loading.py] and
    [prepare_partitions] of [src/dataset_rt/integrations/loader.py], which fixes
    for every loading worker its population, its sample quota and its seeds. *)
From stdpp Require Import base tactics list numbers strings.
From S2P Require Import Prelude Records Config Seeds Partition Reconstruction Options.
Open Scope Z_scope.

(** * Operations *)

Record WorkerPlan := mk_plan {
  plan_rank : Z;
  plan_worker_id : Z;
  plan_offset : Z;
  plan_population_size : Z;
  plan_sample_count : Z;
  plan_seed : Z;
  plan_partition_seed : option Z }.

#[export] Instance WorkerPlan_eq_dec : EqDecision WorkerPlan.
Proof. solve_decision. Defined.

(** The field bounds of the model. *)
Definition plan_valid (p : WorkerPlan) : bool :=
  in_range 0 (Z.shiftl 1 32) (plan_rank p) &&
  in_range 0 (Z.shiftl 1 32) (plan_worker_id p) &&
  (0 <=? plan_offset p) && (0 <=? plan_population_size p) && (0 <=? plan_sample_count p) &&
  in_range 0 (Z.shiftl 1 64) (plan_seed p) &&
  match plan_partition_seed p with
  | None => true
  | Some s => in_range 0 (Z.shiftl 1 64) s
  end.

Definition make_plan (p : WorkerPlan) : outcome WorkerPlan :=
  if plan_valid p then Ret p else Raise (ValidationError (lit "WorkerPlan")).

(** Rows of the population given to one worker. *)
Definition population_of (partition : WorkerPartition) (row_count : Z) (full_pass : bool)
    (rank_length active worker budget : Z) : outcome Z :=
  if budget =? 0 then Ret 0
  else match partition with
  | Replicate => Ret row_count
  | Split =>
      if full_pass then Ret budget
      else span ← partition_rows (PInt rank_length) (PInt active) (PInt worker);
           Ret (span_length span)
  end.

(** The loop over [enumerate(budgets)]; [fresh worker] is the value
    [secrets.randbits(64)] would return for that worker. *)
Fixpoint plan_loop (fresh : Z -> Z) (replica : ReplicaIdentity) (partition : WorkerPartition)
    (population : Z -> Z -> outcome Z) (shuffle : bool) (seed : option Z)
    (worker offset : Z) (budgets : list Z) : outcome (list WorkerPlan) :=
  match budgets with
  | [] => Ret []
  | budget :: rest =>
      population_size ← population worker budget;
      s ← reader_seed (fresh worker) shuffle seed (rank replica) worker;
      plan ← make_plan (mk_plan (rank replica) worker
               (match partition with Replicate => 0 | Split => offset end)
               population_size budget s
               (match partition with
                | Split => if shuffle then seed else None
                | Replicate => None
                end));
      plans ← plan_loop fresh replica partition population shuffle seed
                (worker + 1) (offset + population_size) rest;
      Ret (plan :: plans)
  end.

(** The rows the ranks share: the table for replicated workers; otherwise the
    table, padded to the effective budget of a full pass or to one row per rank. *)
Definition split_population (row_count samples_per_epoch count : Z) (w : Z) : outcome Z :=
  if samples_per_epoch =? row_count then Ret (count * w)
  else if row_count <? w
  then q ← py_div (row_count + w - 1) w; Ret (q * w)
  else Ret row_count.

Definition rank_population (partition : WorkerPartition) (row_count samples_per_epoch count : Z)
    (replica : ReplicaIdentity) (workers : Z) : outcome (RowSpan * Z) :=
  match partition with
  | Replicate => Ret (mk_span 0 row_count, workers)
  | Split =>
      population ← split_population row_count samples_per_epoch count (world_size replica);
      rank_span ← partition_rows (PInt population) (PInt (world_size replica)) (PInt (rank replica));
      Ret (rank_span, span_length rank_span)
  end.

Definition prepare_partitions (fresh : Z -> Z) (row_count : Z) (replica : ReplicaIdentity)
    (num_workers batch_size samples_per_epoch : Z) (partition : WorkerPartition)
    (shuffle : bool) (seed : option Z) (drop_last : bool)
  : outcome (list WorkerPlan * list py_warning) :=
  '(count, warnings) ← rank_budget samples_per_epoch replica batch_size drop_last;
  let workers := Z.max 1 num_workers in
  '(rank_span, populations) ←
     rank_population partition row_count samples_per_epoch count replica workers;
  budgets ← worker_budgets count workers populations batch_size;
  let active := Zsum (map (fun b => if 0 <? b then 1 else 0) budgets) in
  let full_pass := Zsum budgets =? span_length rank_span in
  plans ← plan_loop fresh replica partition
            (population_of partition row_count full_pass (span_length rank_span) active)
            shuffle seed 0 (span_offset rank_span) budgets;
  Ret (plans, warnings).

(** * The planning loop *)

(** Inputs the validated options, the captured replica and the loaded
    configuration guarantee. *)
Record plannable (row_count w num_workers batch samples : Z) (shuffle : bool) (seed : option Z)
  : Prop := mk_plannable {
  pl_rows : 1 <= row_count < 2 ^ 63;
  pl_world : 0 < w <= Z.shiftl 1 32;
  pl_workers : 0 <= num_workers < Z.shiftl 1 32;
  pl_batch : 1 <= batch;
  pl_samples : 1 <= samples <= MAX_SAMPLE_BUDGET;
  pl_seed : shuffle = true -> exists s, seed = Some s /\ is_u64 s }.

Definition plan_span (p : WorkerPlan) : Z * Z := (plan_offset p, plan_population_size p).

(** What a plan fixes beyond its quota: identity and seeds. *)
Definition plan_identity (fresh : Z -> Z) (partition : WorkerPartition) (shuffle : bool)
    (seed : option Z) (r : Z) (p : WorkerPlan) : Prop :=
  plan_rank p = r /\
  (partition = Replicate -> plan_offset p = 0) /\
  plan_partition_seed p =
    (match partition with Split => if shuffle then seed else None | Replicate => None end) /\
  reader_seed (fresh (plan_worker_id p)) shuffle seed r (plan_worker_id p) = Ret (plan_seed p).

Lemma in_range_true lo hi z : lo <= z < hi -> in_range lo hi z = true.
Proof. intros. unfold in_range. apply andb_true_iff. rewrite Z.leb_le, Z.ltb_lt. done. Qed.

Lemma reader_seed_ok fresh shuffle seed r k :
  (shuffle = true -> exists s, seed = Some s /\ is_u64 s) -> is_u32 r -> is_u32 k ->
  exists s, reader_seed fresh shuffle seed r k = Ret s /\ is_u64 s.
Proof.
  intros Hs Hr Hk. unfold reader_seed. destruct shuffle; simpl.
  - destruct Hs as (s & -> & Hs); [done|]. rewrite derive_seed_eq by done. eexists.
    split; [done|]. apply mix_u64_range, lxor_u64; auto with drt.
  - exists 0. split; [done|]. split; vm_compute; discriminate.
Qed.

Lemma u64_below z : is_u64 z -> 0 <= z < Z.shiftl 1 64.
Proof. rewrite is_u64_iff. done. Qed.

Lemma make_plan_ok p :
  is_u32 (plan_rank p) -> is_u32 (plan_worker_id p) -> 0 <= plan_offset p ->
  0 <= plan_population_size p -> 0 <= plan_sample_count p -> is_u64 (plan_seed p) ->
  (forall s, plan_partition_seed p = Some s -> is_u64 s) -> make_plan p = Ret p.
Proof.
  intros Hr Hk Ho Hp Hb Hs Hps. unfold make_plan, plan_valid.
  rewrite !in_range_true by (done || by apply u64_below).
  rewrite (proj2 (Z.leb_le _ _) Ho), (proj2 (Z.leb_le _ _) Hp), (proj2 (Z.leb_le _ _) Hb). simpl.
  destruct (plan_partition_seed p) as [s|]; [|done].
  by rewrite in_range_true by (by apply u64_below, Hps).
Qed.

Section Loop.
Context (fresh : Z -> Z) (r w : Z) (partition : WorkerPartition)
  (population : Z -> Z -> outcome Z) (shuffle : bool) (seed : option Z).
Context (Hr : is_u32 r) (Hseed : shuffle = true -> exists s, seed = Some s /\ is_u64 s).

Lemma partition_seed_u64 s :
  (match partition with Split => if shuffle then seed else None | Replicate => None end) = Some s ->
  is_u64 s.
Proof.
  destruct partition; [|discriminate]. destruct shuffle; [|discriminate].
  destruct Hseed as (s' & -> & ?); [done|]. by intros [= <-].
Qed.

Lemma plan_loop_ok budgets : forall pops worker offset,
  length pops = length budgets -> 0 <= offset -> 0 <= worker ->
  worker + Z.of_nat (length budgets) <= Z.shiftl 1 32 ->
  (forall k b p, budgets !! k = Some b -> pops !! k = Some p ->
     population (worker + Z.of_nat k) b = Ret p /\ 0 <= p /\ 0 <= b) ->
  exists plans,
    plan_loop fresh (mk_replica r w) partition population shuffle seed worker offset budgets =
      Ret plans /\
    map plan_sample_count plans = budgets /\ map plan_population_size plans = pops /\
    map plan_worker_id plans = seqZ worker (Z.of_nat (length budgets)) /\
    (partition = Split -> tiles offset (map plan_span plans)) /\
    Forall (plan_identity fresh partition shuffle seed r) plans.
Proof.
  induction budgets as [|b budgets IH]; intros [|p pops] worker offset Hl Ho Hw Hn Hpop;
    try discriminate Hl.
  { exists []. simpl. rewrite seqZ_nil by lia. by split_and!. }
  destruct (Hpop 0%nat b p) as (Ep & Hp & Hb); [done..|].
  rewrite Z.add_0_r in Ep. cbn [length] in Hl, Hn.
  destruct (reader_seed_ok (fresh worker) shuffle seed r worker) as (s & Es & Hs);
    [done|done|split; lia|].
  destruct (IH pops (worker + 1) (offset + p)) as (plans & E & Hb' & Hp' & Hk & Ht & HF);
    [lia..| |].
  { intros k b' p' H1 H2. destruct (Hpop (S k) b' p' H1 H2) as (E' & ? & ?).
    split; [|done]. by replace (worker + 1 + Z.of_nat k) with (worker + Z.of_nat (S k)) by lia. }
  eexists. cbn [plan_loop rank]. rewrite Ep. simpl. rewrite Es. simpl.
  rewrite make_plan_ok; simpl; [|try done..|apply partition_seed_u64]; [|split; lia|by destruct partition].
  rewrite E. simpl. split; [done|]. simpl. rewrite Hb', Hp', Hk.
  split_and!; [done..| |destruct partition; [|done]; simpl; auto|].
  - rewrite (seqZ_S worker) by lia. do 2 f_equal. lia.
  - constructor; [|done]. split_and!; try done. intros ->. done.
Qed.
End Loop.

(** * Populations *)

(** The populations of the workers with a quota. *)
Definition active_pops (partition : WorkerPartition) (row_count : Z) (full : bool) (len : Z)
    (active : list Z) : list Z :=
  match partition with
  | Replicate => map (fun _ => row_count) active
  | Split =>
      if full then active
      else map (fun i => span_length (row_span len (Z.of_nat (length active)) i))
             (seqZ 0 (Z.of_nat (length active)))
  end.

Lemma length_active_pops partition n full len active :
  length (active_pops partition n full len active) = length active.
Proof.
  destruct partition; simpl; [destruct full; [done|]|]; rewrite length_map, ?length_seqZ; lia.
Qed.

Lemma count_active active idle : Forall (Z.lt 0) active ->
  Zsum (map (fun b => if 0 <? b then 1 else 0) (active ++ replicate idle 0)) =
  Z.of_nat (length active).
Proof.
  intros H. rewrite map_app, Zsum_app, Zsum_zero_fun by done.
  induction H as [|b l Hb _ IH]; [done|]. simpl. rewrite Zsum_cons.
  destruct (Z.ltb_spec 0 b); lia.
Qed.

Lemma active_pops_pos partition n full len active :
  1 <= n -> Forall (Z.lt 0) active -> Z.of_nat (length active) <= len \/ partition = Replicate ->
  Forall (Z.lt 0) (active_pops partition n full len active).
Proof.
  intros Hn HF Hl. destruct partition; simpl; [destruct full; [done|]|].
  - apply Forall_map, Forall_forall. intros i Hi%elem_of_seqZ.
    destruct Hl as [Hl|]; [|done]. apply row_span_length_pos; lia.
  - apply Forall_map, Forall_forall. intros; lia.
Qed.

Lemma active_pops_sum n (full : bool) len active : 0 <= len -> active <> [] ->
  (full = true -> Zsum active = len) ->
  Zsum (active_pops Split n full len active) = len.
Proof.
  intros Hl Ha Hf. simpl. destruct full; [by apply Hf|].
  rewrite <- (map_map (row_span len (Z.of_nat (length active))) span_length).
  apply row_span_tiles; [done|]. destruct active; [done|]. simpl; lia.
Qed.

Lemma population_of_active partition n full len active idle k b p :
  is_u64 len -> is_u64 (Z.of_nat (length active)) -> 1 <= n -> Forall (Z.lt 0) active ->
  Z.of_nat (length active) <= len \/ partition = Replicate ->
  (active ++ replicate idle 0) !! k = Some b ->
  (active_pops partition n full len active ++ replicate idle 0) !! k = Some p ->
  population_of partition n full len (Z.of_nat (length active)) (0 + Z.of_nat k) b = Ret p /\
  0 <= p /\ 0 <= b.
Proof.
  intros Hlen Hact Hn HF Hl Hb Hp. unfold population_of. rewrite Z.add_0_l.
  pose proof (active_pops_pos partition n full len active Hn HF Hl) as HP.
  pose proof (length_active_pops partition n full len active) as HL.
  destruct (decide (k < length active)%nat) as [Hk|Hk].
  - rewrite lookup_app_l in Hb, Hp by lia.
    pose proof (Forall_lookup_1 _ _ _ _ HF Hb). pose proof (Forall_lookup_1 _ _ _ _ HP Hp).
    destruct (Z.eqb_spec b 0); [lia|]. split; [|lia].
    destruct partition; simpl in Hp; [destruct full|].
    + by simplify_eq.
    + rewrite partition_rows_ok by (done || lia).
      change (map ?f ?l) with (f <$> l) in Hp. rewrite list_lookup_fmap, lookup_seqZ_lt in Hp by lia.
      simplify_eq/=. done.
    + change (map ?f ?l) with (f <$> l) in Hp. rewrite list_lookup_fmap, Hb in Hp. by simplify_eq/=.
  - rewrite lookup_app_r in Hb, Hp by lia.
    apply lookup_replicate in Hb as [-> _], Hp as [-> _]. done.
Qed.

(** * Plans of one rank *)

(** The rows split among the ranks. *)
Definition effective_population (row_count samples count w : Z) : Z :=
  if samples =? row_count then count * w
  else if row_count <? w then (row_count + w - 1) / w * w else row_count.

(** Everything a prepared rank guarantees. *)
Record planned (fresh : Z -> Z) (row_count r w num_workers batch samples : Z)
    (partition : WorkerPartition) (shuffle : bool) (seed : option Z) (drop_last : bool)
    (plans : list WorkerPlan) : Prop := mk_planned {
  pd_ids : map plan_worker_id plans = seqZ 0 (Z.max 1 num_workers);
  pd_sum : Zsum (map plan_sample_count plans) = local_budget samples w batch drop_last;
  pd_active : Forall (fun p => 0 <= plan_sample_count p /\ 0 <= plan_population_size p /\
                (0 < plan_sample_count p <-> 0 < plan_population_size p)) plans;
  pd_split : partition = Split ->
    let rank_span := row_span (effective_population row_count samples
                       (local_budget samples w batch drop_last) w) w r in
    tiles (span_offset rank_span) (map plan_span plans) /\
    (0 < local_budget samples w batch drop_last ->
     Zsum (map plan_population_size plans) = span_length rank_span);
  pd_full : partition = Split -> samples = row_count ->
    map plan_population_size plans = map plan_sample_count plans;
  pd_replicate : partition = Replicate ->
    Forall (fun p => 0 < plan_sample_count p -> plan_population_size p = row_count) plans;
  pd_identity : Forall (plan_identity fresh partition shuffle seed r) plans;
  pd_batches : Zsum (map (ceil_batches batch) (map plan_sample_count plans)) =
    ceil_batches batch (local_budget samples w batch drop_last) }.

Lemma Forall_two_maps {A} (f g : A -> Z) (R : Z -> Z -> Prop) l :
  Forall2 R (map f l) (map g l) -> Forall (fun x => R (f x) (g x)) l.
Proof.
  induction l as [|x l IH]; simpl; intros H; [constructor|].
  apply Forall2_cons in H as [? ?]. constructor; auto.
Qed.

Lemma active_first_iff active pops idle : Forall (Z.lt 0) active -> Forall (Z.lt 0) pops ->
  length pops = length active ->
  Forall2 (fun b n => 0 <= b /\ 0 <= n /\ (0 < b <-> 0 < n))
    (active ++ replicate idle 0) (pops ++ replicate idle 0).
Proof.
  intros Ha Hp Hl. apply Forall2_app; [|apply Forall2_replicate; lia].
  apply Forall2_same_length_lookup_2; [done|]. intros i b n Hb Hn.
  pose proof (Forall_lookup_1 _ _ _ _ Ha Hb). pose proof (Forall_lookup_1 _ _ _ _ Hp Hn). lia.
Qed.

Lemma split_population_ok row_count samples count w : 0 < w ->
  split_population row_count samples count w = Ret (effective_population row_count samples count w).
Proof.
  intros Hw. unfold split_population, effective_population.
  destruct (_ =? _); [done|]. destruct (_ <? _); [|done]. by rewrite py_div_pos.
Qed.

Lemma padded_rows n w : 0 < w -> n <= (n + w - 1) / w * w < n + w.
Proof.
  intros Hw. pose proof (Z.div_mod (n + w - 1) w ltac:(lia)).
  pose proof (Z.mod_pos_bound (n + w - 1) w Hw). nia.
Qed.

Lemma max_budget : MAX_SAMPLE_BUDGET = 2 ^ 53.
Proof. reflexivity. Qed.

(** The span the rank plans over and the number of populations it can form. *)
Definition rank_view (partition : WorkerPartition) (row_count population r w workers : Z)
  : RowSpan * Z :=
  match partition with
  | Replicate => (mk_span 0 row_count, workers)
  | Split => (row_span population w r, span_length (row_span population w r))
  end.

Section RankPlans.
Context (fresh : Z -> Z) (row_count r w num_workers batch samples : Z).
Context (partition : WorkerPartition) (shuffle : bool) (seed : option Z) (drop_last : bool).
Context (Hin : plannable row_count w num_workers batch samples shuffle seed) (Hrank : 0 <= r < w).

Let count := local_budget samples w batch drop_last.
Let population := effective_population row_count samples count w.

Lemma count_bounds : 0 <= count <= 2 ^ 53 /\ count * w < 2 ^ 54.
Proof.
  destruct Hin as [? Hw _ ? Hs _]. rewrite max_budget in Hs.
  change (Z.shiftl 1 32) with (2 ^ 32) in Hw.
  destruct (local_budget_bounds samples w batch drop_last) as [? Hb]; [lia..|].
  unfold count. destruct drop_last; lia.
Qed.

Lemma population_u64 : is_u64 population.
Proof.
  pose proof count_bounds as [? ?]. destruct Hin as [Hn Hw _ _ _ _].
  change (Z.shiftl 1 32) with (2 ^ 32) in Hw. rewrite is_u64_iff.
  unfold population, effective_population. destruct (_ =? _); [nia|].
  destruct (Z.ltb_spec row_count w); [|lia].
  pose proof (padded_rows row_count w ltac:(lia)). lia.
Qed.

Lemma population_covers_ranks : 0 < count -> w <= population.
Proof.
  intros Hc. destruct Hin as [Hn Hw _ _ _ _].
  unfold population, effective_population. destruct (_ =? _); [nia|].
  destruct (Z.ltb_spec row_count w); [|lia].
  assert (1 <= (row_count + w - 1) / w) by (apply Z.div_le_lower_bound; lia). nia.
Qed.

Lemma full_pass_length : samples = row_count -> span_length (row_span population w r) = count.
Proof.
  intros E. unfold population, effective_population. rewrite (proj2 (Z.eqb_eq _ _) E).
  destruct Hin as [_ Hw _ _ _ _]. unfold row_span; simpl.
  rewrite Z.div_mul, Z.mod_mul by lia. destruct (Z.ltb_spec r 0); lia.
Qed.

Abbreviation view := (rank_view partition row_count population r w (Z.max 1 num_workers)).

Lemma rank_population_ok :
  rank_population partition row_count samples count (mk_replica r w) (Z.max 1 num_workers) =
  Ret view.
Proof.
  unfold rank_population, view. destruct partition; [|done]. simpl.
  rewrite split_population_ok by lia. simpl. rewrite partition_rows_ok; [done| | |done].
  - apply population_u64.
  - destruct Hin as [_ Hw _ _ _ _]. apply is_u64_iff. change (Z.shiftl 1 32) with (2 ^ 32) in Hw. lia.
Qed.

Lemma rank_view_bounds :
  0 <= span_offset view.1 /\ is_u64 (span_length view.1) /\
  (0 < count -> 0 < view.2).
Proof.
  unfold view. destruct partition; simpl.
  - pose proof population_u64 as HP. split_and!; [|by apply row_span_u64; [|lia|]|].
    + unfold row_span; simpl. destruct HP. pose proof (Z.div_pos population w ltac:(lia) ltac:(lia)).
      pose proof (Z.mod_pos_bound population w ltac:(lia)). nia.
    + intros Hc%population_covers_ranks. apply row_span_length_pos; lia.
  - destruct Hin. split_and!; [lia|rewrite is_u64_iff; lia|lia].
Qed.

Lemma rank_view_room active : 0 < Z.of_nat (length active) <= view.2 \/ active = @nil Z ->
  Z.of_nat (length active) <= span_length view.1 \/ partition = Replicate.
Proof.
  pose proof rank_view_bounds as (_ & [Hl _] & _). unfold rank_view in *.
  destruct partition; simpl in *; [|by right]. intros [?| ->]; left; simpl; lia.
Qed.

(** The loop runs on the budgets of the rank. *)
Lemma rank_loop_ok active idle : Forall (Z.lt 0) active -> Zsum active = count ->
  Z.of_nat (length active) + Z.of_nat idle = Z.max 1 num_workers ->
  0 < Z.of_nat (length active) <= view.2 \/ active = [] ->
  let full := Zsum (active ++ replicate idle 0) =? span_length view.1 in
  exists plans,
    plan_loop fresh (mk_replica r w) partition
      (population_of partition row_count full (span_length view.1) (Z.of_nat (length active)))
      shuffle seed 0 (span_offset view.1) (active ++ replicate idle 0) = Ret plans /\
    map plan_sample_count plans = active ++ replicate idle 0 /\
    map plan_population_size plans =
      active_pops partition row_count full (span_length view.1) active ++ replicate idle 0 /\
    map plan_worker_id plans = seqZ 0 (Z.max 1 num_workers) /\
    (partition = Split -> tiles (span_offset view.1) (map plan_span plans)) /\
    Forall (plan_identity fresh partition shuffle seed r) plans.
Proof.
  intros HF Hs Hn Hact full. pose proof rank_view_bounds as (Ho & Hl & _).
  destruct Hin as [Hrows Hw Hnw Hb Hsm Hseed].
  assert (is_u64 (Z.of_nat (length active))).
  { rewrite is_u64_iff. change (Z.shiftl 1 32) with (2 ^ 32) in Hnw. lia. }
  assert (El : Z.max 1 num_workers = Z.of_nat (length (active ++ replicate idle 0))).
  { rewrite length_app, length_replicate. lia. }
  replace (seqZ 0 (Z.max 1 num_workers)) with
    (seqZ 0 (Z.of_nat (length (active ++ replicate idle 0)))) by (by rewrite El).
  apply plan_loop_ok; try done.
  - unfold is_u32. lia.
  - by rewrite !length_app, length_active_pops.
  - rewrite <- El. change (Z.shiftl 1 32) with (2 ^ 32) in *. lia.
  - intros k b p. apply population_of_active; try done; [lia|by apply rank_view_room].
Qed.

Lemma prepare_partitions_ok : exists plans ws,
  rank_budget samples (mk_replica r w) batch drop_last = Ret (count, ws) /\
  prepare_partitions fresh row_count (mk_replica r w) num_workers batch samples partition
    shuffle seed drop_last = Ret (plans, ws) /\
  planned fresh row_count r w num_workers batch samples partition shuffle seed drop_last plans.
Proof.
  pose proof count_bounds as [Hc _]. pose proof rank_view_bounds as (Ho & Hl & Hpop).
  pose proof Hin as [Hrows Hw Hnw Hb Hsm Hseed]. change (Z.shiftl 1 32) with (2 ^ 32) in *.
  destruct (rank_budget_ret samples r w batch drop_last) as (ws & Eb & _); [lia..|].
  destruct (worker_budgets_active count (Z.max 1 num_workers) view.2 batch)
    as (active & idle & Ew & HF & Hs & Hn & Hpos & Hzero); [rewrite U64_MAX_eq; lia..|done|lia|].
  assert (Hact : 0 < Z.of_nat (length active) <= view.2 \/ active = []).
  { destruct (decide (count = 0)); [right; auto|left; apply Hpos; lia]. }
  destruct (rank_loop_ok active idle HF Hs Hn Hact) as (plans & El & Hsc & Hps & Hid & Ht & HI).
  exists plans, ws. split; [done|]. split.
  - unfold prepare_partitions. rewrite Eb. simpl. fold count. rewrite rank_population_ok. simpl.
    destruct view as [rank_span populations] eqn:Ev. simpl in *.
    rewrite Ew. simpl. rewrite count_active by done. by rewrite El.
  - set (full := Zsum (active ++ replicate idle 0) =? _) in *.
    assert (Hz : Zsum (active ++ replicate idle 0) = count)
      by (rewrite Zsum_app, Zsum_replicate; lia).
    pose proof (rank_view_room active Hact) as Hroom.
    constructor; [done|by rewrite Hsc| | | | |done|].
    + apply (Forall_two_maps plan_sample_count plan_population_size
        (fun b n => 0 <= b /\ 0 <= n /\ (0 < b <-> 0 < n))). rewrite Hsc, Hps. apply active_first_iff; [done| |].
      * apply active_pops_pos; [lia|done|done].
      * by rewrite length_active_pops.
    + intros Ep rank_span. rewrite Hps. revert Ht. subst full. unfold rank_view in *. subst partition.
      simpl in *. intros Ht. split; [by apply Ht|]. intros Hc0.
      rewrite Zsum_app, Zsum_replicate, Z.mul_0_r, Z.add_0_r.
      apply (active_pops_sum row_count); [apply Hl|intros ->; simpl in *; lia|].
      intros E%Z.eqb_eq. by rewrite Hs, <- Hz.
    + intros Ep Es. rewrite Hps, Hsc. subst full. rewrite Hz. rewrite Ep.
      cbv [rank_view fst snd]. by rewrite full_pass_length, Z.eqb_refl.
    + intros Ep. rewrite Forall_forall. intros p Hp Hpos'.
      assert (HF2 : Forall (fun p => 0 < plan_sample_count p -> plan_population_size p = row_count) plans).
      { apply (Forall_two_maps plan_sample_count plan_population_size (fun b n => 0 < b -> n = row_count)).
        rewrite Hsc, Hps. apply Forall2_app.
        - subst partition. simpl. apply Forall2_fmap_r, Forall_Forall2_diag. apply Forall_forall. done.
        - apply Forall2_replicate. lia. }
      by apply (proj1 (Forall_forall _ _) HF2).
    + rewrite Hsc. eapply worker_budgets_batches; [| | | |exact Ew]; [rewrite U64_MAX_eq; lia..|done|lia].
Qed.
End RankPlans.

(** * Properties *)

(** Planning is total on accepted inputs: every rank obtains one plan per
    loading worker, numbered in order and carrying the rank, the quotas add up to
    the budget of the rank, and a worker has a population exactly when it has a
    quota. *)
Theorem prepare_partitions_total (fresh : Z -> Z)
    (row_count r w num_workers batch samples : Z) (partition : WorkerPartition)
    (shuffle : bool) (seed : option Z) (drop_last : bool)
    (Hin : plannable row_count w num_workers batch samples shuffle seed) (Hr : 0 <= r < w) :
  exists plans ws,
    prepare_partitions fresh row_count (mk_replica r w) num_workers batch samples partition
      shuffle seed drop_last = Ret (plans, ws) /\
    rank_budget samples (mk_replica r w) batch drop_last =
      Ret (Zsum (map plan_sample_count plans), ws) /\
    map plan_worker_id plans = seqZ 0 (Z.max 1 num_workers) /\
    Forall (fun p => plan_rank p = r /\
              (0 < plan_sample_count p <-> 0 < plan_population_size p)) plans.
Proof.
  destruct (prepare_partitions_ok fresh row_count r w num_workers batch samples partition
              shuffle seed drop_last Hin Hr) as (plans & ws & Eb & Ep & Hpl).
  exists plans, ws. rewrite (pd_sum _ _ _ _ _ _ _ _ _ _ _ _ Hpl). split_and!; [done..|apply Hpl|].
  eapply Forall_impl; [apply Forall_and; split; [apply (pd_identity _ _ _ _ _ _ _ _ _ _ _ _ Hpl)
    |apply (pd_active _ _ _ _ _ _ _ _ _ _ _ _ Hpl)]|].
  intros p [(? & _) (_ & _ & ?)]. done.
Qed.

Lemma prepare_partitions_total_witness :
  exists plans ws,
    prepare_partitions (fun _ => 0) 100 (mk_replica 1 3) 4 8 50 Split true (Some 7) false =
      Ret (plans, ws) /\
    rank_budget 50 (mk_replica 1 3) 8 false = Ret (Zsum (map plan_sample_count plans), ws) /\
    map plan_worker_id plans = seqZ 0 (Z.max 1 4) /\
    Forall (fun p => plan_rank p = 1 /\
              (0 < plan_sample_count p <-> 0 < plan_population_size p)) plans.
Proof.
  apply (prepare_partitions_total (fun _ => 0) 100 1 3 4 8 50 Split true (Some 7) false); [|lia].
  constructor; try (split; vm_compute; congruence); [vm_compute; congruence|].
  intros _. exists 7. split; [reflexivity|split; vm_compute; congruence].
Defined.

(** The rows of the population a worker selects; the selection of a worker
    without quota is never made. *)
Definition pass_rows (order : option npy) (row_count : Z) (p : WorkerPlan) : outcome (list Z) :=
  if plan_sample_count p =? 0 then Ret []
  else
    sel ← population_selection order row_count (plan_offset p) (plan_population_size p)
            (plan_partition_seed p);
    Ret (default (seqZ 0 row_count) sel).

(** The populations of all workers of all ranks when one full pass is requested
    and the table is split; ranks may run different numbers of workers. *)
Definition full_pass_rows (rearrange : Z -> list Z -> list Z) (fresh : Z -> Z -> Z)
    (row_count w : Z) (num_workers : Z -> Z) (batch : Z) (shuffle : bool) (seed : Z)
  : outcome (list Z) :=
  let order := if shuffle then Some (prepare_row_order rearrange row_count seed) else None in
  ranks ← traverse (fun r =>
      '(plans, _) ← prepare_partitions (fresh r) row_count (mk_replica r w) (num_workers r) batch
                      row_count Split shuffle (Some seed) false;
      workers ← traverse (pass_rows order row_count) plans;
      Ret (concat workers)) (seqZ 0 w);
  Ret (concat ranks).

Lemma cyclic_rows_map n offset len :
  cyclic_rows n offset len = map (fun i => i mod n) (seqZ offset len).
Proof.
  transitivity (map (fun i => i mod n) (Z.add offset <$> seqZ 0 len)).
  - symmetry. apply (map_map (Z.add offset)).
  - by rewrite fmap_add_seqZ, Z.add_0_r.
Qed.

(** Selecting through an order is a map over the row positions. *)
Definition through (order : option (list Z)) (n i : Z) : Z :=
  match order with None => i mod n | Some o => order_at o (i mod n) end.

Lemma planned_rows_map order n offset len :
  planned_rows order n offset len = map (through order n) (seqZ offset len).
Proof. destruct order; simpl; rewrite cyclic_rows_map; [by rewrite map_map|done]. Qed.

Lemma selection_without_seed o o' n offset len :
  population_selection o n offset len None = population_selection o' n offset len None.
Proof. done. Qed.

Lemma Permutation_of_eq {A} (l l' : list A) : l = l' -> l ≡ₚ l'.
Proof. by intros ->. Qed.

Section FullPass.
Context (rearrange : Z -> list Z -> list Z) (Hrearrange : forall s l, rearrange s l ≡ₚ l).
Context (fresh : Z -> Z -> Z) (n w : Z) (num_workers : Z -> Z) (batch : Z) (shuffle : bool) (seed : Z).
Context (Hw : 0 < w).
Context (Hin : forall r, 0 <= r < w -> plannable n w (num_workers r) batch n shuffle (Some seed)).

Let order := if shuffle then Some (prepare_row_order rearrange n seed) else None.
Let selected := if shuffle then Some (rearrange seed (seqZ 0 n)) else None.
Let local := local_budget n w batch false.

Lemma full_pass_table : 1 <= n <= 2 ^ 53.
Proof. destruct (Hin 0) as [? _ _ _ Hs _]; [lia|]. rewrite max_budget in Hs. lia. Qed.

Lemma local_rows : n <= local * w < n + w /\ 0 < local <= n.
Proof.
  pose proof full_pass_table as Hn. destruct (Hin 0) as [_ _ _ ? _ _]; [lia|].
  destruct (local_budget_bounds n w batch false) as [H1 H2]; [lia..|]. fold local in H1, H2. nia.
Qed.

Lemma order_selects offset len : 0 <= offset -> 0 < len <= n ->
  exists sel, population_selection order n offset len (if shuffle then Some seed else None) = Ret sel /\
    default (seqZ 0 n) sel = map (through selected n) (seqZ offset len).
Proof.
  intros Ho Hl. pose proof full_pass_table.
  destruct (population_selection_plan _ _ n offset len (if shuffle then Some seed else None)
    ltac:(lia) Ho ltac:(lia) ltac:(lia) (prepare_row_order_ok rearrange Hrearrange n seed ltac:(lia)))
    as (sel & E & Es).
  exists sel. rewrite <- planned_rows_map. unfold order, selected. destruct shuffle; done.
Qed.

Lemma pass_rows_ok p : plan_population_size p = plan_sample_count p ->
  0 <= plan_offset p -> 0 <= plan_sample_count p <= n ->
  plan_partition_seed p = (if shuffle then Some seed else None) ->
  pass_rows order n p = Ret (map (through selected n) (span_rows (plan_span p))).
Proof.
  intros Hpop Ho Hs Hseed. unfold pass_rows, span_rows, plan_span. simpl. rewrite Hpop, Hseed.
  destruct (Z.eqb_spec (plan_sample_count p) 0) as [->|]; [done|].
  destruct (order_selects (plan_offset p) (plan_sample_count p)) as (sel & -> & Es); [lia..|]. simpl.
  by rewrite Es.
Qed.

Lemma rank_pass_ok r : 0 <= r < w ->
  ('(plans, _) ← prepare_partitions (fresh r) n (mk_replica r w) (num_workers r) batch
                   n Split shuffle (Some seed) false;
   workers ← traverse (pass_rows order n) plans; Ret (concat workers)) =
  Ret (map (through selected n) (span_rows (span_pair (row_span (local * w) w r)))).
Proof.
  intros Hr. pose proof local_rows as [_ Hloc].
  destruct (prepare_partitions_ok (fresh r) n r w (num_workers r) batch n Split shuffle (Some seed)
              false (Hin r Hr) Hr) as (plans & ws & _ & -> & [_ Hs Ha Ht Hf _ HI]). simpl.
  specialize (Ht eq_refl). specialize (Hf eq_refl eq_refl).
  unfold effective_population in Ht. rewrite Z.eqb_refl in Ht. fold local in Ht, Hs.
  destruct Ht as [Ht Hsum]. specialize (Hsum ltac:(lia)).
  assert (Ho : 0 <= span_offset (row_span (local * w) w r)) by (apply row_span_offset; nia).
  rewrite (traverse_ret _ (fun p => map (through selected n) (span_rows (plan_span p)))).
  - simpl. f_equal. rewrite <- (map_map plan_span (fun s => map (through selected n) (span_rows s))).
    rewrite <- (map_map span_rows (map (through selected n))), <- concat_map. f_equal.
    erewrite tiles_rows by exact Ht. cbv [span_rows span_pair fst snd].
    by rewrite <- Hsum, map_map.
  - intros p Hp. rewrite Forall_forall in Ha, HI.
    destruct (Ha p Hp) as (? & ? & _), (HI p Hp) as (_ & _ & Hseed & _).
    apply pass_rows_ok; [by apply (map_eq_elem _ _ plans)| | |done].
    + apply tiles_offsets in Ht. rewrite Forall_forall in Ht.
      specialize (Ht (plan_span p) ltac:(by apply list_elem_of_fmap_2)).
      cbv [plan_span fst] in Ht. lia.
    + split; [done|]. transitivity local; [|lia]. rewrite <- Hs. apply Zsum_elem_le.
      * apply Forall_map, Forall_forall. intros q Hq. apply (Ha q Hq).
      * by apply list_elem_of_fmap_2.
Qed.

Lemma full_pass_rows_ok :
  full_pass_rows rearrange fresh n w num_workers batch shuffle seed =
  Ret (map (through selected n) (seqZ 0 (local * w))).
Proof.
  pose proof local_rows. unfold full_pass_rows. fold order.
  rewrite (traverse_ret _ (fun r =>
    map (through selected n) (span_rows (span_pair (row_span (local * w) w r))))).
  - simpl. f_equal.
    rewrite <- (map_map (fun r => span_rows (span_pair (row_span (local * w) w r)))
                  (map (through selected n))), <- concat_map.
    by rewrite row_span_rows by nia.
  - intros r Hr%elem_of_seqZ. apply rank_pass_ok. lia.
Qed.

Lemma through_table : map (through selected n) (seqZ 0 n) ≡ₚ seqZ 0 n.
Proof.
  pose proof full_pass_table. unfold through, selected. destruct shuffle.
  - transitivity (rearrange seed (seqZ 0 n)); [|apply Hrearrange]. apply Permutation_of_eq.
    transitivity (map (fun i => rearrange seed (seqZ 0 n) !!! Z.to_nat i) (seqZ 0 n)).
    + apply map_ext_elem. intros i Hi%elem_of_seqZ. unfold order_at. by rewrite Z.mod_small by lia.
    + pose proof (seqZ_lookup_all (rearrange seed (seqZ 0 n))) as E.
      by rewrite (Permutation_length (Hrearrange seed (seqZ 0 n))), seqZ_length_pos in E by lia.
  - apply Permutation_of_eq. transitivity (map id (seqZ 0 n)); [|apply map_id].
    apply map_ext_elem. intros i Hi%elem_of_seqZ. unfold id. apply Z.mod_small. lia.
Qed.
End FullPass.



(** Whatever the inputs, a produced plan carries its rank and the seed of its
    worker number. *)
Lemma plan_loop_seeds fresh replica partition population shuffle seed budgets :
  forall worker offset plans,
  plan_loop fresh replica partition population shuffle seed worker offset budgets = Ret plans ->
  Forall (fun p => plan_rank p = rank replica /\
    reader_seed (fresh (plan_worker_id p)) shuffle seed (rank replica) (plan_worker_id p) =
    Ret (plan_seed p)) plans.
Proof.
  induction budgets as [|b budgets IH]; cbn [plan_loop]; intros worker offset plans H.
  { injection H as <-. constructor. }
  apply bind_ret in H as (n & _ & H). apply bind_ret in H as (s & Es & H).
  apply bind_ret in H as (p & Ep & H). apply bind_ret in H as (ps & El & [= <-]).
  unfold make_plan in Ep. ocase Ep. injection Ep as <-.
  constructor; [done|]. by eapply IH.
Qed.

Lemma prepare_partitions_seeds fresh n replica nw batch samples partition shuffle seed drop plans ws :
  prepare_partitions fresh n replica nw batch samples partition shuffle seed drop = Ret (plans, ws) ->
  Forall (fun p => plan_rank p = rank replica /\
    reader_seed (fresh (plan_worker_id p)) shuffle seed (rank replica) (plan_worker_id p) =
    Ret (plan_seed p)) plans.
Proof.
  unfold prepare_partitions. intros H.
  apply bind_ret in H as ([count v] & _ & H). apply bind_ret in H as ([rank_span pops] & _ & H).
  apply bind_ret in H as (budgets & _ & H). apply bind_ret in H as (ps & El & [= <- _]).
  by eapply plan_loop_seeds.
Qed.

(** No two readers of a shuffled loader share a seed: whatever the world
    sizes, worker counts and budgets, two plans made from one base seed that
    carry the same reader seed have the same rank and the same worker number. *)
Theorem plan_seeds_distinct (fresh fresh' : Z -> Z) (n n' : Z) (replica replica' : ReplicaIdentity)
    (nw nw' batch batch' samples samples' : Z) (partition partition' : WorkerPartition) (seed : Z)
    (drop drop' : bool) (plans plans' : list WorkerPlan) (ws ws' : list py_warning)
    (H : prepare_partitions fresh n replica nw batch samples partition true (Some seed) drop
         = Ret (plans, ws))
    (H' : prepare_partitions fresh' n' replica' nw' batch' samples' partition' true (Some seed) drop'
          = Ret (plans', ws')) :
  forall p p', p ∈ plans -> p' ∈ plans' -> plan_seed p = plan_seed p' ->
  plan_rank p = plan_rank p' /\ plan_worker_id p = plan_worker_id p'.
Proof.
  intros p p' Hp Hp' Hs. apply prepare_partitions_seeds in H, H'. rewrite Forall_forall in H, H'.
  destruct (H p Hp) as [-> D], (H' p' Hp') as [-> D'].
  unfold reader_seed in D, D'. simpl in D, D'. rewrite <- Hs in D'.
  by destruct (derive_seed_inj _ _ _ _ _ _ D D') as (_ & ? & ?).
Qed.

Lemma plan_seeds_distinct_witness :
  exists plans plans' ws ws',
    prepare_partitions (fun _ => 0) 20 (mk_replica 0 2) 2 4 20 Replicate true (Some 9) false =
      Ret (plans, ws) /\
    prepare_partitions (fun _ => 0) 20 (mk_replica 1 2) 3 4 20 Replicate true (Some 9) false =
      Ret (plans', ws') /\
    forall p p', p ∈ plans -> p' ∈ plans' -> plan_seed p = plan_seed p' ->
    plan_rank p = plan_rank p' /\ plan_worker_id p = plan_worker_id p'.
Proof.
  do 4 eexists. split; [vm_compute; reflexivity|]. split; [vm_compute; reflexivity|].
  eapply (plan_seeds_distinct (fun _ => 0) (fun _ => 0) 20 20 (mk_replica 0 2) (mk_replica 1 2)
            2 3 4 4 20 20 Replicate Replicate 9 false false); vm_compute; reflexivity.
Defined.
