(* ===== verification/Writer.v ===== *)
(** Supervised parallel source writing, [src/dataset_rt/writer.py]: source names,
    the preflight, dispatch of one job per idle child, polling, shutdown and the
    ordered outcomes. What the operating system and the children answer is a
    parameter of each operation; the parent's own state is explicit. *)
From stdpp Require Import base tactics list numbers strings gmap.
From S2P Require Import Prelude Records PyStr.
Open Scope Z_scope.

(** * Exceptions as the writer sees them *)

(** [type(error).__name__]. *)
Definition type_name (e : py_exc) : pystr :=
  match e with
  | ValueError _ => lit "ValueError"
  | TypeError _ => lit "TypeError"
  | IndexError _ => lit "IndexError"
  | RuntimeError _ => lit "RuntimeError"
  | ZeroDivisionError => lit "ZeroDivisionError"
  | FileExistsError _ => lit "FileExistsError"
  | FileNotFoundError => lit "FileNotFoundError"
  | OSError _ => lit "OSError"
  | ValidationError _ => lit "ValidationError"
  | KeyboardInterrupt _ => lit "KeyboardInterrupt"
  | SystemExit _ => lit "SystemExit"
  | OtherException kind _ => kind
  end.

(** [isinstance(error, Exception)] and [isinstance(error, OSError)]. *)
Definition is_exception (e : py_exc) : bool :=
  match e with KeyboardInterrupt _ | SystemExit _ => false | _ => true end.
Definition is_oserror (e : py_exc) : bool :=
  match e with FileExistsError _ | FileNotFoundError | OSError _ => true | _ => false end.

(** The classes [_receive] turns into a transport failure. *)
Definition is_transport (e : py_exc) : bool :=
  is_oserror e || bool_decide (type_name e = lit "EOFError")
  || bool_decide (type_name e = lit "UnpicklingError").

(** * Messages and child states *)

Inductive interrupt_kind := Keyboard | Exit.

Inductive WorkerMessage :=
| Ready
| Finished (result : CacheWriteResult)
| Interrupted (kind : interrupt_kind) (message : pystr) (exit_status : pyval)
| Failed (message : pystr).

(** A job slot: a source with a valid name, or its recorded rejection. *)
Inductive job :=
| SourceJob (name : pystr)
| Rejected (source_name message : pystr).

Inductive wstate :=
| Starting (deadline : Z)
| Idle
| Active (index : Z) (deadline : Z) (temporary : path).

Definition is_idle (s : wstate) : bool := match s with Idle => true | _ => false end.

(** * Source names *)

Section Names.
(** [str.casefold] and [unicodedata.normalize("NFC", ·)], Unicode tables. *)
Context (casefold nfc : pystr -> pystr).

(** Bytes of one code point in UTF-8; surrogates cannot be encoded. *)
Definition utf8_size (c : Z) : option Z :=
  if c <? 0x80 then Some 1
  else if c <? 0x800 then Some 2
  else if c <? 0x10000 then (if (0xD800 <=? c) && (c <? 0xE000) then None else Some 3)
  else Some 4.

Fixpoint utf8_length (s : pystr) : option Z :=
  match s with
  | [] => Some 0
  | c :: r => match utf8_size c, utf8_length r with
              | Some a, Some b => Some (a + b)
              | _, _ => None
              end
  end.

Definition reserved (name : pystr) : bool :=
  bool_decide (casefold name ∈ [lit "."; lit ".."; lit "tmp"]).

Definition validate_source_name (name : pystr) : result pystr pystr :=
  if bool_decide (name = []) || reserved name
  then Err (lit "CacheSource.name must be a non-reserved plain path segment")
  else if bool_decide (47 ∈ name) || bool_decide (0 ∈ name)
  then Err (lit "CacheSource.name must be a plain path segment")
  else match utf8_length name with
  | None => Err (lit "CacheSource.name must be valid UTF-8")
  | Some n =>
      if 255 <? n
      then Err (lit "CacheSource.name exceeds the supported filesystem component limit")
      else Ok name
  end.

Definition destination_identity (name : pystr) : pystr := nfc (casefold name).
End Names.

(** * Diagnostics *)

Section Diagnostics.
(** [text e] is [str(e)], [None] when formatting itself raises. *)
Context (text : py_exc -> option pystr).

Definition diagnostic (e : py_exc) : pystr :=
  match text e with
  | Some t => take 2048 (type_name e ++ lit ": " ++ t)
  | None => type_name e
  end.

(** [_exit_status]: [code] of a [SystemExit] raised as [e]. *)
Definition exit_status (e : py_exc) (code : pyval) : pyval :=
  match code with
  | PInt _ | PBool _ => code
  | PStr s => PStr (take 2048 s)
  | PNone => PInt 0
  | _ => PStr (diagnostic e)
  end.
End Diagnostics.

(** * Preflight *)

Section Preflight.
Context (casefold nfc : pystr -> pystr) (text : py_exc -> option pystr).

(** One source: what reading [source.name] does. *)
Definition preflight_source (index : Z) (name : outcome pystr) : outcome job :=
  match name with
  | Raise e =>
      if is_exception e
      then Ret (Rejected (lit "source[" ++ dec index ++ lit "]") (diagnostic text e))
      else Raise e
  | Ret name =>
      match validate_source_name casefold name with
      | Err message => Ret (Rejected (lit "source[" ++ dec index ++ lit "]") message)
      | Ok name => Ret (SourceJob name)
      end
  end.

Fixpoint preflight_sources (index : Z) (sources : list (outcome pystr)) : outcome (list job) :=
  match sources with
  | [] => Ret []
  | s :: r => j ← preflight_source index s; js ← preflight_sources (index + 1) r; Ret (j :: js)
  end.

(** The rejection of every source once two destinations coincide. *)
Definition reject_all (message : pystr) (jobs : list job) : list CacheWriteResult :=
  map (fun j => match j with
                | Rejected n m => CacheWriteError n m
                | SourceJob n => CacheWriteError n message
                end) jobs.

(** The name of the first job whose identity was seen before. *)
Fixpoint first_duplicate (seen : list pystr) (jobs : list job) : option pystr :=
  match jobs with
  | [] => None
  | Rejected _ _ :: r => first_duplicate seen r
  | SourceJob n :: r =>
      let identity := destination_identity casefold nfc n in
      if bool_decide (identity ∈ seen) then Some n else first_duplicate (identity :: seen) r
  end.

Definition preflight (sources : list (outcome pystr))
  : outcome (result (list job) (list CacheWriteResult)) :=
  jobs ← preflight_sources 0 sources;
  match first_duplicate [] jobs with
  | Some n => Ret (Err (reject_all (lit "duplicate generated cache path: " ++ n) jobs))
  | None => Ret (Ok jobs)
  end.
End Preflight.

(** * The writing child *)

(** [Path(detail)]: empty and [.] segments disappear. *)
Definition path_of_str (s : pystr) : path :=
  filter (fun seg => seg <> [] /\ seg <> lit ".") (split_char 47 s).

(** The classes [_run_source] reports as a source error. *)
Definition is_value_or_runtime (e : py_exc) : bool :=
  match e with ValueError _ | ValidationError _ | RuntimeError _ => true | _ => false end.

(** What the child takes from its mailbox: the sentinel, a serialized job (what
    unpickling gives, [Ret None] for another object, and what the native writer
    does with it), or an exception raised while waiting. *)
Inductive mail :=
| Sentinel
| Encoded (loaded : outcome (option pystr)) (native : outcome (list (pystr * pystr * pystr)))
| WaitRaises (e : py_exc).

(** How the child function ends; [Blocked] waits for its next job. *)
Inductive child_end := Returned | Raised (e : py_exc) | Blocked.

Section Child.
Context (text : py_exc -> option pystr).

Definition run_source (name : pystr) (native : outcome (list (pystr * pystr * pystr)))
  : outcome CacheWriteResult :=
  match native with
  | Raise e => if is_value_or_runtime e then Ret (CacheWriteError name (diagnostic text e)) else Raise e
  | Ret [(status, name, detail)] =>
      if bool_decide (status = lit "success") then Ret (CacheWriteSuccess name (path_of_str detail))
      else if bool_decide (status = lit "error") then Ret (CacheWriteError name (take 2048 detail))
      else Raise (ValueError (lit "invalid native writer status: " ++ status))
  | Ret _ => Raise (ValueError (lit "native single-source writer returned an invalid outcome count"))
  end.

(** The [while True] loop of [_worker], up to its next wait. *)
Fixpoint worker_loop (mails : list mail) : list WorkerMessage * child_end :=
  match mails with
  | [] => ([], Blocked)
  | Sentinel :: _ => ([], Returned)
  | WaitRaises e :: _ => ([], Raised e)
  | Encoded loaded native :: rest =>
      match loaded with
      | Raise e =>
          if is_exception e
          then ([Failed (lit "source deserialization failed: " ++ diagnostic text e)], Returned)
          else ([], Raised e)
      | Ret None => ([], Raised (ValueError (lit "invalid writer job")))
      | Ret (Some name) =>
          match run_source name native with
          | Raise e => ([], Raised e)
          | Ret r => let (ms, ending) := worker_loop rest in (Finished r :: ms, ending)
          end
      end
  end.

(** The handlers around the loop. *)
Definition worker_handle (run : list WorkerMessage * child_end) : list WorkerMessage * child_end :=
  match run.2 with
  | Raised (KeyboardInterrupt m as e) =>
      (run.1 ++ [Interrupted Keyboard (diagnostic text e) (PInt 0)], Returned)
  | Raised (SystemExit code as e) =>
      (run.1 ++ [Interrupted Exit (diagnostic text e) (exit_status text e code)], Returned)
  | _ => run
  end.

(** [start] is the creation of the native runtime. The messages are those handed to
    the result pipe, which is taken to accept them. *)
Definition worker (start : outcome unit) (mails : list mail) : list WorkerMessage * child_end :=
  worker_handle
    match start with
    | Raise e => ([], Raised e)
    | Ret _ => let (ms, ending) := worker_loop mails in (Ready :: ms, ending)
    end.

(** ** Properties of the child *)

(** The results of the first jobs of a mailbox, as far as they complete. *)
Fixpoint completed (mails : list mail) : list CacheWriteResult :=
  match mails with
  | Encoded (Ret (Some name)) native :: rest =>
      match run_source name native with Ret r => r :: completed rest | Raise _ => [] end
  | _ => []
  end.

Definition last_word (m : WorkerMessage) : Prop :=
  match m with Interrupted _ _ _ | Failed _ => True | _ => False end.

Ltac no_tail := exists []; simpl; rewrite ?app_nil_r; split_and!; [done|lia|constructor|done].

Lemma worker_loop_trace mails : exists tail,
  (worker_loop mails).1 = map Finished (completed mails) ++ tail /\
  (length tail <= 1)%nat /\ Forall last_word tail /\
  (tail <> [] -> (worker_loop mails).2 = Returned).
Proof.
  induction mails as [|m mails (tail & IH & Hl & HF & He)]; [no_tail|].
  destruct m as [|[[name|]|e] native|e]; simpl; try no_tail.
  - destruct (run_source name native) as [r|e]; [|no_tail].
    destruct (worker_loop mails) as [ms ending]; simpl in *. exists tail. by rewrite IH.
  - destruct (is_exception e); [|no_tail].
    eexists [_]; simpl. split_and!; [done|lia| |done]. by repeat constructor.
Qed.

Lemma worker_handle_trace run :
  exists tail, (worker_handle run).1 = run.1 ++ tail /\ (length tail <= 1)%nat /\ Forall last_word tail /\
    (run.2 = Returned -> tail = []).
Proof.
  destruct run as [ms [|e|]]; unfold worker_handle; simpl;
    try no_tail.
  destruct e; simpl; try no_tail;
    (eexists [_]; split_and!; [done|simpl; lia|by repeat constructor|done]).
Qed.
End Child.

(** What a writing child says: once its runtime exists it announces itself
    first and only once, then sends exactly one result per job it completed, in
    mailbox order, then at most one last word (an interruption or a failure).
    A child whose runtime cannot be created never announces itself. *)
Theorem child_message_trace (text : py_exc -> option pystr) (start : outcome unit) (mails : list mail) :
  exists tail, (length tail <= 1)%nat /\ Forall last_word tail /\
    (worker text start mails).1 =
      match start with
      | Ret _ => Ready :: map Finished (completed text mails) ++ tail
      | Raise _ => tail
      end.
Proof.
  unfold worker. destruct start as [u|e].
  - destruct (worker_loop_trace text mails) as (tail & E & Hl & HF & He).
    destruct (worker_loop text mails) as [ms ending]. simpl in *.
    destruct (worker_handle_trace text (Ready :: ms, ending)) as (tail' & E' & Hl' & HF' & He').
    rewrite E'. simpl. rewrite E. destruct tail as [|w tail].
    + exists tail'. by rewrite app_nil_r.
    + exists (w :: tail). rewrite (He' (He ltac:(done))), app_nil_r. done.
  - destruct (worker_handle_trace text ([], Raised e)) as (tail & E & Hl & HF & _).
    exists tail. by rewrite E.
Qed.

(** * Properties of names and of the preflight *)

Lemma preflight_source_job casefold text index name n :
  preflight_source casefold text index name = Ret (SourceJob n) ->
  name = Ret n /\ validate_source_name casefold n = Ok n.
Proof.
  unfold preflight_source. destruct name as [m|e]; [|destruct (is_exception e); discriminate].
  destruct (validate_source_name casefold m) as [v|] eqn:E; [|discriminate]. intros [= ->].
  assert (m = n) as ->; [|done]. unfold validate_source_name in E. repeat ocase E. by injection E.
Qed.

Lemma preflight_sources_spec casefold text sources : forall index jobs,
  preflight_sources casefold text index sources = Ret jobs ->
  length jobs = length sources /\
  forall i n, jobs !! i = Some (SourceJob n) ->
    sources !! i = Some (Ret n) /\ validate_source_name casefold n = Ok n.
Proof.
  induction sources as [|s sources IH]; intros index jobs; simpl.
  { intros [= <-]. split; [done|]. intros i n. by rewrite lookup_nil. }
  intros H. apply bind_ret in H as (j & Ej & H). apply bind_ret in H as (js & Ejs & [= <-]).
  destruct (IH _ _ Ejs) as [Hl Hi]. split; [simpl; lia|].
  intros [|i] n; simpl; [|apply Hi]. intros [= ->].
  by destruct (preflight_source_job _ _ _ _ _ Ej) as [-> ?].
Qed.

Section Duplicates.
Context (casefold nfc : pystr -> pystr).
Abbreviation identity := (destination_identity casefold nfc).

Lemma first_duplicate_none jobs : forall seen,
  first_duplicate casefold nfc seen jobs = None ->
  (forall i n, jobs !! i = Some (SourceJob n) -> identity n ∉ seen) /\
  (forall i j n m, jobs !! i = Some (SourceJob n) -> jobs !! j = Some (SourceJob m) ->
     identity n = identity m -> i = j).
Proof.
  induction jobs as [|[n|n m] jobs IH]; intros seen H; simpl in H.
  - split; intros *; by rewrite lookup_nil.
  - case_bool_decide as Hs; [discriminate|]. destruct (IH _ H) as [H1 H2]. split.
    + intros [|i] k; simpl; [by intros [= <-]|]. intros Hk Hin. apply (H1 i k Hk). by right.
    + intros [|i] [|j] k l; simpl; [done| | |].
      * intros [= <-] Hl E. destruct (H1 j l Hl). rewrite <- E. by left.
      * intros Hk [= <-] E. destruct (H1 i k Hk). rewrite E. by left.
      * intros Hk Hl E. by rewrite (H2 i j k l).
  - destruct (IH _ H) as [H1 H2]. split.
    + intros [|i] k; simpl; [done|apply H1].
    + intros [|i] [|j] k l; simpl; try done. intros Hk Hl E. by rewrite (H2 i j k l).
Qed.

Lemma first_duplicate_some jobs d : forall seen,
  first_duplicate casefold nfc seen jobs = Some d ->
  exists i, jobs !! i = Some (SourceJob d) /\
    (identity d ∈ seen \/
     exists j n, (j < i)%nat /\ jobs !! j = Some (SourceJob n) /\ identity n = identity d).
Proof.
  induction jobs as [|[n|n m] jobs IH]; intros seen H; simpl in H; [discriminate| |].
  - case_bool_decide as Hs; [injection H as ->; by exists 0%nat; auto|].
    destruct (IH _ H) as (i & Hi & [Hin|(j & k & Hj & Hk & E)]).
    + exists (S i). split; [done|]. apply elem_of_cons in Hin as [E|Hin]; [|by left].
      right. exists 0%nat, n. split_and!; [lia|done|done].
    + exists (S i). split; [done|]. right. exists (S j), k. split_and!; [lia|done|done].
  - destruct (IH _ H) as (i & Hi & [Hin|(j & k & Hj & Hk & E)]).
    + exists (S i). auto.
    + exists (S i). split; [done|]. right. exists (S j), k. split_and!; [lia|done|done].
Qed.
End Duplicates.

Definition is_error (r : CacheWriteResult) : Prop :=
  match r with CacheWriteError _ _ => True | CacheWriteSuccess _ _ => False end.

(** The preflight keeps source order and runs nothing when two destinations
    coincide. Accepted jobs carry valid names, each the name its source reports,
    and no two of them have the same destination identity (case folded and
    normalized). A refusal reports one error per source and only happens when two
    sources really share an identity. *)
Theorem preflight_spec (casefold nfc : pystr -> pystr) (text : py_exc -> option pystr)
    (sources : list (outcome pystr)) (res : result (list job) (list CacheWriteResult))
    (H : preflight casefold nfc text sources = Ret res) :
  match res with
  | Ok jobs =>
      length jobs = length sources /\
      (forall i n, jobs !! i = Some (SourceJob n) ->
         sources !! i = Some (Ret n) /\ validate_source_name casefold n = Ok n) /\
      (forall i j n m, jobs !! i = Some (SourceJob n) -> jobs !! j = Some (SourceJob m) ->
         destination_identity casefold nfc n = destination_identity casefold nfc m -> i = j)
  | Err results =>
      length results = length sources /\ Forall is_error results /\
      exists i j n m, i <> j /\ sources !! i = Some (Ret n) /\ sources !! j = Some (Ret m) /\
        destination_identity casefold nfc n = destination_identity casefold nfc m
  end.
Proof.
  unfold preflight in H. apply bind_ret in H as (jobs & Ej & H).
  destruct (preflight_sources_spec _ _ _ _ _ Ej) as [Hl Hi].
  destruct (first_duplicate casefold nfc [] jobs) as [d|] eqn:Ed; injection H as <-.
  - split; [unfold reject_all; by rewrite length_map|]. split.
    { apply Forall_map, Forall_forall. by intros [] _. }
    destruct (first_duplicate_some _ _ _ _ _ Ed) as (i & Hd & [?%elem_of_nil|(j & n & Hj & Hn & E)]); [done|].
    exists j, i, n, d. split_and!; [lia|by apply Hi|by apply Hi|done].
  - split_and!; [done|done|]. by apply (first_duplicate_none casefold nfc jobs []).
Qed.

(** Lower case of the ASCII letters, for concrete inputs. *)
Definition ascii_casefold : pystr -> pystr :=
  map (fun c => if (65 <=? c) && (c <=? 90) then c + 32 else c).

Lemma preflight_spec_witness :
  let jobs := [SourceJob (lit "train"); Rejected (lit "source[1]")
                 (lit "CacheSource.name must be a non-reserved plain path segment"); SourceJob (lit "val")] in
  length jobs = 3%nat /\
  (forall i n, jobs !! i = Some (SourceJob n) ->
     [Ret (lit "train"); Ret (lit "TMP"); Ret (lit "val")] !! i = Some (Ret n) /\
     validate_source_name ascii_casefold n = Ok n) /\
  (forall i j n m, jobs !! i = Some (SourceJob n) -> jobs !! j = Some (SourceJob m) ->
     destination_identity ascii_casefold id n = destination_identity ascii_casefold id m -> i = j).
Proof.
  apply (preflight_spec ascii_casefold id (fun _ => None)
    [Ret (lit "train"); Ret (lit "TMP"); Ret (lit "val")]
    (Ok [SourceJob (lit "train"); Rejected (lit "source[1]")
           (lit "CacheSource.name must be a non-reserved plain path segment"); SourceJob (lit "val")])).
  vm_compute. reflexivity.
Defined.

Lemma split_char_absent sep s : sep ∉ s -> split_char sep s = [s].
Proof.
  unfold split_char. assert (H : forall cur, sep ∉ s -> split_aux sep cur s = [rev cur ++ s]).
  - induction s as [|c s IH]; intros cur Hs; simpl; [by rewrite app_nil_r|].
    apply not_elem_of_cons in Hs as [Hc Hs]. destruct (Z.eqb_spec c sep); [congruence|].
    rewrite IH by done. simpl. by rewrite <- (assoc_L (++)).
  - intros Hs. by rewrite (H [] Hs).
Qed.

(** An accepted source name is one ordinary path segment: appended to the
    cache directory it names a direct child, distinct from [.], [..] and the
    reserved [tmp], and it fits the 255-byte component limit in UTF-8. *)
Theorem accepted_name_is_segment (casefold : pystr -> pystr) (name accepted : pystr)
    (Hfold : forall s, s ∈ [lit "."; lit ".."; lit "tmp"] -> casefold s = s)
    (H : validate_source_name casefold name = Ok accepted) :
  accepted = name /\ path_of_str name = [name] /\ (0 ∉ name) /\
  (name ∉ [lit "."; lit ".."; lit "tmp"]) /\
  exists n, utf8_length name = Some n /\ n <= 255.
Proof.
  unfold validate_source_name in H. ocase H. ocase H. ocase H. ocase H. injection H as <-.
  apply orb_false_iff in Heqb as [H1%bool_decide_eq_false H2%bool_decide_eq_false].
  apply orb_false_iff in Heqb0 as [H3%bool_decide_eq_false H4%bool_decide_eq_false].
  apply Z.ltb_ge in Heqb1.
  assert (Hr : name ∉ [lit "."; lit ".."; lit "tmp"]).
  { intros Hin. apply H2. by rewrite (Hfold name Hin). }
  split_and!; [done| |done|done|by eexists].
  unfold path_of_str. rewrite split_char_absent by done.
  rewrite filter_cons_True by (split; [done|intros ->; apply Hr; by left]). done.
Qed.

Lemma accepted_name_is_segment_witness :
  lit "shard-7" = lit "shard-7" /\ path_of_str (lit "shard-7") = [lit "shard-7"] /\
  (0 ∉ lit "shard-7") /\ (lit "shard-7" ∉ [lit "."; lit ".."; lit "tmp"]) /\
  exists n, utf8_length (lit "shard-7") = Some n /\ n <= 255.
Proof.
  apply (accepted_name_is_segment ascii_casefold (lit "shard-7") (lit "shard-7")).
  - intros s Hs. repeat (apply elem_of_cons in Hs as [->|Hs]; [vm_compute; reflexivity|]).
    by apply elem_of_nil in Hs.
  - vm_compute. reflexivity.
Defined.
