(* ===== verification/WriterPool.v ===== *)
(** The supervising parent of [src/dataset_rt/writer.py]: temporary destinations,
    dispatch, polling, the supervision loop, shutdown and ordered outcomes. The
    pool state is explicit; every answer of the operating system and of the
    children is part of an environment the operations read. *)
From stdpp Require Import base tactics list numbers strings gmap.
From S2P Require Import Prelude Records Config PyStr Writer.
Open Scope Z_scope.

(** * Environment *)

(** What the cleanup of a temporary path meets. *)
Record cleanup_env := mk_cleanup {
  c_is_dir : outcome bool;
  c_is_symlink : outcome bool;
  c_rmtree : outcome unit }.

(** What one dispatch meets: pickling, the temporary path, the clock, the mailbox. *)
Record dispatch_env := mk_dispatch {
  d_pickle : outcome unit;
  d_exists : outcome bool;
  d_symlink : outcome bool;
  d_resolve : outcome path;
  d_now : Z;
  d_put : outcome unit }.

(** What one poll meets: readiness of the pipe, the received object ([None] for an
    object that is no worker message), the exit code, the clock, a cleanup. *)
Record poll_env := mk_poll {
  o_ready : outcome bool;
  o_recv : outcome (option WorkerMessage);
  o_exitcode : option Z;
  o_now : Z;
  o_cleanup : cleanup_env }.

(** What shutting down one child meets: the answers of the successive [is_alive]
    calls, the mailbox and the cleanup. *)
Record stop_env := mk_stop {
  s_alive_idle : bool;
  s_put : outcome unit;
  s_alive_terminate : bool;
  s_alive_kill : bool;
  s_alive_last : bool;
  s_cleanup : cleanup_env }.

(** * Pool state *)

(** What a child is told to make it stop: the sentinel job, SIGTERM, SIGKILL. *)
Inductive signal := Quit | Terminate | Kill.

(** [released] lists the temporary paths handed to [cleanup], [dispatched] the
    jobs sent to a child with their owned temporary path. *)
Record pool := mk_pool {
  states : list wstate;
  outcomes : gmap Z CacheWriteResult;
  released : list path;
  dispatched : list (Z * path);
  next_index : Z;
  reported : Z;
  printed : list pystr;
  signals : list (nat * signal) }.

(** Operations on the pool may raise; the changes made before stay. *)
Definition M (A : Type) : Type := pool -> outcome A * pool.

Definition ret {A} (a : A) : M A := fun s => (Ret a, s).
Definition throw {A} (e : py_exc) : M A := fun s => (Raise e, s).
Definition bind {A B} (m : M A) (k : A -> M B) : M B := fun s =>
  match m s with (Ret a, s') => k a s' | (Raise e, s') => (Raise e, s') end.
Definition lift {A} (o : outcome A) : M A := fun s => (o, s).

Declare Scope pool_scope.
Delimit Scope pool_scope with pool.
Notation "x <- m ;; k" := (bind m (fun x => k)) (at level 100, m at next level, right associativity)
  : pool_scope.
Open Scope pool_scope.

Definition state_of (s : pool) (k : nat) : wstate := default Idle (states s !! k).

Definition set_state (k : nat) (w : wstate) : M unit := fun s =>
  (Ret tt, mk_pool (<[k := w]> (states s)) (outcomes s) (released s) (dispatched s)
             (next_index s) (reported s) (printed s) (signals s)).
Definition set_outcome (i : Z) (r : CacheWriteResult) : M unit := fun s =>
  (Ret tt, mk_pool (states s) (<[i := r]> (outcomes s)) (released s) (dispatched s)
             (next_index s) (reported s) (printed s) (signals s)).
Definition log_dispatch (i : Z) (p : path) : M unit := fun s =>
  (Ret tt, mk_pool (states s) (outcomes s) (released s) (dispatched s ++ [(i, p)])
             (next_index s) (reported s) (printed s) (signals s)).
Definition advance : M Z := fun s =>
  (Ret (next_index s), mk_pool (states s) (outcomes s) (released s) (dispatched s)
             (next_index s + 1) (reported s) (printed s) (signals s)).
Definition report (n : Z) (line : pystr) : M unit := fun s =>
  (Ret tt, mk_pool (states s) (outcomes s) (released s) (dispatched s)
             (next_index s) n (printed s ++ [line]) (signals s)).

Definition signal_child (k : nat) (sig : signal) : M unit := fun s =>
  (Ret tt, mk_pool (states s) (outcomes s) (released s) (dispatched s)
             (next_index s) (reported s) (printed s) (signals s ++ [(k, sig)])).
Definition when (b : bool) (m : M unit) : M unit := if b then m else ret tt.
Arguments when !_ _ /.

(** * Temporary destinations *)

(** [str(path)] of a resolved path. *)
Definition posix_str (p : path) : pystr := lit "/" ++ join (lit "/") p.

(** [if cond: t else: e] for a condition that may raise. *)
Definition branch {A} (cond : outcome bool) (t e : outcome A) : outcome A :=
  match cond with Ret true => t | Ret false => e | Raise x => Raise x end.

(** [TemporaryDestination.cleanup]. *)
Definition cleanup (temporary : path) (c : cleanup_env) : M unit := fun s =>
  (branch (c_is_dir c) (branch (c_is_symlink c) (Ret tt) (c_rmtree c)) (Ret tt),
   mk_pool (states s) (outcomes s) (released s ++ [temporary]) (dispatched s)
     (next_index s) (reported s) (printed s) (signals s)).

(** [_destination]: an owned temporary path or the refusal of an existing one. *)
Definition destination (root : path) (name : pystr) (d : dispatch_env)
  : outcome (path + CacheWriteResult) :=
  let temporary := path_join (path_join root (lit "tmp")) name in
  branch (branch (d_exists d) (Ret true) (d_symlink d))
    (Ret (inr (CacheWriteError name (lit "refusing unowned temporary cache: " ++ posix_str temporary))))
    (p ← d_resolve d; Ret (inl p)).

Section Supervision.
Context (text : py_exc -> option pystr).

(** * Dispatch and polling *)

(** [_dispatch]: [None] when the job became active. *)
Definition dispatch (k : nat) (index : Z) (name : pystr) (root : path) (timeout : Z)
    (d : dispatch_env) : M (option CacheWriteResult) :=
  match d_pickle d with
  | Raise e =>
      if is_exception e
      then ret (Some (CacheWriteError name (lit "source serialization failed: " ++ diagnostic text e)))
      else throw e
  | Ret _ =>
      match destination root name d with
      | Raise e =>
          if is_oserror e
          then ret (Some (CacheWriteError name
                     (lit "destination preflight failed: " ++ diagnostic text e)))
          else throw e
      | Ret (inr error) => ret (Some error)
      | Ret (inl p) =>
          _ <- set_state k (Active index (d_now d + timeout) p);;
          _ <- log_dispatch index p;;
          _ <- lift (d_put d);;
          ret None
      end
  end.

(** [_receive]. *)
Definition receive (r : outcome (option WorkerMessage)) : outcome (result WorkerMessage pystr) :=
  match r with
  | Raise e => if is_transport e
               then Ret (Err (lit "writer transport failed: " ++ diagnostic text e))
               else Raise e
  | Ret (Some m) => Ret (Ok m)
  | Ret None => Ret (Err (lit "invalid writer worker message"))
  end.

(** The part of [_poll] after the pipe: child death, then the deadline. *)
Definition poll_liveness (k : nat) (o : poll_env) : M (result unit pystr) := fun s =>
  (Ret match o_exitcode o with
       | Some code => Err (lit "writer child exited with code " ++ dec code)
       | None =>
           match state_of s k with
           | Starting deadline | Active _ deadline _ =>
               if deadline <=? o_now o then Err (lit "writer process timeout exceeded") else Ok tt
           | Idle => Ok tt
           end
       end, s).

Definition poll (k : nat) (o : poll_env) : M (result unit pystr) :=
  ready <- lift (o_ready o);;
  if negb ready then poll_liveness k o
  else
    received <- lift (receive (o_recv o));;
    match received with
    | Err message => ret (Err message)
    | Ok Ready => _ <- set_state k Idle;; poll_liveness k o
    | Ok (Finished r) => fun s =>
        match state_of s k with
        | Active index _ temporary =>
            (_ <- set_outcome index r;;
             _ <- set_state k Idle;;
             _ <- cleanup temporary (o_cleanup o);;
             poll_liveness k o) s
        | _ => (Ret (Err (lit "writer protocol violation")), s)
        end
    | Ok (Interrupted Keyboard message _) => throw (KeyboardInterrupt message)
    | Ok (Interrupted Exit _ status) => throw (SystemExit status)
    | Ok (Failed message) => ret (Err message)
    end.

(** [[_poll(worker, outcomes) for worker in workers]], from worker [k]. *)
Fixpoint poll_all (k n : nat) (o : nat -> poll_env) : M (list (result unit pystr)) :=
  match n with
  | O => ret []
  | S n' => r <- poll k (o k);; rs <- poll_all (S k) n' o;; ret (r :: rs)
  end.

Fixpoint first_error (rs : list (result unit pystr)) : option pystr :=
  match rs with
  | [] => None
  | Err m :: _ => Some m
  | Ok _ :: r => first_error r
  end.
End Supervision.

(** * The supervision loop *)

Section Loop.
Context (text : py_exc -> option pystr) (jobs : list job) (root : path) (timeout : Z)
  (show_progress : bool).
(** [polls round k] is what polling worker [k] meets in a round, [dispatches i]
    what dispatching job [i] meets; a job is dispatched at most once. *)
Context (polls : nat -> nat -> poll_env) (dispatches : Z -> dispatch_env).

Definition job_count : Z := Z.of_nat (length jobs).

(** One iteration of [while isinstance(worker.state, Idle) and next_index < len(jobs)]. *)
Definition assign_one (k : nat) : M unit :=
  index <- advance;;
  match jobs !! Z.to_nat index with
  | None => throw (IndexError (lit "list index out of range"))
  | Some (Rejected name message) => set_outcome index (CacheWriteError name message)
  | Some (SourceJob name) =>
      result <- dispatch text k index name root timeout (dispatches index);;
      match result with Some error => set_outcome index error | None => ret tt end
  end.

Fixpoint assign (fuel : nat) (k : nat) : M unit :=
  match fuel with
  | O => ret tt
  | S fuel' => fun s =>
      if is_idle (state_of s k) && (next_index s <? job_count)
      then (_ <- assign_one k;; assign fuel' k) s
      else (Ret tt, s)
  end.

Fixpoint assign_all (k n : nat) : M unit :=
  match n with
  | O => ret tt
  | S n' => _ <- assign (length jobs) k;; assign_all (S k) n'
  end.

Definition progress : M unit := fun s =>
  let done := Z.of_nat (size (outcomes s)) in
  if show_progress && negb (done =? reported s)
  then report done (lit "DatasetRT sources completed: " ++ dec done ++ lit "/" ++ dec job_count) s
  else (Ret tt, s).

(** The body of one round: [Some] ends the loop with a failure. *)
Definition one_round (round : nat) : M (option pystr) := fun s =>
  let n := length (states s) in
  (results <- poll_all text 0 n (polls round);;
   match first_error results with
   | Some failure => ret (Some failure)
   | None => _ <- assign_all 0 n;; _ <- progress;; ret None
   end) s.

(** The loop, at most [fuel] rounds; the outer [None] means not finished. *)
Fixpoint supervise (fuel round : nat) : M (option (result unit pystr)) := fun s =>
  if Z.of_nat (size (outcomes s)) <? job_count
  then match fuel with
       | O => (Ret None, s)
       | S fuel' =>
           (failed <- one_round round;;
            match failed with
            | Some failure => ret (Some (Err failure))
            | None => supervise fuel' (S round)
            end) s
       end
  else (Ret (Some (Ok tt)), s).
End Loop.

(** * Shutdown *)

(** [WriterProcess.stop]. *)
Definition stop (k : nat) (e : stop_env) : M unit := fun s =>
  (_ <- when (is_idle (state_of s k) && s_alive_idle e)
          (_ <- lift (s_put e);; signal_child k Quit);;
   _ <- when (s_alive_terminate e) (signal_child k Terminate);;
   _ <- when (s_alive_kill e) (signal_child k Kill);;
   if s_alive_last e
   then throw (RuntimeError (lit "writer child could not be stopped; temporary cache retained"))
   else match state_of s k with
        | Active _ _ temporary => _ <- set_state k Idle;; cleanup temporary (s_cleanup e)
        | _ => ret tt
        end) s.

(** The loop of [_stop_all] from worker [k], with the first error kept so far. *)
Fixpoint stop_each (k n : nat) (stops : nat -> stop_env) (first : option py_exc) : M unit :=
  match n with
  | O => match first with Some e => throw e | None => ret tt end
  | S n' => fun s =>
      match stop k (stops k) s with
      | (Ret _, s') => stop_each (S k) n' stops first s'
      | (Raise e, s') =>
          if is_exception e
          then stop_each (S k) n' stops (match first with None => Some e | f => f end) s'
          else (Raise e, s')
      end
  end.

Definition stop_all (stops : nat -> stop_env) : M unit := fun s =>
  stop_each 0 (length (states s)) stops None s.

(** * Results *)

Definition ordered_outcome (outs : gmap Z CacheWriteResult) (failure : pystr) (public : path)
    (index : Z) (j : job) : CacheWriteResult :=
  let result :=
    match outs !! index with
    | Some r => r
    | None => match j with
              | Rejected n m => CacheWriteError n m
              | SourceJob n => CacheWriteError n failure
              end
    end in
  match result with
  | CacheWriteSuccess name _ => CacheWriteSuccess name (path_join public name)
  | CacheWriteError _ _ => result
  end.

Fixpoint ordered_outcomes (index : Z) (jobs : list job) (outs : gmap Z CacheWriteResult)
    (failure : pystr) (public : path) : list CacheWriteResult :=
  match jobs with
  | [] => []
  | j :: r => ordered_outcome outs failure public index j
              :: ordered_outcomes (index + 1) r outs failure public
  end.

(** * The whole call *)

(** What [write_parallel] meets: [path.resolve()], the start of each child (the
    clock when it started), the supervision and the shutdown. *)
Record write_env := mk_write_env {
  e_resolve : outcome path;
  e_start : nat -> outcome Z;
  e_polls : nat -> nat -> poll_env;
  e_dispatches : Z -> dispatch_env;
  e_stops : nat -> stop_env }.

(** How the [try] block ends when it raises nothing; [Unfinished] when the rounds
    considered ran out. *)
Inductive ending := Completed | Stopped (failure : pystr) | Unfinished.

Section WriteParallel.
Context (casefold nfc : pystr -> pystr) (text : py_exc -> option pystr).
Context (num_processes : Z) (timeout : Z) (show_progress : bool) (env : write_env).

(** [workers.append(_start(...))]. *)
Definition add_worker (w : wstate) : M unit := fun s =>
  (Ret tt, mk_pool (states s ++ [w]) (outcomes s) (released s) (dispatched s)
             (next_index s) (reported s) (printed s) (signals s)).

Fixpoint start_workers (k n : nat) : M unit :=
  match n with
  | O => ret tt
  | S n' => now <- lift (e_start env k);; _ <- add_worker (Starting (now + timeout));;
            start_workers (S k) n'
  end.

(** The [try] block. *)
Definition pool_body (fuel : nat) (jobs : list job) : M ending :=
  root <- lift (e_resolve env);;
  _ <- start_workers 0 (Z.to_nat (Z.min num_processes (Z.of_nat (length jobs))));;
  result <- supervise text jobs root timeout show_progress (e_polls env) (e_dispatches env) fuel 0;;
  ret match result with
      | None => Unfinished
      | Some (Err failure) => Stopped failure
      | Some (Ok _) => Completed
      end.

Definition empty_pool : pool := mk_pool [] ∅ [] [] 0 0 [] [].

(** [try: ... except OSError ... finally: _stop_all(workers)]; the failure text
    reported for unfinished jobs. [None] means that the rounds ran out. *)
Definition run_pool (fuel : nat) (jobs : list job) : option (outcome pystr * pool) :=
  let (body, s) := pool_body fuel jobs empty_pool in
  let failure :=
    match body with
    | Ret Completed => Some (Ret (lit "writer pool stopped"))
    | Ret (Stopped message) => Some (Ret message)
    | Ret Unfinished => None
    | Raise e => Some (if is_oserror e
                       then Ret (lit "writer pool failed: " ++ diagnostic text e)
                       else Raise e)
    end in
  match failure with
  | None => None
  | Some failure =>
      let (stopped, s') := stop_all (e_stops env) s in
      Some (match stopped with Raise e => Raise e | Ret _ => failure end, s')
  end.

Definition write_parallel (fuel : nat) (sources : list (outcome pystr)) (public : path)
  : option (outcome (list CacheWriteResult)) :=
  match preflight casefold nfc text sources with
  | Raise e => Some (Raise e)
  | Ret (Err errors) => Some (Ret errors)
  | Ret (Ok jobs) =>
      if bool_decide (jobs = []) then Some (Ret [])
      else match run_pool fuel jobs with
      | None => None
      | Some (failure, s) =>
          Some (f ← failure; Ret (ordered_outcomes 0 jobs (outcomes s) f public))
      end
  end.
End WriteParallel.
