(* ===== verification/PoolProofs.v ===== *)
(** Properties of the writer pool: ownership of temporary paths, at-most-once
    dispatch, completeness of the outcomes and termination of the supervision. *)
From stdpp Require Import base tactics list numbers strings gmap.
From S2P Require Import Prelude Records Config PyStr Writer WriterPool.
Open Scope Z_scope.

#[local] Opaque lit dec.

(** * Invariants *)

(** The job and the temporary path a child owns. *)
Definition owned_by (w : wstate) : option (Z * path) :=
  match w with Active i _ p => Some (i, p) | _ => None end.

Definition actives (s : pool) : list (Z * path) := omap owned_by (states s).

(** Every temporary path given out is either still owned by one active child or
    was released once, and no job was dispatched twice. *)
Record owned (s : pool) : Prop := mk_owned {
  ow_next : 0 <= next_index s;
  ow_paths : released s ++ (actives s).*2 ≡ₚ (dispatched s).*2;
  ow_once : NoDup (dispatched s).*1;
  ow_below : Forall (fun i => 0 <= i < next_index s) (dispatched s).*1 }.

(** Every job taken so far is either active in one child or has its outcome. *)
Record covered (jobs : list job) (s : pool) : Prop := mk_covered {
  cv_next : 0 <= next_index s <= job_count jobs;
  cv_jobs : (actives s).*1 ++ elements (dom (outcomes s)) ≡ₚ seqZ 0 (next_index s) }.

Lemma omap_insert_split {A B} (f : A -> option B) (l : list A) k x y : l !! k = Some x ->
  exists rest, omap f l ≡ₚ option_list (f x) ++ rest /\ omap f (<[k := y]> l) ≡ₚ option_list (f y) ++ rest.
Proof.
  intros Hk. exists (omap f (take k l) ++ omap f (drop (S k) l)).
  assert (H : forall z, omap f (take k l ++ z :: drop (S k) l) ≡ₚ
                option_list (f z) ++ (omap f (take k l) ++ omap f (drop (S k) l))).
  { intros z. rewrite omap_app. simpl. destruct (f z); simpl; [|done].
    symmetry. apply Permutation_middle. }
  split.
  - rewrite <- H. by rewrite take_drop_middle.
  - rewrite <- H. by rewrite insert_take_drop by (by eapply lookup_lt_Some).
Qed.

(** The message a poll delivers. *)
Definition message_at (o : poll_env) : option WorkerMessage :=
  match o_ready o, o_recv o with
  | Ret true, Ret (Some m) => Some m
  | _, _ => None
  end.

Definition with_state (k : nat) (w : wstate) (s : pool) : pool := (set_state k w s).2.
Definition with_outcome (i : Z) (r : CacheWriteResult) (s : pool) : pool := (set_outcome i r s).2.
Definition with_release (p : path) (s : pool) : pool :=
  mk_pool (states s) (outcomes s) (released s ++ [p]) (dispatched s)
    (next_index s) (reported s) (printed s) (signals s).

(** The deadline of a child that is not idle has not passed. *)
Definition in_time (w : wstate) (now : Z) : Prop :=
  match w with Starting d | Active _ d _ => now < d | Idle => True end.

(** What one poll can do. *)
Inductive poll_case (k : nat) (o : poll_env) (s : pool) : outcome (result unit pystr) -> pool -> Prop :=
| PollSame r : (r = Ret (Ok tt) -> in_time (state_of s k) (o_now o)) -> poll_case k o s r s
| PollReady r : message_at o = Some Ready -> poll_case k o s r (with_state k Idle s)
| PollFinished r i d p out : message_at o = Some (Finished out) ->
    states s !! k = Some (Active i d p) ->
    poll_case k o s r (with_release p (with_state k Idle (with_outcome i out s))).

Lemma state_of_lookup s k w : states s !! k = Some w -> state_of s k = w.
Proof. intros E. unfold state_of. by rewrite E. Qed.

Lemma poll_liveness_case k o s : exists r, poll_liveness k o s = (Ret r, s) /\
  (r = Ok tt -> in_time (state_of s k) (o_now o)).
Proof.
  unfold poll_liveness. destruct (o_exitcode o); [by eexists|].
  destruct (state_of s k) as [d| |i d p]; simpl; (eexists; split; [done|]); try done;
    destruct (Z.leb_spec d (o_now o)); done.
Qed.

#[local] Opaque poll_liveness.

Lemma poll_cases text k o s : (k < length (states s))%nat ->
  poll_case k o s (poll text k o s).1 (poll text k o s).2.
Proof.
  intros Hk. destruct (lookup_lt_is_Some_2 _ _ Hk) as [w Hw]. unfold poll, bind, lift.
  destruct (o_ready o) as [[]|e] eqn:Er; simpl; [| |by constructor].
  2: { destruct (poll_liveness_case k o s) as (r & -> & Hr). simpl. constructor. by intros [= ->]; auto. }
  unfold receive. destruct (o_recv o) as [[m|]|e] eqn:Em; simpl; [|by constructor|].
  2: { destruct (is_transport e); simpl; by constructor. }
  assert (Hm : message_at o = Some m) by (unfold message_at; by rewrite Er, Em).
  destruct m as [|out|[] msg status|msg]; simpl; try by constructor.
  rewrite (state_of_lookup _ _ _ Hw). destruct w as [d| |i d p]; simpl; [by constructor..|].
  destruct (branch _ _ _); simpl.
  - set (s' := mk_pool _ _ _ _ _ _ _ _). destruct (poll_liveness_case k o s') as (r & E & _).
    rewrite E. simpl. by eapply PollFinished.
  - by eapply PollFinished.
Qed.

(** * Polling keeps the invariants *)

Lemma actives_drop s k w : states s !! k = Some w ->
  actives s ≡ₚ option_list (owned_by w) ++ actives (with_state k Idle s).
Proof.
  intros Hk. unfold actives, with_state; simpl.
  destruct (omap_insert_split owned_by _ _ _ Idle Hk) as (rest & -> & ->). done.
Qed.

Lemma actives_add s k i d p : states s !! k = Some Idle ->
  actives (with_state k (Active i d p) s) ≡ₚ (i, p) :: actives s.
Proof.
  intros Hk. unfold actives, with_state; simpl.
  destruct (omap_insert_split owned_by _ _ _ (Active i d p) Hk) as (rest & -> & ->). done.
Qed.

(** A child announces itself only before it has a job. *)
Definition ready_ok (s : pool) (k : nat) (o : poll_env) : Prop :=
  message_at o = Some Ready -> forall i d p, states s !! k <> Some (Active i d p).

Lemma ready_keeps_actives s k o w : ready_ok s k o -> message_at o = Some Ready ->
  states s !! k = Some w -> actives (with_state k Idle s) ≡ₚ actives s.
Proof.
  intros Hr Hm Hk. rewrite (actives_drop s k w Hk).
  destruct w as [d| |i d p]; [done|done|]. by destruct (Hr Hm i d p).
Qed.

Lemma poll_owned k o s r s' : (k < length (states s))%nat -> ready_ok s k o -> owned s ->
  poll_case k o s r s' -> owned s'.
Proof.
  intros Hk Hr [Hn Hp Ho Hb] H. destruct (lookup_lt_is_Some_2 _ _ Hk) as [w Hw].
  destruct H as [| |r i d p out Hm Hs]; [done| |].
  - constructor; try done. simpl. by rewrite (ready_keeps_actives s k o w).
  - constructor; try done. simpl. rewrite <- Hp.
    change (actives (with_release p _)) with (actives (with_state k Idle s)).
    rewrite (actives_drop s k _ Hs). simpl. rewrite <- (assoc_L (++)). done.
Qed.

Lemma fresh_outcome jobs s i p : covered jobs s -> (i, p) ∈ actives s -> outcomes s !! i = None.
Proof.
  intros [_ Hc] Hi. apply not_elem_of_dom. intros Hd.
  assert (HN : NoDup ((actives s).*1 ++ elements (dom (outcomes s)))) by (rewrite Hc; apply NoDup_seqZ).
  apply NoDup_app in HN as (_ & HN & _). apply (HN i).
  - by apply (list_elem_of_fmap_2 fst _ (i, p)).
  - by apply elem_of_elements.
Qed.

Lemma elements_dom_insert (m : gmap Z CacheWriteResult) i r : m !! i = None ->
  elements (dom (<[i := r]> m)) ≡ₚ i :: elements (dom m).
Proof.
  intros Hi. rewrite dom_insert_L. apply elements_union_singleton. by apply not_elem_of_dom.
Qed.

Lemma poll_covered jobs k o s r s' : (k < length (states s))%nat -> ready_ok s k o -> covered jobs s ->
  poll_case k o s r s' -> covered jobs s'.
Proof.
  intros Hk Hr Hcv H. destruct (lookup_lt_is_Some_2 _ _ Hk) as [w Hw]. pose proof Hcv as [Hn Hc].
  destruct H as [| |r i d p out Hm Hs]; [done| |].
  - constructor; [done|]. simpl. by rewrite (ready_keeps_actives s k o w).
  - constructor; [done|]. simpl. rewrite <- Hc.
    change (actives (with_release p _)) with (actives (with_state k Idle s)).
    pose proof (actives_drop s k _ Hs) as Ha. simpl in Ha.
    rewrite elements_dom_insert.
    + rewrite Ha. simpl. symmetry. apply Permutation_middle.
    + apply (fresh_outcome jobs s i p Hcv). rewrite Ha. left.
Qed.

(** What polling one worker leaves alone. *)
Lemma poll_frame k o s r s' : poll_case k o s r s' ->
  length (states s') = length (states s) /\ next_index s' = next_index s /\
  (forall j, j <> k -> states s' !! j = states s !! j) /\
  (states s' !! k = states s !! k \/ exists m, message_at o = Some m).
Proof.
  destruct 1 as [| |r i d p out Hm Hs]; simpl; [by auto|..]; rewrite length_insert;
    (split_and!; [done|done|intros j Hj; by rewrite list_lookup_insert_ne|right; eauto]).
Qed.

(** A worker polled without failure is idle or its deadline is ahead. *)
Lemma poll_in_time k o s s' : (k < length (states s))%nat -> poll_case k o s (Ret (Ok tt)) s' ->
  in_time (state_of s' k) (o_now o).
Proof.
  intros Hk H. inversion H; subst; simpl; [auto| |];
    unfold state_of; simpl; by rewrite list_lookup_insert_eq.
Qed.

Section Rounds.
Context (text : py_exc -> option pystr) (jobs : list job) (root : path) (timeout : Z)
  (show_progress : bool) (polls : nat -> nat -> poll_env) (dispatches : Z -> dispatch_env).

(** Children announce themselves before anything else they send. *)
Definition ready_first : Prop := forall k r r' m, (r < r')%nat ->
  message_at (polls r k) = Some m -> message_at (polls r' k) <> Some Ready.
Context (Hfirst : ready_first).

(** A child that left its starting state was heard in an earlier round. *)
Definition heard (s : pool) (round k : nat) : Prop := forall w, states s !! k = Some w ->
  match w with
  | Starting _ => True
  | _ => exists r m, (r < round)%nat /\ message_at (polls r k) = Some m
  end.

Lemma heard_ready s round k : heard s round k -> ready_ok s k (polls round k).
Proof.
  intros Hh Hm i d p Hs. destruct (Hh _ Hs) as (r & m & Hr & Hm').
  by apply (Hfirst k r round m Hr Hm').
Qed.

Lemma heard_mono s round k : heard s round k -> heard s (S round) k.
Proof.
  intros Hh w Hw. specialize (Hh w Hw). destruct w; [done|..];
    destruct Hh as (r & m & ? & ?); exists r, m; (split; [lia|done]).
Qed.

Lemma heard_same s s' round k : states s' !! k = states s !! k -> heard s round k -> heard s' round k.
Proof. intros E Hh w. rewrite E. apply Hh. Qed.

Lemma poll_heard s s' round k r : heard s round k -> poll_case k (polls round k) s r s' ->
  heard s' (S round) k.
Proof.
  intros Hh H. destruct (poll_frame _ _ _ _ _ H) as (_ & _ & _ & [E|[m Hm]]).
  - apply heard_mono. by eapply heard_same.
  - intros w _. destruct w; [done|..]; exists round, m; (split; [lia|done]).
Qed.

(** An error recorded for a job without asking a child. *)
Definition job_error (j : job) (r : CacheWriteResult) : Prop :=
  match j with
  | Rejected n m => r = CacheWriteError n m
  | SourceJob n => exists m, r = CacheWriteError n m
  end.

Definition answer_of (i : Z) (r : CacheWriteResult) : Prop :=
  exists j, jobs !! Z.to_nat i = Some j /\
    (job_error j r \/
     (exists n, j = SourceJob n) /\ exists round k, message_at (polls round k) = Some (Finished r)).

(** Outcomes come from the job's own rejection, from its failed dispatch or from
    a child; children only hold source jobs. *)
Record answered (s : pool) : Prop := mk_answered {
  an_active : forall i q, (i, q) ∈ actives s -> exists n, jobs !! Z.to_nat i = Some (SourceJob n);
  an_outcome : forall i r, outcomes s !! i = Some r -> answer_of i r }.

Lemma poll_answered s s' round k r : (k < length (states s))%nat ->
  ready_ok s k (polls round k) -> answered s -> poll_case k (polls round k) s r s' -> answered s'.
Proof.
  intros Hk Hr [Ha Hs] H. destruct (lookup_lt_is_Some_2 _ _ Hk) as [w Hw].
  destruct H as [| |r i d p out Hm Hst]; [done| |].
  - constructor; [|done]. intros i q. rewrite (ready_keeps_actives s k (polls round k) w) by done. apply Ha.
  - pose proof (actives_drop s k _ Hst) as Hd. simpl in Hd. constructor.
    + intros j q Hj. apply (Ha j q). rewrite Hd. by right.
    + intros j x. simpl. destruct (Ha i p) as [n Hn]; [rewrite Hd; left|].
      rewrite lookup_insert_Some. intros [[<- <-]|[_ Hx]]; [|by apply Hs]. unfold answer_of. eauto 10.
Qed.

Definition timely (bound : Z) (s : pool) : Prop := forall k w, states s !! k = Some w ->
  match w with Starting d | Active _ d _ => d <= bound | Idle => True end.

Lemma poll_timely s s' k o r b : poll_case k o s r s' -> timely b s -> timely b s'.
Proof.
  intros H Ht j w Hw. destruct H as [| |r i d p out Hm Hs]; [by apply (Ht j)|..];
    simpl in Hw; apply list_lookup_insert_Some in Hw as [(-> & <- & _)|[_ Hw]]; try done;
    by apply (Ht j).
Qed.

(** The effect of polling workers [k], [k+1], ... in one round. *)
Record polled_from (round k : nat) (s : pool) (res : outcome (list (result unit pystr))) (s' : pool)
  : Prop := mk_polled {
  pf_owned : owned s';
  pf_length : length (states s') = length (states s);
  pf_next : next_index s' = next_index s;
  pf_heard : forall j, heard s' (S round) j;
  pf_covered : covered jobs s -> covered jobs s';
  pf_answered : answered s -> answered s';
  pf_timely : forall b, timely b s -> timely b s';
  pf_before : forall j, (j < k)%nat -> states s' !! j = states s !! j;
  pf_in_time : forall rs, res = Ret rs -> first_error rs = None ->
    forall j, (k <= j < length (states s))%nat -> in_time (state_of s' j) (o_now (polls round j)) }.

Lemma poll_all_ok round n : forall k s, (k + n = length (states s))%nat -> owned s ->
  (forall j, (k <= j)%nat -> heard s round j) -> (forall j, (j < k)%nat -> heard s (S round) j) ->
  polled_from round k s (poll_all text k n (polls round) s).1 (poll_all text k n (polls round) s).2.
Proof.
  induction n as [|n IH]; intros k s Hn Ho Hge Hlt.
  { constructor; simpl; try done; [|intros; lia].
    intros j. destruct (decide (j < k)%nat); [auto|]. apply heard_mono, Hge. lia. }
  pose proof (poll_cases text k (polls round k) s ltac:(lia)) as Hc.
  cbn [poll_all]. unfold bind.
  destruct (poll text k (polls round k) s) as [r s1] eqn:Ep; simpl fst in *; simpl snd in *.
  destruct (poll_frame _ _ _ _ _ Hc) as (Hl & Hx & Hoth & _).
  assert (Hrdy : ready_ok s k (polls round k)) by (apply heard_ready, Hge; lia).
  assert (Ho1 : owned s1) by (eapply poll_owned; [|done..]; lia).
  assert (Hcv1 : covered jobs s -> covered jobs s1) by (intros; eapply poll_covered; [|done..]; lia).
  assert (Han1 : answered s -> answered s1) by (intros; eapply poll_answered; [|done..]; lia).
  assert (Hti1 : forall b, timely b s -> timely b s1) by (intros; by eapply poll_timely).
  assert (Hk1 : heard s1 (S round) k) by (eapply poll_heard; [apply Hge; lia|done]).
  assert (Hh : forall j, j <> k -> forall q, heard s q j -> heard s1 q j)
    by (intros; eapply heard_same; [by apply Hoth|done]).
  destruct r as [r|e].
  - destruct (IH (S k) s1) as [I1 I2 I3 I4 I5 Ia It I6 I7]; [lia|done| | |].
    { intros j Hj. apply Hh; [lia|]. apply Hge. lia. }
    { intros j Hj. destruct (decide (j = k)) as [->|]; [done|]. apply Hh; [done|]. apply Hlt. lia. }
    destruct (poll_all text (S k) n (polls round) s1) as [[rs|e] s2]; simpl in *.
    + constructor; [done|congruence|congruence|done|auto|auto|auto|intros j Hj; by rewrite I6, Hoth by lia|].
      intros rs' [= <-] Hf j Hj. simpl in Hf. destruct r as [[]|]; [|discriminate].
      destruct (decide (j = k)) as [->|].
      * pose proof (poll_in_time k (polls round k) s s1 ltac:(lia) Hc) as Ht. unfold state_of in *.
        by rewrite I6 by lia.
      * apply (I7 rs eq_refl Hf). lia.
    + constructor; [done|congruence|congruence|done|auto|auto|auto|intros j Hj; by rewrite I6, Hoth by lia|done].
  - constructor; [done..| |done|done|done|intros j Hj; apply Hoth; lia|done].
    intros j. destruct (decide (j = k)) as [->|]; [done|]. apply Hh; [done|].
    destruct (decide (j < k)%nat); [auto|]. apply heard_mono, Hge. lia.
Qed.

(** * Assigning jobs keeps the invariants *)

Definition with_next (s : pool) : pool := (advance s).2.
Definition with_dispatch (i : Z) (q : path) (s : pool) : pool := (log_dispatch i q s).2.

(** What taking the next job for worker [k] can do. *)
Inductive assign_case (k : nat) (s : pool) : outcome unit -> pool -> Prop :=
| AssignOutcome j r : jobs !! Z.to_nat (next_index s) = Some j -> job_error j r ->
    assign_case k s (Ret tt) (with_outcome (next_index s) r (with_next s))
| AssignActive n res q : jobs !! Z.to_nat (next_index s) = Some (SourceJob n) ->
    assign_case k s res (with_dispatch (next_index s) q
      (with_state k (Active (next_index s) (d_now (dispatches (next_index s)) + timeout) q)
         (with_next s)))
| AssignRaise e : assign_case k s (Raise e) (with_next s).

Lemma destination_error n d r : destination root n d = Ret (inr r) -> job_error (SourceJob n) r.
Proof.
  unfold destination, branch. destruct (d_exists d) as [[]|]; [|destruct (d_symlink d) as [[]|]|];
    try discriminate; try (intros [= <-]; by eexists). by destruct (d_resolve d).
Qed.

Abbreviation take_job := (assign_one text jobs root timeout dispatches).

Lemma assign_one_cases k s : 0 <= next_index s < job_count jobs ->
  assign_case k s (take_job k s).1 (take_job k s).2.
Proof.
  intros Hn. unfold assign_one, bind, advance. simpl.
  destruct (jobs !! Z.to_nat (next_index s)) as [[n|n m]|] eqn:Ej; simpl;
    [|by eapply AssignOutcome|].
  2: { apply lookup_ge_None in Ej. unfold job_count in Hn. lia. }
  unfold dispatch. destruct (d_pickle (dispatches (next_index s))) as [u|e]; simpl.
  2: { destruct (is_exception e); simpl; [|constructor]. eapply AssignOutcome; [done|by eexists]. }
  destruct (destination root n (dispatches (next_index s))) as [[q|r]|e] eqn:Ed; simpl.
  - unfold bind, lift, set_state, log_dispatch. simpl.
    destruct (d_put (dispatches (next_index s))); simpl; by eapply AssignActive.
  - eapply AssignOutcome; [done|]. by eapply destination_error.
  - destruct (is_oserror e); simpl; [|constructor]. eapply AssignOutcome; [done|by eexists].
Qed.

(** Effects of a part of the assignment on the pool. *)
Record assigned (round : nat) (s : pool) (res : outcome unit) (s' : pool) : Prop := mk_assigned {
  as_owned : owned s';
  as_length : length (states s') = length (states s);
  as_next : next_index s <= next_index s' <= job_count jobs;
  as_heard : forall j, heard s' round j;
  as_covered : res = Ret tt -> covered jobs s -> covered jobs s';
  as_answered : answered s -> answered s';
  as_timely : forall b,
    (forall i, 0 <= i < job_count jobs -> d_now (dispatches i) + timeout <= b) ->
    timely b s -> timely b s' }.

Lemma assigned_refl round s : owned s -> next_index s <= job_count jobs ->
  (forall j, heard s round j) -> assigned round s (Ret tt) s.
Proof. intros. by constructor. Qed.

Lemma assigned_trans round s s1 s2 res : assigned round s (Ret tt) s1 -> assigned round s1 res s2 ->
  assigned round s res s2.
Proof.
  intros [A1 A2 A3 A4 A5 Aa A6] [B1 B2 B3 B4 B5 Ba B6]. constructor; auto; [congruence|lia].
Qed.

Lemma owned_next s : owned s -> owned (with_next s).
Proof.
  intros [Hn Hp Ho Hb]. constructor; simpl; try done; [lia|].
  eapply Forall_impl; [exact Hb|]. simpl. lia.
Qed.

Lemma owned_dispatch s k i d q : states s !! k = Some Idle -> owned s -> i = next_index s ->
  owned (with_dispatch i q (with_state k (Active i d q) (with_next s))).
Proof.
  intros Hk [Hn Hp Ho Hb] ->. constructor; simpl; [lia|..]; rewrite ?fmap_app; simpl.
  - change (actives (with_dispatch _ _ _))
      with (actives (with_state k (Active (next_index s) d q) s)).
    rewrite (actives_add s k _ _ _ Hk). simpl. rewrite <- Hp.
    rewrite <- Permutation_middle. rewrite (Permutation_app_comm _ [q]). done.
  - apply NoDup_app. split_and!; [done| |apply NoDup_singleton].
    intros x Hx ->%list_elem_of_singleton. rewrite Forall_forall in Hb. specialize (Hb _ Hx). simpl in *. lia.
  - apply Forall_app. split; [|repeat constructor; lia].
    eapply Forall_impl; [exact Hb|]. simpl. lia.
Qed.

Lemma seqZ_next s : 0 <= next_index s ->
  seqZ 0 (next_index s + 1) ≡ₚ next_index s :: seqZ 0 (next_index s).
Proof. intros Hn. rewrite seqZ_snoc by done. rewrite Permutation_app_comm. done. Qed.

Lemma next_unused s : covered jobs s -> outcomes s !! next_index s = None.
Proof.
  intros [Hn Hc]. apply not_elem_of_dom. intros Hd%elem_of_elements.
  assert (H : next_index s ∈ seqZ 0 (next_index s)) by (rewrite <- Hc; apply elem_of_app; by right).
  apply elem_of_seqZ in H. lia.
Qed.

Lemma heard_any s s' round k j : states s !! k = Some Idle ->
  (forall i, i <> k -> states s' !! i = states s !! i) ->
  (forall i, heard s round i) -> heard s' round j.
Proof.
  intros Hk Hoth Hh. destruct (decide (j = k)) as [->|Hj].
  - intros w _. specialize (Hh k Idle Hk). by destruct w.
  - eapply heard_same; [by apply Hoth|done].
Qed.

(** One job taken by an idle worker. *)
Lemma assign_one_ok round k s res s' : states s !! k = Some Idle ->
  0 <= next_index s < job_count jobs -> owned s -> (forall j, heard s round j) ->
  assign_case k s res s' ->
  assigned round s res s' /\ next_index s' = next_index s + 1 /\
  (forall j, j <> k -> states s' !! j = states s !! j).
Proof.
  intros Hk Hn Ho Hh H. pose proof (owned_next s Ho) as Ho'.
  assert (Hfr : forall j, j <> k -> states s' !! j = states s !! j).
  { intros j Hj. destruct H; simpl; [done| |done]. by rewrite list_lookup_insert_ne. }
  assert (Hnx : next_index s' = next_index s + 1) by (by destruct H).
  split; [|done]. constructor.
  - destruct H; [destruct Ho'; by constructor|by apply owned_dispatch|done].
  - destruct H; simpl; by rewrite ?length_insert.
  - lia.
  - intros j. by apply (heard_any s s' round k).
  - intros -> Hcv. pose proof Hcv as [Hx Hc]. constructor; [lia|]. rewrite Hnx, seqZ_next, <- Hc by lia.
    inversion H; subst; simpl.
    + change (actives (with_outcome _ _ _)) with (actives s).
      rewrite elements_dom_insert by (by apply (next_unused s)). symmetry. apply Permutation_middle.
    + change (actives (with_dispatch _ _ _)) with
        (actives (with_state k (Active (next_index s) (d_now (dispatches (next_index s)) + timeout) q) s)).
      by rewrite (actives_add s k _ _ _ Hk).
  - intros [Ha Hs]. destruct H as [j r Hj He|n res q Hj|e]; [..|by constructor].
    + constructor; [done|]. intros i x. simpl. rewrite lookup_insert_Some.
      intros [[<- <-]|[_ Hx]]; [|by apply Hs]. unfold answer_of. eauto.
    + constructor; [|done]. intros i x.
      change (actives (with_dispatch _ _ _)) with
        (actives (with_state k (Active (next_index s) (d_now (dispatches (next_index s)) + timeout) q) s)).
      rewrite (actives_add s k _ _ _ Hk). intros [[= -> ->]|Hi]%elem_of_cons; [by eexists|by apply (Ha i x)].
  - intros b Hb Ht j w Hw. destruct (decide (j = k)) as [->|Hj];
      [|rewrite Hfr in Hw by done; by apply (Ht j)].
    destruct H; simpl in Hw; [by apply (Ht k)| |by apply (Ht k)].
    rewrite list_lookup_insert_eq in Hw by (by eapply lookup_lt_Some). injection Hw as <-. by apply Hb.
Qed.

Abbreviation assign_jobs := (assign text jobs root timeout dispatches).

(** The inner [while] loop of one worker, with at least as many iterations
    allowed as there are jobs left. *)
Lemma assign_ok round k fuel : forall s, (k < length (states s))%nat ->
  0 <= next_index s <= job_count jobs -> owned s -> (forall j, heard s round j) ->
  let res := (assign_jobs fuel k s).1 in let s' := (assign_jobs fuel k s).2 in
  assigned round s res s' /\
  (res = Ret tt -> (0 < fuel)%nat -> states s !! k = Some Idle -> next_index s < job_count jobs ->
   next_index s < next_index s') /\
  (res = Ret tt -> job_count jobs - next_index s <= Z.of_nat fuel ->
   states s' !! k <> Some Idle \/ next_index s' = job_count jobs).
Proof.
  induction fuel as [|fuel IH]; intros s Hk Hn Ho Hh; cbn [assign].
  { simpl. split_and!; [apply assigned_refl; [done|lia|done]|lia|]. intros _ H. right. lia. }
  destruct (lookup_lt_is_Some_2 _ _ Hk) as [w Hw]. rewrite (state_of_lookup _ _ _ Hw).
  destruct (is_idle w && (next_index s <? job_count jobs)) eqn:Eb; simpl.
  2: { split_and!; [apply assigned_refl; [done|lia|done]| |].
       - intros _ _ Hi Hl. exfalso. rewrite Hw in Hi. injection Hi as ->. simpl in Eb. bools. lia.
       - intros _ _. rewrite Hw. destruct w; simpl in Eb; [by left| |by left]. right. bools. lia. }
  bools. destruct w; try discriminate.
  unfold bind. pose proof (assign_one_cases k s ltac:(lia)) as Hc.
  destruct (take_job k s) as [r s1]; simpl fst in Hc; simpl snd in Hc.
  destruct (assign_one_ok round k s r s1 Hw ltac:(lia) Ho Hh Hc) as (HA & Hx & _).
  destruct r as [[]|e]; simpl; [|split_and!; [done|done|done]].
  destruct (IH s1) as (HB & _ & HD).
  - rewrite (as_length _ _ _ _ HA). done.
  - pose proof (as_next _ _ _ _ HA). lia.
  - apply HA.
  - apply HA.
  - split_and!; [by eapply assigned_trans| |].
    + intros _ _ _ _. pose proof (as_next _ _ _ _ HB). lia.
    + intros E Hf. apply HD; [done|lia].
Qed.

Abbreviation assign_workers := (assign_all text jobs root timeout dispatches).

Lemma assign_all_ok round n : forall k s, (k + n = length (states s))%nat ->
  0 <= next_index s <= job_count jobs -> owned s -> (forall j, heard s round j) ->
  let res := (assign_workers k n s).1 in let s' := (assign_workers k n s).2 in
  assigned round s res s' /\
  (res = Ret tt -> (0 < n)%nat -> states s !! k = Some Idle -> next_index s < job_count jobs ->
   next_index s < next_index s').
Proof.
  induction n as [|n IH]; intros k s Hk Hn Ho Hh; cbn [assign_all].
  { simpl. split; [apply assigned_refl; [done|lia|done]|lia]. }
  unfold bind. destruct (assign_ok round k (length jobs) s ltac:(lia) Hn Ho Hh) as (HA & Hp & _).
  destruct (assign_jobs (length jobs) k s) as [r s1]; simpl in *.
  destruct r as [[]|e]; simpl; [|split; done].
  destruct (IH (S k) s1) as [HB _].
  - rewrite (as_length _ _ _ _ HA). lia.
  - pose proof (as_next _ _ _ _ HA). lia.
  - apply HA.
  - apply HA.
  - split; [by eapply assigned_trans|]. intros _ _ Hi Hl.
    pose proof (as_next _ _ _ _ HB). unfold job_count in *.
    specialize (Hp eq_refl ltac:(lia) Hi Hl). lia.
Qed.

(** * One round *)

Abbreviation round_of := (one_round text jobs root timeout show_progress polls dispatches).

(** The invariants of the supervision between two rounds. *)
Record running (round : nat) (s : pool) : Prop := mk_running {
  rn_owned : owned s;
  rn_covered : covered jobs s;
  rn_answered : answered s;
  rn_heard : forall j, heard s round j }.

Definition deadlines_below (b : Z) : Prop :=
  forall i, 0 <= i < job_count jobs -> d_now (dispatches i) + timeout <= b.

(** Facts that hold after a round however it ends. *)
Record rounded (round : nat) (s s' : pool) : Prop := mk_rounded {
  rd_owned : owned s';
  rd_answered : answered s';
  rd_length : length (states s') = length (states s);
  rd_next : next_index s <= next_index s';
  rd_timely : forall b, deadlines_below b -> timely b s -> timely b s' }.

Lemma progress_frame s : exists n p, progress jobs show_progress s =
  (Ret tt, mk_pool (states s) (outcomes s) (released s) (dispatched s) (next_index s) n p (signals s)).
Proof.
  unfold progress. destruct (show_progress && _); [by eexists _, _|].
  exists (reported s), (printed s). by destruct s.
Qed.

Lemma all_idle b round s : timely b s -> (forall k, b <= o_now (polls round k)) ->
  (forall j, (j < length (states s))%nat -> in_time (state_of s j) (o_now (polls round j))) ->
  forall j w, states s !! j = Some w -> w = Idle.
Proof.
  intros Ht Hb Hin j w Hw. specialize (Hin j ltac:(by eapply lookup_lt_Some)).
  rewrite (state_of_lookup _ _ _ Hw) in Hin. specialize (Ht j w Hw). specialize (Hb j).
  destruct w; simpl in *; [lia|done|lia].
Qed.

Lemma no_actives s : (forall j w, states s !! j = Some w -> w = Idle) -> actives s = [].
Proof.
  intros H. unfold actives. induction (states s) as [|w l IH]; [done|]. simpl.
  rewrite (H 0%nat w eq_refl). simpl. apply IH. intros j x Hx. by apply (H (S j)).
Qed.

Lemma idle_outcomes s : covered jobs s -> actives s = [] -> Z.of_nat (size (outcomes s)) = next_index s.
Proof.
  intros [Hn Hc] Ha. rewrite Ha in Hc. simpl in Hc. apply Permutation_length in Hc.
  rewrite length_seqZ in Hc. rewrite <- (size_dom (outcomes s)). unfold size, set_size. simpl. lia.
Qed.

Lemma assign_all_done n : forall k s, job_count jobs <= next_index s ->
  assign_workers k n s = (Ret tt, s).
Proof.
  induction n as [|n IH]; intros k s Hn; cbn [assign_all]; [done|]. unfold bind.
  assert (E : forall f, assign_jobs f k s = (Ret tt, s)).
  { intros [|f]; cbn [assign]; [done|]. destruct (Z.ltb_spec (next_index s) (job_count jobs)); [lia|].
    by rewrite andb_false_r. }
  rewrite E. by apply IH.
Qed.

Lemma covered_rest s n p : covered jobs s -> covered jobs
  (mk_pool (states s) (outcomes s) (released s) (dispatched s) (next_index s) n p (signals s)).
Proof. intros [? ?]. by constructor. Qed.

Lemma one_round_ok round s : running round s ->
  let res := (round_of round s).1 in let s' := (round_of round s).2 in
  rounded round s s' /\
  (forall f, res = Ret f -> covered jobs s') /\
  (res = Ret None -> running (S round) s') /\
  (forall b, timely b s -> (forall k, b <= o_now (polls round k)) -> (0 < length (states s))%nat ->
     res = Ret None ->
     next_index s < next_index s' \/ Z.of_nat (size (outcomes s')) = job_count jobs).
Proof.
  intros [Ho Hc Ha Hh]. destruct (round_of round s) as [res s'] eqn:E.
  cbn [fst snd]. unfold one_round, bind in E.
  pose proof (poll_all_ok round (length (states s)) 0 s eq_refl Ho ltac:(auto) ltac:(lia)) as HP.
  destruct (poll_all text 0 (length (states s)) (polls round) s) as [[rs|e] s1]; simpl fst in HP;
    simpl snd in HP; destruct HP as [P1 P2 P3 P4 P5 Pa Pt _ P7].
  2: { injection E as <- <-. split_and!; [|done..]. constructor; auto; lia. }
  destruct (first_error rs) as [f|] eqn:Ef.
  { injection E as <- <-. split_and!; [constructor; auto; lia|auto|done|done]. }
  specialize (P5 Hc). specialize (Pa Ha). specialize (P7 rs eq_refl Ef).
  rewrite <- P2 in *. pose proof (cv_next _ _ P5) as Hn1.
  destruct (assign_all_ok (S round) (length (states s1)) 0 s1 eq_refl Hn1 P1 P4) as [HA Hp].
  destruct (assign_workers 0 (length (states s1)) s1) as [[[]|e] s2] eqn:Ew; simpl fst in *; simpl snd in *.
  2: { injection E as <- <-. split_and!; [|done..]. destruct HA. constructor; auto; [congruence|lia]. }
  destruct (progress_frame s2) as (n & q & Ep). rewrite Ep in E. injection E as <- <-.
  destruct HA as [A1 A2 A3 A4 A5 Aa A6]. specialize (A5 eq_refl P5). specialize (Aa Pa).
  assert (Hown : owned (mk_pool (states s2) (outcomes s2) (released s2) (dispatched s2)
                          (next_index s2) n q (signals s2))) by (destruct A1; by constructor).
  assert (Hans : answered (mk_pool (states s2) (outcomes s2) (released s2) (dispatched s2)
                          (next_index s2) n q (signals s2))) by (destruct Aa; by constructor).
  split_and!.
  - constructor; [done|done|simpl; congruence|simpl; lia|]. intros b Hb Ht. apply (A6 b Hb (Pt b Ht)).
  - intros _ _. by apply covered_rest.
  - intros _. constructor; [done|by apply covered_rest|done|]. apply A4.
  - intros b Ht Hb H0 _. simpl.
    pose proof (all_idle b round s1 (Pt b Ht) Hb ltac:(intros; apply P7; lia)) as Hidle.
    destruct (decide (next_index s1 = job_count jobs)) as [En|].
    + right. rewrite assign_all_done in Ew by lia. injection Ew as <-.
      rewrite <- En. by apply idle_outcomes, no_actives.
    + left. rewrite <- P3. apply Hp; [done|done| |lia].
      destruct (lookup_lt_is_Some_2 (states s1) 0) as [w Hw]; [done|]. by rewrite Hw, (Hidle _ _ Hw).
Qed.

(** * The loop *)

Abbreviation supervision := (supervise text jobs root timeout show_progress polls dispatches).

Lemma supervise_safe fuel : forall round s, running round s ->
  let res := (supervision fuel round s).1 in let s' := (supervision fuel round s).2 in
  owned s' /\ answered s' /\ length (states s') = length (states s) /\
  (forall r, res = Ret r -> covered jobs s') /\
  (res = Ret (Some (Ok tt)) -> job_count jobs <= Z.of_nat (size (outcomes s'))).
Proof.
  induction fuel as [|fuel IH]; intros round s Hr; cbn [supervise];
    destruct (Z.ltb_spec (Z.of_nat (size (outcomes s))) (job_count jobs)); simpl;
    try (destruct Hr; split_and!; [done|done|done|intros; done|done]).
  unfold bind. destruct (one_round_ok round s Hr) as (HR & Hc & Hn & _).
  destruct (round_of round s) as [[[f|]|e] s1]; simpl fst in *; simpl snd in *;
    [destruct HR; split_and!; eauto; discriminate| |destruct HR; split_and!; eauto; discriminate].
  destruct (IH (S round) s1 (Hn eq_refl)) as (I1 & I2 & I3 & I4 & I5).
  split_and!; try done. rewrite I3. apply HR.
Qed.

Lemma supervise_ends b N : deadlines_below b ->
  (forall r k, (N <= r)%nat -> b <= o_now (polls r k)) ->
  forall fuel round s, running round s -> timely b s -> (0 < length (states s))%nat ->
  Z.max 0 (Z.of_nat N - Z.of_nat round) + (job_count jobs - next_index s) + 1 <= Z.of_nat fuel ->
  (supervision fuel round s).1 <> Ret None.
Proof.
  intros Hb HN fuel. induction fuel as [|fuel IH]; intros round s Hr Ht H0 Hf; cbn [supervise].
  { destruct (rn_covered _ _ Hr) as [Hx _]. lia. }
  destruct (Z.ltb_spec (Z.of_nat (size (outcomes s))) (job_count jobs)); [|done]. unfold bind.
  destruct (one_round_ok round s Hr) as (HR & Hc & Hn & Hp).
  destruct (round_of round s) as [[[f|]|e] s1]; simpl fst in *; simpl snd in *; [done| |done].
  specialize (Hn eq_refl). destruct HR as [R1 Ra R2 R3 R4].
  assert (Hdone : job_count jobs <= Z.of_nat (size (outcomes s1)) ->
                  (supervision fuel (S round) s1).1 <> Ret None).
  { intros Hd. destruct fuel; cbn [supervise];
      destruct (Z.ltb_spec (Z.of_nat (size (outcomes s1))) (job_count jobs)); simpl; (lia || done). }
  destruct (decide (N <= round)%nat) as [Hge|].
  - destruct (Hp b Ht ltac:(intros; by apply HN) H0 eq_refl) as [Hlt|E]; [|apply Hdone; lia].
    apply IH; [done|by apply R4|by rewrite R2|lia].
  - apply IH; [done|by apply R4|by rewrite R2|lia].
Qed.
End Rounds.

(** * Starting and stopping *)

(** A pool whose children have only been started. *)
Record fresh_pool (s : pool) : Prop := mk_fresh {
  fr_states : forall k w, states s !! k = Some w -> exists d, w = Starting d;
  fr_outcomes : outcomes s = ∅;
  fr_released : released s = [];
  fr_dispatched : dispatched s = [];
  fr_next : next_index s = 0 }.

Lemma fresh_actives s : fresh_pool s -> actives s = [].
Proof.
  intros [Hs _ _ _ _]. unfold actives. induction (states s) as [|w l IH]; [done|]. simpl.
  destruct (Hs 0%nat w eq_refl) as [d ->]. simpl. apply IH. intros k x Hx. by apply (Hs (S k)).
Qed.

Lemma fresh_running jobs polls s : fresh_pool s -> running jobs polls 0 s.
Proof.
  intros Hf. pose proof (fresh_actives s Hf) as Ha. destruct Hf as [Hs Hout Hr Hd Hn].
  constructor.
  - constructor; rewrite ?Hr, ?Ha, ?Hd, ?Hn; done || constructor.
  - constructor; rewrite ?Ha, ?Hout, ?Hn; [unfold job_count; lia|]. by rewrite dom_empty_L, elements_empty.
  - constructor.
    + intros i q. rewrite Ha. by intros ?%elem_of_nil.
    + intros i r. by rewrite Hout.
  - intros k w Hw. by destruct (Hs k w Hw) as [d ->].
Qed.

Lemma start_workers_ok timeout env n : forall k s, fresh_pool s ->
  fresh_pool (start_workers timeout env k n s).2 /\
  ((start_workers timeout env k n s).1 = Ret tt ->
   length (states (start_workers timeout env k n s).2) = (length (states s) + n)%nat /\
   forall b, (forall j now, (j < k + n)%nat -> e_start env j = Ret now -> now + timeout <= b) ->
     timely b s ->
     timely b (start_workers timeout env k n s).2).
Proof.
  induction n as [|n IH]; intros k s Hf; cbn [start_workers].
  { simpl. split; [done|]. intros _. split; [lia|done]. }
  unfold bind, lift. destruct (e_start env k) as [now|e] eqn:Es; simpl; [|done].
  set (s1 := mk_pool (states s ++ [Starting (now + timeout)]) _ _ _ _ _ _ _).
  destruct (IH (S k) s1) as [I1 I2].
  { destruct Hf as [Hs ? ? ? ?]. constructor; try done. simpl. intros j w Hw.
    apply lookup_app_Some in Hw as [Hw|[_ Hw]]; [by apply (Hs j)|].
    apply list_lookup_singleton_Some in Hw as [_ <-]. by eexists. }
  split; [done|]. intros E. destruct (I2 E) as [Hl Ht]. split.
  - rewrite Hl. simpl. rewrite length_app. simpl. lia.
  - intros b Hb Hts. apply Ht; [intros j t Hj; apply Hb; lia|]. intros j w. simpl.
    rewrite lookup_app_Some.
    intros [Hw|[_ [_ <-]%list_lookup_singleton_Some]]; [by apply (Hts j)|apply (Hb k); [lia|done]].
Qed.

(** What stopping one child does. *)
Record stopped_one (k : nat) (s : pool) (res : outcome unit) (s' : pool) : Prop := mk_stopped_one {
  so_owned : owned s -> owned s';
  so_length : length (states s') = length (states s);
  so_outcomes : outcomes s' = outcomes s;
  so_dispatched : dispatched s' = dispatched s;
  so_other : forall j, j <> k -> states s' !! j = states s !! j;
  so_free : res = Ret tt -> owned_by (state_of s' k) = None }.

Lemma stop_ok k e s : (k < length (states s))%nat ->
  stopped_one k s (stop k e s).1 (stop k e s).2.
Proof.
  intros Hk. destruct (lookup_lt_is_Some_2 _ _ Hk) as [w Hw].
  assert (Hsig : forall s', states s' = states s -> outcomes s' = outcomes s ->
            released s' = released s -> dispatched s' = dispatched s -> next_index s' = next_index s ->
            forall res, (res = Ret tt -> owned_by w = None) -> stopped_one k s res s').
  { intros s' E1 E2 E3 E4 E5 res Hres. constructor; try congruence.
    - intros [? ? ? ?]. unfold actives in *. constructor; unfold actives; rewrite ?E1, ?E3, ?E4, ?E5; done.
    - intros Er. unfold state_of. rewrite E1, Hw. simpl. auto. }
  assert (Hrel : forall i d p sg res, w = Active i d p ->
            stopped_one k s res (mk_pool (<[k := Idle]> (states s)) (outcomes s) (released s ++ [p])
              (dispatched s) (next_index s) (reported s) (printed s) sg)).
  { intros i d p sg res ->. constructor; simpl; try done.
    - intros [Hn Hp Ho Hb]. constructor; try done. simpl. rewrite <- Hp.
      change (actives (mk_pool _ _ _ _ _ _ _ _)) with (actives (with_state k Idle s)).
      rewrite (actives_drop s k _ Hw). simpl. rewrite <- (assoc_L (++)). done.
    - by rewrite length_insert.
    - intros j Hj. by rewrite list_lookup_insert_ne.
    - intros _. unfold state_of; simpl. by rewrite list_lookup_insert_eq. }
  unfold stop. rewrite (state_of_lookup _ _ _ Hw).
  destruct (s_alive_idle e), (s_alive_terminate e), (s_alive_kill e), (s_alive_last e), w; simpl;
    unfold bind, lift, signal_child, throw, ret; simpl; try (destruct (s_put e); simpl);
    unfold cleanup; simpl; first [by apply Hsig|by eapply Hrel].
Qed.

Lemma stop_each_ok stops n : forall k first s, (k + n = length (states s))%nat ->
  let res := (stop_each k n stops first s).1 in let s' := (stop_each k n stops first s).2 in
  (owned s -> owned s') /\ length (states s') = length (states s) /\
  outcomes s' = outcomes s /\ dispatched s' = dispatched s /\
  (forall j, (j < k)%nat -> states s' !! j = states s !! j) /\
  (res = Ret tt -> first = None /\
     forall j, (k <= j < length (states s))%nat -> owned_by (state_of s' j) = None).
Proof.
  induction n as [|n IH]; intros k first s Hk; cbn [stop_each].
  { destruct first; simpl; split_and!; try done. intros _. split; [done|intros; lia]. }
  pose proof (stop_ok k (stops k) s ltac:(lia)) as [S1 S2 S3 S4 S5 S6].
  destruct (stop k (stops k) s) as [[[]|e] s1]; simpl fst in *; simpl snd in *.
  - destruct (IH (S k) first s1) as (I1 & I2 & I3 & I4 & I5 & I6); [lia|].
    split_and!; [auto|congruence|congruence|congruence|intros j Hj; by rewrite I5, S5 by lia|].
    intros E. destruct (I6 E) as [-> HF]. split; [done|]. intros j Hj.
    destruct (decide (j = k)) as [->|]; [|apply HF; lia].
    unfold state_of in *. rewrite I5 by lia. by apply S6.
  - destruct (is_exception e); [|split_and!; [done..|intros j Hj; apply S5; lia|done]].
    destruct (IH (S k) (match first with None => Some e | f => f end) s1)
      as (I1 & I2 & I3 & I4 & I5 & I6); [lia|].
    split_and!; [auto|congruence|congruence|congruence|intros j Hj; by rewrite I5, S5 by lia|].
    intros E. destruct (I6 E) as [? _]. by destruct first.
Qed.

Lemma stop_all_ok stops s :
  let res := (stop_all stops s).1 in let s' := (stop_all stops s).2 in
  (owned s -> owned s') /\ outcomes s' = outcomes s /\ dispatched s' = dispatched s /\
  (res = Ret tt -> actives s' = []).
Proof.
  destruct (stop_each_ok stops (length (states s)) 0 None s eq_refl) as (I1 & I2 & I3 & I4 & _ & I6).
  unfold stop_all. split_and!; try done. intros E. destruct (I6 E) as [_ HF].
  unfold actives. apply list_eq. intros i. rewrite lookup_nil.
  assert (H : Forall (fun w => owned_by w = None) (states (stop_each 0 (length (states s)) stops None s).2)).
  { apply Forall_lookup. intros j w Hw. rewrite <- (state_of_lookup _ _ _ Hw). apply HF.
    apply lookup_lt_Some in Hw. lia. }
  revert H. generalize (states (stop_each 0 (length (states s)) stops None s).2). clear.
  induction l as [|w l IH]; simpl; [done|]. intros [-> H]%Forall_cons. by apply IH.
Qed.

(** * The whole call *)

Section Call.
Context (casefold nfc : pystr -> pystr) (text : py_exc -> option pystr).
Context (num_processes timeout : Z) (show_progress : bool) (env : write_env).
Context (Hfirst : ready_first (e_polls env)).

Abbreviation body := (pool_body text num_processes timeout show_progress env).
Abbreviation call := (run_pool text num_processes timeout show_progress env).

Lemma fresh_empty : fresh_pool empty_pool.
Proof. by constructor. Qed.

Lemma body_ok fuel jobs :
  let s := (body fuel jobs empty_pool).2 in owned s /\ answered jobs (e_polls env) s.
Proof.
  assert (Hf : forall s, fresh_pool s -> owned s /\ answered jobs (e_polls env) s).
  { intros s Hs. destruct (fresh_running jobs (e_polls env) s Hs). done. }
  unfold pool_body, bind, lift, ret. destruct (e_resolve env) as [root|e]; [|apply Hf, fresh_empty].
  set (n := Z.to_nat _). destruct (start_workers_ok timeout env n 0 empty_pool fresh_empty) as [Hs _].
  destruct (start_workers timeout env 0 n empty_pool) as [[[]|e] s1]; simpl in Hs; [|by apply Hf].
  pose proof (supervise_safe text jobs root timeout show_progress (e_polls env) (e_dispatches env)
                Hfirst fuel 0 s1 (fresh_running jobs _ s1 Hs)) as (H1 & H2 & _).
  destruct (supervise _ _ _ _ _ _ _ _ _ _) as [[r|e] s2]; done.
Qed.

Lemma run_pool_ok fuel jobs f s : call fuel jobs = Some (f, s) ->
  owned s /\ (forall i r, outcomes s !! i = Some r -> answer_of jobs (e_polls env) i r) /\
  ((exists t, f = Ret t) -> actives s = []).
Proof.
  unfold run_pool. pose proof (body_ok fuel jobs) as [Ho Ha].
  destruct (body fuel jobs empty_pool) as [b s1]; simpl in Ho, Ha.
  destruct (match b with
            | Ret Completed => Some (Ret (lit "writer pool stopped"))
            | Ret (Stopped message) => Some (Ret message)
            | Ret Unfinished => None
            | Raise e => Some (if is_oserror e
                               then Ret (lit "writer pool failed: " ++ diagnostic text e) else Raise e)
            end) as [failure|]; [|discriminate].
  pose proof (stop_all_ok (e_stops env) s1) as (H1 & H2 & H3 & H4).
  destruct (stop_all (e_stops env) s1) as [st s2]; simpl in *. intros [= <- <-].
  split; [auto|]. split.
  - rewrite H2. apply Ha.
  - intros [t Et]. destruct st as [[]|]; [auto|discriminate].
Qed.

Lemma bounded_below (f : nat -> Z) n : exists b, forall i, (i < n)%nat -> f i <= b.
Proof.
  induction n as [|n [b Hb]]; [exists 0; lia|]. exists (Z.max b (f n)). intros i Hi.
  destruct (decide (i = n)) as [->|]; [lia|]. specialize (Hb i ltac:(lia)). lia.
Qed.

Lemma body_ends jobs : 1 <= num_processes -> jobs <> [] ->
  (forall T, exists N, forall r k, (N <= r)%nat -> T <= o_now (e_polls env r k)) ->
  exists F, forall fuel, (F <= fuel)%nat -> (body fuel jobs empty_pool).1 <> Ret Unfinished.
Proof.
  intros Hp Hj Hclock. unfold pool_body, bind, lift, ret.
  destruct (e_resolve env) as [root|e]; [|by exists 0%nat].
  set (n := Z.to_nat _). destruct (start_workers_ok timeout env n 0 empty_pool fresh_empty) as [Hs Ht].
  destruct (start_workers timeout env 0 n empty_pool) as [[[]|e] s1]; simpl in Hs, Ht; [|by exists 0%nat].
  destruct (Ht eq_refl) as [Hl Htime].
  destruct (bounded_below (fun j => match e_start env j with Ret t => t + timeout | _ => 0 end) n) as [b1 H1].
  destruct (bounded_below (fun i => d_now (e_dispatches env (Z.of_nat i)) + timeout) (length jobs)) as [b2 H2].
  set (b := Z.max b1 b2). destruct (Hclock b) as [N HN].
  exists (N + length jobs + 1)%nat. intros fuel Hfuel.
  pose proof (supervise_ends text jobs root timeout show_progress (e_polls env) (e_dispatches env)
                Hfirst b N) as He.
  specialize (He ltac:(intros i Hi; specialize (H2 (Z.to_nat i)); unfold job_count in Hi;
    rewrite Z2Nat.id in H2 by lia; specialize (H2 ltac:(lia)); simpl in H2; lia) HN).
  specialize (He fuel 0%nat s1 (fresh_running jobs _ s1 Hs)).
  assert (Hn : (0 < n)%nat) by (destruct jobs; [done|]; unfold n; simpl; lia).
  specialize (He ltac:(apply Htime; [intros j t Hjn Et; specialize (H1 j ltac:(lia)); simpl in H1;
    rewrite Et in H1; lia|by intros k w]) ltac:(lia)).
  rewrite (fr_next _ Hs) in He. unfold job_count in He. specialize (He ltac:(lia)).
  destruct (supervise _ _ _ _ _ _ _ _ _ _) as [[[[]|]|e] s2]; simpl in *; done.
Qed.
End Call.

(** What a child's result becomes for the caller. *)
Definition published_result (public : path) (r : CacheWriteResult) : CacheWriteResult :=
  match r with
  | CacheWriteSuccess name _ => CacheWriteSuccess name (path_join public name)
  | CacheWriteError _ _ => r
  end.

Lemma ordered_outcomes_lookup jobs outs failure public : forall index i j, 0 <= index ->
  jobs !! i = Some j ->
  ordered_outcomes index jobs outs failure public !! i =
  Some (ordered_outcome outs failure public (index + Z.of_nat i) j).
Proof.
  induction jobs as [|x jobs IH]; intros index [|i] j Hi; simpl; try done.
  - intros [= <-]. by rewrite Z.add_0_r.
  - intros Hj. rewrite (IH (index + 1) i j) by (done || lia). do 2 f_equal. lia.
Qed.

Lemma ordered_outcomes_length jobs outs failure public : forall index,
  length (ordered_outcomes index jobs outs failure public) = length jobs.
Proof. induction jobs as [|x jobs IH]; intros index; simpl; [done|]. by rewrite IH. Qed.

(** * Properties *)


(** C9. Ownership: whenever the pool ends, whatever its children did, no job was
    dispatched twice and each temporary path handed to a child is released at
    most once; when it ends without raising, every one has been released, each
    exactly once. *)
Theorem pool_ownership (text : py_exc -> option pystr) (num_processes timeout : Z)
    (show_progress : bool) (env : write_env) (fuel : nat) (jobs : list job)
    (ended : outcome pystr) (s : pool) (Hfirst : ready_first (e_polls env))
    (H : run_pool text num_processes timeout show_progress env fuel jobs = Some (ended, s)) :
  NoDup (dispatched s).*1 /\
  (exists held, released s ++ held ≡ₚ (dispatched s).*2) /\
  (returns ended -> released s ≡ₚ (dispatched s).*2).
Proof.
  destruct (run_pool_ok text num_processes timeout show_progress env Hfirst fuel jobs _ _ H)
    as ([_ Hp Ho _] & _ & Hf).
  split_and!; [done|by eexists|]. intros [t ->]. rewrite <- Hp, Hf by eauto. by rewrite app_nil_r.
Qed.

(** When the supervision loop ends without a failure, every job has its
    outcome: nothing is lost and nothing is left to a child. *)
Theorem supervise_complete (text : py_exc -> option pystr) (jobs : list job) (root : path)
    (timeout : Z) (show_progress : bool) (polls : nat -> nat -> poll_env)
    (dispatches : Z -> dispatch_env) (fuel : nat) (s s' : pool)
    (Hfirst : ready_first polls) (Hs : fresh_pool s)
    (H : supervise text jobs root timeout show_progress polls dispatches fuel 0 s =
         (Ret (Some (Ok tt)), s')) :
  actives s' = [] /\ forall i, 0 <= i < Z.of_nat (length jobs) -> is_Some (outcomes s' !! i).
Proof.
  destruct (supervise_safe text jobs root timeout show_progress polls dispatches Hfirst fuel 0 s
              (fresh_running jobs polls s Hs)) as (_ & _ & _ & Hc & Hd).
  rewrite H in Hc, Hd. destruct (Hc _ eq_refl) as [Hn Hp]. specialize (Hd eq_refl). simpl in *.
  pose proof (Permutation_length Hp) as Hl. rewrite length_app, length_map, length_seqZ in Hl.
  rewrite <- (size_dom (outcomes s')) in Hd. unfold size, set_size in Hd. simpl in Hd.
  assert (Ha : actives s' = []) by (apply nil_length_inv; unfold job_count in *; lia).
  split; [done|]. intros i Hi. apply elem_of_dom, elem_of_elements.
  rewrite Ha in Hp. simpl in Hp. rewrite Hp. apply elem_of_seqZ. unfold job_count in *.
  rewrite Ha in Hl. simpl in Hl. lia.
Qed.

(** C11. The parallel write always returns or raises: with at least one process
    and a clock that passes every instant, some number of rounds is enough,
    whether the children answer, die or hang, because every started or dispatched
    child has a deadline. *)
Theorem write_parallel_terminates (casefold nfc : pystr -> pystr) (text : py_exc -> option pystr)
    (num_processes timeout : Z) (show_progress : bool) (env : write_env)
    (sources : list (outcome pystr)) (public : path)
    (Hp : 1 <= num_processes) (Hfirst : ready_first (e_polls env))
    (Hclock : forall T, exists N, forall r k, (N <= r)%nat -> T <= o_now (e_polls env r k)) :
  exists F, forall fuel, (F <= fuel)%nat ->
    write_parallel casefold nfc text num_processes timeout show_progress env fuel sources public <> None.
Proof.
  unfold write_parallel. destruct (preflight casefold nfc text sources) as [[jobs|errors]|e];
    [|by exists 0%nat..]. case_bool_decide as Ej; [by exists 0%nat|].
  destruct (body_ends text num_processes timeout show_progress env Hfirst jobs Hp Ej Hclock) as [F HF].
  exists F. intros fuel Hfuel. specialize (HF fuel Hfuel). unfold run_pool.
  destruct (pool_body text num_processes timeout show_progress env fuel jobs empty_pool)
    as [[[]|e] s]; simpl in HF; try done; by destruct (stop_all (e_stops env) s).
Qed.

(** * A concrete run *)

(** One child, two sources: it announces itself, then answers both jobs. *)
Definition no_cleanup : cleanup_env := mk_cleanup (Ret false) (Ret false) (Ret tt).
Definition demo_message (round : nat) : option WorkerMessage :=
  match round with
  | 0 => Some Ready
  | 1 => Some (Finished (CacheWriteSuccess (lit "a") [lit "data"; lit "a"]))
  | 2 => Some (Finished (CacheWriteError (lit "b") (lit "bad row")))
  | _ => None
  end%nat.
Definition demo_env : write_env := mk_write_env
  (Ret [lit "data"]) (fun _ => Ret 0)
  (fun round _ => mk_poll (Ret (bool_decide (is_Some (demo_message round))))
                    (Ret (demo_message round)) None (Z.of_nat round) no_cleanup)
  (fun i => mk_dispatch (Ret tt) (Ret false) (Ret false) (Ret [lit "data"; lit "tmp"; dec i]) i (Ret tt))
  (fun _ => mk_stop true (Ret tt) false false false no_cleanup).
Definition demo_sources : list (outcome pystr) := [Ret (lit "a"); Ret (lit "b")].
Definition demo_jobs : list job := [SourceJob (lit "a"); SourceJob (lit "b")].
Definition demo_results : list CacheWriteResult :=
  [CacheWriteSuccess (lit "a") [lit "out"; lit "a"]; CacheWriteError (lit "b") (lit "bad row")].

Lemma demo_ready_first : ready_first (e_polls demo_env).
Proof. intros k r [|[|[|r']]] m Hr; [lia|..]; intros _; vm_compute; discriminate. Qed.


Lemma pool_ownership_witness : exists ended s,
  run_pool (fun _ => None) 1 10 true demo_env 5 demo_jobs = Some (ended, s) /\
  NoDup (dispatched s).*1 /\
  (exists held, released s ++ held ≡ₚ (dispatched s).*2) /\
  (returns ended -> released s ≡ₚ (dispatched s).*2).
Proof.
  do 2 eexists. split; [vm_compute; reflexivity|].
  eapply (pool_ownership (fun _ => None) 1 10 true demo_env 5 demo_jobs); [exact demo_ready_first|].
  vm_compute. reflexivity.
Defined.

Definition demo_pool : pool := mk_pool [Starting 10] ∅ [] [] 0 0 [] [].

Lemma demo_pool_fresh : fresh_pool demo_pool.
Proof.
  constructor; try done. intros [|k] w; simpl; [intros [= <-]; by eexists|by rewrite lookup_nil].
Qed.

Lemma supervise_complete_witness : exists s',
  supervise (fun _ => None) demo_jobs [lit "data"] 10 true (e_polls demo_env) (e_dispatches demo_env) 5 0
    demo_pool = (Ret (Some (Ok tt)), s') /\
  actives s' = [] /\ forall i, 0 <= i < 2 -> is_Some (outcomes s' !! i).
Proof.
  eexists. split; [vm_compute; reflexivity|].
  eapply (supervise_complete (fun _ => None) demo_jobs [lit "data"] 10 true (e_polls demo_env)
            (e_dispatches demo_env) 5 demo_pool); [exact demo_ready_first|exact demo_pool_fresh|].
  vm_compute. reflexivity.
Defined.

Lemma write_parallel_terminates_witness : exists F, forall fuel, (F <= fuel)%nat ->
  write_parallel ascii_casefold id (fun _ => None) 1 10 true demo_env fuel demo_sources [lit "out"] <> None.
Proof.
  apply (write_parallel_terminates ascii_casefold id (fun _ => None) 1 10 true demo_env demo_sources).
  - lia.
  - exact demo_ready_first.
  - intros T. exists (Z.to_nat T). intros r k Hr. simpl. lia.
Defined.
