(* ===== verification/Cgroups.v ===== *)
(** CPU budgets from affinity and visible control groups,
    [src/dataset_rt/resources.py]: the parsers of [/proc/self/cgroup] and
    [/proc/self/mountinfo], the limits of one directory and of its ancestors, and
    the whole CPU count. Reading a file is a parameter. *)
From stdpp Require Import base tactics list numbers strings gmap.
From Stdlib Require Import QArith Qround.
From S2P Require Import Prelude Collections Records PyStr Writer.
Open Scope Z_scope.

(** * Paths *)

(** A [PurePosixPath]: the number of slashes of its root (none, one, or the
    distinguished two) and its parts. *)
Record posix := mk_posix { posix_root : nat; posix_parts : list pystr }.

#[export] Instance posix_eq_dec : EqDecision posix.
Proof. solve_decision. Defined.

Fixpoint leading_slashes (s : pystr) : nat :=
  match s with
  | c :: r => if c =? 47 then S (leading_slashes r) else O
  | [] => O
  end.

(** [PurePosixPath(value)]. *)
Definition posix_of (s : pystr) : posix :=
  mk_posix (match leading_slashes s with O => 0 | 2 => 2 | _ => 1 end)%nat (path_of_str s).

Definition absolute_path (value : pystr) : outcome posix :=
  let p := posix_of value in
  if (posix_root p =? 0)%nat || bool_decide (lit ".." ∈ posix_parts p)
  then Raise (ValueError (lit "invalid cgroup path"))
  else Ret p.

Fixpoint strip_parts (base parts : list pystr) : option (list pystr) :=
  match base, parts with
  | [], _ => Some parts
  | b :: base', p :: parts' => if bool_decide (b = p) then strip_parts base' parts' else None
  | _ :: _, [] => None
  end.

(** [p.is_relative_to(base)] and [p.relative_to(base)]. *)
Definition relative_parts (p base : posix) : option (list pystr) :=
  if (posix_root p =? posix_root base)%nat then strip_parts (posix_parts base) (posix_parts p) else None.

Definition relative_to (p base : posix) : outcome (list pystr) :=
  match relative_parts p base with
  | Some r => Ret r
  | None => Raise (ValueError (lit "path is not in the subpath"))
  end.

(** * Kernel records *)

Record Membership := mk_membership { member_controllers : list pystr; member_path : posix }.

Record Mount := mk_mount {
  mount_root : posix;
  mount_path : posix;
  mount_version : Z;
  mount_controllers : list pystr }.

(** One line of [/proc/self/cgroup]. *)
Definition parse_membership (line : pystr) : outcome Membership :=
  match split_char_max 58 2 line with
  | [hierarchy; controllers; p] =>
      _ ← py_int hierarchy;
      q ← absolute_path p;
      Ret (mk_membership (filter (fun c => c <> []) (split_char 44 controllers)) q)
  | _ => Raise (ValueError (lit "not enough values to unpack (expected 3)"))
  end.

Definition memberships (text : pystr) : outcome (list Membership) :=
  traverse parse_membership (splitlines text).

(** The octal escapes of mountinfo paths, undone one after the other. *)
Definition unescape_mount (value : pystr) : pystr :=
  replace (92 :: lit "134") [92]
    (replace (92 :: lit "012") [10]
       (replace (92 :: lit "011") [9]
          (replace (92 :: lit "040") [32] value))).

(** [list[i]] for a parsed field. *)
Definition field (fields : list pystr) (i : nat) : outcome pystr :=
  match fields !! i with
  | Some f => Ret f
  | None => Raise (IndexError (lit "list index out of range"))
  end.

Definition cpu_relevant (controllers : list pystr) : bool :=
  bool_decide (lit "cpu" ∈ controllers) || bool_decide (lit "cpuset" ∈ controllers).

(** One line of [/proc/self/mountinfo]; [None] for another filesystem or a
    hierarchy without a CPU controller. *)
Definition parse_mount (line : pystr) : outcome (option Mount) :=
  match split_once (lit " - ") line with
  | [before; after] =>
      match split_ws_max 2 after with
      | [filesystem; _; options] =>
          if negb (bool_decide (filesystem ∈ [lit "cgroup"; lit "cgroup2"])) then Ret None
          else
            let fields := split_ws before in
            f3 ← field fields 3;
            root ← absolute_path (unescape_mount f3);
            f4 ← field fields 4;
            p ← absolute_path (unescape_mount f4);
            let controllers := split_char 44 options in
            let v2 := bool_decide (filesystem = lit "cgroup2") in
            if v2 || cpu_relevant controllers
            then Ret (Some (mk_mount root p (if v2 then 2 else 1) controllers))
            else Ret None
      | _ => Raise (ValueError (lit "not enough values to unpack (expected 3)"))
      end
  | _ => Raise (ValueError (lit "not enough values to unpack (expected 2)"))
  end.

Definition mounts (text : pystr) : outcome (list Mount) :=
  (fun ms : list (option Mount) => omap id ms) <$> traverse parse_mount (splitlines text).

(** * CPU sets *)

(** One item of a CPU set: the range it names. *)
Definition cpuset_item (item : pystr) : outcome (Z * Z * bool) :=
  let ends := split_char 45 item in
  first ← field ends 0;
  start ← py_int first;
  stop ← (if (length ends =? 2)%nat then second ← field ends 1; py_int second else Ret start);
  Ret (start, stop, (2 <? length ends)%nat).

Fixpoint cpuset_count (previous count : Z) (items : list pystr) : outcome Z :=
  match items with
  | [] => Ret count
  | item :: rest =>
      '(start, stop, too_many) ← cpuset_item item;
      if (too_many : bool) || (start <=? previous) || (stop <? start)
      then Raise (ValueError (lit "invalid cgroup CPU set"))
      else cpuset_count stop (count + (stop - start + 1)) rest
  end.

Definition cpuset_limit (value : pystr) : outcome (option Z) :=
  match value with
  | [] => Ret None
  | _ => n ← cpuset_count (-1) 0 (split_char 44 value); Ret (Some n)
  end.

(** * Limits *)

Section Limits.
(** [read p] is [p.read_text()], or the exception it raises. *)
Context (read : posix -> outcome pystr).

Definition child (p : posix) (name : pystr) : posix :=
  mk_posix (posix_root p) (posix_parts p ++ [name]).

(** Missing files mean no limit here; other failures propagate. *)
Definition read_optional (p : posix) : outcome (option pystr) :=
  match read p with
  | Ret s => Ret (Some (strip s))
  | Raise FileNotFoundError => Ret None
  | Raise e => Raise e
  end.

Definition fraction (n d : Z) : Q := Qmake n (Z.to_pos d).

(** [cpu.max] of the unified hierarchy. *)
Definition quota_v2 (maximum : option pystr) : outcome (list Q) :=
  match maximum with
  | None => Ret []
  | Some s =>
      match split_ws s with
      | [quota; period] =>
          d ← py_int period;
          if d <=? 0 then Raise (ValueError (lit "invalid cgroup CPU period"))
          else if bool_decide (quota = lit "max") then Ret []
          else
            n ← py_int quota;
            if n <=? 0 then Raise (ValueError (lit "invalid cgroup CPU quota"))
            else Ret [fraction n d]
      | _ => Raise (ValueError (lit "not enough values to unpack (expected 2)"))
      end
  end.

(** [cpu.cfs_quota_us] and [cpu.cfs_period_us] of a version 1 hierarchy. *)
Definition quota_v1 (quota period : option pystr) : outcome (list Q) :=
  match quota, period with
  | None, None => Ret []
  | Some q, Some p =>
      d ← py_int p;
      if d <=? 0 then Raise (ValueError (lit "invalid cgroup CPU quota"))
      else
        n ← py_int q;
        if (n =? 0) || (n <? -1) then Raise (ValueError (lit "invalid cgroup CPU quota"))
        else if 0 <? n then Ret [fraction n d] else Ret []
  | _, _ => Raise (ValueError (lit "incomplete cgroup CPU quota"))
  end.

Definition cpuset_limits (cpus : option pystr) : outcome (list Q) :=
  match cpus with
  | None => Ret []
  | Some v => n ← cpuset_limit v; Ret (match n with Some n => [inject_Z n] | None => [] end)
  end.

Definition directory_limits (p : posix) (m : Mount) : outcome (list Q) :=
  if mount_version m =? 2 then
    maximum ← read_optional (child p (lit "cpu.max"));
    quota ← quota_v2 maximum;
    cpus ← read_optional (child p (lit "cpuset.cpus.effective"));
    sets ← cpuset_limits cpus;
    Ret (quota ++ sets)
  else
    quota ← (if bool_decide (lit "cpu" ∈ mount_controllers m) then
               q ← read_optional (child p (lit "cpu.cfs_quota_us"));
               d ← read_optional (child p (lit "cpu.cfs_period_us"));
               quota_v1 q d
             else Ret []);
    cpus ← (if bool_decide (lit "cpuset" ∈ mount_controllers m)
            then read_optional (child p (lit "cpuset.cpus")) else Ret None);
    sets ← cpuset_limits cpus;
    Ret (quota ++ sets).

(** [p.parent]. *)
Definition parent (p : posix) : posix := mk_posix (posix_root p) (removelast (posix_parts p)).

(** The climb from a directory to its mount point; [None] when [fuel] steps do
    not reach it. *)
Fixpoint climb (fuel : nat) (current top : posix) : option (list posix) :=
  match fuel with
  | O => None
  | S fuel' => if bool_decide (current = top) then Some [current]
               else cons current <$> climb fuel' (parent current) top
  end.

(** Whether a membership belongs to the hierarchy of a mount. *)
Definition belongs (m : Mount) (g : Membership) : bool :=
  if mount_version m =? 2 then bool_decide (member_controllers g = [])
  else bool_decide (Exists (fun c => c ∈ mount_controllers m) (member_controllers g)).

Definition membership_limits (m : Mount) (g : Membership) : outcome (list Q) :=
  if belongs m g then
    relative ← match relative_parts (member_path g) (mount_root m) with
               | Some r => Ret r
               | None => relative_to (member_path g) (mk_posix 1 [])
               end;
    let current := mk_posix (posix_root (mount_path m)) (posix_parts (mount_path m) ++ relative) in
    match climb (S (length relative)) current (mount_path m) with
    | None => Raise (OtherException (lit "climb") [])
    | Some dirs => limits ← traverse (fun d => directory_limits d m) dirs; Ret (concat limits)
    end
  else Ret [].

Definition linux_limits (proc : posix) : outcome (list Q) :=
  cgroup ← read (child proc (lit "cgroup"));
  groups ← memberships cgroup;
  mountinfo ← read (child proc (lit "mountinfo"));
  ms ← mounts mountinfo;
  limits ← traverse (fun m => ls ← traverse (membership_limits m) groups; Ret (concat ls)) ms;
  Ret (concat limits).

(** [min(limit, constraint)]. *)
Definition tighter (limit constraint : Q) : Q :=
  if negb (Qle_bool limit constraint) then constraint else limit.

(** The exceptions [available_cpu_count] answers with one CPU. *)
Definition is_limit_error (e : py_exc) : bool :=
  is_oserror e ||
  match e with ValueError _ | ValidationError _ | IndexError _ => true | _ => false end.
End Limits.

(** [cpu_count] is [os.cpu_count()], [affinity] the size of the affinity set ([Ret
    0] when the platform has none), [linux] whether the platform is Linux and
    [text] formats an exception. *)
Definition available_cpu_count (cpu_count : option Z) (affinity : outcome Z) (linux : bool)
    (read : posix -> outcome pystr) (text : py_exc -> pystr) : outcome (Z * list py_warning) :=
  let host := match cpu_count with None | Some 0 => 1 | Some n => n end in
  match affinity with
  | Raise e =>
      if is_oserror e
      then Ret (1, [RuntimeWarning (lit "Cannot determine CPU affinity; using one CPU: " ++ text e)])
      else Raise e
  | Ret n =>
      let limit := inject_Z host in
      let limit := if n =? 0 then limit else tighter limit (inject_Z n) in
      let whole (limit : Q) := Z.max 1 (Qfloor limit) in
      if linux then
        match linux_limits read (posix_of (lit "/proc/self")) with
        | Ret constraints => Ret (whole (fold_left tighter constraints limit), [])
        | Raise e =>
            if is_limit_error e
            then Ret (1, [RuntimeWarning
              (lit "Cannot determine container CPU limits; using one CPU: " ++ text e)])
            else Raise e
        end
      else Ret (whole limit, [])
  end.

(** * Mountinfo escapes *)

(** What the kernel writes for one character of a path. *)
Definition escape_char (c : Z) : pystr :=
  if c =? 32 then 92 :: lit "040" else if c =? 9 then 92 :: lit "011"
  else if c =? 10 then 92 :: lit "012" else if c =? 92 then 92 :: lit "134" else [c].

Definition escape_mount (s : pystr) : pystr := concat (map escape_char s).

(** A piece of an escaped path: an ordinary character or an escape. *)
Definition token (t : pystr) : Prop :=
  (exists c, t = [c] /\ c <> 92) \/
  (exists a b d, t = [92; a; b; d] /\ a <> 92 /\ b <> 92 /\ d <> 92).

Lemma strip_prefix_head p a s c : a <> c -> strip_prefix (a :: p) (c :: s) = None.
Proof. intros H. simpl. by destruct (Z.eqb_spec a c). Qed.

Lemma replace_token a b d x t rest : token t ->
  replace [92; a; b; d] [x] (t ++ rest) =
  (if bool_decide (t = [92; a; b; d]) then [x] else t) ++ replace [92; a; b; d] [x] rest.
Proof.
  unfold replace. intros [(c & -> & Hc)|(a' & b' & d' & -> & Ha & Hb & Hd)].
  - rewrite bool_decide_false by done. cbn [app replace_aux].
    by rewrite strip_prefix_head by congruence.
  - cbn [app]. cbn [replace_aux].
    destruct (decide (a = a')) as [<-|Ea], (decide (b = b')) as [<-|Eb], (decide (d = d')) as [<-|Ed];
      rewrite ?bool_decide_true by done; rewrite ?bool_decide_false by congruence;
      cbn [strip_prefix]; rewrite ?Z.eqb_refl; rewrite ?(proj2 (Z.eqb_neq _ _)) by done;
      cbn [strip_prefix replace_aux app length Nat.pred]; try done;
      rewrite ?(proj2 (Z.eqb_neq 92 _)) by congruence; done.
Qed.

Lemma replace_tokens a b d x l : Forall token l ->
  replace [92; a; b; d] [x] (concat l) =
  concat (map (fun t => if bool_decide (t = [92; a; b; d]) then [x] else t) l).
Proof. induction 1 as [|t l Ht _ IH]; [done|]. simpl. by rewrite replace_token, IH. Qed.

(** The tokens after the first [k] replacements. *)
Definition escape_upto (k : nat) (c : Z) : pystr :=
  let t := escape_char c in
  if bool_decide (t = [c]) || bool_decide (c ∈ take k [32; 9; 10; 92]) then [c] else t.

Lemma escape_upto_token k c : (k < 4)%nat -> token (escape_upto k c).
Proof.
  intros Hk. unfold escape_upto, escape_char.
  destruct (Z.eqb_spec c 32) as [->|]; [|destruct (Z.eqb_spec c 9) as [->|];
    [|destruct (Z.eqb_spec c 10) as [->|]; [|destruct (Z.eqb_spec c 92) as [->|]]]].
  all: destruct k as [|[|[|[|k]]]]; try lia; try (left; eexists; split; [reflexivity|lia]).
  all: try (right; vm_compute; do 3 eexists; split_and!; [reflexivity|discriminate..]).
  all: rewrite (bool_decide_true ([c] = [c])) by done; left; exists c; split; [reflexivity|done].
Qed.

Lemma unescape_step k pat x s : (k < 4)%nat ->
  (forall c, (if bool_decide (escape_upto k c = pat) then [x] else escape_upto k c) = escape_upto (S k) c) ->
  (exists a b d, pat = [92; a; b; d]) ->
  replace pat [x] (concat (map (escape_upto k) s)) = concat (map (escape_upto (S k)) s).
Proof.
  intros Hk Hstep (a & b & d & ->). rewrite replace_tokens.
  - rewrite map_map. f_equal. apply map_ext. apply Hstep.
  - apply Forall_map, Forall_forall. intros c _. by apply escape_upto_token.
Qed.

Lemma escape_upto_step k c : (k < 4)%nat ->
  (if bool_decide (escape_upto k c = [92] ++ default [] ([lit "040"; lit "011"; lit "012"; lit "134"] !! k))
   then [default 0 ([32; 9; 10; 92] !! k)] else escape_upto k c) = escape_upto (S k) c.
Proof.
  intros Hk. unfold escape_upto, escape_char.
  destruct (Z.eqb_spec c 32) as [->|]; [|destruct (Z.eqb_spec c 9) as [->|];
    [|destruct (Z.eqb_spec c 10) as [->|]; [|destruct (Z.eqb_spec c 92) as [->|]]]].
  all: destruct k as [|[|[|[|k]]]]; try lia; try reflexivity.
  all: rewrite (bool_decide_true ([c] = [c])) by done; cbn [orb];
    rewrite bool_decide_false by (intros H; vm_compute in H; discriminate H); reflexivity.
Qed.

(** Mount paths survive the round trip: undoing the four escapes in the order
    the code does gives back exactly the path the kernel escaped, backslashes and
    text that looks like an escape included. *)
Theorem unescape_mount_roundtrip (s : pystr) : unescape_mount (escape_mount s) = s.
Proof.
  unfold unescape_mount.
  replace (escape_mount s) with (concat (map (escape_upto 0) s)).
  - rewrite (unescape_step 0), (unescape_step 1), (unescape_step 2), (unescape_step 3);
      try lia; try (by do 3 eexists); try (intros c; apply escape_upto_step; lia).
    erewrite map_ext; [by rewrite (concat_map_singleton (fun c => c)), map_id|]. intros c. unfold escape_upto, escape_char.
    destruct (Z.eqb_spec c 32) as [->|]; [done|]. destruct (Z.eqb_spec c 9) as [->|]; [done|].
    destruct (Z.eqb_spec c 10) as [->|]; [done|]. destruct (Z.eqb_spec c 92) as [->|]; [done|].
    by rewrite (bool_decide_true ([c] = [c])).
  - unfold escape_mount. f_equal. apply map_ext. intros c. unfold escape_upto.
    rewrite (bool_decide_false (c ∈ _)) by (by intros ?%elem_of_nil). rewrite orb_false_r.
    by case_bool_decide.
Qed.

(** * CPU sets count their CPUs *)

(** The CPU numbers a set names, expanded. *)
Fixpoint cpuset_ids (items : list pystr) : outcome (list Z) :=
  match items with
  | [] => Ret []
  | item :: rest =>
      '(start, stop, _) ← cpuset_item item;
      ids ← cpuset_ids rest;
      Ret (seqZ start (stop - start + 1) ++ ids)
  end.

Lemma cpuset_count_ids items : forall previous count n,
  cpuset_count previous count items = Ret n ->
  exists ids, cpuset_ids items = Ret ids /\ NoDup ids /\ Forall (Z.lt previous) ids /\
    n = count + Z.of_nat (length ids).
Proof.
  induction items as [|item items IH]; intros previous count n; simpl.
  { intros [= <-]. exists []. split_and!; try constructor; simpl; lia. }
  intros H. apply bind_ret in H as ([[start stop] too_many] & Ei & H). rewrite Ei. simpl.
  ocase H. bools. destruct (IH _ _ _ H) as (ids & -> & Hnd & Hlt & ->).
  eexists. split; [done|]. split_and!.
  - apply NoDup_app. split_and!; [apply NoDup_seqZ| |done]. intros x Hx%elem_of_seqZ Hin.
    rewrite Forall_forall in Hlt. specialize (Hlt x Hin). lia.
  - apply Forall_app. split.
    + apply Forall_forall. intros x Hx%elem_of_seqZ. lia.
    + eapply Forall_impl; [exact Hlt|]. simpl. lia.
  - rewrite length_app, Nat2Z.inj_add, seqZ_length_pos by lia. lia.
Qed.

(** An accepted CPU set is counted exactly: the limit is the number of CPUs
    the set names, no CPU is counted twice, and all numbers are nonnegative. *)
Theorem cpuset_limit_counts (value : pystr) (n : Z) (H : cpuset_limit value = Ret (Some n)) :
  exists ids, cpuset_ids (split_char 44 value) = Ret ids /\ NoDup ids /\
    Forall (Z.le 0) ids /\ Z.of_nat (length ids) = n.
Proof.
  unfold cpuset_limit in H. destruct value as [|c value]; [discriminate|].
  apply bind_ret in H as (m & Hc & [= <-]).
  destruct (cpuset_count_ids _ _ _ _ Hc) as (ids & -> & Hnd & Hlt & ->).
  exists ids. split_and!; [done|done| |lia]. eapply Forall_impl; [exact Hlt|]. simpl. lia.
Qed.

Lemma cpuset_limit_counts_witness :
  exists ids, cpuset_ids (split_char 44 (lit "0-3,8,10-11")) = Ret ids /\ NoDup ids /\
    Forall (Z.le 0) ids /\ Z.of_nat (length ids) = 7.
Proof. apply (cpuset_limit_counts (lit "0-3,8,10-11") 7). vm_compute. reflexivity. Defined.

(** * Climbing to the mount point *)

Lemma climb_S fuel current top : climb (S fuel) current top =
  if bool_decide (current = top) then Some [current] else cons current <$> climb fuel (parent current) top.
Proof. reflexivity. Qed.

Lemma climb_total p rel : exists dirs,
  climb (S (length rel)) (mk_posix (posix_root p) (posix_parts p ++ rel)) p = Some dirs /\
  dirs = map (fun k => mk_posix (posix_root p) (posix_parts p ++ take k rel)) (rev (seq 0 (S (length rel)))).
Proof.
  induction rel as [|x rel IH] using rev_ind.
  { simpl. rewrite app_nil_r. destruct p as [r parts]. simpl. rewrite bool_decide_true by done. eauto. }
  rewrite length_app, Nat.add_1_r, climb_S.
  rewrite bool_decide_false.
  2: { destruct p as [r parts]. simpl. intros [= E]. apply (f_equal length) in E.
       rewrite !length_app in E. simpl in E. lia. }
  unfold parent. cbn [posix_root posix_parts]. rewrite (assoc_L (++)), removelast_last.
  destruct IH as (dirs & -> & ->). eexists. split; [done|].
  rewrite (seq_S (S (length rel))), rev_app_distr. simpl map at 2. f_equal.
  - rewrite take_ge by (rewrite length_app; simpl; lia). by rewrite (assoc_L (++)).
  - apply map_ext_in. intros k Hk. apply in_app_or in Hk as [Hk|[<-|[]]]; [|done].
    rewrite <- in_rev in Hk. apply in_seq in Hk. by rewrite take_app_le by lia.
Qed.

(** * Only expected errors *)

(** The computation raises nothing but what the CPU count turns into a warning. *)
Definition limit_errors {A} (m : outcome A) : Prop := forall e, m = Raise e -> is_limit_error e = true.

Lemma limit_errors_ret {A} (a : A) : limit_errors (Ret a).
Proof. by intros e. Qed.

Lemma limit_errors_raise {A} e : is_limit_error e = true -> limit_errors (@Raise A e).
Proof. by intros H e' [= <-]. Qed.

Lemma limit_errors_bind {A B} (m : outcome A) (k : A -> outcome B) :
  limit_errors m -> (forall a, limit_errors (k a)) -> limit_errors (m ≫= k).
Proof. intros Hm Hk. destruct m as [a|e]; [apply Hk|]. intros e' [= <-]. by apply Hm. Qed.

Lemma limit_errors_traverse {A B} (f : A -> outcome B) l :
  (forall x, limit_errors (f x)) -> limit_errors (traverse f l).
Proof.
  intros Hf. induction l as [|x l IH]; simpl; [apply limit_errors_ret|].
  repeat (apply limit_errors_bind; [done|intros ?]). apply limit_errors_ret.
Qed.

Lemma limit_errors_fmap {A B} (f : A -> B) (m : outcome A) : limit_errors m -> limit_errors (f <$> m).
Proof. intros Hm. destruct m as [a|e]; [by intros e|]. intros e' [= <-]. by apply Hm. Qed.

Lemma limit_errors_int s : limit_errors (py_int s).
Proof.
  unfold py_int. set (bad := Raise _). assert (Hb : limit_errors bad) by (by apply limit_errors_raise).
  assert (Hv : forall t, limit_errors match digits_value 0 false t with Some z => Ret z | None => bad end)
    by (intros t; destruct (digits_value 0 false t); [apply limit_errors_ret|done]).
  repeat case_match; try apply limit_errors_bind; intros; auto using limit_errors_ret.
Qed.

Create HintDb limits.
#[local] Hint Resolve limit_errors_ret limit_errors_int : limits.
#[local] Hint Extern 1 (limit_errors (Raise _)) => by apply limit_errors_raise : limits.

(** Walk through a computation made of binds, tests and calls already covered. *)
Ltac walk :=
  repeat first
    [ progress intros
    | solve [auto with limits]
    | apply limit_errors_bind
    | apply limit_errors_fmap
    | apply limit_errors_traverse
    | case_match ].

Lemma limit_errors_path s : limit_errors (absolute_path s).
Proof. unfold absolute_path. walk. Qed.

Lemma limit_errors_field l i : limit_errors (field l i).
Proof. unfold field. walk. Qed.

#[local] Hint Resolve limit_errors_path limit_errors_field : limits.

Lemma limit_errors_memberships s : limit_errors (memberships s).
Proof. unfold memberships, parse_membership. walk. Qed.

Lemma limit_errors_mounts s : limit_errors (mounts s).
Proof. unfold mounts, parse_mount. walk. Qed.

Lemma limit_errors_count items : forall previous count, limit_errors (cpuset_count previous count items).
Proof.
  induction items as [|item items IH]; intros previous count; cbn [cpuset_count]; [walk|].
  unfold cpuset_item. walk.
Qed.

#[local] Hint Resolve limit_errors_memberships limit_errors_mounts limit_errors_count : limits.

Section Reads.
Context (read : posix -> outcome pystr) (Hread : forall p, limit_errors (read p)).

Lemma limit_errors_optional p : limit_errors (read_optional read p).
Proof.
  unfold read_optional. pose proof (Hread p) as H. destruct (read p) as [s|e]; [walk|].
  specialize (H e eq_refl). destruct e; auto with limits; by apply limit_errors_raise.
Qed.

Lemma limit_errors_quota2 m : limit_errors (quota_v2 m).
Proof. unfold quota_v2. walk. Qed.

Lemma limit_errors_quota1 q p : limit_errors (quota_v1 q p).
Proof. unfold quota_v1. walk. Qed.

Lemma limit_errors_sets c : limit_errors (cpuset_limits c).
Proof. unfold cpuset_limits, cpuset_limit. walk. Qed.

Lemma limit_errors_directory p m : limit_errors (directory_limits read p m).
Proof.
  pose proof limit_errors_optional. pose proof limit_errors_quota2. pose proof limit_errors_quota1.
  pose proof limit_errors_sets. unfold directory_limits. walk.
Qed.

Lemma limit_errors_membership m g : limit_errors (membership_limits read m g).
Proof.
  unfold membership_limits. destruct (belongs m g); [|walk].
  apply limit_errors_bind; [unfold relative_to; walk|]. intros rel.
  destruct (climb_total (mount_path m) rel) as (dirs & -> & _).
  pose proof (fun d => limit_errors_directory d m). walk.
Qed.

Lemma limit_errors_linux p : limit_errors (linux_limits read p).
Proof. pose proof limit_errors_membership. unfold linux_limits. walk. Qed.
End Reads.

(** * The CPU count *)

Lemma tighter_le limit c : (tighter limit c <= limit)%Q /\ (tighter limit c <= c)%Q.
Proof.
  unfold tighter. destruct (Qle_bool limit c) eqn:E; simpl.
  - apply Qle_bool_iff in E. split; [apply Qle_refl|done].
  - split; [|apply Qle_refl]. apply Qnot_lt_le. intros Hlt%Qlt_le_weak%Qle_bool_iff. congruence.
Qed.

Lemma fold_tighter cs : forall limit, (fold_left tighter cs limit <= limit)%Q /\
  (forall c, c ∈ cs -> (fold_left tighter cs limit <= c)%Q).
Proof.
  induction cs as [|c cs IH]; intros limit; simpl.
  - split; [apply Qle_refl|by intros c ?%elem_of_nil].
  - destruct (IH (tighter limit c)) as [H1 H2], (tighter_le limit c) as [H3 H4]. split.
    + by eapply Qle_trans.
    + intros x [->|Hx]%elem_of_cons; [by eapply Qle_trans|by apply H2].
Qed.

Lemma whole_le p q : (p <= q)%Q -> Z.max 1 (Qfloor p) <= Z.max 1 (Qfloor q).
Proof. intros H%Qfloor_resp_le. lia. Qed.


(** A container with one and a half CPUs: a unified hierarchy mounted at
    [/sys/fs/cgroup] with the process in [/job]. *)
Definition demo_read (p : posix) : outcome pystr :=
  if bool_decide (posix_parts p = [lit "proc"; lit "self"; lit "cgroup"]) then Ret (lit "0::/job")
  else if bool_decide (posix_parts p = [lit "proc"; lit "self"; lit "mountinfo"])
  then Ret (lit "30 23 0:26 / /sys/fs/cgroup rw,nosuid - cgroup2 cgroup2 rw")
  else if bool_decide (posix_parts p = [lit "sys"; lit "fs"; lit "cgroup"; lit "job"; lit "cpu.max"])
  then Ret (lit "150000 100000")
  else if bool_decide (posix_parts p = [lit "sys"; lit "fs"; lit "cgroup"; lit "cpuset.cpus.effective"])
  then Ret (lit "0-7")
  else Raise FileNotFoundError.

