(* ===== verification/Native.v ===== *)
(** The native dataset state the Python layer delegates to
    ([src/src/dataset_rt/dataset.rs], [runtime.rs], [sampling.rs]): the mutable
    sampling state, epoch plans, the cyclic cursor and the draw stream, the
    resolution of physical samples, and the reordering iterator. Machine
    integers are 64 bits wide. The random generators are parameters. *)
From stdpp Require Import base tactics list numbers strings gmap.
From S2P Require Import Prelude Records Config Seeds.
Open Scope Z_scope.

(** * Errors and machine integers *)

Inductive CacheError :=
| InvalidInput (m : pystr)
| InvalidCache (m : pystr)
| IoError (m : pystr)
| JsonError (m : pystr)
| ArrowError (m : pystr)
| PythonError (m : pystr)
| CacheKeyboardInterrupt (m : pystr)
| CacheSystemExit (m : pystr)
| NativeFailure (m : pystr)
| WorkerFailed.

(** The text of an error. *)
Definition display (e : CacheError) : pystr :=
  match e with
  | InvalidInput m | InvalidCache m | CacheKeyboardInterrupt m | CacheSystemExit m => m
  | IoError m => lit "I/O error: " ++ m
  | JsonError m => lit "JSON error: " ++ m
  | ArrowError m => lit "Arrow error: " ++ m
  | PythonError m => lit "Python error: " ++ m
  | NativeFailure m => lit "native operation failed: " ++ m
  | WorkerFailed => lit "runtime worker failed"
  end.

(** [into_py_err]: the exception a native error becomes. *)
Definition into_py_err (e : CacheError) : py_exc :=
  match e with
  | InvalidInput m | InvalidCache m => ValueError m
  | CacheKeyboardInterrupt m => KeyboardInterrupt m
  | CacheSystemExit m => SystemExit (PStr m)
  | IoError m => RuntimeError (lit "I/O error: " ++ m)
  | JsonError m => RuntimeError (lit "JSON error: " ++ m)
  | ArrowError m => RuntimeError (lit "Arrow error: " ++ m)
  | PythonError m => RuntimeError (lit "Python error: " ++ m)
  | NativeFailure m => RuntimeError (lit "native operation failed: " ++ m)
  | WorkerFailed => RuntimeError (lit "runtime worker failed")
  end.

(** A native result at the Python boundary. *)
Definition to_python {A} (r : result A CacheError) : outcome A :=
  match r with Ok a => Ret a | Err e => Raise (into_py_err e) end.

Definition checked_add (a b : Z) : option Z := if a + b <=? U64_MAX then Some (a + b) else None.
Definition checked_sub (a b : Z) : option Z := if b <=? a then Some (a - b) else None.

(** * Mutable dataset state *)

(** An accepted active table: the physical sample of every row and the weights. *)
Record ActiveTable := mk_active { physical_indices : list Z; row_weights : list pyfloat }.

(** [DatasetState] with the fields of its mutable part; [None] is the full
    original table. *)
Record dataset_state := mk_state {
  ds_total : Z;
  ds_seed : Z;
  ds_shuffle : bool;
  ds_active : option ActiveTable;
  ds_epoch_len : Z;
  ds_sequential_offset : Z;
  ds_draw_offset : Z }.

(** [EpochLen::new]. *)
Definition new_epoch_len (n : Z) : result Z CacheError :=
  if n =? 0 then Err (InvalidInput (lit "epoch_len must be at least 1")) else Ok n.

(** The mutable part of a freshly loaded dataset. *)
Definition load_state (total seed : Z) (shuffle : bool) : result dataset_state CacheError :=
  if total =? 0 then Err (InvalidCache (lit "dataset contains no physical samples"))
  else match new_epoch_len total with
       | Err e => Err e
       | Ok len => Ok (mk_state total seed shuffle None len 0 0)
       end.

Definition native_set_epoch_len (n : Z) (s : dataset_state) : result dataset_state CacheError :=
  match new_epoch_len n with
  | Err e => Err e
  | Ok len => Ok (mk_state (ds_total s) (ds_seed s) (ds_shuffle s) (ds_active s) len
                    (ds_sequential_offset s) (ds_draw_offset s))
  end.

(** [replace_active]: population and epoch length together, streams reset. *)
Definition replace_active (a : ActiveTable) (s : dataset_state) : result dataset_state CacheError :=
  match new_epoch_len (Z.of_nat (length (physical_indices a))) with
  | Err e => Err e
  | Ok len => Ok (mk_state (ds_total s) (ds_seed s) (ds_shuffle s) (Some a) len 0 0)
  end.

Definition active_len (s : dataset_state) : Z :=
  match ds_active s with
  | None => ds_total s
  | Some a => Z.of_nat (length (physical_indices a))
  end.

Definition active_physical_indices (s : dataset_state) : option (list Z) :=
  physical_indices <$> ds_active s.

Definition advance_cyclic_offset (start step population_len : Z) : result Z CacheError :=
  if population_len =? 0
  then Err (InvalidInput (lit "cannot iterate an empty active population"))
  else
    let step := step mod population_len in
    match checked_sub population_len step with
    | None => Err (InvalidInput (lit "active population length overflowed usize"))
    | Some distance_to_wrap =>
        if distance_to_wrap <=? start then Ok (start - distance_to_wrap) else Ok (start + step)
    end.

Definition advance_draw_offset (start step : Z) : result Z CacheError :=
  match checked_add start step with
  | Some n => Ok n
  | None => Err (InvalidInput (lit "shuffled draw offset overflowed u64"))
  end.

(** * Samplers and plans *)

Inductive EpochSampler :=
| Uniform (seed next_draw remaining sample_count : Z)
| Weighted (weights : list pyfloat) (seed next_draw remaining : Z).

Inductive EpochPlan :=
| Sequential (len start population_len : Z) (indices : option (list Z))
| Shuffled (sampler : EpochSampler) (indices : option (list Z)).

(** [draw.rotate_left(32)] on a u64 value. *)
Definition rotate_left_32 (draw : Z) : Z :=
  Z.land (Z.lor (Z.shiftl draw 32) (Z.shiftr draw 32)) U64_MAX.

(** The key of the generator of one draw. *)
Definition sample_key (seed draw : Z) : Z := Z.lxor seed (rotate_left_32 draw).

Section Sampling.
(** [uniform key n] is the index below [n] and [weighted key ws] the index of a
    weight that the generator with that key draws; [weights_error] is the error of
    [validate_weights] or of the construction of the distribution. *)
Context (uniform : Z -> Z -> Z) (weighted : Z -> list pyfloat -> Z) (weights_error : list pyfloat -> option CacheError).

Definition saturating_succ (n : Z) : Z := Z.min U64_MAX (n + 1).

Definition sampler_next (s : EpochSampler) : option Z * EpochSampler :=
  match s with
  | Uniform seed next remaining count =>
      if remaining =? 0 then (None, s)
      else (Some (uniform (sample_key seed next) count),
            Uniform seed (saturating_succ next) (remaining - 1) count)
  | Weighted ws seed next remaining =>
      if remaining =? 0 then (None, s)
      else (Some (weighted (sample_key seed next) ws),
            Weighted ws seed (saturating_succ next) (remaining - 1))
  end.

Definition wrapping_add_mod (start offset modulo : Z) : option Z :=
  if modulo =? 0 then None
  else
    let offset := offset mod modulo in
    match checked_sub modulo offset with
    | None => None
    | Some distance_to_wrap =>
        if distance_to_wrap <=? start then Some (start - distance_to_wrap) else Some (start + offset)
    end.

(** [indices.get(i).copied()], or [i] itself without an index vector. *)
Definition physical_of (indices : option (list Z)) (i : Z) : option Z :=
  match indices with Some l => l !! Z.to_nat i | None => Some i end.

Definition next_physical_index (p : EpochPlan) (sequence : Z) : option Z * EpochPlan :=
  match p with
  | Sequential len start population_len indices =>
      (if len <=? sequence then None
       else i ← wrapping_add_mod start sequence population_len; physical_of indices i, p)
  | Shuffled sampler indices =>
      match sampler_next sampler with
      | (Some i, sampler') => (physical_of indices i, Shuffled sampler' indices)
      | (None, sampler') => (None, Shuffled sampler' indices)
      end
  end.

Definition plan_len (p : EpochPlan) : Z :=
  match p with
  | Sequential len _ _ _ => len
  | Shuffled (Uniform _ _ remaining _) _ | Shuffled (Weighted _ _ _ remaining) _ => remaining
  end.

(** [epoch_plan]: the plan of a new iterator and the advanced state. *)
Definition epoch_plan (s : dataset_state) : result (EpochPlan * dataset_state) CacheError :=
  let moved seq draw := mk_state (ds_total s) (ds_seed s) (ds_shuffle s) (ds_active s)
                          (ds_epoch_len s) seq draw in
  if negb (ds_shuffle s) then
    match advance_cyclic_offset (ds_sequential_offset s) (ds_epoch_len s) (active_len s) with
    | Err e => Err e
    | Ok next => Ok (Sequential (ds_epoch_len s) (ds_sequential_offset s) (active_len s)
                       (active_physical_indices s), moved next (ds_draw_offset s))
    end
  else
    match advance_draw_offset (ds_draw_offset s) (ds_epoch_len s) with
    | Err e => Err e
    | Ok next =>
        match ds_active s with
        | None =>
            if ds_total s =? 0 then Err (InvalidInput (lit "cannot sample from an empty population"))
            else Ok (Shuffled (Uniform (ds_seed s) (ds_draw_offset s) (ds_epoch_len s) (ds_total s)) None,
                     moved (ds_sequential_offset s) next)
        | Some a =>
            match weights_error (row_weights a) with
            | Some e => Err e
            | None =>
                Ok (Shuffled (Weighted (row_weights a) (ds_seed s) (ds_draw_offset s) (ds_epoch_len s))
                      (Some (physical_indices a)), moved (ds_sequential_offset s) next)
            end
        end
    end.

(** All samples of a plan in planned order, from [sequence] on. *)
Fixpoint plan_samples (n : nat) (p : EpochPlan) (sequence : Z) : option (list Z) :=
  match n with
  | O => Some []
  | S n' =>
      match next_physical_index p sequence with
      | (Some i, p') => cons i <$> plan_samples n' p' (sequence + 1)
      | (None, _) => None
      end
  end.

(** One complete iterator: plan and emit. *)
Definition run_iterator (s : dataset_state) : result (list Z * dataset_state) CacheError :=
  match epoch_plan s with
  | Err e => Err e
  | Ok (p, s') =>
      match plan_samples (Z.to_nat (plan_len p)) p 0 with
      | Some l => Ok (l, s')
      | None => Err WorkerFailed
      end
  end.

(** Successive iterators, each with its own requested length. *)
Fixpoint run_epochs (lens : list Z) (s : dataset_state) : result (list Z * dataset_state) CacheError :=
  match lens with
  | [] => Ok ([], s)
  | n :: rest =>
      match native_set_epoch_len n s with
      | Err e => Err e
      | Ok s1 =>
          match run_iterator s1 with
          | Err e => Err e
          | Ok (l, s2) =>
              match run_epochs rest s2 with
              | Err e => Err e
              | Ok (ls, s3) => Ok (l ++ ls, s3)
              end
          end
      end
  end.

(** * Successive iterators continue one stream *)

(** What a valid state guarantees: a nonempty population with a cursor inside it,
    and weights for exactly its rows. *)
Record wf_state (s : dataset_state) : Prop := mk_wf_state {
  ws_population : 1 <= active_len s <= U64_MAX;
  ws_cursor : 0 <= ds_sequential_offset s < active_len s;
  ws_draw : 0 <= ds_draw_offset s;
  ws_weights : forall a, ds_active s = Some a ->
    weights_error (row_weights a) = None /\ length (row_weights a) = length (physical_indices a) }.

(** The endless stream of a state: the cyclic rows from the cursor, or the draws
    from the draw offset. *)
Definition stream (s : dataset_state) (i : Z) : Z :=
  let row :=
    if ds_shuffle s
    then match ds_active s with
         | None => uniform (sample_key (ds_seed s) (ds_draw_offset s + i)) (ds_total s)
         | Some a => weighted (sample_key (ds_seed s) (ds_draw_offset s + i)) (row_weights a)
         end
    else (ds_sequential_offset s + i) mod active_len s in
  match ds_active s with
  | None => row
  | Some a => physical_indices a !!! Z.to_nat row
  end.

Lemma wrap_step start step n : 0 < n -> 0 <= start < n -> 0 <= step ->
  (if n - step mod n <=? start then start - (n - step mod n) else start + step mod n) = (start + step) mod n.
Proof.
  intros Hn Hs Hp. pose proof (Z.mod_pos_bound step n Hn).
  rewrite <- Z.add_mod_idemp_r by lia.
  destruct (Z.leb_spec (n - step mod n) start).
  - apply Z.mod_unique with 1; lia.
  - symmetry. apply Z.mod_small. lia.
Qed.

Lemma checked_sub_mod step n : 0 < n -> checked_sub n (step mod n) = Some (n - step mod n).
Proof.
  intros Hn. unfold checked_sub. pose proof (Z.mod_pos_bound step n Hn).
  by destruct (Z.leb_spec (step mod n) n); [|lia].
Qed.

Lemma advance_cyclic_ok start step n : 0 < n -> 0 <= start < n -> 0 <= step ->
  advance_cyclic_offset start step n = Ok ((start + step) mod n).
Proof.
  intros Hn Hs Hp. unfold advance_cyclic_offset. destruct (Z.eqb_spec n 0); [lia|].
  rewrite checked_sub_mod by done. rewrite <- (wrap_step start step n Hn Hs Hp). by destruct (_ <=? _).
Qed.

Lemma wrapping_add_ok start step n : 0 < n -> 0 <= start < n -> 0 <= step ->
  wrapping_add_mod start step n = Some ((start + step) mod n).
Proof.
  intros Hn Hs Hp. unfold wrapping_add_mod. destruct (Z.eqb_spec n 0); [lia|].
  rewrite checked_sub_mod by done. rewrite <- (wrap_step start step n Hn Hs Hp). by destruct (_ <=? _).
Qed.

Lemma physical_of_ok l i : 0 <= i < Z.of_nat (length l) ->
  physical_of (Some l) i = Some (l !!! Z.to_nat i).
Proof. intros Hi. simpl. apply list_lookup_lookup_total_lt. lia. Qed.

(** The physical sample behind a population row. *)
Definition row_of (indices : option (list Z)) (i : Z) : Z :=
  match indices with None => i | Some l => l !!! Z.to_nat i end.

Definition indices_cover (indices : option (list Z)) (n : Z) : Prop :=
  match indices with None => True | Some l => Z.of_nat (length l) = n end.

Lemma row_of_ok indices n i : indices_cover indices n -> 0 <= i < n ->
  physical_of indices i = Some (row_of indices i).
Proof. destruct indices as [l|]; [|done]. intros Hl Hi. apply physical_of_ok. simpl in Hl. lia. Qed.

Lemma sequential_samples len start n indices : 0 <= start < n -> indices_cover indices n ->
  forall k seq, 0 <= seq -> seq + Z.of_nat k <= len ->
  plan_samples k (Sequential len start n indices) seq =
  Some (map (fun i => row_of indices ((start + i) mod n)) (seqZ seq (Z.of_nat k))).
Proof.
  intros Hs Hi. induction k as [|k IH]; intros seq Hq Hk; [by rewrite seqZ_nil by lia|].
  cbn [plan_samples next_physical_index]. destruct (Z.leb_spec len seq); [lia|].
  rewrite wrapping_add_ok by lia. simpl.
  rewrite (row_of_ok indices n) by (done || apply Z.mod_pos_bound; lia).
  rewrite IH by lia. simpl. rewrite (seqZ_S seq) by lia. simpl.
  by replace (Z.of_nat (S k) - 1) with (Z.of_nat k) by lia.
Qed.

(** A sampler as its draw function. *)
Definition draws (s : EpochSampler) (k : Z) : Z :=
  match s with
  | Uniform seed _ _ count => uniform (sample_key seed k) count
  | Weighted ws seed _ _ => weighted (sample_key seed k) ws
  end.
Definition next_draw_of (s : EpochSampler) : Z :=
  match s with Uniform _ d _ _ | Weighted _ _ d _ => d end.

Lemma shuffled_samples indices n : indices_cover indices n ->
  forall k s seq, (forall d, 0 <= draws s d < n) ->
  Z.of_nat k <= plan_len (Shuffled s indices) -> next_draw_of s + Z.of_nat k <= U64_MAX ->
  plan_samples k (Shuffled s indices) seq =
  Some (map (fun d => row_of indices (draws s d)) (seqZ (next_draw_of s) (Z.of_nat k))).
Proof.
  intros Hi. induction k as [|k IH]; intros s seq Hd Hk Hb; [by rewrite seqZ_nil by lia|].
  rewrite (seqZ_S (next_draw_of s)) by lia. cbn [plan_samples].
  destruct s as [seed d rem count|ws seed d rem]; simpl in *;
    (destruct (Z.eqb_spec rem 0); [lia|]);
    pose proof (Hd d) as Hd0; simpl in Hd0; rewrite (row_of_ok indices n) by done;
    (rewrite IH; [|done|simpl; lia|simpl; unfold saturating_succ; lia]); simpl;
    (replace (saturating_succ d) with (d + 1) by (unfold saturating_succ; lia));
    by replace (Z.of_nat (S k) - 1) with (Z.of_nat k) by lia.
Qed.

(** Draws of the generators stay inside the population. *)
Definition generators_in_range : Prop :=
  (forall key n, 0 < n -> 0 <= uniform key n < n) /\
  (forall key ws, 0 < Z.of_nat (length ws) -> 0 <= weighted key ws < Z.of_nat (length ws)).

(** The state after an iterator of length [n]. *)
Definition advanced (n : Z) (s : dataset_state) : dataset_state :=
  mk_state (ds_total s) (ds_seed s) (ds_shuffle s) (ds_active s) (ds_epoch_len s)
    (if ds_shuffle s then ds_sequential_offset s else (ds_sequential_offset s + n) mod active_len s)
    (if ds_shuffle s then ds_draw_offset s + n else ds_draw_offset s).

Lemma active_indices_cover s : wf_state s -> indices_cover (active_physical_indices s) (active_len s).
Proof. intros _. unfold active_physical_indices, active_len. by destruct (ds_active s). Qed.

Lemma run_iterator_ok s : generators_in_range -> wf_state s -> 1 <= ds_epoch_len s ->
  (ds_shuffle s = true -> ds_draw_offset s + ds_epoch_len s <= U64_MAX) ->
  run_iterator s = Ok (map (stream s) (seqZ 0 (ds_epoch_len s)), advanced (ds_epoch_len s) s).
Proof.
  intros [Hu Hw] Hs Hl Hd. pose proof (active_indices_cover s Hs) as Hi. destruct Hs as [Hp Hc Hdr Hwt].
  unfold run_iterator, epoch_plan, advanced, stream. destruct (ds_shuffle s) eqn:Es; simpl.
  - specialize (Hd eq_refl). unfold advance_draw_offset, checked_add.
    destruct (Z.leb_spec (ds_draw_offset s + ds_epoch_len s) U64_MAX); [|lia].
    destruct (ds_active s) as [a|] eqn:Ea.
    + destruct (Hwt a eq_refl) as [-> Hlen]. unfold active_len in Hp, Hc. rewrite Ea in Hp, Hc.
      rewrite (shuffled_samples _ (Z.of_nat (length (physical_indices a)))); simpl; try lia; try done.
      2: { intros d. rewrite <- Hlen. apply Hw. lia. }
      rewrite Z2Nat.id by lia. by rewrite map_seqZ_shift.
    + unfold active_len in Hp. rewrite Ea in Hp. destruct (Z.eqb_spec (ds_total s) 0); [lia|].
      rewrite (shuffled_samples _ (ds_total s)); simpl; try lia; try done.
      2: { intros d. apply Hu. lia. }
      rewrite Z2Nat.id by lia. by rewrite map_seqZ_shift.
  - rewrite advance_cyclic_ok by lia. cbn [plan_len].
    rewrite (sequential_samples _ _ (active_len s)) by (done || lia). rewrite Z2Nat.id by lia.
    do 2 f_equal. apply map_ext. intros i. unfold active_physical_indices. by destruct (ds_active s).
Qed.

Lemma advanced_wf n s : wf_state s -> 0 <= n -> wf_state (advanced n s).
Proof.
  intros [Hp Hc Hd Hw] Hn. constructor; [done| |simpl; destruct (ds_shuffle s); lia|done].
  change (active_len (advanced n s)) with (active_len s). simpl.
  destruct (ds_shuffle s); [done|]. apply Z.mod_pos_bound. lia.
Qed.

Lemma advanced_stream n s i : wf_state s -> stream (advanced n s) i = stream s (n + i).
Proof.
  intros [Hp _ _ _]. unfold stream. change (active_len (advanced n s)) with (active_len s). simpl.
  destruct (ds_shuffle s); [by rewrite Z.add_assoc|].
  rewrite Z.add_mod_idemp_l by lia. by rewrite Z.add_assoc.
Qed.

(** The state with another requested length. *)
Definition with_epoch_len (n : Z) (s : dataset_state) : dataset_state :=
  mk_state (ds_total s) (ds_seed s) (ds_shuffle s) (ds_active s) n
    (ds_sequential_offset s) (ds_draw_offset s).

Lemma run_epochs_ok lens : generators_in_range -> forall s, wf_state s -> Forall (Z.le 1) lens ->
  (ds_shuffle s = true -> ds_draw_offset s + Zsum lens <= U64_MAX) ->
  exists s', run_epochs lens s = Ok (map (stream s) (seqZ 0 (Zsum lens)), s') /\ wf_state s' /\
    forall i, stream s' i = stream s (Zsum lens + i).
Proof.
  intros Hg. induction lens as [|n lens IH]; intros s Hs HF Hd; simpl.
  { exists s. split_and!; done. }
  apply Forall_cons in HF as [Hn HF]. rewrite Zsum_cons in *.
  assert (Hz : 0 <= Zsum lens).
  { apply Zsum_nonneg. eapply Forall_impl; [exact HF|]. simpl. lia. }
  unfold native_set_epoch_len, new_epoch_len. destruct (Z.eqb_spec n 0); [lia|].
  change (mk_state _ _ _ _ n _ _) with (with_epoch_len n s).
  assert (Hs1 : wf_state (with_epoch_len n s)) by (destruct Hs; by constructor).
  rewrite (run_iterator_ok (with_epoch_len n s) Hg Hs1) by (simpl; (lia || intros ?%Hd; lia)).
  simpl ds_epoch_len. pose proof (advanced_wf n _ Hs1 ltac:(lia)) as Hs2.
  destruct (IH (advanced n (with_epoch_len n s)) Hs2 HF) as (s3 & -> & Hs3 & Hst).
  { simpl. intros E. rewrite E. specialize (Hd E). lia. }
  exists s3. split; [|split; [done|]].
  - do 2 f_equal. rewrite seqZ_app_lengths, map_app by lia. f_equal. rewrite Z.add_0_l.
    rewrite (map_seqZ_shift _ n). apply map_ext. intros i. by apply (advanced_stream n (with_epoch_len n s)).
  - intros i. rewrite Hst, advanced_stream by done.
    change (stream (with_epoch_len n s)) with (stream s). f_equal. lia.
Qed.
End Sampling.

(** C19. Successive iterators of one dataset continue one stream: whatever epoch
    lengths are requested, the samples of all iterators together are the first
    samples of a single cyclic pass over the active rows, or of a single seeded
    draw stream when shuffling, as long as the draw counter fits its 64 bits. *)
Theorem iterators_continue (uniform : Z -> Z -> Z) (weighted : Z -> list pyfloat -> Z)
    (weights_error : list pyfloat -> option CacheError) (s : dataset_state) (lens : list Z)
    (Hg : generators_in_range uniform weighted) (Hs : wf_state weights_error s)
    (Hl : Forall (Z.le 1) lens)
    (Hd : ds_shuffle s = true -> ds_draw_offset s + Zsum lens <= U64_MAX) :
  exists s', run_epochs uniform weighted weights_error lens s =
    Ok (map (stream uniform weighted s) (seqZ 0 (Zsum lens)), s') /\ wf_state weights_error s'.
Proof.
  destruct (run_epochs_ok uniform weighted weights_error lens Hg s Hs Hl Hd) as (s' & H & Hw & _). eauto.
Qed.

Lemma iterators_continue_witness :
  exists s', run_epochs (fun _ _ => 0) (fun _ _ => 0) (fun _ => None) [2; 4; 1] (mk_state 5 0 false None 5 0 0) =
    Ok (map (stream (fun _ _ => 0) (fun _ _ => 0) (mk_state 5 0 false None 5 0 0)) (seqZ 0 (Zsum [2; 4; 1])), s') /\
    wf_state (fun _ => None) s'.
Proof.
  apply (iterators_continue (fun _ _ => 0) (fun _ _ => 0) (fun _ => None) (mk_state 5 0 false None 5 0 0) [2; 4; 1]).
  - split; intros; lia.
  - constructor; [split; vm_compute; congruence|split; vm_compute; congruence|vm_compute; congruence|].
    intros a. discriminate.
  - repeat constructor; lia.
  - discriminate.
Defined.

(** * Physical samples *)

(** [cache_offsets]: the first physical index of every cache. *)
Fixpoint cache_offsets_from (next : Z) (counts : list Z) : result (list Z) CacheError :=
  match counts with
  | [] => Ok []
  | n :: rest =>
      match checked_add next n with
      | None => Err (InvalidInput (lit "total sample count overflowed usize"))
      | Some next' => match cache_offsets_from next' rest with
                      | Err e => Err e
                      | Ok l => Ok (next :: l)
                      end
      end
  end.

(** [slice.partition_point(p)] of a slice partitioned by [p]. *)
Fixpoint partition_point (p : Z -> bool) (l : list Z) : Z :=
  match l with
  | x :: r => if p x then 1 + partition_point p r else 0
  | [] => 0
  end.

(** [locate_physical_sample]; [counts] are the sample counts of the caches. *)
Definition locate_physical_sample (counts offsets : list Z) (index : Z) : result (Z * Z) CacheError :=
  let bad := Err (InvalidCache (lit "physical sample " ++ dec index ++ lit " is out of range")) in
  match checked_sub (partition_point (fun offset => offset <=? index) offsets) 1 with
  | None => bad
  | Some cache_index =>
      match offsets !! Z.to_nat cache_index with
      | None => Err (InvalidCache (lit "cache offset is out of range"))
      | Some offset =>
          match checked_sub index offset with
          | None => bad
          | Some sample_index =>
              match counts !! Z.to_nat cache_index with
              | None => Err (InvalidCache (lit "cache id is out of range"))
              | Some count => if count <=? sample_index then bad else Ok (cache_index, sample_index)
              end
          end
      end
  end.

Lemma cache_offsets_spec counts : forall next offsets, 0 <= next -> Forall (Z.le 0) counts ->
  cache_offsets_from next counts = Ok offsets ->
  length offsets = length counts /\
  forall k count, counts !! k = Some count ->
    exists o, offsets !! k = Some o /\ o = next + Zsum (take k counts).
Proof.
  induction counts as [|n counts IH]; intros next offsets Hn HF; simpl.
  { intros [= <-]. split; [done|]. intros k count. by rewrite lookup_nil. }
  apply Forall_cons in HF as [Hx HF]. unfold checked_add.
  destruct (Z.leb_spec (next + n) U64_MAX); [|discriminate].
  destruct (cache_offsets_from (next + n) counts) as [l|] eqn:E; [|discriminate]. intros [= <-].
  destruct (IH (next + n) l ltac:(lia) HF E) as [Hl Hk]. split; [simpl; lia|].
  intros [|k] count; simpl.
  - intros _. exists next. split; [done|]. change (Zsum []) with 0. lia.
  - intros Hc. destruct (Hk k count Hc) as (o & Ho & ->). eexists. split; [done|].
    rewrite Zsum_cons. lia.
Qed.

(** Offsets above the sample end the search, offsets up to it extend it. *)
Lemma partition_point_offsets counts : forall next offsets k count j,
  0 <= next -> Forall (Z.le 0) counts -> cache_offsets_from next counts = Ok offsets ->
  counts !! k = Some count -> 0 <= j < count ->
  partition_point (fun o => o <=? next + Zsum (take k counts) + j) offsets = Z.of_nat k + 1.
Proof.
  induction counts as [|n counts IH]; intros next offsets k count j Hn HF; simpl.
  { intros _. by rewrite lookup_nil. }
  apply Forall_cons in HF as [Hx HF]. unfold checked_add.
  destruct (Z.leb_spec (next + n) U64_MAX); [|discriminate].
  destruct (cache_offsets_from (next + n) counts) as [l|] eqn:E; [|discriminate]. intros [= <-].
  destruct k as [|k]; simpl.
  - intros [= ->] Hj. change (Zsum []) with 0. destruct (Z.leb_spec next (next + 0 + j)); [|lia].
    assert (Hz : partition_point (fun o => o <=? next + 0 + j) l = 0); [|lia].
    destruct l as [|o l]; [done|]. simpl. destruct counts as [|m counts]; [discriminate E|].
    simpl in E. unfold checked_add in E. destruct (_ <=? U64_MAX); [|discriminate].
    destruct (cache_offsets_from (next + count + m) counts); [|discriminate]. injection E as <- <-.
    by destruct (Z.leb_spec (next + count) (next + 0 + j)); [lia|].
  - intros Hc Hj. rewrite Zsum_cons.
    assert (Hz : 0 <= Zsum (take k counts)) by (by apply Zsum_nonneg, Forall_take).
    destruct (Z.leb_spec next (next + (n + Zsum (take k counts)) + j)); [|lia].
    replace (next + (n + Zsum (take k counts)) + j) with (next + n + Zsum (take k counts) + j) by lia.
    rewrite (IH (next + n) l k count j) by (done || lia). lia.
Qed.

(** The sample at position [j] of cache [k] has physical index (samples before the
    cache) + [j], and resolving that index gives back cache [k] and position [j]. *)
Lemma locate_physical_sample_inverse (counts offsets : list Z) (k : nat) (count j : Z)
    (Hn : Forall (Z.le 0) counts) (Ho : cache_offsets_from 0 counts = Ok offsets)
    (Hk : counts !! k = Some count) (Hj : 0 <= j < count) :
  locate_physical_sample counts offsets (Zsum (take k counts) + j) = Ok (Z.of_nat k, j).
Proof.
  pose proof (partition_point_offsets counts 0 offsets k count j ltac:(lia) Hn Ho Hk Hj) as Hp.
  destruct (cache_offsets_spec counts 0 offsets ltac:(lia) Hn Ho) as [Hl Hoff].
  destruct (Hoff k count Hk) as (o & Eo & ->). rewrite Z.add_0_l in *.
  unfold locate_physical_sample. rewrite Hp. unfold checked_sub.
  destruct (Z.leb_spec 1 (Z.of_nat k + 1)); [|lia].
  replace (Z.to_nat (Z.of_nat k + 1 - 1)) with k by lia. rewrite Eo.
  destruct (Z.leb_spec (Zsum (take k counts)) (Zsum (take k counts) + j)); [|lia]. rewrite Hk.
  destruct (Z.leb_spec count (Zsum (take k counts) + j - Zsum (take k counts))); [lia|].
  f_equal. f_equal; lia.
Qed.

(** * The reordering iterator *)

Section Window.
Context {A : Type}.

(** [RuntimeIterator]: [it_inflight] lists the submitted jobs whose result has not
    been received yet. *)
Record iterator := mk_iter {
  it_total : Z;
  it_parallelism : Z;
  it_scheduled : Z;
  it_emitted : Z;
  it_pending : gmap Z A;
  it_inflight : list Z;
  it_cancelled : bool }.

Definition schedule_next (t : iterator) : iterator :=
  mk_iter (it_total t) (it_parallelism t) (it_scheduled t + 1) (it_emitted t) (it_pending t)
    (it_inflight t ++ [it_scheduled t]) (it_cancelled t).

Definition can_schedule (t : iterator) : bool :=
  (it_scheduled t - it_emitted t <? it_parallelism t) && (it_scheduled t <? it_total t).

(** The [while] loop of [schedule_available]. *)
Fixpoint schedule_available (fuel : nat) (t : iterator) : iterator :=
  match fuel with
  | O => t
  | S fuel' => if can_schedule t then schedule_available fuel' (schedule_next t) else t
  end.

(** [RuntimeIterator::start]: the first jobs are submitted at once. *)
Definition start_iterator (total prefetch workers : Z) : iterator :=
  schedule_available (Z.to_nat total)
    (mk_iter total (Z.min (Z.min workers prefetch) total) 0 0 ∅ [] false).

(** Emission of a buffered result. *)
Definition emit_pending (t : iterator) : option (A * iterator) :=
  match it_pending t !! it_emitted t with
  | Some v => Some (v, mk_iter (it_total t) (it_parallelism t) (it_scheduled t) (it_emitted t + 1)
                         (delete (it_emitted t) (it_pending t)) (it_inflight t) (it_cancelled t))
  | None => None
  end.

(** Every failure ends the iteration and cancels the jobs in flight. *)
Definition fail_iterator (t : iterator) : iterator :=
  mk_iter (it_total t) (it_parallelism t) (it_scheduled t) (it_total t) (it_pending t)
    (it_inflight t) true.

(** A received result: emitted when it is the next one, buffered otherwise. *)
Definition receive_result (t : iterator) (sequence : Z) (v : A)
  : option (result A CacheError) * iterator :=
  let inflight := filter (fun q => q <> sequence) (it_inflight t) in
  if sequence =? it_emitted t
  then (Some (Ok v), mk_iter (it_total t) (it_parallelism t) (it_scheduled t) (it_emitted t + 1)
                       (it_pending t) inflight (it_cancelled t))
  else match it_pending t !! sequence with
       | Some _ => (Some (Err WorkerFailed), fail_iterator t)
       | None => (None, mk_iter (it_total t) (it_parallelism t) (it_scheduled t) (it_emitted t)
                          (<[sequence := v]> (it_pending t)) inflight (it_cancelled t))
       end.

(** One transition of an unfinished iterator: [load q] is the result of job [q], and
    jobs finish in any order. A failed job carries no position: its error is handed
    to the consumer as soon as it is received. *)
Inductive iter_step (load : Z -> result A CacheError)
  : iterator -> option (result A CacheError) -> iterator -> Prop :=
| StepSchedule t : it_emitted t < it_total t ->
    iter_step load t None (schedule_available (Z.to_nat (it_total t)) t)
| StepPending t v t' : it_emitted t < it_total t -> emit_pending t = Some (v, t') ->
    iter_step load t (Some (Ok v)) t'
| StepReceive t q v : it_emitted t < it_total t -> it_pending t !! it_emitted t = None ->
    q ∈ it_inflight t -> load q = Ok v ->
    iter_step load t (receive_result t q v).1 (receive_result t q v).2
| StepFail t q e : it_emitted t < it_total t -> it_pending t !! it_emitted t = None ->
    q ∈ it_inflight t -> load q = Err e ->
    iter_step load t (Some (Err e)) (fail_iterator t).

(** Runs from the start, with the results handed to the consumer. *)
Inductive iter_run (load : Z -> result A CacheError) (t0 : iterator) : list (result A CacheError) -> iterator -> Prop :=
| RunStart : iter_run load t0 [] t0
| RunStep outs t o t' : iter_run load t0 outs t -> iter_step load t o t' ->
    iter_run load t0 (outs ++ option_list o) t'.

(** The jobs between the emitted and the scheduled position are exactly those in
    flight and those buffered, each once, and buffered results are the loaded ones. *)
Record window (load : Z -> result A CacheError) (t : iterator) : Prop := mk_window {
  wi_order : 0 <= it_emitted t <= it_scheduled t /\ it_scheduled t <= it_total t;
  wi_bound : it_scheduled t - it_emitted t <= it_parallelism t;
  wi_jobs : it_inflight t ++ elements (dom (it_pending t)) ≡ₚ
              seqZ (it_emitted t) (it_scheduled t - it_emitted t);
  wi_loaded : forall q v, it_pending t !! q = Some v -> load q = Ok v;
  wi_running : it_cancelled t = false }.

Lemma window_nodup load t : window load t ->
  NoDup (it_inflight t ++ elements (dom (it_pending t))).
Proof. intros W. rewrite (wi_jobs _ _ W). apply NoDup_seqZ. Qed.

Lemma schedule_next_window load t : window load t -> can_schedule t = true ->
  window load (schedule_next t).
Proof.
  intros [Ho Hb Hj Hl Hc] Hs. unfold can_schedule in Hs. bools.
  constructor; simpl; try done; [lia|lia|].
  replace (it_scheduled t + 1 - it_emitted t) with (it_scheduled t - it_emitted t + 1) by lia.
  rewrite seqZ_snoc by lia. rewrite <- Hj.
  replace (it_emitted t + (it_scheduled t - it_emitted t)) with (it_scheduled t) by lia.
  rewrite <- !(assoc_L (++)). f_equiv. apply Permutation_app_comm.
Qed.

Lemma schedule_available_window load fuel : forall t, window load t ->
  window load (schedule_available fuel t) /\ it_emitted (schedule_available fuel t) = it_emitted t.
Proof.
  induction fuel as [|fuel IH]; intros t W; simpl; [done|].
  destruct (can_schedule t) eqn:E; [|done].
  destruct (IH _ (schedule_next_window load t W E)) as [H1 H2]. done.
Qed.

Lemma filter_inflight (q : Z) (l : list Z) : NoDup l -> q ∈ l -> l ≡ₚ q :: filter (fun x => x <> q) l.
Proof.
  intros Hn Hq. apply NoDup_Permutation; [done| |].
  - constructor; [|by apply NoDup_filter]. rewrite list_elem_of_filter. by intros [].
  - intros x. rewrite elem_of_cons, list_elem_of_filter. destruct (decide (x = q)) as [->|]; tauto.
Qed.

Lemma next_emitted e n : 0 < n -> seqZ e n ≡ₚ e :: seqZ (e + 1) (n - 1).
Proof. intros Hn. by rewrite seqZ_S. Qed.

Lemma receive_window load t q v : window load t -> it_emitted t < it_total t ->
  it_pending t !! it_emitted t = None -> q ∈ it_inflight t -> load q = Ok v ->
  window load (receive_result t q v).2 /\
  (receive_result t q v).1 = (if q =? it_emitted t then Some (Ok v) else None) /\
  it_emitted (receive_result t q v).2 =
    (if q =? it_emitted t then it_emitted t + 1 else it_emitted t).
Proof.
  intros W He Hp Hq Hv. pose proof (window_nodup load t W) as Hn. destruct W as [Ho Hb Hj Hl Hc].
  apply NoDup_app in Hn as (Hn1 & Hn2 & _).
  pose proof (filter_inflight q (it_inflight t) Hn1 Hq) as Hf.
  assert (Hfree : it_pending t !! q = None).
  { apply not_elem_of_dom. intros Hd. apply (Hn2 q Hq). by apply elem_of_elements. }
  assert (Hpos : 0 < it_scheduled t - it_emitted t).
  { assert (q ∈ seqZ (it_emitted t) (it_scheduled t - it_emitted t)) as Hin%elem_of_seqZ; [|lia].
    rewrite <- Hj. apply elem_of_app. by left. }
  unfold receive_result. destruct (Z.eqb_spec q (it_emitted t)) as [->|Hne]; simpl.
  - split_and!; [|done|done]. constructor; simpl; try done; [lia|lia|].
    apply (Permutation_cons_inv (a := it_emitted t)).
    replace (it_scheduled t - (it_emitted t + 1)) with (it_scheduled t - it_emitted t - 1) by lia.
    rewrite <- next_emitted, <- Hj by done. rewrite Hf at 2. done.
  - rewrite Hfree. simpl. split_and!; [|done|done]. constructor; simpl; try done.
    + rewrite dom_insert_L, elements_union_singleton by (by apply not_elem_of_dom).
      rewrite <- Hj. rewrite Hf at 2. symmetry. apply Permutation_middle.
    + intros x w. rewrite lookup_insert_Some. intros [[<- <-]|[_ H]]; [done|by apply Hl].
Qed.

Lemma pending_window load t v t' : window load t -> it_emitted t < it_total t ->
  emit_pending t = Some (v, t') ->
  window load t' /\ load (it_emitted t) = Ok v /\ it_emitted t' = it_emitted t + 1.
Proof.
  intros W He H. unfold emit_pending in H. destruct W as [Ho Hb Hj Hl Hc].
  destruct (it_pending t !! it_emitted t) as [x|] eqn:Ex; [|discriminate]. injection H as <- <-.
  assert (Hin : it_emitted t ∈ dom (it_pending t)) by (by apply elem_of_dom).
  assert (Hpos : 0 < it_scheduled t - it_emitted t).
  { assert (it_emitted t ∈ seqZ (it_emitted t) (it_scheduled t - it_emitted t)) as H%elem_of_seqZ; [|lia].
    rewrite <- Hj. apply elem_of_app. right. by apply elem_of_elements. }
  split_and!; [|by apply Hl|done]. constructor; simpl; try done; [lia|lia| |].
  - apply (Permutation_cons_inv (a := it_emitted t)).
    replace (it_scheduled t - (it_emitted t + 1)) with (it_scheduled t - it_emitted t - 1) by lia.
    rewrite <- next_emitted, <- Hj by done. rewrite Permutation_middle. f_equiv.
    rewrite dom_delete_L. rewrite <- elements_union_singleton by (rewrite elem_of_difference, elem_of_singleton; tauto).
    f_equiv. intros z. rewrite elem_of_union, elem_of_difference, elem_of_singleton.
    destruct (decide (z = it_emitted t)) as [->|]; tauto.
  - intros q v. rewrite lookup_delete_Some. intros [_ H]. by apply Hl.
Qed.

(** ** The specification: reading one sample after another *)

(** A reader that has emitted [k] samples, or is at its end. *)
Inductive reader := Reading (k : Z) | Finished.

(** It emits the planned samples one by one; instead of the next sample it may
    report the error of a job of its lookahead [bound], and is then at its end. *)
Inductive read_step (load : Z -> result A CacheError) (total bound : Z)
  : reader -> result A CacheError -> reader -> Prop :=
| ReadNext k v : k < total -> load k = Ok v ->
    read_step load total bound (Reading k) (Ok v) (Reading (k + 1))
| ReadFail k q e : k <= q < total -> q < k + bound -> load q = Err e ->
    read_step load total bound (Reading k) (Err e) Finished.

Inductive read_run (load : Z -> result A CacheError) (total bound : Z)
  : list (result A CacheError) -> reader -> Prop :=
| ReadStart : read_run load total bound [] (Reading 0)
| ReadStep outs r o r' : read_run load total bound outs r -> read_step load total bound r o r' ->
    read_run load total bound (outs ++ [o]) r'.

(** The simulation: a running iterator stands where the reader stands, a failed one
    is at its end and cancels the jobs still in flight. *)
Definition simulates (load : Z -> result A CacheError) (total bound : Z) (t : iterator) (r : reader) : Prop :=
  it_total t = total /\ it_parallelism t = bound /\
  match r with
  | Reading k => window load t /\ it_emitted t = k
  | Finished => it_emitted t = total /\ it_cancelled t = true
  end.

Lemma schedule_available_frame fuel : forall u : iterator,
  it_total (schedule_available fuel u) = it_total u /\
  it_parallelism (schedule_available fuel u) = it_parallelism u /\
  it_scheduled u <= it_scheduled (schedule_available fuel u).
Proof.
  induction fuel as [|fuel IH]; intros u; simpl; [done|]. destruct (can_schedule u); [|done].
  destruct (IH (schedule_next u)) as (H1 & H2 & H3). simpl in *. split_and!; [done|done|lia].
Qed.

Lemma inflight_lookahead load t q : window load t -> q ∈ it_inflight t ->
  it_emitted t <= q < it_total t /\ q < it_emitted t + it_parallelism t.
Proof.
  intros [Ho Hb Hj _ _] Hq.
  assert (q ∈ seqZ (it_emitted t) (it_scheduled t - it_emitted t)) as H%elem_of_seqZ; [|lia].
  rewrite <- Hj. apply elem_of_app. by left.
Qed.

(** Every step of the iterator is matched by at most one step of the reader. *)
Lemma iter_step_simulated load total bound t o t' r : simulates load total bound t r ->
  iter_step load t o t' ->
  exists r', simulates load total bound t' r' /\
    match o with None => r' = r | Some x => read_step load total bound r x r' end.
Proof.
  intros (Et & Ep & Hr) Hs.
  assert (Hopen : it_emitted t < it_total t) by (by destruct Hs).
  destruct r as [k|]; [|lia]. destruct Hr as [W Ek].
  destruct Hs as [t He|t v t' He H|t q v He Hn Hq Hv|t q e He Hn Hq Hv].
  - exists (Reading k). split; [|done]. destruct (schedule_available_window load (Z.to_nat (it_total t)) t W).
    destruct (schedule_available_frame (Z.to_nat (it_total t)) t) as (? & ? & _). unfold simulates. split_and!; congruence || done.
  - destruct (pending_window load t v t' W He H) as (W' & Hl & E). exists (Reading (k + 1)).
    unfold emit_pending in H. destruct (it_pending t !! it_emitted t); [|done]. injection H as _ <-.
    split; [by unfold simulates; simpl in *; rewrite <- Ek|]. constructor; [lia|congruence].
  - destruct (receive_window load t q v W He Hn Hq Hv) as (W' & Er & Ee).
    assert (H : it_total (receive_result t q v).2 = it_total t /\
                it_parallelism (receive_result t q v).2 = it_parallelism t).
    { unfold receive_result. destruct (_ =? _); [done|]. by destruct (it_pending t !! q). }
    destruct H as [H1 H2]. rewrite Er. unfold simulates. rewrite H1, H2.
    destruct (Z.eqb_spec q (it_emitted t)) as [Eq|_].
    + exists (Reading (k + 1)). rewrite Ee, Ek. split; [by split_and!|]. constructor; [lia|congruence].
    + exists (Reading k). rewrite Ee. by split_and!.
  - exists Finished. destruct (inflight_lookahead load t q W Hq). simpl.
    split; [unfold simulates; simpl; split_and!; (done || lia)|]. apply ReadFail with q; (done || lia).
Qed.

Lemma start_simulated load total prefetch workers : 0 <= total -> 1 <= prefetch -> 1 <= workers ->
  simulates load total (Z.min (Z.min workers prefetch) total) (start_iterator total prefetch workers) (Reading 0).
Proof.
  intros Ht Hp Hw. unfold start_iterator.
  match goal with |- context [schedule_available _ ?u] =>
    assert (W : window load u) by (constructor; simpl; (done || lia));
    destruct (schedule_available_window load (Z.to_nat total) u W);
    destruct (schedule_available_frame (Z.to_nat total) u) as (? & ? & _) end.
  unfold simulates. by split_and!.
Qed.

Lemma iter_run_simulated load total prefetch workers outs t :
  0 <= total -> 1 <= prefetch -> 1 <= workers ->
  iter_run load (start_iterator total prefetch workers) outs t ->
  exists r, read_run load total (Z.min (Z.min workers prefetch) total) outs r /\
    simulates load total (Z.min (Z.min workers prefetch) total) t r.
Proof.
  intros Ht Hp Hw. induction 1 as [|outs t o t' Hrun (r & IHr & IHs) Hs].
  { exists (Reading 0). split; [constructor|by apply start_simulated]. }
  destruct (iter_step_simulated _ _ _ _ _ _ _ IHs Hs) as (r' & Hr' & Ho). exists r'. split; [|done].
  destruct o as [x|]; simpl; [by econstructor|]. subst r'. by rewrite app_nil_r.
Qed.

(** What the specification says about the emitted results. *)
Lemma read_run_outs load total bound outs r : 0 <= total -> read_run load total bound outs r ->
  exists k vs, 0 <= k <= total /\ Forall2 (fun q v => load q = Ok v) (seqZ 0 k) vs /\
    match r with
    | Reading n => n = k /\ outs = map Ok vs
    | Finished => exists q e, k <= q < total /\ load q = Err e /\ outs = map Ok vs ++ [Err e]
    end.
Proof.
  intros Ht. induction 1 as [|outs r o r' Hrun (k & vs & Hk & Hv & IH) Hs].
  { exists 0, []. split; [lia|]. by split; [constructor|]. }
  destruct Hs as [n v Hn Hl|n q e Hq _ Hl]; destruct IH as [-> ->].
  - exists (k + 1), (vs ++ [v]). split; [lia|]. split.
    + rewrite seqZ_snoc by lia. apply Forall2_app; [done|]. by repeat constructor.
    + by rewrite map_app.
  - exists k, vs. split; [done|]. split; [done|]. by exists q, e.
Qed.
End Window.
Arguments iterator : clear implicits.


(** Three jobs with two in flight: the second sample is damaged, and its error is
    received before the first sample. *)
Definition demo_load (q : Z) : result Z CacheError :=
  if q =? 1 then Err (InvalidCache (lit "damaged")) else Ok q.
Definition demo_iterator : iterator Z := start_iterator 3 8 2.


(** The iterator never deadlocks: in every unfinished run, once scheduling has
    filled the window, the very next planned sample is buffered or in flight: the
    consumer never waits for a job that was not submitted. *)
Theorem iterator_never_stuck {A} (load : Z -> result A CacheError) (total prefetch workers : Z)
    (outs : list (result A CacheError)) (t : iterator A)
    (Ht : 0 <= total) (Hp : 1 <= prefetch) (Hw : 1 <= workers)
    (Hrun : iter_run load (start_iterator total prefetch workers) outs t)
    (Hopen : it_emitted t < total) :
  let t' := schedule_available (Z.to_nat (it_total t)) t in
  is_Some (it_pending t' !! it_emitted t') \/ it_emitted t' ∈ it_inflight t'.
Proof.
  destruct (iter_run_simulated load total prefetch workers outs t Ht Hp Hw Hrun) as (r & _ & Et & Ep & Hs).
  destruct r as [k|]; [|lia]. destruct Hs as [W _].
  simpl. destruct (schedule_available_window load (Z.to_nat (it_total t)) t W) as [W' E].
  set (t' := schedule_available (Z.to_nat (it_total t)) t) in *.
  assert (Hlt : it_emitted t' < it_scheduled t').
  { rewrite E. unfold t'. destruct W as [Ho _ _ _ _]. rewrite Et.
    replace (Z.to_nat total) with (S (Z.to_nat (total - 1))) by lia. cbn [schedule_available].
    destruct (can_schedule t) eqn:Ec.
    - pose proof (schedule_available_frame (Z.to_nat (total - 1)) (schedule_next t)) as (_ & _ & H).
      simpl in H. lia.
    - unfold can_schedule in Ec. rewrite andb_false_iff, !Z.ltb_ge in Ec. lia. }
  destruct W' as [Ho' _ Hj _ _].
  assert (Hin : it_emitted t' ∈ it_inflight t' ++ elements (dom (it_pending t'))).
  { rewrite Hj. apply elem_of_seqZ. lia. }
  apply elem_of_app in Hin as [?|Hin%elem_of_elements%elem_of_dom]; [by right|by left].
Qed.

Lemma iterator_never_stuck_witness :
  let t' := schedule_available (Z.to_nat (it_total demo_iterator)) demo_iterator in
  is_Some (it_pending t' !! it_emitted t') \/ it_emitted t' ∈ it_inflight t'.
Proof.
  apply (iterator_never_stuck demo_load 3 8 2 [] demo_iterator); try lia; [apply RunStart|reflexivity].
Defined.
