(* ===== verification/Metadata.v ===== *)
(** Columnar metadata at the native boundary: the table the Python layer hands
    over ([src/dataset_rt/metadata.py]), its validation into an active sampling
    population ([src/src/dataset_rt/samples_metadata.rs], [arrow_metadata.rs],
    [validate_weights] of [sampling.rs]), the original table of a set of loaded
    caches, and the identity lookups of [dataset.rs]. *)
From stdpp Require Import base tactics list numbers strings gmap.
From S2P Require Import Prelude Records Binary64 Config Seeds Partition Native.
Open Scope Z_scope.

(** * Tables *)

Inductive ArrowType :=
| Boolean | Int64 | Int32 | UInt64 | UInt32 | Float64 | Float32 | Utf8 | LargeUtf8 | Utf8View
| OtherType.

Inductive MetadataKind := KindBool | KindInt | KindFloat | KindString.

#[export] Instance ArrowType_eq_dec : EqDecision ArrowType.
Proof. solve_decision. Defined.
#[export] Instance MetadataKind_eq_dec : EqDecision MetadataKind.
Proof. solve_decision. Defined.

(** A cell of a column: null or a value. *)
Abbreviation cell := (option MetadataValue).

(** Columns with their types, and the cells of each row in column order. *)
Record table := mk_table { table_columns : list (pystr * ArrowType); table_rows : list (list cell) }.

Definition num_rows (t : table) : Z := Z.of_nat (length (table_rows t)).

(** One open cache: its persistent identity, stored schema and metadata rows. *)
Record LoadedCache := mk_cache {
  cache_identity : Z;
  cache_schema : list (pystr * MetadataKind);
  cache_rows : list (list MetadataValue);
  cache_directory : path }.

Definition sample_count (c : LoadedCache) : Z := Z.of_nat (length (cache_rows c)).

(** * Weights *)

(** The running total of [validate_weights], from weight [index] on. *)
Fixpoint validate_weights_from (index : Z) (total : pyfloat) (weights : list pyfloat)
  : result unit CacheError :=
  match weights with
  | [] => Ok tt
  | w :: rest =>
      if negb (float_isfinite w) || negb (float_gt0 w)
      then Err (InvalidInput (lit "weight " ++ dec index ++ lit " must be positive and finite"))
      else
        let total := f64_add total w in
        if negb (float_isfinite total) then Err (InvalidInput (lit "weight total must be finite"))
        else validate_weights_from (index + 1) total rest
  end.

Definition validate_weights (weights : list pyfloat) (count : Z) : result unit CacheError :=
  if negb (Z.of_nat (length weights) =? count)
  then Err (InvalidInput (lit "expected " ++ dec count ++ lit " weights, got " ++
                          dec (Z.of_nat (length weights))))
  else validate_weights_from 0 (Finite 0 1) weights.

(** * Reading cells *)

Definition column_by_name (t : table) (name : pystr) : option (nat * ArrowType) :=
  '(i, c) ← list_find (fun c => c.1 = name) (table_columns t); Some (i, c.2).

Definition required_column (t : table) (name : pystr) : result (nat * ArrowType) CacheError :=
  match column_by_name t name with
  | Some c => Ok c
  | None => Err (InvalidInput (lit "samples metadata missing '" ++ name ++ lit "' column"))
  end.

Definition cell_at (row : list cell) (i : nat) : cell := default None (row !! i).

Definition read_u64_cell (ty : ArrowType) (c : cell) (name : pystr) : result Z CacheError :=
  match c with
  | None => Err (InvalidInput (lit "samples metadata column '" ++ name ++ lit "' contains null"))
  | Some v =>
      match ty, v with
      | UInt64, MInt z | UInt32, MInt z => Ok z
      | Int64, MInt z | Int32, MInt z =>
          if z <? 0
          then Err (InvalidInput (lit "samples metadata column '" ++ name ++ lit "' must be non-negative"))
          else Ok z
      | _, _ => Err (InvalidInput (lit "samples metadata column '" ++ name ++ lit "' must be an integer"))
      end
  end.

Definition read_f64_cell (ty : ArrowType) (c : cell) (name : pystr) : result pyfloat CacheError :=
  match c with
  | None => Err (InvalidInput (lit "samples metadata column '" ++ name ++ lit "' contains null"))
  | Some v =>
      match ty, v with
      | Float64, MFloat f | Float32, MFloat f => Ok f
      | UInt64, MInt z | UInt32, MInt z | Int64, MInt z | Int32, MInt z => Ok (round_f64 z 1)
      | _, _ => Err (InvalidInput (lit "samples metadata column '" ++ name ++ lit "' must be numeric"))
      end
  end.

Definition arrow_type (k : MetadataKind) : ArrowType :=
  match k with
  | KindBool => Boolean | KindInt => Int64 | KindFloat => Float64 | KindString => Utf8
  end.

Definition arrow_type_name (k : MetadataKind) : pystr :=
  match k with
  | KindBool => lit "Boolean" | KindInt => lit "Int64" | KindFloat => lit "Float64" | KindString => lit "Utf8"
  end.

(** Equivalent string layouts are accepted. *)
Definition metadata_update_type_matches (actual expected : ArrowType) : bool :=
  bool_decide (actual = expected) ||
  match actual, expected with LargeUtf8, Utf8 | Utf8View, Utf8 => true | _, _ => false end.

Fixpoint validate_required_metadata_columns (t : table) (schema : list (pystr * MetadataKind))
  : result unit CacheError :=
  match schema with
  | [] => Ok tt
  | (name, kind) :: rest =>
      match required_column t name with
      | Err e => Err e
      | Ok (_, ty) =>
          if metadata_update_type_matches ty (arrow_type kind)
          then validate_required_metadata_columns t rest
          else Err (InvalidInput (lit "samples metadata column '" ++ name ++
                                  lit "' must have Arrow type " ++ arrow_type_name kind))
      end
  end.

(** * Identities *)

(** Position of every cache identity; a repeated identity is refused. *)
Fixpoint cache_lookup_from (position : Z) (lookup : gmap Z Z) (caches : list LoadedCache)
  : result (gmap Z Z) CacheError :=
  match caches with
  | [] => Ok lookup
  | c :: rest =>
      match lookup !! cache_identity c with
      | Some _ => Err (InvalidCache (lit "duplicate cache_id " ++ dec (cache_identity c)))
      | None => cache_lookup_from (position + 1) (<[cache_identity c := position]> lookup) rest
      end
  end.

Definition cache_lookup (caches : list LoadedCache) : result (gmap Z Z) CacheError :=
  cache_lookup_from 0 ∅ caches.

Definition same_schema (first c : LoadedCache) : bool :=
  bool_decide (cache_schema c = cache_schema first).

Definition common_schema (caches : list LoadedCache) : result (list (pystr * MetadataKind)) CacheError :=
  match caches with
  | [] => Err (InvalidInput (lit "no caches provided"))
  | first :: rest =>
      if forallb (same_schema first) rest then Ok (cache_schema first)
      else Err (InvalidCache (lit "all caches must share the same metadata schema"))
  end.

(** [physical_index] of [samples_metadata.rs]: a row identity in the compact
    physical space. *)
Definition physical_index (caches : list LoadedCache) (offsets : list Z) (lookup : gmap Z Z)
    (cache_id sample_id : Z) : result Z CacheError :=
  let unknown := Err (InvalidInput (lit "unknown samples metadata row identity cache_id=" ++
                        dec cache_id ++ lit " sample_id=" ++ dec sample_id)) in
  match lookup !! cache_id with
  | None => unknown
  | Some index =>
      match caches !! Z.to_nat index with
      | None => unknown
      | Some c =>
          if sample_count c <=? sample_id then unknown
          else match offsets !! Z.to_nat index with
               | None => Err (InvalidCache (lit "cache offset is out of range"))
               | Some offset =>
                   match checked_add offset sample_id with
                   | Some p => Ok p
                   | None => Err (InvalidInput (lit "physical weight index overflowed usize"))
                   end
               end
      end
  end.

(** * Active tables *)

(** [ArrowMetadata::select]: a view through row positions. *)
Definition select_view (t : table) (selection : list Z) : result table CacheError :=
  if forallb (fun row => row <? num_rows t) selection
  then Ok (mk_table (table_columns t)
             (omap (fun row => table_rows t !! Z.to_nat row) selection))
  else Err (InvalidInput (lit "metadata selection is out of range")).

(** One row of the loop of [extract_metadata_arrow]. *)
Definition read_row (caches : list LoadedCache) (offsets : list Z) (lookup : gmap Z Z)
    (cid sid wid : nat * ArrowType) (row : list cell) : result (Z * pyfloat) CacheError :=
  match read_u64_cell cid.2 (cell_at row cid.1) (lit "cache_id") with
  | Err e => Err e
  | Ok cache_id =>
      match read_u64_cell sid.2 (cell_at row sid.1) (lit "sample_id") with
      | Err e => Err e
      | Ok sample_id =>
          match read_f64_cell wid.2 (cell_at row wid.1) (lit "weight") with
          | Err e => Err e
          | Ok w =>
              match physical_index caches offsets lookup cache_id sample_id with
              | Err e => Err e
              | Ok p => Ok (p, w)
              end
          end
      end
  end.

Fixpoint read_rows (caches : list LoadedCache) (offsets : list Z) (lookup : gmap Z Z)
    (cid sid wid : nat * ArrowType) (rows : list (list cell)) : result (list (Z * pyfloat)) CacheError :=
  match rows with
  | [] => Ok []
  | row :: rest =>
      match read_row caches offsets lookup cid sid wid row with
      | Err e => Err e
      | Ok x => match read_rows caches offsets lookup cid sid wid rest with
                | Err e => Err e
                | Ok xs => Ok (x :: xs)
                end
      end
  end.

Definition extract_metadata_arrow (t : table) (caches : list LoadedCache) (offsets : list Z)
    (lookup : gmap Z Z) (schema : list (pystr * MetadataKind)) : result ActiveTable CacheError :=
  if num_rows t =? 0
  then Err (InvalidInput (lit "metadata table must include at least one sample"))
  else match validate_required_metadata_columns t schema with
  | Err e => Err e
  | Ok _ =>
  match required_column t (lit "cache_id") with
  | Err e => Err e
  | Ok cid =>
  match required_column t (lit "sample_id") with
  | Err e => Err e
  | Ok sid =>
  match required_column t (lit "weight") with
  | Err e => Err e
  | Ok wid =>
  match read_rows caches offsets lookup cid sid wid (table_rows t) with
  | Err e => Err e
  | Ok xs =>
  match validate_weights (map snd xs) (num_rows t) with
  | Err e => Err e
  | Ok _ => Ok (mk_active (map fst xs) (map snd xs))
  end end end end end end.

(** * The original table *)

(** The public schema: identity, stored columns, weight. *)
Definition samples_metadata_fields (schema : list (pystr * MetadataKind)) : list (pystr * ArrowType) :=
  (lit "cache_id", UInt64) :: (lit "sample_id", UInt64) ::
  map (fun f => (f.1, arrow_type f.2)) schema ++ [(lit "weight", Float64)].

Definition original_row (c : LoadedCache) (sample_id : Z) (values : list MetadataValue) : list cell :=
  Some (MInt (cache_identity c)) :: Some (MInt sample_id) :: map Some values ++ [Some (MFloat (Finite 1 1))].

Definition cache_table_rows (c : LoadedCache) : list (list cell) :=
  imap (fun i values => original_row c (Z.of_nat i) values) (cache_rows c).

(** [build_samples_metadata]: every physical sample in order with weight one. *)
Definition build_samples_metadata (caches : list LoadedCache) (schema : list (pystr * MetadataKind)) : table :=
  mk_table (samples_metadata_fields schema) (concat (map cache_table_rows caches)).

(** * Slices of snapshots *)

(** [MetadataSnapshot]: a table and optional row positions. *)
Record MetadataSnapshot := mk_snapshot { snap_table : table; snap_selection : option (list Z) }.

Definition table_slice (t : table) (offset len : Z) : table :=
  mk_table (table_columns t) (slice offset len (table_rows t)).

Definition slice_metadata (s : MetadataSnapshot) (span : RowSpan) : outcome MetadataSnapshot :=
  let count := match snap_selection s with
               | None => num_rows (snap_table s)
               | Some sel => Z.of_nat (length sel)
               end in
  if (span_offset span <? 0) || (span_length span <? 0) || (count <? span_offset span + span_length span)
  then Raise (ValueError (lit "metadata span is outside the active table"))
  else match snap_selection s with
       | Some sel => Ret (mk_snapshot (snap_table s) (Some (slice (span_offset span) (span_length span) sel)))
       | None => Ret (mk_snapshot (table_slice (snap_table s) (span_offset span) (span_length span)) None)
       end.

(** * Identities are resolved one to one *)

Lemma cache_lookup_from_spec caches : forall position lookup0 lookup,
  cache_lookup_from position lookup0 caches = Ok lookup ->
  (forall id p, lookup0 !! id = Some p -> lookup !! id = Some p) /\
  (forall k c, caches !! k = Some c -> lookup !! cache_identity c = Some (position + Z.of_nat k)) /\
  (forall id p, lookup !! id = Some p -> lookup0 !! id = Some p \/
     exists k c, caches !! k = Some c /\ cache_identity c = id /\ p = position + Z.of_nat k).
Proof.
  induction caches as [|c caches IH]; intros position lookup0 lookup; simpl.
  { intros [= <-]. split_and!; [done| |by left]. intros k c. by rewrite lookup_nil. }
  destruct (lookup0 !! cache_identity c) eqn:E; [discriminate|]. intros H.
  apply IH in H as (Ha & Hb & Hc). split_and!.
  - intros id p Hp. apply Ha. rewrite lookup_insert_ne; congruence.
  - intros [|k] c' Hk; simpl in Hk.
    + injection Hk as <-. rewrite (Ha (cache_identity c) position) by (by rewrite lookup_insert_eq). f_equal. lia.
    + rewrite (Hb _ _ Hk). f_equal. lia.
  - intros id p Hp. destruct (Hc _ _ Hp) as [H0|(k & c' & Hk & Hid & ->)].
    + destruct (decide (cache_identity c = id)) as [<-|Hn].
      * rewrite lookup_insert_eq in H0. injection H0 as <-. right. exists 0%nat, c. split_and!; [done..|lia].
      * rewrite lookup_insert_ne in H0 by done. by left.
    + right. exists (S k), c'. split_and!; [done..|lia].
Qed.

Section Identities.
Context (caches : list LoadedCache) (lookup : gmap Z Z) (offsets : list Z).
Context (Hlookup : cache_lookup caches = Ok lookup).
Context (Hoffsets : cache_offsets_from 0 (map sample_count caches) = Ok offsets).

Lemma sample_counts_nonneg : Forall (Z.le 0) (map sample_count caches).
Proof. apply Forall_map, Forall_forall. intros c _. unfold sample_count. lia. Qed.

Lemma lookup_cache k c : caches !! k = Some c -> lookup !! cache_identity c = Some (Z.of_nat k).
Proof. apply (cache_lookup_from_spec caches 0 ∅ lookup Hlookup). Qed.

Lemma lookup_position id p : lookup !! id = Some p ->
  exists k c, caches !! k = Some c /\ cache_identity c = id /\ p = Z.of_nat k.
Proof.
  intros H. apply (cache_lookup_from_spec caches 0 ∅ lookup Hlookup) in H as [H|H]; [|exact H].
  by rewrite lookup_empty in H.
Qed.

(** The first physical index of cache [k]. *)
Definition cache_start (k : nat) : Z := Zsum (take k (map sample_count caches)).

Lemma cache_end_u64 k c : caches !! k = Some c -> cache_start k + sample_count c <= U64_MAX.
Proof.
  unfold cache_start. generalize Hoffsets. clear Hoffsets Hlookup.
  assert (G : forall caches k c next offsets, caches !! k = Some c ->
    cache_offsets_from next (map sample_count caches) = Ok offsets ->
    next + (Zsum (take k (map sample_count caches)) + sample_count c) <= U64_MAX).
  { clear. induction caches as [|c0 caches IH]; intros k c next offsets; simpl; [by rewrite lookup_nil|].
    unfold checked_add. destruct (Z.leb_spec (next + sample_count c0) U64_MAX); [|discriminate].
    destruct (cache_offsets_from (next + sample_count c0) _) eqn:E; [|discriminate].
    destruct k as [|k]; simpl; [intros [= ->] _; rewrite Zsum_nil; lia|].
    intros Hk _. rewrite Zsum_cons. pose proof (IH k c _ _ Hk E). lia. }
  intros Ho Hk. pose proof (G caches k c 0 offsets Hk Ho). lia.
Qed.

Lemma physical_index_ok k c j : caches !! k = Some c -> 0 <= j < sample_count c ->
  physical_index caches offsets lookup (cache_identity c) j = Ok (cache_start k + j).
Proof.
  intros Hk Hj. unfold physical_index. rewrite (lookup_cache _ _ Hk), Nat2Z.id, Hk.
  destruct (Z.leb_spec (sample_count c) j); [lia|].
  destruct (cache_offsets_spec _ 0 offsets ltac:(lia) sample_counts_nonneg Hoffsets) as [_ Hs].
  destruct (Hs k (sample_count c)) as (o & -> & ->).
  { change (map ?f ?l) with (f <$> l). by rewrite list_lookup_fmap, Hk. }
  unfold checked_add. fold (cache_start k). pose proof (cache_end_u64 k c Hk).
  destruct (Z.leb_spec (0 + cache_start k + j) U64_MAX); [|lia]. f_equal.
Qed.

Lemma locate_cache_sample k c j : caches !! k = Some c -> 0 <= j < sample_count c ->
  locate_physical_sample (map sample_count caches) offsets (cache_start k + j) = Ok (Z.of_nat k, j).
Proof.
  intros Hk Hj. apply (locate_physical_sample_inverse _ _ _ (sample_count c)); [|done| |done].
  - apply sample_counts_nonneg.
  - change (map ?f ?l) with (f <$> l). by rewrite list_lookup_fmap, Hk.
Qed.

Lemma physical_index_inv id sid p : 0 <= sid -> physical_index caches offsets lookup id sid = Ok p ->
  exists k c, caches !! k = Some c /\ cache_identity c = id /\ sid < sample_count c /\
    p = cache_start k + sid.
Proof.
  intros Hsid H. destruct (lookup !! id) as [pos|] eqn:E; [|by unfold physical_index in H; rewrite E in H].
  destruct (lookup_position _ _ E) as (k & c & Hk & <- & ->). exists k, c.
  destruct (decide (sid < sample_count c)) as [Hlt|Hge].
  - rewrite (physical_index_ok k c) in H by done. by injection H as <-.
  - unfold physical_index in H. rewrite E, Nat2Z.id, Hk in H.
    destruct (Z.leb_spec (sample_count c) sid); [discriminate|lia].
Qed.
End Identities.

(** Row identities and physical samples correspond one to one: the identity of
    a stored sample resolves to a physical index from which the reader finds
    exactly that sample again, and every identity that resolves is one of a stored
    sample, so unknown identities are always refused. *)
Theorem row_identity_roundtrip (caches : list LoadedCache) (lookup : gmap Z Z) (offsets : list Z)
    (Hl : cache_lookup caches = Ok lookup)
    (Ho : cache_offsets_from 0 (map sample_count caches) = Ok offsets) :
  (forall k c j, caches !! k = Some c -> 0 <= j < sample_count c ->
     exists p, physical_index caches offsets lookup (cache_identity c) j = Ok p /\
       locate_physical_sample (map sample_count caches) offsets p = Ok (Z.of_nat k, j)) /\
  (forall id j p, 0 <= j -> physical_index caches offsets lookup id j = Ok p ->
     exists k c, caches !! k = Some c /\ cache_identity c = id /\ j < sample_count c /\
       locate_physical_sample (map sample_count caches) offsets p = Ok (Z.of_nat k, j)).
Proof.
  split.
  - intros k c j Hk Hj. exists (cache_start caches k + j). split.
    + by apply physical_index_ok.
    + by apply locate_cache_sample with c.
  - intros id j p Hj H. destruct (physical_index_inv _ _ _ Hl Ho _ _ _ Hj H) as (k & c & Hk & Hid & Hlt & ->).
    exists k, c. split_and!; [done..|]. by apply locate_cache_sample with c.
Qed.

(** Three caches, one of them empty. *)
Definition three_caches : list LoadedCache :=
  [mk_cache 70 [] [[]; []] []; mk_cache 12 [] [] []; mk_cache 5 [] [[]; []; []] []].
Definition three_lookup : gmap Z Z := <[5:=2]> (<[12:=1]> (<[70:=0]> ∅)).

Lemma row_identity_roundtrip_witness :
  exists p, physical_index three_caches [0; 2; 2] three_lookup 5 1 = Ok p /\
    locate_physical_sample (map sample_count three_caches) [0; 2; 2] p = Ok (2, 1).
Proof.
  apply (proj1 (row_identity_roundtrip three_caches three_lookup [0; 2; 2]
    ltac:(vm_compute; reflexivity) ltac:(vm_compute; reflexivity)) 2%nat (mk_cache 5 [] [[]; []; []] []) 1).
  - reflexivity.
  - vm_compute. split; [discriminate|reflexivity].
Defined.

(** * Accepted tables *)

Lemma validate_ones k : forall index n, 0 <= n <= 2 ^ 53 ->
  validate_weights_from index (Finite n 1) (replicate k (Finite 1 1)) = Ok tt.
Proof.
  induction k as [|k IH]; intros index n Hn; [done|]. cbn [replicate validate_weights_from].
  change (float_isfinite (Finite 1 1)) with true. change (float_gt0 (Finite 1 1)) with true.
  cbn [negb orb]. unfold f64_add. rewrite !Z.mul_1_r. change (1 * 1)%positive with 1%positive.
  destruct (decide (n = 2 ^ 53)) as [->|Hlt].
  - replace (round_f64 (2 ^ 53 + 1) 1) with (Finite (2 ^ 53) 1) by (vm_compute; reflexivity).
    apply IH. lia.
  - rewrite round_f64_int by lia. apply IH. lia.
Qed.

Lemma column_by_name_at t i name ty : NoDup (map fst (table_columns t)) ->
  table_columns t !! i = Some (name, ty) -> column_by_name t name = Some (i, ty).
Proof.
  intros Hd Hi. unfold column_by_name.
  rewrite (proj2 (list_find_Some (fun c => c.1 = name) (table_columns t) i (name, ty))); [done|].
  split_and!; [done..|]. intros j y Hj Hlt Hy.
  assert (j = i); [|lia]. apply (NoDup_lookup _ j i name Hd);
    change (map fst ?l) with (fst <$> l); rewrite list_lookup_fmap.
  - rewrite Hj. simpl. by rewrite Hy.
  - by rewrite Hi.
Qed.

Lemma required_column_at t i name ty : NoDup (map fst (table_columns t)) ->
  table_columns t !! i = Some (name, ty) -> required_column t name = Ok (i, ty).
Proof. intros Hd Hi. unfold required_column. by rewrite (column_by_name_at _ _ _ _ Hd Hi). Qed.

Lemma read_rows_Forall2 caches offsets lookup cid sid wid rows xs :
  Forall2 (fun row x => read_row caches offsets lookup cid sid wid row = Ok x) rows xs ->
  read_rows caches offsets lookup cid sid wid rows = Ok xs.
Proof. induction 1 as [|row x rows xs E _ IH]; simpl; [done|]. by rewrite E, IH. Qed.

Lemma read_rows_inv caches offsets lookup cid sid wid rows : forall xs,
  read_rows caches offsets lookup cid sid wid rows = Ok xs ->
  Forall2 (fun row x => read_row caches offsets lookup cid sid wid row = Ok x) rows xs.
Proof.
  induction rows as [|row rows IH]; intros xs; simpl; [by intros [= <-]|].
  destruct (read_row _ _ _ _ _ _ row) eqn:E; [|discriminate].
  destruct (read_rows _ _ _ _ _ _ rows); [|discriminate]. intros [= <-]. constructor; auto.
Qed.

(** A stored schema whose columns have distinct names, none of them a name of the
    public identity and weight columns. *)
Definition plain_schema (schema : list (pystr * MetadataKind)) : Prop :=
  NoDup (lit "cache_id" :: lit "sample_id" :: map fst schema ++ [lit "weight"]).

Lemma fields_names schema : map fst (samples_metadata_fields schema) =
  lit "cache_id" :: lit "sample_id" :: map fst schema ++ [lit "weight"].
Proof. unfold samples_metadata_fields. simpl. by rewrite map_app, map_map. Qed.

Lemma fields_stored schema i name kind : schema !! i = Some (name, kind) ->
  samples_metadata_fields schema !! S (S i) = Some (name, arrow_type kind).
Proof.
  intros Hi. unfold samples_metadata_fields. simpl. apply lookup_app_l_Some.
  change (map ?f ?l) with (f <$> l). by rewrite list_lookup_fmap, Hi.
Qed.

Lemma fields_weight schema :
  samples_metadata_fields schema !! S (S (length schema)) = Some (lit "weight", Float64).
Proof.
  unfold samples_metadata_fields. simpl. rewrite lookup_app_r by (by rewrite length_map).
  by rewrite length_map, Nat.sub_diag.
Qed.

Lemma original_columns_accepted rows schema : plain_schema schema ->
  forall sub, sub ⊆ schema ->
  validate_required_metadata_columns (mk_table (samples_metadata_fields schema) rows) sub = Ok tt.
Proof.
  intros Hp. induction sub as [|[name kind] sub IH]; intros Hs; simpl; [done|].
  destruct (proj1 (list_elem_of_lookup _ _) (Hs (name, kind) ltac:(left))) as [i Hi].
  rewrite (required_column_at _ (S (S i)) name (arrow_type kind)).
  - unfold metadata_update_type_matches. rewrite bool_decide_true by done. simpl. apply IH.
    intros x Hx. apply Hs. by right.
  - simpl table_columns. by rewrite fields_names.
  - by apply fields_stored.
Qed.

Lemma cell_at_weight c i values : cell_at (original_row c i values) (S (S (length values))) =
  Some (MFloat (Finite 1 1)).
Proof.
  unfold cell_at, original_row. simpl. rewrite lookup_app_r by (by rewrite length_map).
  by rewrite length_map, Nat.sub_diag.
Qed.

Section Original.
Context (caches : list LoadedCache) (lookup : gmap Z Z) (offsets : list Z).
Context (schema : list (pystr * MetadataKind)).
Context (Hlookup : cache_lookup caches = Ok lookup).
Context (Hoffsets : cache_offsets_from 0 (map sample_count caches) = Ok offsets).
Context (Hrows : forall c values, c ∈ caches -> values ∈ cache_rows c -> length values = length schema).

Definition reads (row : list cell) (x : Z * pyfloat) : Prop :=
  read_row caches offsets lookup (0%nat, UInt64) (1%nat, UInt64) (S (S (length schema)), Float64) row = Ok x.

Lemma original_row_reads k c i values : caches !! k = Some c -> cache_rows c !! i = Some values ->
  reads (original_row c (Z.of_nat i) values) (cache_start caches k + Z.of_nat i, Finite 1 1).
Proof.
  intros Hk Hi. unfold reads, read_row. cbn [fst snd].
  change (cell_at (original_row c (Z.of_nat i) values) 0) with (Some (MInt (cache_identity c))).
  change (cell_at (original_row c (Z.of_nat i) values) 1) with (Some (MInt (Z.of_nat i))).
  rewrite <- (Hrows c values), cell_at_weight by (by eapply list_elem_of_lookup_2). simpl.
  rewrite (physical_index_ok _ _ _ Hlookup Hoffsets k c) by
    (done || apply lookup_lt_Some in Hi; unfold sample_count; lia). done.
Qed.

Lemma cache_rows_read k c : caches !! k = Some c ->
  Forall2 reads (cache_table_rows c)
    (map (fun p => (p, Finite 1 1)) (seqZ (cache_start caches k) (sample_count c))).
Proof.
  intros Hk. apply Forall2_same_length_lookup_2.
  { unfold cache_table_rows. rewrite length_imap, length_map, length_seqZ. unfold sample_count. lia. }
  intros i row x Hrow. change (map ?f ?l) with (f <$> l). rewrite list_lookup_fmap.
  unfold cache_table_rows in Hrow. rewrite list_lookup_imap in Hrow.
  apply fmap_Some in Hrow as (values & Hi & ->). pose proof (lookup_lt_Some _ _ _ Hi).
  rewrite lookup_seqZ_lt by (unfold sample_count; lia). intros [= <-].
  by apply original_row_reads.
Qed.

Lemma original_rows_read pre l : caches = pre ++ l ->
  Forall2 reads (concat (map cache_table_rows l))
    (map (fun p => (p, Finite 1 1))
       (seqZ (cache_start caches (length pre)) (Zsum (map sample_count l)))).
Proof.
  revert pre. induction l as [|c l IH]; intros pre E; simpl; [constructor|].
  rewrite Zsum_cons. assert (Hk : caches !! length pre = Some c) by (rewrite E; by apply list_lookup_middle).
  rewrite seqZ_app_lengths; [|unfold sample_count; lia|].
  2: { apply Zsum_nonneg, Forall_map, Forall_forall. intros x _. unfold sample_count. lia. }
  rewrite map_app. apply Forall2_app; [by apply cache_rows_read|].
  specialize (IH (pre ++ [c])). rewrite length_app in IH. simpl in IH.
  replace (cache_start caches (length pre) + sample_count c) with (cache_start caches (length pre + 1)%nat).
  - apply IH. by rewrite <- (assoc_L (++)).
  - unfold cache_start. rewrite E, !map_app. simpl map.
    rewrite take_app_ge by (rewrite length_map; lia). rewrite length_map.
    replace (length pre + 1 - length pre)%nat with 1%nat by lia. simpl.
    rewrite (take_app_le _ _ (length pre)) by (by rewrite length_map).
    rewrite (take_ge (map sample_count pre)) by (by rewrite length_map).
    rewrite Zsum_app, Zsum_cons, ?take_0. change (Zsum []) with 0. lia.
Qed.

Definition total_samples : Z := Zsum (map sample_count caches).

(** The original table is accepted as the whole population with weight one. *)
Lemma original_table_accepted : plain_schema schema -> 0 < total_samples ->
  extract_metadata_arrow (build_samples_metadata caches schema) caches offsets lookup schema =
  Ok (mk_active (seqZ 0 total_samples) (map (fun _ => Finite 1 1) (seqZ 0 total_samples))).
Proof.
  intros Hp Ht. unfold extract_metadata_arrow, build_samples_metadata.
  pose proof (original_rows_read [] caches eq_refl) as HR. change (cache_start caches (length [])) with 0 in HR.
  fold total_samples in HR. set (rows := concat (map cache_table_rows caches)) in *.
  assert (Hn : num_rows (mk_table (samples_metadata_fields schema) rows) = total_samples).
  { unfold num_rows. simpl. rewrite (Forall2_length _ _ _ HR), length_map, length_seqZ. lia. }
  rewrite Hn. destruct (Z.eqb_spec total_samples 0); [lia|].
  rewrite original_columns_accepted by done.
  assert (Hd : NoDup (map fst (table_columns (mk_table (samples_metadata_fields schema) rows)))).
  { simpl table_columns. by rewrite fields_names. }
  rewrite (required_column_at _ 0 (lit "cache_id") UInt64 Hd) by done.
  rewrite (required_column_at _ 1 (lit "sample_id") UInt64 Hd) by done.
  rewrite (required_column_at _ (S (S (length schema))) (lit "weight") Float64 Hd) by (by apply fields_weight).
  cbn [table_rows]. rewrite (read_rows_Forall2 _ _ _ _ _ _ _ _ HR). rewrite !map_map. simpl. rewrite map_id.
  unfold validate_weights. rewrite length_map, length_seqZ.
  destruct (Z.eqb_spec (Z.of_nat (Z.to_nat total_samples)) total_samples); [|lia]. simpl.
  rewrite map_const_replicate.
  by rewrite validate_ones by lia.
Qed.
End Original.

(** What an accepted table guarantees: one physical sample and one weight per
    row, at least one row, and weights the samplers accept. *)
Lemma extract_active_wf t caches offsets lookup schema a :
  extract_metadata_arrow t caches offsets lookup schema = Ok a ->
  length (physical_indices a) = length (table_rows t) /\
  length (row_weights a) = length (table_rows t) /\
  table_rows t <> [] /\ validate_weights (row_weights a) (num_rows t) = Ok tt.
Proof.
  unfold extract_metadata_arrow. intros H. repeat ocase H. injection H as <-.
  match goal with E : read_rows _ _ _ _ _ _ _ = Ok _ |- _ =>
    apply read_rows_inv, Forall2_length in E; rename E into El end.
  destruct (Z.eqb_spec (num_rows t) 0); [discriminate|]. unfold num_rows in *. simpl.
  rewrite !length_map. split_and!; [done|done|by intros E0; rewrite E0 in *|].
  by match goal with x : unit |- _ => destruct x end.
Qed.

(** * Slices *)

(** The rows seen through a snapshot. *)
Definition visible_rows (s : MetadataSnapshot) : list (list cell) :=
  match snap_selection s with
  | None => table_rows (snap_table s)
  | Some sel => omap (fun row => table_rows (snap_table s) !! Z.to_nat row) sel
  end.

Definition snapshot_count (s : MetadataSnapshot) : Z :=
  match snap_selection s with
  | None => num_rows (snap_table s)
  | Some sel => Z.of_nat (length sel)
  end.

Lemma slice_slice {A} (l : list A) o n m : 0 <= o -> 0 <= n -> 0 <= m ->
  slice o (n + m) l = slice o n l ++ slice (o + n) m l.
Proof.
  intros. unfold slice. rewrite !Z2Nat.inj_add, <- drop_drop by lia. by rewrite take_take_drop.
Qed.

Lemma tiles_slices {A} (l : list A) spans : forall offset, 0 <= offset -> tiles offset spans ->
  concat (map (fun s => slice s.1 s.2 l) spans) = slice offset (Zsum (map snd spans)) l.
Proof.
  induction spans as [|[o n] spans IH]; intros offset Ho; simpl; [done|].
  intros (-> & Hn & Ht). pose proof (tiles_nonneg _ _ Ht). rewrite Zsum_cons, slice_slice by done. f_equal.
  apply IH; [lia|done].
Qed.

Lemma slice_all {A} (l : list A) : slice 0 (Z.of_nat (length l)) l = l.
Proof. unfold slice. simpl. rewrite Nat2Z.id. apply firstn_all. Qed.

Lemma concat_omap {A B} (f : A -> option B) (ls : list (list A)) :
  concat (map (omap f) ls) = omap f (concat ls).
Proof. induction ls as [|l ls IH]; simpl; [done|]. by rewrite IH, omap_app. Qed.

Definition sliced (s : MetadataSnapshot) (span : RowSpan) : MetadataSnapshot :=
  match snap_selection s with
  | Some sel => mk_snapshot (snap_table s) (Some (slice (span_offset span) (span_length span) sel))
  | None => mk_snapshot (table_slice (snap_table s) (span_offset span) (span_length span)) None
  end.

Lemma slice_metadata_ok s span : 0 <= span_offset span -> 0 <= span_length span ->
  span_offset span + span_length span <= snapshot_count s ->
  slice_metadata s span = Ret (sliced s span).
Proof.
  intros Ho Hl Hc. unfold slice_metadata, sliced. unfold snapshot_count in Hc.
  destruct (Z.ltb_spec (span_offset span) 0); [lia|].
  destruct (Z.ltb_spec (span_length span) 0); [lia|]. simpl.
  destruct (snap_selection s); (zcase; [lia|done]).
Qed.

Lemma sliced_visible s spans : tiles 0 (map span_pair spans) ->
  Zsum (map snd (map span_pair spans)) = snapshot_count s ->
  concat (map (fun span => visible_rows (sliced s span)) spans) = visible_rows s.
Proof.
  intros Ht Hz. unfold visible_rows, sliced, snapshot_count, num_rows in *. destruct (snap_selection s) as [sel|]; simpl.
  - rewrite <- (map_map (fun span => slice (span_offset span) (span_length span) sel) (omap _)), concat_omap.
    f_equal. rewrite <- (map_map span_pair (fun p => slice p.1 p.2 sel)).
    by rewrite (tiles_slices _ _ 0), Hz, slice_all by done.
  - rewrite <- (map_map span_pair (fun p => slice p.1 p.2 (table_rows (snap_table s)))).
    by rewrite (tiles_slices _ _ 0), Hz, slice_all by done.
Qed.

(** Slicing metadata by the spans of a partition loses, repeats and reorders
    nothing: every slice is accepted and the visible rows of the slices, in
    order, are the visible rows of the whole snapshot, selected or not; and a
    slice is refused exactly when its span leaves the active table. *)
Theorem slice_metadata_partition (s : MetadataSnapshot) (parts : Z)
    (Hs : is_u64 (snapshot_count s)) (Hp : 0 < parts <= U64_MAX) :
  (exists pieces,
     traverse (fun i => span ← partition_rows (PInt (snapshot_count s)) (PInt parts) (PInt i);
                        slice_metadata s span) (seqZ 0 parts) = Ret pieces /\
     concat (map visible_rows pieces) = visible_rows s) /\
  (forall span, returns (slice_metadata s span) <->
     0 <= span_offset span /\ 0 <= span_length span /\
     span_offset span + span_length span <= snapshot_count s).
Proof.
  assert (Hn : 0 <= snapshot_count s) by (apply Hs).
  split.
  - exists (map (fun i => sliced s (row_span (snapshot_count s) parts i)) (seqZ 0 parts)). split.
    + apply traverse_ret. intros i Hi%elem_of_seqZ.
      rewrite partition_rows_ok by (done || (split; lia) || lia). simpl.
      pose proof (row_span_u64 _ parts i Hs ltac:(lia) ltac:(lia)) as [Hl _].
      apply slice_metadata_ok; [apply row_span_offset; lia|done|by apply row_span_end; lia].
    + rewrite map_map, <- (map_map (row_span (snapshot_count s) parts) (fun span => visible_rows (sliced s span))).
      destruct (row_span_tiles (snapshot_count s) parts Hn ltac:(lia)) as [Ht Hz].
      apply sliced_visible; [done|]. rewrite <- Hz at 2. f_equal. exact (map_map span_pair snd _).
  - intros span. split.
    + intros [x H]. unfold slice_metadata in H. fold (snapshot_count s) in H. ocase H. bools. lia.
    + intros (Ho & Hl & Hc). eexists. by apply slice_metadata_ok.
Qed.

Lemma slice_metadata_partition_witness :
  concat (map visible_rows
    (match traverse (fun i => span ← partition_rows (PInt 3) (PInt 2) (PInt i);
                     slice_metadata (mk_snapshot (mk_table [] [[]; [None]]) (Some [1; 0; 1])) span) (seqZ 0 2) with
     | Ret pieces => pieces | Raise _ => [] end)) = [[None]; []; [None]].
Proof.
  destruct (slice_metadata_partition (mk_snapshot (mk_table [] [[]; [None]]) (Some [1; 0; 1])) 2
    ltac:(split; vm_compute; discriminate) ltac:(split; [reflexivity|vm_compute; discriminate])) as [(pieces & E & H) _].
  change (snapshot_count _) with 3 in E. rewrite E. exact H.
Defined.

(** A stored column named like the public weight column shadows it: the exported
    original table of such a cache reads back with the stored values as sampling
    weights, although every sample of the original population has weight one. *)
Lemma stored_weight_shadows (offsets := [0]) (lookup := {[ 7 := 0 ]} : gmap Z Z)
    (schema := [(lit "weight", KindFloat)])
    (caches := [mk_cache 7 [(lit "weight", KindFloat)] [[MFloat (Finite 5 1)]; [MFloat (Finite 1 2)]] []]) :
  extract_metadata_arrow (build_samples_metadata caches schema) caches offsets lookup schema =
  Ok (mk_active [0; 1] [Finite 5 1; Finite 1 2]).
Proof. vm_compute. reflexivity. Qed.
