(* ===== verification/FileSystem.v ===== *)
(** Directories and files as the native library uses them: the calls of [std::fs] and
    [std::io] behind [src/src/dataset_rt/storage.rs] and [writer.rs], each of which may
    fail at any time, and a small program logic for sequences of such calls. *)
From stdpp Require Import base tactics list numbers strings gmap.
From S2P Require Import Prelude Collections Records Native.
Open Scope Z_scope.

(** * Native results *)

Definition CacheResult (A : Type) : Type := result A CacheError.

#[export] Instance cache_ret : MRet CacheResult := fun A a => Ok a.
#[export] Instance cache_bind : MBind CacheResult := fun A B f m =>
  match m with Ok a => f a | Err e => Err e end.

(** [option.ok_or(e)]. *)
Definition ok_or {A : Type} (o : option A) (e : CacheError) : CacheResult A :=
  match o with Some a => Ok a | None => Err e end.

(** [if !cond { return Err(e) }]. *)
Definition ensure (cond : bool) (e : CacheError) : CacheResult unit := if cond then Ok tt else Err e.

(** [l.iter().map(f).collect::<Result<Vec<_>, _>>()]: the first error wins. *)
Fixpoint try_collect {A B : Type} (f : A -> CacheResult B) (l : list A) : CacheResult (list B) :=
  match l with
  | [] => Ok []
  | x :: r => y ← f x; ys ← try_collect f r; Ok (y :: ys)
  end.

Lemma cache_bind_ok {A B : Type} (m : CacheResult A) (k : A -> CacheResult B) b :
  m ≫= k = Ok b -> exists a, m = Ok a /\ k a = Ok b.
Proof. destruct m; simpl; [eauto|discriminate]. Qed.

Lemma Ok_inj {A : Type} (a b : A) : @Ok A CacheError a = Ok b -> a = b.
Proof. by intros [= ->]. Qed.

Lemma ensure_ok cond e u : ensure cond e = Ok u -> cond = true.
Proof. by destruct cond. Qed.

Lemma try_collect_ok {A B : Type} (f : A -> CacheResult B) l : forall ys,
  try_collect f l = Ok ys <-> Forall2 (fun x y => f x = Ok y) l ys.
Proof.
  induction l as [|x l IH]; intros ys; simpl.
  - split; [intros [= <-]; constructor|by inversion 1].
  - split.
    + intros (y & Hy & H)%cache_bind_ok. apply cache_bind_ok in H as (r & Hr & [= <-]).
      constructor; [done|]. by apply IH.
    + inversion 1 as [|? y ? r Hy Hr]; subst. unfold mbind, cache_bind. rewrite Hy.
      apply IH in Hr. by rewrite Hr.
Qed.

Lemma try_collect_err {A B : Type} (P : CacheError -> Prop) (f : A -> CacheResult B) l e :
  (forall x e, f x = Err e -> P e) -> try_collect f l = Err e -> P e.
Proof.
  intros Hf. induction l as [|x l IH]; simpl; [discriminate|].
  destruct (f x) as [y|e'] eqn:E; simpl; [|intros [= <-]; by eapply Hf].
  destruct (try_collect f l); simpl; [discriminate|]. intros [= <-]. by apply IH.
Qed.

(** Split a successful sequence of native calls into its steps. *)
Ltac crack H :=
  repeat match type of H with
  | @mbind CacheResult _ _ _ _ _ = Ok _ =>
      let a := fresh "a" in let Ha := fresh "Ha" in
      apply cache_bind_ok in H as (a & Ha & H)
  end.

(** * Stores *)

Inductive node :=
| Directory
| RegularFile (bytes : list Z).

Abbreviation store := (gmap path node).

(** A failing call: its message, what a failing write left in its file, and the entries
    that survive a failing recursive removal or were made by a failing recursive
    creation. *)
Record fault := mk_fault {
  fault_message : pystr;
  fault_partial : list Z;
  fault_kept : path -> bool }.

(** Entries by path, the faults of the calls to come, and the length the platform
    reports for a directory. *)
Record disk := mk_disk {
  d_store : store;
  d_faults : list (option fault);
  d_directory_len : Z }.

(** A disk on which no call fails. *)
Definition reliable (d : disk) : Prop := Forall (fun f => f = None) (d_faults d).

Definition io (A : Type) : Type := disk -> CacheResult A * disk.

#[export] Instance io_ret : MRet io := fun A a d => (Ok a, d).
#[export] Instance io_bind : MBind io := fun A B f m d =>
  match m d with (Ok a, d) => f a d | (Err e, d) => (Err e, d) end.

(** A result as a computation, and a computation as its result. *)
Definition io_result {A : Type} (r : CacheResult A) : io A := fun d => (r, d).
Definition attempt {A : Type} (m : io A) : io (CacheResult A) := fun d =>
  let '(r, d) := m d in (Ok r, d).

(** One call: it fails when the next fault says so. *)
Definition perform {A : Type} (effect : store -> CacheResult (A * store))
    (broken : fault -> store -> store) : io A := fun d =>
  match d_faults d with
  | Some f :: rest =>
      (Err (IoError (fault_message f)), mk_disk (broken f (d_store d)) rest (d_directory_len d))
  | faults =>
      match effect (d_store d) with
      | Ok (a, s) => (Ok a, mk_disk s (tail faults) (d_directory_len d))
      | Err e => (Err e, mk_disk (d_store d) (tail faults) (d_directory_len d))
      end
  end.

(** A call that changes nothing when it fails. *)
Definition call {A : Type} (effect : store -> CacheResult (A * store)) : io A := perform effect (fun _ s => s).

(** * Calls *)

Definition not_found : CacheError := IoError (lit "No such file or directory (os error 2)").
Definition not_a_directory : CacheError := IoError (lit "Not a directory (os error 20)").
Definition is_a_directory : CacheError := IoError (lit "Is a directory (os error 21)").
Definition file_exists : CacheError := IoError (lit "File exists (os error 17)").
Definition directory_not_empty : CacheError := IoError (lit "Directory not empty (os error 39)").
Definition invalid_argument : CacheError := IoError (lit "Invalid argument (os error 22)").

(** [path.exists()]. *)
Definition exists_path (p : path) : io bool := fun d => (Ok (bool_decide (is_Some (d_store d !! p))), d).

(** The parent of an entry is a directory; the root always is one. *)
Definition parent_directory (s : store) (p : path) : bool :=
  match p with
  | [] => false
  | _ => match removelast p with
         | [] => true
         | q => match s !! q with Some Directory => true | _ => false end
         end
  end.

(** The nonempty prefixes of a path, from the root on. *)
Definition ancestors (p : path) : list path := map (fun n => take n p) (seq 1 (length p)).

(** [fs::create_dir_all(p)]. *)
Fixpoint make_directories (ps : list path) (s : store) : CacheResult store :=
  match ps with
  | [] => Ok s
  | p :: rest =>
      match s !! p with
      | Some Directory => make_directories rest s
      | Some (RegularFile _) => Err (match rest with [] => file_exists | _ => not_a_directory end)
      | None => make_directories rest (<[p := Directory]> s)
      end
  end.

Definition some_directories (made : path -> bool) (ps : list path) (s : store) : store :=
  foldr (fun p s => match s !! p with
                    | None => if made p then <[p := Directory]> s else s
                    | Some _ => s
                    end) s ps.

Definition create_dir_all (p : path) : io unit :=
  perform (fun s => s ← make_directories (ancestors p) s; Ok (tt, s))
    (fun f s => some_directories (fault_kept f) (ancestors p) s).

(** [File::create(p)]. *)
Definition create_file (p : path) : io unit :=
  call (fun s =>
    if negb (parent_directory s p) then Err not_found
    else match s !! p with
         | Some Directory => Err is_a_directory
         | _ => Ok (tt, <[p := RegularFile []]> s)
         end).

(** The bytes a buffered writer holds reach its file with [flush]. *)
Definition append_file (p : path) (bytes : list Z) : io unit :=
  perform (fun s => match s !! p with
                    | Some (RegularFile old) => Ok (tt, <[p := RegularFile (old ++ bytes)]> s)
                    | _ => Err not_found
                    end)
    (fun f s => match s !! p with
                | Some (RegularFile old) => <[p := RegularFile (old ++ fault_partial f)]> s
                | _ => s
                end).

(** [File::open(p)] and its whole content. *)
Definition read_file (p : path) : io (list Z) :=
  call (fun s => match s !! p with
                 | Some (RegularFile bytes) => Ok (bytes, s)
                 | Some Directory => Err is_a_directory
                 | None => Err not_found
                 end).

(** [fs::metadata(p)?.len()]. *)
Definition metadata_len (p : path) : io Z := fun d =>
  call (fun s => match s !! p with
                 | Some (RegularFile bytes) => Ok (Z.of_nat (length bytes), s)
                 | Some Directory => Ok (d_directory_len d, s)
                 | None => Err not_found
                 end) d.

(** Entries at or below a path. *)
Definition below (p q : path) : Prop := p `prefix_of` q.
#[export] Instance below_dec p q : Decision (below p q) := _.
#[global] Typeclasses Opaque below.

(** [fs::remove_dir_all(p)]. *)
Definition remove_dir_all (p : path) : io unit :=
  perform (fun s => match s !! p with
                    | Some Directory => Ok (tt, filter (fun e => ~ below p e.1) s)
                    | Some (RegularFile _) => Err not_a_directory
                    | None => Err not_found
                    end)
    (fun f s => filter (fun e => ~ below p e.1 \/ fault_kept f e.1 = true) s).

(** The entries at or below [p], moved to [q]. *)
Definition moved (p q : path) (s : store) : store :=
  list_to_map (map (fun e => (q ++ drop (length p) e.1, e.2)) (map_to_list (filter (fun e => below p e.1) s))).

Definition has_children (q : path) (s : store) : bool :=
  existsb (fun e => bool_decide (below q e.1 /\ e.1 <> q)) (map_to_list s).

(** [fs::rename(p, q)] of a directory. *)
Definition rename_directory (p q : path) : io unit :=
  call (fun s =>
    match s !! p with
    | None => Err not_found
    | Some (RegularFile _) => Err not_a_directory
    | Some Directory =>
        if negb (parent_directory s p) then Err not_found
        else if bool_decide (below p q) then Err invalid_argument
        else if negb (parent_directory s q) then Err not_found
        else match s !! q with
             | Some (RegularFile _) => Err not_a_directory
             | Some Directory =>
                 if has_children q s then Err directory_not_empty
                 else Ok (tt, moved p q s ∪ filter (fun e => ~ below p e.1 /\ ~ below q e.1) s)
             | None => Ok (tt, moved p q s ∪ filter (fun e => ~ below p e.1 /\ ~ below q e.1) s)
             end
    end).

(** * Reasoning about calls *)

#[export] Remove Hints finite.finite_countable : typeclass_instances.
Implicit Types (s : store) (p q k r : path).

(** From a disk with store [s], a normal end satisfies [Q] and a failure [X]; in the mode
    [rel] no call fails by a fault. *)
Definition runs (rel : bool) (s : store) {A : Type} (m : io A)
    (Q : A -> store -> Prop) (X : CacheError -> store -> Prop) : Prop :=
  forall d, d_store d = s -> (rel = true -> reliable d) ->
  match m d with
  | (Ok a, d') => Q a (d_store d') /\ (rel = true -> reliable d')
  | (Err e, d') => X e (d_store d') /\ (rel = true -> reliable d')
  end.

Section Runs.
Context (rel : bool).

Lemma runs_ret s {A : Type} (a : A) (Q : A -> store -> Prop) X : Q a s -> runs rel s (mret a) Q X.
Proof. intros HQ d Hs Hr. simpl. by rewrite Hs. Qed.

Lemma runs_result s {A : Type} (r : CacheResult A) (Q : A -> store -> Prop) X :
  match r with Ok a => Q a s | Err e => X e s end -> runs rel s (io_result r) Q X.
Proof. intros HQ d Hs Hr. unfold io_result. destruct r; by rewrite Hs. Qed.

Lemma runs_bind s {A B : Type} (m : io A) (k : A -> io B) Q X :
  runs rel s m (fun a s' => runs rel s' (k a) Q X) X -> runs rel s (m ≫= k) Q X.
Proof.
  intros Hm d Hs Hr. unfold mbind, io_bind. specialize (Hm d Hs Hr).
  destruct (m d) as [[a|e] d']; [|done]. destruct Hm as [Hk Hr']. by apply Hk.
Qed.

Lemma runs_attempt s {A : Type} (m : io A) (Q : CacheResult A -> store -> Prop) X :
  runs rel s m (fun a s' => Q (Ok a) s') (fun e s' => Q (Err e) s') -> runs rel s (attempt m) Q X.
Proof.
  intros Hm d Hs Hr. unfold attempt. specialize (Hm d Hs Hr). by destruct (m d) as [[a|e] d'].
Qed.

Lemma runs_weaken s {A : Type} (m : io A) (Q Q' : A -> store -> Prop) (X X' : CacheError -> store -> Prop) :
  runs rel s m Q X -> (forall a s', Q a s' -> Q' a s') -> (forall e s', X e s' -> X' e s') -> runs rel s m Q' X'.
Proof.
  intros Hm HQ HX d Hs Hr. specialize (Hm d Hs Hr). destruct (m d) as [[a|e] d'], Hm; auto.
Qed.

Lemma runs_perform s {A : Type} (effect : store -> CacheResult (A * store)) broken Q X :
  (rel = false -> forall f, X (IoError (fault_message f)) (broken f s)) ->
  match effect s with Ok (a, s') => Q a s' | Err e => X e s end ->
  runs rel s (perform effect broken) Q X.
Proof.
  intros HX HQ d Hs Hr. unfold perform. rewrite Hs. unfold reliable in *.
  destruct (d_faults d) as [|[f|] rest].
  - destruct (effect s) as [[a s']|e]; simpl; auto.
  - destruct rel.
    + specialize (Hr eq_refl). by inversion Hr.
    + simpl. split; [auto|done].
  - destruct (effect s) as [[a s']|e]; simpl; (split; [done|]); intros H; specialize (Hr H); by inversion Hr.
Qed.

Lemma runs_exists s p (Q : bool -> store -> Prop) X :
  Q (bool_decide (is_Some (s !! p))) s -> runs rel s (exists_path p) Q X.
Proof. intros HQ d Hs Hr. unfold exists_path. simpl. by rewrite Hs. Qed.

Lemma runs_metadata_len s p bytes (Q : Z -> store -> Prop) (X : CacheError -> store -> Prop) :
  s !! p = Some (RegularFile bytes) ->
  (rel = false -> forall e, X e s) -> Q (Z.of_nat (length bytes)) s -> runs rel s (metadata_len p) Q X.
Proof.
  intros Hp HX HQ d Hs Hr. unfold metadata_len. revert d Hs Hr.
  assert (H : forall len, runs rel s (call (fun s => match s !! p with
     | Some (RegularFile bytes) => Ok (Z.of_nat (length bytes), s)
     | Some Directory => Ok (len, s) | None => Err not_found end)) Q X).
  { intros len. apply runs_perform; [auto|]. by rewrite Hp. }
  intros d Hs Hr. by apply H.
Qed.

Lemma runs_read_file s p bytes (Q : list Z -> store -> Prop) (X : CacheError -> store -> Prop) :
  s !! p = Some (RegularFile bytes) ->
  (rel = false -> forall e, X e s) -> Q bytes s -> runs rel s (read_file p) Q X.
Proof. intros Hp HX HQ. apply runs_perform; [auto|]. by rewrite Hp. Qed.

Lemma runs_create_file s p (Q : unit -> store -> Prop) (X : CacheError -> store -> Prop) :
  parent_directory s p = true -> s !! p <> Some Directory ->
  (rel = false -> forall e, X e s) -> Q tt (<[p := RegularFile []]> s) -> runs rel s (create_file p) Q X.
Proof.
  intros Hd Hp HX HQ. apply runs_perform; [auto|]. rewrite Hd. simpl. by destruct (s !! p) as [[]|].
Qed.

Lemma runs_append_file s p old bytes (Q : unit -> store -> Prop) (X : CacheError -> store -> Prop) :
  s !! p = Some (RegularFile old) ->
  (rel = false -> forall e partial, X e (<[p := RegularFile (old ++ partial)]> s)) ->
  Q tt (<[p := RegularFile (old ++ bytes)]> s) -> runs rel s (append_file p bytes) Q X.
Proof. intros Hp HX HQ. apply runs_perform; rewrite Hp; auto. Qed.
End Runs.

(** ** Moving a directory *)

Lemma lookup_moved p q s r : moved p q s !! (q ++ r) = s !! (p ++ r).
Proof.
  apply option_eq. intros n. unfold moved. set (l := map_to_list _).
  assert (Hl : NoDup (map (fun e => (q ++ drop (length p) e.1, e.2)) l).*1).
  { change (map ?f ?l) with (f <$> l). rewrite <- list_fmap_compose.
    apply NoDup_fmap_2_strong; [|apply NoDup_map_to_list].
    intros [k1 n1] [k2 n2] H1 H2 E. simpl in E. apply (inj (app q)) in E.
    apply elem_of_map_to_list, map_lookup_filter_Some in H1 as [H1 [r1 E1]], H2 as [H2 [r2 E2]].
    simpl in *. subst k1 k2. rewrite !drop_app_length in E. subst. by simplify_eq. }
  rewrite <- elem_of_list_to_map by done. change (map ?f ?l) with (f <$> l).
  rewrite list_elem_of_fmap. split.
  - intros ([k n'] & [= E ->] & He). apply elem_of_map_to_list, map_lookup_filter_Some in He as [He [r' Er]].
    simpl in *. subst k. rewrite drop_app_length in E. by apply (inj (app q)) in E as ->.
  - intros Hn. exists (p ++ r, n). simpl. rewrite drop_app_length. split; [done|].
    apply elem_of_map_to_list, map_lookup_filter_Some. split; [done|]. by apply prefix_app_r.
Qed.

Lemma lookup_moved_outside p q s k : ~ below q k -> moved p q s !! k = None.
Proof.
  intros Hk. apply not_elem_of_list_to_map_1. change (map ?f ?l) with (f <$> l).
  rewrite <- list_fmap_compose, list_elem_of_fmap. intros ([k' n] & -> & _). apply Hk. by exists (drop (length p) k').
Qed.

Lemma below_app p r : below p (p ++ r).
Proof. by exists r. Qed.
#[export] Hint Resolve below_app : drt.

(** After a move the entries of the source are those of the target, and entries outside
    of both are untouched. *)
Definition renamed (p q : path) (s : store) : store :=
  moved p q s ∪ filter (fun e => ~ below p e.1 /\ ~ below q e.1) s.

Lemma lookup_renamed p q s r : renamed p q s !! (q ++ r) = s !! (p ++ r).
Proof.
  unfold renamed. rewrite lookup_union, lookup_moved, map_lookup_filter_None_2.
  - by destruct (s !! (p ++ r)).
  - right. intros n _ [_ H]. apply H, below_app.
Qed.

Lemma lookup_renamed_outside p q s k : ~ below p k -> ~ below q k -> renamed p q s !! k = s !! k.
Proof.
  intros Hp Hq. unfold renamed. rewrite lookup_union, lookup_moved_outside by done.
  destruct (s !! k) as [n|] eqn:E.
  - rewrite (proj2 (map_lookup_filter_Some _ _ _ _)) by done. done.
  - rewrite map_lookup_filter_None_2 by (by left). done.
Qed.

Lemma lookup_renamed_source p q s k : below p k -> ~ below q k -> renamed p q s !! k = None.
Proof.
  intros Hp Hq. unfold renamed. rewrite lookup_union, lookup_moved_outside by done.
  rewrite map_lookup_filter_None_2; [done|]. right. by intros n _ [H _].
Qed.

Lemma runs_rename rel s p q (Q : unit -> store -> Prop) (X : CacheError -> store -> Prop) :
  s !! p = Some Directory -> s !! q = None -> ~ below p q ->
  parent_directory s p = true -> parent_directory s q = true ->
  (rel = false -> forall e, X e s) -> Q tt (renamed p q s) -> runs rel s (rename_directory p q) Q X.
Proof.
  intros Hp Hq Hb Hd1 Hd2 HX HQ. apply runs_perform; [auto|].
  rewrite Hp, Hd1, bool_decide_false by done. simpl. by rewrite Hd2, Hq.
Qed.

Lemma parent_directory_app s p n : p <> [] -> parent_directory s (p ++ [n]) = true <-> s !! p = Some Directory.
Proof.
  intros Hp. unfold parent_directory. rewrite removelast_last. destruct p as [|x p]; [done|]. simpl.
  by destruct (s !! (x :: p)) as [[]|].
Qed.

(** A rename that succeeds: nothing was at the target but an empty directory. *)
Lemma rename_effect p q s u s' : 
  (match s !! p with
   | None => Err not_found
   | Some (RegularFile _) => Err not_a_directory
   | Some Directory =>
       if negb (parent_directory s p) then Err not_found
       else if bool_decide (below p q) then Err invalid_argument
       else if negb (parent_directory s q) then Err not_found
       else match s !! q with
            | Some (RegularFile _) => Err not_a_directory
            | Some Directory => if has_children q s then Err directory_not_empty else Ok (tt, renamed p q s)
            | None => Ok (tt, renamed p q s)
            end
   end) = Ok (u, s') ->
  s' = renamed p q s /\ s !! p = Some Directory /\ parent_directory s p = true /\
  (s !! q = None \/ has_children q s = false).
Proof.
  destruct (s !! p) as [[]|]; try discriminate. destruct (parent_directory s p); [|discriminate]. simpl.
  case_bool_decide; [discriminate|]. destruct (parent_directory s q); [|discriminate]. simpl.
  destruct (s !! q) as [[]|]; try discriminate; [destruct (has_children q s); [discriminate|]|];
    intros [= <- <-]; auto.
Qed.

Lemma has_children_true q s k n : s !! k = Some n -> below q k -> k <> q -> has_children q s = true.
Proof.
  intros Hk Hb Hne. apply existsb_exists. exists (k, n). rewrite bool_decide_true by done.
  split; [|done]. by apply list_elem_of_In, elem_of_map_to_list.
Qed.

(** ** Removing a directory *)

Definition removed (p : path) (s : store) : store := filter (fun e => ~ below p e.1) s.

Lemma lookup_removed p s k : removed p s !! k = if decide (below p k) then None else s !! k.
Proof.
  unfold removed. destruct (decide (below p k)) as [H|H].
  - apply map_lookup_filter_None_2. right. by intros n _ Hn.
  - destruct (s !! k) eqn:E; [by apply map_lookup_filter_Some|]. apply map_lookup_filter_None_2. by left.
Qed.

(** ** Creating directories *)

Lemma make_directories_ok ps : forall s,
  (forall p, p ∈ ps -> forall b, s !! p <> Some (RegularFile b)) ->
  exists s', make_directories ps s = Ok s' /\
    (forall k, s' !! k = if decide (k ∈ ps) then Some Directory else s !! k).
Proof.
  induction ps as [|p ps IH]; intros s Hs; cbn [make_directories].
  - exists s. split; [done|]. intros k. by case_decide as H; [apply elem_of_nil in H|].
  - assert (Hrec : forall s1, (forall q b, s1 !! q = Some (RegularFile b) -> s !! q = Some (RegularFile b)) ->
      s1 !! p = Some Directory -> (forall k, k <> p -> s1 !! k = s !! k) ->
      exists s', make_directories ps s1 = Ok s' /\
        (forall k, s' !! k = if decide (k ∈ p :: ps) then Some Directory else s !! k)).
    { intros s1 H1 Hp Hk. destruct (IH s1) as (s' & E & H).
      { intros q Hq b Hb. apply H1 in Hb. eapply Hs; [right|]; done. }
      exists s'. split; [done|]. intros k. rewrite H. destruct (decide (k = p)) as [->|Hne].
      - rewrite Hp. destruct (decide (p ∈ p :: ps)) as [_|Hn]; [by destruct (decide _)|]. destruct Hn. left.
      - rewrite Hk by done. destruct (decide (k ∈ ps)) as [Hi|Hi], (decide (k ∈ p :: ps)) as [Hj|Hj]; try done.
        + destruct Hj. by right.
        + apply elem_of_cons in Hj. by destruct Hj. }
    destruct (s !! p) as [[|b]|] eqn:E.
    + apply Hrec; auto.
    + exfalso. eapply Hs; [left|done].
    + apply Hrec; [|apply lookup_insert_eq|intros k Hk; by apply lookup_insert_ne].
      intros q b. destruct (decide (q = p)) as [->|]; [by rewrite lookup_insert_eq|by rewrite lookup_insert_ne].
Qed.

Lemma elem_of_ancestors p k : k ∈ ancestors p <-> below k p /\ k <> [].
Proof.
  unfold ancestors. change (map ?f ?l) with (f <$> l). rewrite list_elem_of_fmap. split.
  - intros (n & -> & Hn%elem_of_seq). split; [apply prefix_take|].
    intros E. apply (f_equal length) in E. rewrite length_take in E. simpl in E. lia.
  - intros [[r ->] Hk]. exists (length k). split; [by rewrite take_app_length|].
    apply elem_of_seq. rewrite length_app. destruct k; [done|]. simpl. lia.
Qed.

(** Some of the directories on the way to [p] were created. *)
Definition grown (p : path) (s s' : store) : Prop :=
  forall k, s' !! k = s !! k \/ (below k p /\ k <> [] /\ s !! k = None /\ s' !! k = Some Directory).

Lemma some_directories_grown made p s : grown p s (some_directories made (ancestors p) s).
Proof.
  assert (Ha : forall k, k ∈ ancestors p -> below k p /\ k <> []) by (intros k; apply elem_of_ancestors).
  revert Ha. generalize (ancestors p) as ps. induction ps as [|a ps IH]; intros Ha k; [by left|].
  cbn [some_directories foldr]. change (foldr _ s ps) with (some_directories made ps s).
  specialize (IH ltac:(intros; apply Ha; by right)).
  destruct (some_directories made ps s !! a) eqn:E; [apply IH|]. destruct (made a); [|apply IH].
  destruct (decide (k = a)) as [->|Hne]; [|rewrite lookup_insert_ne by done; apply IH].
  rewrite lookup_insert_eq. destruct (Ha a ltac:(left)). destruct (IH a) as [Hs|(_ & _ & _ & Hs)]; [|congruence].
  right. split_and!; congruence.
Qed.

Lemma runs_create_dir_all rel s p (Q : unit -> store -> Prop) (X : CacheError -> store -> Prop) :
  (forall k b, below k p -> s !! k <> Some (RegularFile b)) ->
  (rel = false -> forall e s', grown p s s' -> X e s') ->
  (forall s', (forall k, s' !! k = if decide (below k p /\ k <> []) then Some Directory else s !! k) -> Q tt s') ->
  runs rel s (create_dir_all p) Q X.
Proof.
  intros Hs HX HQ. apply runs_perform; [intros Hr f; by apply HX, some_directories_grown|].
  destruct (make_directories_ok (ancestors p) s) as (s' & E & H).
  { intros k [Hk _]%elem_of_ancestors b. by apply Hs. }
  rewrite E. simpl. apply HQ. intros k. rewrite H.
  destruct (decide (k ∈ ancestors p)) as [Hi|Hi]; rewrite elem_of_ancestors in Hi; by destruct (decide _).
Qed.

(** * Relations every call preserves *)

(** Whatever happens from [s] on, the store moves along [Rel]; a normal end satisfies
    [P] too. *)
Definition keeps (Rel : store -> store -> Prop) (s : store) {A : Type} (P : A -> store -> Prop) (m : io A) : Prop :=
  runs false s m (fun a s' => Rel s s' /\ P a s') (fun _ s' => Rel s s').

Section Keeps.
Context (Rel : store -> store -> Prop) `{PO : !PreOrder Rel}.

Lemma keeps_ret s {A : Type} (a : A) (P : A -> store -> Prop) : P a s -> keeps Rel s P (mret a).
Proof. intros Hp. apply runs_ret. by split. Qed.

Lemma keeps_result s {A : Type} (r : CacheResult A) (P : A -> store -> Prop) :
  (forall a, r = Ok a -> P a s) -> keeps Rel s P (io_result r).
Proof. intros Hp. apply runs_result. destruct r; [|done]. split; [done|auto]. Qed.

Lemma keeps_bind s {A B : Type} (m : io A) (k : A -> io B) (P : A -> store -> Prop) (Q : B -> store -> Prop) :
  keeps Rel s P m -> (forall a s', Rel s s' -> P a s' -> keeps Rel s' Q (k a)) -> keeps Rel s Q (m ≫= k).
Proof.
  intros Hm Hk. apply runs_bind. eapply runs_weaken; [exact Hm| |done].
  intros a s' [Hr Hp]. eapply runs_weaken; [by apply Hk| |]; simpl; [intros b s'' [? ?]|intros e s'' ?];
    [split; [|done]|]; by trans s'.
Qed.

Lemma keeps_weaken s {A : Type} (m : io A) (P Q : A -> store -> Prop) :
  keeps Rel s P m -> (forall a s', Rel s s' -> P a s' -> Q a s') -> keeps Rel s Q m.
Proof. intros Hm HQ. eapply runs_weaken; [exact Hm| |done]. intros a s' [? ?]. auto. Qed.

Lemma keeps_any s {A : Type} (m : io A) (P : A -> store -> Prop) : keeps Rel s P m -> keeps Rel s (fun _ _ => True) m.
Proof. intros Hm. by eapply keeps_weaken. Qed.

Lemma keeps_attempt s {A : Type} (m : io A) (P : A -> store -> Prop) :
  keeps Rel s P m -> keeps Rel s (fun (r : CacheResult A) s' => match r with Ok a => P a s' | Err _ => True end) (attempt m).
Proof. intros Hm. apply runs_attempt. eapply runs_weaken; [exact Hm| |]; simpl; auto. Qed.

Lemma keeps_perform s {A : Type} (effect : store -> CacheResult (A * store)) broken (P : A -> store -> Prop) :
  (forall f, Rel s (broken f s)) -> (forall a s', effect s = Ok (a, s') -> Rel s s' /\ P a s') ->
  keeps Rel s P (perform effect broken).
Proof. intros Hb He. apply runs_perform; [auto|]. destruct (effect s) as [[a s']|e]; [auto|done]. Qed.

Lemma keeps_exists s p : keeps Rel s (fun b s' => s' = s /\ b = bool_decide (is_Some (s !! p))) (exists_path p).
Proof. by apply runs_exists. Qed.

Lemma keeps_metadata_len s p : keeps Rel s (fun _ _ => True) (metadata_len p).
Proof.
  intros d. unfold metadata_len. revert d. change (keeps Rel s (fun _ _ => True) (metadata_len p)).
  intros d Hs Hr. unfold metadata_len. apply (keeps_perform s _ (fun _ s => s) (fun _ _ => True)); try done.
  intros a s'. destruct (s !! p) as [[]|]; by intros [= <- <-].
Qed.

Lemma keeps_read_file s p : keeps Rel s (fun _ _ => True) (read_file p).
Proof. apply keeps_perform; [done|]. intros a s'. destruct (s !! p) as [[]|]; by intros [= <- <-]. Qed.

(** What holds of every round holds of the traversal. *)
Lemma keeps_of {B : Type} (Rel' : store -> store -> Prop) s (m : io B) P :
  (forall s', Rel s s' -> Rel' s s') -> keeps Rel s P m -> keeps Rel' s P m.
Proof. intros Hr Hm. eapply runs_weaken; [exact Hm| |]; simpl; intros; [destruct_and?|]; auto. Qed.
End Keeps.

(** Outside of [T] at most directories on the way to it were created. *)
Definition touches (T : path) (s s' : store) : Prop :=
  forall k, ~ below T k -> s' !! k = s !! k \/ (below k T /\ s !! k = None /\ s' !! k = Some Directory).

#[export] Instance touches_preorder T : PreOrder (touches T).
Proof.
  split; [intros s k; by left|]. intros s1 s2 s3 H12 H23 k Hk.
  destruct (H12 k Hk) as [E|(Hb & E & E')], (H23 k Hk) as [F|(Hb' & F & F')]; rewrite ?E, ?F in *; auto; congruence.
Qed.

Lemma below_trans p q k : below p q -> below q k -> below p k.
Proof. apply (transitivity (R := prefix)). Qed.

Section Touches.
Context (T : path).

Lemma touches_insert s k n : below T k -> touches T s (<[k := n]> s).
Proof. intros Hk j Hj. left. rewrite lookup_insert_ne; [done|]. by intros ->. Qed.

Lemma touches_create_file s k : below T k ->
  keeps (touches T) s (fun _ s' => parent_directory s k = true /\ s' = <[k := RegularFile []]> s) (create_file k).
Proof.
  intros Hk. apply (keeps_perform (touches T)); [done|]. intros a s'. destruct (parent_directory s k); [|done]. simpl.
  destruct (s !! k) as [[]|]; [done|..]; intros [= <- <-]; (split; [by apply touches_insert|done]).
Qed.

Lemma touches_append_file s k bytes : below T k ->
  keeps (touches T) s (fun _ s' => exists b, s' = <[k := RegularFile b]> s) (append_file k bytes).
Proof.
  intros Hk. apply (keeps_perform (touches T)).
  - intros f. destruct (s !! k) as [[]|]; [by intros j; left|by apply touches_insert|by intros j; left].
  - intros a s'. destruct (s !! k) as [[]|]; try done. intros [= <- <-]. split; [by apply touches_insert|eauto].
Qed.

Lemma touches_filter s (Q : path * node -> Prop) `{!forall e, Decision (Q e)} :
  (forall k n, ~ below T k -> Q (k, n)) -> touches T s (filter Q s).
Proof.
  intros HQ k Hk. left. destruct (s !! k) as [n|] eqn:E; [apply map_lookup_filter_Some; auto|].
  apply map_lookup_filter_None_2. by left.
Qed.

Lemma touches_remove_dir_all s k : below T k -> keeps (touches T) s (fun _ _ => True) (remove_dir_all k).
Proof.
  intros Hk. apply (keeps_perform (touches T)).
  - intros f. apply touches_filter. intros j n Hj. left. intros ?. apply Hj. by eapply below_trans.
  - intros a s'. destruct (s !! k) as [[]|]; try done. intros [= <- <-]. split; [|done].
    apply touches_filter. intros j n Hj ?. apply Hj. by eapply below_trans.
Qed.

(** Directories on the way to a path below [T] are on the way to [T] or below it. *)
Lemma below_either p k : below T p -> below k p -> below k T \/ below T k.
Proof. intros HT Hk. apply (prefix_weak_total _ _ p Hk HT). Qed.

Lemma grown_touches p s s' : below T p -> grown p s s' -> touches T s s'.
Proof.
  intros HT Hg k Hk. destruct (Hg k) as [E|(Hb & _ & E & E')]; [by left|right].
  destruct (below_either p k HT Hb); [done|by destruct Hk].
Qed.

Lemma make_directories_grown p ps s s' : (forall k, k ∈ ps -> below k p /\ k <> []) ->
  make_directories ps s = Ok s' -> grown p s s'.
Proof.
  revert s. induction ps as [|a ps IH]; intros s Ha; cbn [make_directories]; [intros [= <-] k; by left|].
  specialize (IH (if s !! a then s else <[a := Directory]> s) ltac:(intros; apply Ha; by right)).
  destruct (s !! a) as [[]|] eqn:E; [done|done|]. intros Hm. specialize (IH Hm). intros k.
  destruct (decide (k = a)) as [->|Hne]; [|specialize (IH k); by rewrite lookup_insert_ne in IH].
  specialize (IH a). rewrite lookup_insert_eq in IH. destruct (Ha a ltac:(left)).
  right. destruct IH as [IH|(_ & _ & ? & _)]; [split_and!|]; done.
Qed.

Lemma touches_create_dir_all s p : below T p -> keeps (touches T) s (fun _ _ => True) (create_dir_all p).
Proof.
  intros HT. apply (keeps_perform (touches T)); [intros f; apply (grown_touches p); [done|apply some_directories_grown]|].
  intros a s' (s1 & Hm & [= <- <-])%cache_bind_ok. split; [|done]. eapply (grown_touches p), make_directories_grown; [done| |done].
  intros k. by rewrite elem_of_ancestors.
Qed.
End Touches.

#[export] Hint Resolve touches_create_file touches_append_file touches_remove_dir_all touches_create_dir_all
  keeps_read_file keeps_metadata_len keeps_exists : drt.
