(* ===== verification/RecordCodec.v ===== *)
(** The bytes of a stored sample: payload compression
    ([src/src/dataset_rt/compression.rs] and [compression/brotli.rs]) and the record
    envelope of [src/src/dataset_rt/storage.rs], in which an eight-byte length and the
    JSON text of the metadata precede the payload. The compression libraries, the JSON
    library and the allocator are the classes [NativeCodecs] and [RecordJson]. *)
From stdpp Require Import base tactics list numbers strings gmap list_numbers.
From S2P Require Import Prelude Collections Records Binary64 Config Seeds Native Metadata FileSystem.
Open Scope Z_scope.

(** * Little-endian integers *)

Definition byte_count (b : list Z) : Z := Z.of_nat (length b).

(** [value.to_le_bytes()] and [from_le_bytes]. *)
Definition le_bytes (n z : Z) : list Z := Z_to_little_endian n 8 z.
Definition from_le_bytes (b : list Z) : Z := little_endian_to_Z 8 b.

(** [bytes.get(start..end)] and [bytes.split_at_checked(n)]. *)
Definition get_range (bytes : list Z) (start stop : Z) : option (list Z) :=
  if (start <=? stop) && (stop <=? byte_count bytes) then Some (slice start (stop - start) bytes) else None.

Definition split_at_checked (bytes : list Z) (n : nat) : option (list Z * list Z) :=
  if (n <=? length bytes)%nat then Some (take n bytes, drop n bytes) else None.

(** [record_range] and [read_u64]. *)
Definition record_range (bytes : list Z) (start stop : Z) : CacheResult (list Z) :=
  ok_or (get_range bytes start stop) (InvalidCache (lit "invalid binary record")).

Definition read_u64 (bytes : list Z) : CacheResult Z :=
  if byte_count bytes =? 8 then Ok (from_le_bytes bytes) else Err (InvalidCache (lit "invalid index integer")).

(** [u64::checked_mul]. *)
Definition checked_mul (a b : Z) : option Z := if a * b <=? U64_MAX then Some (a * b) else None.

(** * Panics of a dependency *)

(** A call into a dependency returns or panics with a payload. *)
Inductive unwound (A : Type) :=
| Finished (a : A)
| Panicked (payload : option pystr).
Arguments Finished {A} a.
Arguments Panicked {A} payload.

Definition native_result {A : Type} (context : pystr) (action : unwound (CacheResult A)) : CacheResult A :=
  match action with
  | Finished r => r
  | Panicked payload =>
      Err (NativeFailure (context ++ lit ": " ++ default (lit "non-string panic payload") payload))
  end.

(** [action.map_err(f)] of a library's own error. *)
Definition library_error {A : Type} (f : pystr -> CacheError) (m : unwound (result A pystr))
  : unwound (CacheResult A) :=
  match m with
  | Finished (Ok a) => Finished (Ok a)
  | Finished (Err e) => Finished (Err (f e))
  | Panicked payload => Panicked payload
  end.

(** * The compression libraries *)

Inductive lz4_mode := FAST (acceleration : Z) | HIGHCOMPRESSION (level : Z).

Inductive BrotliResult := ResultSuccess | NeedsMoreInput | NeedsMoreOutput | ResultFailure.

(** What one call of the stream decoder leaves: its result, the input it did not consume
    and the bytes it wrote. *)
Record brotli_end := mk_brotli_end {
  brotli_result : BrotliResult;
  brotli_available_in : Z;
  brotli_output : list Z }.

(** The allocator and the codecs; a compressor is given the room of its output, a
    decompressor the length of its buffer, and both give the bytes they wrote. *)
Class NativeCodecs := {
  reserve : Z -> option pystr;
  lz4_flex_bound : Z -> Z;
  lz4_flex_compress : list Z -> Z -> unwound (result (list Z) pystr);
  lz4_flex_decompress : list Z -> Z -> unwound (result (list Z) pystr);
  lz4_bound : Z -> result Z pystr;
  lz4_compress : lz4_mode -> list Z -> Z -> unwound (result (list Z) pystr);
  brotli_bound : Z -> Z;
  brotli_compress : Z -> list Z -> Z -> unwound (result (list Z) pystr);
  brotli_decompress_stream : list Z -> Z -> unwound brotli_end }.

(** What each decoder makes of its encoder's output: a block of either LZ4 library, the
    second with its own length in front, and one Brotli stream. Requests of at most
    [memory] bytes are granted. *)
Class NativeCodecsLaws (C : NativeCodecs) (memory : Z) : Prop := {
  reserve_granted : forall n, 0 <= n <= memory -> reserve n = None;
  lz4_flex_roundtrip : forall data room block,
    lz4_flex_compress data room = Finished (Ok block) ->
    lz4_flex_decompress block (byte_count data) = Finished (Ok data);
  lz4_roundtrip : forall mode data room out,
    lz4_compress mode data room = Finished (Ok out) ->
    byte_count data < 2 ^ 32 /\ exists block, out = le_bytes 4 (byte_count data) ++ block /\
      lz4_flex_decompress block (byte_count data) = Finished (Ok data);
  brotli_roundtrip : forall level data room body,
    brotli_compress level data room = Finished (Ok body) ->
    brotli_decompress_stream body (byte_count data) = Finished (mk_brotli_end ResultSuccess 0 data) }.

(** [compressed()]. *)
Definition compressed (c : NativeCompression) : bool :=
  match c with NativeNone | NativeLegacy AlgoNone _ => false | _ => true end.

Section Compression.
Context {C : NativeCodecs}.

(** [byte_buffer(len)]. *)
Definition byte_buffer (len : Z) : CacheResult unit :=
  match reserve len with
  | None => Ok tt
  | Some error => Err (NativeFailure (lit "cannot allocate payload buffer of " ++ dec len ++ lit " bytes: " ++ error))
  end.

Definition u32_len (data : list Z) (message : pystr) : CacheResult Z :=
  if byte_count data <? 2 ^ 32 then Ok (byte_count data) else Err (InvalidInput message).

Definition capacity_with_prefix (bound : Z) (large_enough : Z -> bool) (message : pystr) : CacheResult Z :=
  ok_or (match checked_add bound 4 with
         | Some capacity => if large_enough capacity then Some capacity else None
         | None => None
         end) (InvalidInput message).

(** [compress_record]. *)
Definition compress_record (data : list Z) (mode : lz4_mode) : CacheResult (list Z) :=
  bound ← match lz4_bound (byte_count data) with
          | Ok b => Ok b
          | Err error => Err (InvalidInput (lit "LZ4 record input rejected: " ++ error))
          end;
  capacity ← ok_or (checked_add bound 4) (InvalidInput (lit "LZ4 record capacity overflow"));
  _ ← byte_buffer capacity;
  native_result (lit "LZ4 record compression")
    (library_error (fun error => InvalidInput (lit "failed to compress LZ4 record: " ++ error))
       (lz4_compress mode data capacity)).

(** [brotli::compress]. *)
Definition brotli_compress_record (data : list Z) (level : Z) : CacheResult (list Z) :=
  len ← u32_len data (lit "Brotli record exceeds u32 size-prefix limit");
  capacity ← capacity_with_prefix (brotli_bound (byte_count data)) (fun capacity => byte_count data <? capacity)
               (lit "Brotli output capacity overflow");
  _ ← byte_buffer capacity;
  body ← native_result (lit "Brotli compression")
           (library_error (fun error => InvalidInput (lit "failed to compress Brotli record: " ++ error))
              (brotli_compress level data (capacity - 4)));
  Ok (le_bytes 4 len ++ body).

(** The legacy branch of [compress_payload]. *)
Definition compress_legacy (data : list Z) : CacheResult (list Z) :=
  len ← u32_len data (lit "LZ4 payload exceeds u32 size-prefix limit");
  capacity ← capacity_with_prefix (lz4_flex_bound (byte_count data)) (fun capacity => byte_count data <=? capacity)
               (lit "LZ4 output capacity overflowed usize");
  _ ← byte_buffer capacity;
  body ← native_result (lit "LZ4 compression")
           (library_error (fun error => InvalidInput (lit "failed to compress LZ4 payload: " ++ error))
              (lz4_flex_compress data (capacity - 4)));
  Ok (le_bytes 4 len ++ body).

Definition compress_payload (data : list Z) (c : NativeCompression) : CacheResult (list Z) :=
  match c with
  | NativeNone | NativeLegacy AlgoNone _ => Ok data
  | NativeBrotli level => brotli_compress_record data level
  | NativeLz4Fast acceleration => compress_record data (FAST acceleration)
  | NativeLz4HC level => compress_record data (HIGHCOMPRESSION level)
  | NativeLegacy _ _ => compress_legacy data
  end.

(** [decode_into]. *)
Definition decode_into (e : brotli_end) (len : Z) : CacheResult (list Z) :=
  match brotli_result e with
  | ResultSuccess =>
      if (brotli_available_in e =? 0) && (byte_count (brotli_output e) =? len) then Ok (brotli_output e)
      else Err (InvalidCache (lit "Brotli record has trailing bytes or decoded length mismatch"))
  | NeedsMoreInput => Err (InvalidCache (lit "truncated Brotli record"))
  | NeedsMoreOutput => Err (InvalidCache (lit "Brotli decoded length exceeds size prefix"))
  | ResultFailure => Err (InvalidCache (lit "invalid Brotli record"))
  end.

(** [brotli::decompress]. *)
Definition brotli_decompress (data : list Z) (max_uncompressed_len : Z) : CacheResult (list Z) :=
  '(prefix, body) ← ok_or (split_at_checked data 4) (InvalidCache (lit "Brotli record is missing its size prefix"));
  let len := from_le_bytes prefix in
  if max_uncompressed_len <? len
  then Err (InvalidCache (lit "Brotli size prefix exceeds shard uncompressed length"))
  else
    _ ← byte_buffer len;
    native_result (lit "Brotli decompression")
      (match brotli_decompress_stream body len with
       | Finished e => Finished (decode_into e len)
       | Panicked payload => Panicked payload
       end).

(** [decompress_lz4_or_plain]. *)
Definition decompress_lz4_or_plain (data : list Z) (c : NativeCompression) (max_uncompressed_len : Z)
  : CacheResult (list Z) :=
  if compressed c
  then
    '(prefix, body) ← ok_or (split_at_checked data 4) (InvalidCache (lit "LZ4 payload is missing its size prefix"));
    let len := from_le_bytes prefix in
    if max_uncompressed_len <? len
    then Err (InvalidCache (lit "LZ4 size prefix exceeds shard uncompressed length"))
    else
      _ ← byte_buffer len;
      output ← native_result (lit "LZ4 decompression")
        (library_error (fun error => InvalidCache (lit "failed to decompress lz4 payload: " ++ error))
           (lz4_flex_decompress body len));
      if byte_count output =? len then Ok output
      else Err (InvalidCache (lit "LZ4 decoded length does not match size prefix"))
  else
    match reserve (byte_count data) with
    | None => Ok data
    | Some error => Err (NativeFailure (lit "cannot allocate payload buffer: " ++ error))
    end.

Definition decompress_payload (data : list Z) (c : NativeCompression) (max_uncompressed_len : Z)
  : CacheResult (list Z) :=
  match c with
  | NativeBrotli _ => brotli_decompress data max_uncompressed_len
  | _ => decompress_lz4_or_plain data c max_uncompressed_len
  end.
End Compression.

(** * Metadata values *)

(** [kind()] and the name a kind is shown with. *)
Definition value_kind (v : MetadataValue) : MetadataKind :=
  match v with MBool _ => KindBool | MInt _ => KindInt | MFloat _ => KindFloat | MString _ => KindString end.

Definition kind_name (k : MetadataKind) : pystr :=
  match k with
  | KindBool => lit "bool" | KindInt => lit "int" | KindFloat => lit "float" | KindString => lit "string"
  end.

(** [==] of metadata values; floats compare as [f64]. *)
Definition float_eqb (a b : pyfloat) : bool :=
  match a, b with
  | Finite n d, Finite n' d' => n * Zpos d' =? n' * Zpos d
  | Infinite s, Infinite s' => Bool.eqb s s'
  | _, _ => false
  end.

Definition value_eqb (a b : MetadataValue) : bool :=
  match a, b with
  | MBool x, MBool y => Bool.eqb x y
  | MInt x, MInt y => x =? y
  | MFloat x, MFloat y => float_eqb x y
  | MString x, MString y => bool_decide (x = y)
  | _, _ => false
  end.

Fixpoint row_eqb (a b : list MetadataValue) : bool :=
  match a, b with
  | [], [] => true
  | x :: a, y :: b => value_eqb x y && row_eqb a b
  | _, _ => false
  end.

(** The entries of a [BTreeMap] in key order. *)
Definition key_leb {V : Type} (a b : pystr * V) : bool := str_leb a.1 b.1.
Definition btree_entries {V : Type} (m : gmap pystr V) : list (pystr * V) := sort_by key_leb (map_to_list m).

(** JSON scalars. *)
Inductive json :=
| JNull
| JBool (b : bool)
| JInteger (z : Z)
| JReal (f : pyfloat)
| JText (s : pystr).

#[export] Instance json_eq_dec : EqDecision json.
Proof. solve_decision. Defined.

(** The generated serialization of a metadata value: JSON has no text for a float that
    is not finite, and the library writes [null] for it. *)
Definition value_to_json (v : MetadataValue) : json :=
  match v with
  | MBool b => JBool b
  | MInt z => JInteger z
  | MFloat f => if float_isfinite f then JReal f else JNull
  | MString s => JText s
  end.

Definition is_i64 (z : Z) : bool := (- 2 ^ 63 <=? z) && (z <? 2 ^ 63).

(** The generated deserialization takes the first variant that accepts the scalar. *)
Definition value_of_json (j : json) : CacheResult MetadataValue :=
  match j with
  | JNull => Err (JsonError (lit "data did not match any variant of untagged enum MetadataValue"))
  | JBool b => Ok (MBool b)
  | JInteger z => if is_i64 z then Ok (MInt z) else Ok (MFloat (round_f64 z 1))
  | JReal f => Ok (MFloat f)
  | JText s => Ok (MString s)
  end.

(** The text of an object of scalars; [exact_text f] says that the decimal text of [f]
    reads back as [f]: the parser works with best-effort precision. *)
Class RecordJson := {
  print_record : list (pystr * json) -> list Z;
  parse_record : list Z -> result (list (pystr * json)) pystr;
  exact_text : pyfloat -> bool }.

Definition exact_json {R : RecordJson} (j : json) : bool :=
  match j with JReal f => exact_text f | _ => true end.

Class RecordJsonLaws (R : RecordJson) : Prop := {
  parse_print_record : forall entries,
    Forall (fun e => exact_json e.2 = true) entries -> parse_record (print_record entries) = Ok entries }.

Abbreviation schema_of_cache := (list (pystr * MetadataKind)).

(** Insert every entry in turn, as a map visitor does. *)
Definition collect_map {V : Type} (entries : list (pystr * V)) : gmap pystr V :=
  fold_left (fun m e => <[e.1 := e.2]> m) entries ∅.

Section Records.
Context {C : NativeCodecs} {R : RecordJson}.

Definition metadata_row_to_object (schema : schema_of_cache) (row : list MetadataValue)
  : CacheResult (gmap pystr MetadataValue) :=
  if negb (length row =? length schema)%nat
  then Err (InvalidInput (lit "metadata row length does not match schema"))
  else Ok (collect_map (zip (map fst schema) row)).

(** The value of one field of the schema, with its kind checked. *)
Definition embedded_field (metadata : gmap pystr MetadataValue) (field : pystr * MetadataKind)
  : CacheResult MetadataValue :=
  match metadata !! field.1 with
  | Some value =>
      if decide (value_kind value = field.2) then Ok value
      else Err (InvalidCache (lit "embedded metadata field '" ++ field.1 ++ lit "' expected " ++
                              kind_name field.2 ++ lit ", got " ++ kind_name (value_kind value)))
  | None => Err (InvalidCache (lit "embedded metadata field '" ++ field.1 ++ lit "' is missing"))
  end.

Definition metadata_object_to_row (schema : schema_of_cache) (metadata : gmap pystr MetadataValue)
  : CacheResult (list MetadataValue) :=
  if negb (size metadata =? length schema)%nat
  then Err (InvalidCache (lit "embedded metadata keys do not match schema"))
  else try_collect (embedded_field metadata) schema.

(** [serde_json::to_vec(&metadata_object)] and [serde_json::from_slice]. *)
Definition metadata_to_json (m : gmap pystr MetadataValue) : list Z :=
  print_record (map (fun e => (e.1, value_to_json e.2)) (btree_entries m)).

Definition metadata_from_json (bytes : list Z) : CacheResult (gmap pystr MetadataValue) :=
  match parse_record bytes with
  | Err e => Err (JsonError e)
  | Ok entries =>
      values ← try_collect (fun e => v ← value_of_json e.2; Ok (e.1, v)) entries;
      Ok (collect_map values)
  end.

Definition RECORD_METADATA_LEN_BYTES : Z := 8.

(** [encode_sample_record]. *)
Definition encode_sample_record (stored_payload : list Z) (schema : schema_of_cache) (row : list MetadataValue)
  : CacheResult (list Z) :=
  object ← metadata_row_to_object schema row;
  let metadata_json := metadata_to_json object in
  if U64_MAX <? byte_count metadata_json
  then Err (InvalidInput (lit "metadata record length does not fit in u64"))
  else
    let len := byte_count metadata_json in
    capacity ← ok_or (match checked_add RECORD_METADATA_LEN_BYTES len with
                      | Some n => checked_add n (byte_count stored_payload)
                      | None => None
                      end) (InvalidInput (lit "record byte length overflowed usize"));
    match reserve capacity with
    | Some error => Err (InvalidInput (lit "cannot allocate sample record: " ++ error))
    | None => Ok (le_bytes 8 len ++ metadata_json ++ stored_payload)
    end.

(** [split_sample_record]. *)
Definition split_sample_record (record : list Z) (schema : schema_of_cache)
  : CacheResult (list MetadataValue * list Z) :=
  field ← record_range record 0 RECORD_METADATA_LEN_BYTES;
  metadata_len ← read_u64 field;
  payload_start ← ok_or (checked_add RECORD_METADATA_LEN_BYTES metadata_len)
                    (InvalidCache (lit "metadata record length overflowed"));
  metadata_json ← record_range record RECORD_METADATA_LEN_BYTES payload_start;
  object ← metadata_from_json metadata_json;
  metadata ← metadata_object_to_row schema object;
  stored_payload ← ok_or (get_range record payload_start (byte_count record))
                     (InvalidCache (lit "payload record is missing stored payload"));
  Ok (metadata, stored_payload).

(** [EncodedRecord] without its timers. *)
Record EncodedRecord := mk_encoded { encoded_bytes : list Z; encoded_uncompressed_len : Z }.

(** [encode_stored_record]: the modern policies compress the whole record, the legacy
    ones its payload. *)
Definition encode_stored_record (data : list Z) (schema : schema_of_cache) (row : list MetadataValue)
    (c : NativeCompression) : CacheResult EncodedRecord :=
  if whole_record c
  then
    record ← encode_sample_record data schema row;
    if U64_MAX <? byte_count record then Err (InvalidInput (lit "record length does not fit u64"))
    else bytes ← compress_payload record c; Ok (mk_encoded bytes (byte_count record))
  else
    if U64_MAX <? byte_count data then Err (InvalidInput (lit "payload length does not fit u64"))
    else
      payload ← compress_payload data c;
      bytes ← encode_sample_record payload schema row;
      Ok (mk_encoded bytes (byte_count data)).

(** [decode_stored_record] for the scope of a manifest and the codec of a shard. *)
Definition decode_stored_record (record : list Z) (whole : bool) (schema : schema_of_cache)
    (c : NativeCompression) (max_uncompressed_len : Z) : CacheResult (list Z * list MetadataValue) :=
  if whole
  then
    decoded ← if compressed c then decompress_payload record c max_uncompressed_len else Ok record;
    '(metadata, payload) ← split_sample_record decoded schema;
    Ok (drop (length decoded - length payload) decoded, metadata)
  else
    '(metadata, payload) ← split_sample_record record schema;
    data ← decompress_payload payload c max_uncompressed_len;
    Ok (data, metadata).

(** [validate_redundant_metadata]. *)
Definition validate_redundant_metadata (metadata embedded : list MetadataValue) (sample_index : Z)
  : CacheResult unit :=
  if row_eqb metadata embedded then Ok tt
  else Err (InvalidCache (lit "embedded metadata does not match metadata.arrow for sample " ++ dec sample_index)).
End Records.

(** * Lemmas *)

Lemma byte_count_app (a b : list Z) : byte_count (a ++ b) = byte_count a + byte_count b.
Proof. unfold byte_count. rewrite length_app. lia. Qed.

Lemma byte_count_nonneg (a : list Z) : 0 <= byte_count a.
Proof. unfold byte_count. lia. Qed.
#[export] Hint Resolve byte_count_nonneg : drt.

Lemma byte_count_le n z : 0 <= n -> byte_count (le_bytes n z) = n.
Proof. intros Hn. unfold byte_count, le_bytes. by rewrite length_Z_to_little_endian. Qed.

Lemma from_le_bytes_le n z : 0 <= n -> 0 <= z < 2 ^ (8 * n) -> from_le_bytes (le_bytes n z) = z.
Proof.
  intros Hn Hz. unfold from_le_bytes, le_bytes.
  rewrite little_endian_to_Z_to_little_endian by lia. rewrite (Z.mul_comm n 8). by apply Z.mod_small.
Qed.

Lemma slice_middle (a b c : list Z) : slice (byte_count a) (byte_count b) (a ++ b ++ c) = b.
Proof.
  unfold slice, byte_count. rewrite !Nat2Z.id, drop_app_length. apply take_app_length.
Qed.

Lemma get_range_middle (a b c : list Z) start stop :
  start = byte_count a -> stop = byte_count a + byte_count b -> get_range (a ++ b ++ c) start stop = Some b.
Proof.
  intros -> ->. unfold get_range. rewrite !byte_count_app.
  pose proof (byte_count_nonneg b). pose proof (byte_count_nonneg c).
  repeat (zcase; [|lia]). simpl. replace (byte_count a + byte_count b - byte_count a) with (byte_count b) by lia.
  by rewrite slice_middle.
Qed.

Lemma get_range_front (b c : list Z) stop : stop = byte_count b -> get_range (b ++ c) 0 stop = Some b.
Proof. intros ->. by apply (get_range_middle [] b c). Qed.

Lemma get_range_back (a b : list Z) start stop :
  start = byte_count a -> stop = byte_count a + byte_count b -> get_range (a ++ b) start stop = Some b.
Proof. intros Hs He. rewrite <- (app_nil_r b) at 1. by apply get_range_middle. Qed.

Lemma read_u64_le z : is_u64 z -> read_u64 (le_bytes 8 z) = Ok z.
Proof.
  intros Hz. unfold read_u64. rewrite byte_count_le by lia. simpl. f_equal. apply from_le_bytes_le; [lia|].
  unfold is_u64 in Hz. rewrite U64_MAX_eq in Hz. change (8 * 8) with 64. lia.
Qed.

Lemma split_prefix z (body : list Z) : split_at_checked (le_bytes 4 z ++ body) 4 = Some (le_bytes 4 z, body).
Proof.
  reflexivity.
Qed.

#[global] Opaque le_bytes.

(** ** Payloads *)

Section CompressionLaws.
Context {C : NativeCodecs} {memory : Z} {CL : NativeCodecsLaws C memory}.

Lemma byte_buffer_granted n : 0 <= n <= memory -> byte_buffer n = Ok tt.
Proof. intros Hn. unfold byte_buffer. by rewrite (reserve_granted n Hn). Qed.

Lemma u32_len_ok data message len :
  u32_len data message = Ok len -> len = byte_count data /\ byte_count data < 2 ^ 32.
Proof. unfold u32_len. zcase; [|done]. intros [= <-]. auto. Qed.

Lemma finished_ok {A : Type} context f (m : unwound (result A pystr)) (a : A) :
  native_result context (library_error f m) = Ok a -> m = Finished (Ok a).
Proof. destruct m as [[|]|]; simpl; congruence. Qed.

(** A size-prefixed LZ4 block decodes. *)
Lemma lz4_block_decodes data block c max :
  compressed c = true -> byte_count data < 2 ^ 32 -> byte_count data <= max -> byte_count data <= memory ->
  lz4_flex_decompress block (byte_count data) = Finished (Ok data) ->
  decompress_lz4_or_plain (le_bytes 4 (byte_count data) ++ block) c max = Ok data.
Proof.
  intros Hc H32 Hmax Hmem Hblock. pose proof (byte_count_nonneg data) as Hn.
  unfold decompress_lz4_or_plain. rewrite Hc, split_prefix. simpl.
  rewrite from_le_bytes_le by lia. zcase; [lia|].
  rewrite byte_buffer_granted by lia. simpl. rewrite Hblock. simpl. by rewrite Z.eqb_refl.
Qed.

Lemma brotli_decodes data body max :
  byte_count data < 2 ^ 32 -> byte_count data <= max -> byte_count data <= memory ->
  brotli_decompress_stream body (byte_count data) = Finished (mk_brotli_end ResultSuccess 0 data) ->
  brotli_decompress (le_bytes 4 (byte_count data) ++ body) max = Ok data.
Proof.
  intros H32 Hmax Hmem Hbody. pose proof (byte_count_nonneg data) as Hn.
  unfold brotli_decompress. rewrite split_prefix. simpl. rewrite from_le_bytes_le by lia. zcase; [lia|].
  rewrite byte_buffer_granted by lia. simpl. rewrite Hbody. simpl. unfold decode_into. simpl.
  by rewrite Z.eqb_refl.
Qed.

Lemma compress_record_prefix data mode stored :
  compress_record data mode = Ok stored ->
  byte_count data < 2 ^ 32 /\ exists block, stored = le_bytes 4 (byte_count data) ++ block /\
    lz4_flex_decompress block (byte_count data) = Finished (Ok data).
Proof. unfold compress_record. intros H. crack H. apply finished_ok in H. by eapply lz4_roundtrip. Qed.

(** What a policy compressed it decompresses, as long as the bound and the memory of the
    reader allow the original length. *)
Lemma decompress_compress data c stored max :
  compress_payload data c = Ok stored -> byte_count data <= max -> byte_count data <= memory ->
  decompress_payload stored c max = Ok data.
Proof.
  pose proof (byte_count_nonneg data) as Hn.
  assert (Hplain : compressed c = false -> byte_count data <= memory -> decompress_lz4_or_plain data c max = Ok data).
  { intros Hc Hm. unfold decompress_lz4_or_plain. by rewrite Hc, reserve_granted by lia. }
  intros H Hmax Hmem. destruct c as [|a|l|l|algo ratio]; simpl in *.
  - injection H as <-. by apply Hplain.
  - apply compress_record_prefix in H as (H32 & block & -> & Hb). by apply lz4_block_decodes.
  - apply compress_record_prefix in H as (H32 & block & -> & Hb). by apply lz4_block_decodes.
  - unfold brotli_compress_record in H. crack H. injection H as <-.
    apply u32_len_ok in Ha as [-> H32]. apply finished_ok in Ha2. eapply brotli_decodes; try done.
    by eapply brotli_roundtrip.
  - assert (Hlz : compressed (NativeLegacy algo ratio) = true -> compress_legacy data = Ok stored ->
      decompress_lz4_or_plain stored (NativeLegacy algo ratio) max = Ok data).
    { intros Hc HL. unfold compress_legacy in HL. crack HL. injection HL as <-.
      apply u32_len_ok in Ha as [-> H32]. apply finished_ok in Ha2. apply lz4_block_decodes; try done.
      by eapply lz4_flex_roundtrip. }
    destruct algo; [injection H as <-; by apply Hplain|by apply Hlz|by apply Hlz].
Qed.
End CompressionLaws.

(** ** Metadata objects *)

Lemma collect_map_from {V : Type} (l : list (pystr * V)) : forall m : gmap pystr V, NoDup l.*1 ->
  fold_left (fun m e => <[e.1 := e.2]> m) l m = list_to_map l ∪ m.
Proof.
  induction l as [|[k v] l IH]; intros m Hn; simpl; [by rewrite (left_id_L ∅ (∪))|].
  apply NoDup_cons in Hn as [Hk Hn]. rewrite IH by done.
  rewrite <- insert_union_l, insert_union_r; [done|]. by apply not_elem_of_list_to_map_1.
Qed.

Lemma collect_map_nodup {V : Type} (l : list (pystr * V)) : NoDup l.*1 -> collect_map l = list_to_map l.
Proof. intros Hn. unfold collect_map. rewrite collect_map_from by done. by rewrite (right_id_L ∅ (∪)). Qed.

Lemma btree_entries_perm {V : Type} (m : gmap pystr V) : btree_entries m ≡ₚ map_to_list m.
Proof. apply sort_by_perm. Qed.

Lemma btree_entries_nodup {V : Type} (m : gmap pystr V) : NoDup (btree_entries m).*1.
Proof. rewrite btree_entries_perm. apply NoDup_fst_map_to_list. Qed.

Lemma collect_btree_entries {V : Type} (m : gmap pystr V) : collect_map (btree_entries m) = m.
Proof.
  rewrite collect_map_nodup by apply btree_entries_nodup. rewrite <- (list_to_map_to_list m) at 2.
  apply list_to_map_proper; [apply btree_entries_nodup|apply btree_entries_perm].
Qed.

(** Values that JSON can carry: integers of 64 bits and finite floats whose text is
    exact. *)
Definition storable {R : RecordJson} (v : MetadataValue) : bool :=
  match v with
  | MInt z => is_i64 z
  | MFloat f => float_isfinite f && exact_text f
  | _ => true
  end.

(** A row that matches a schema, kind by kind. *)
Definition row_fits (schema : schema_of_cache) (row : list MetadataValue) : Prop :=
  Forall2 (fun field v => value_kind v = field.2) schema row.

Section ObjectLaws.
Context {R : RecordJson} {RL : RecordJsonLaws R}.

Lemma storable_json v : storable v = true ->
  value_of_json (value_to_json v) = Ok v /\ exact_json (value_to_json v) = true.
Proof.
  destruct v as [b|z|f|s]; simpl; try done.
  - intros ->. done.
  - intros [Hf He]%andb_true_iff. rewrite Hf. done.
Qed.

Lemma metadata_json_roundtrip (m : gmap pystr MetadataValue) :
  (forall k v, m !! k = Some v -> storable v = true) -> metadata_from_json (metadata_to_json m) = Ok m.
Proof.
  intros Hm. unfold metadata_from_json, metadata_to_json.
  assert (Hs : Forall (fun e => storable e.2 = true) (btree_entries m)).
  { apply Forall_forall. intros [k v] He. apply (Hm k).
    rewrite btree_entries_perm in He. by apply elem_of_map_to_list in He. }
  rewrite parse_print_record.
  2:{ apply Forall_map. eapply Forall_impl; [exact Hs|]. intros [k v] Hv. by apply storable_json. }
  replace (try_collect _ _) with (Ok (E := CacheError) (btree_entries m)).
  - simpl. f_equal. apply collect_btree_entries.
  - symmetry. apply try_collect_ok. apply Forall2_fmap_l.
    apply Forall_Forall2_diag. eapply Forall_impl; [exact Hs|]. intros [k v] Hv. simpl in *.
    by rewrite (proj1 (storable_json v Hv)).
Qed.

(** The object of a row, read with the schema it was made with, is the row. *)
Lemma object_row_roundtrip (schema : schema_of_cache) (row : list MetadataValue) :
  NoDup schema.*1 -> row_fits schema row ->
  metadata_object_to_row schema (collect_map (zip (map fst schema) row)) = Ok row.
Proof.
  intros Hn Hrow. pose proof (Forall2_length _ _ _ Hrow) as Hlen.
  assert (Hz : (zip (map fst schema) row).*1 = map fst schema) by (apply fst_zip; rewrite length_map; lia).
  rewrite collect_map_nodup by (by rewrite Hz). unfold metadata_object_to_row.
  rewrite map_size_list_to_map by (by rewrite Hz). rewrite length_zip_with, length_map, Hlen, Nat.min_id, Nat.eqb_refl.
  simpl. apply try_collect_ok. eapply Forall2_same_length_lookup_2; [done|].
  intros i [name kind] v Hf Hv. unfold embedded_field. simpl.
  rewrite (elem_of_list_to_map_1 _ name v).
  - rewrite decide_True; [done|]. by apply (Forall2_lookup_lr _ _ _ i (name, kind) v Hrow).
  - by rewrite Hz.
  - apply list_elem_of_lookup. exists i. apply lookup_zip_with_Some. exists name, v. split_and!; [done| |done].
    change (map ?f ?l) with (f <$> l). by rewrite list_lookup_fmap, Hf.
Qed.

Lemma row_object_storable (schema : schema_of_cache) (row : list MetadataValue) k v :
  NoDup schema.*1 -> length row = length schema -> Forall (fun v => storable v = true) row ->
  collect_map (zip (map fst schema) row) !! k = Some v -> storable v = true.
Proof.
  intros Hn Hlen Hrow Hk.
  rewrite collect_map_nodup in Hk by (rewrite fst_zip; [done|rewrite length_map; lia]).
  apply elem_of_list_to_map_2, elem_of_zip_r in Hk. by eapply Forall_forall in Hrow.
Qed.
End ObjectLaws.

(** ** Records *)

Section RecordLaws.
Context {C : NativeCodecs} {memory : Z} {CL : NativeCodecsLaws C memory}.
Context {R : RecordJson} {RL : RecordJsonLaws R}.
Context (schema : schema_of_cache) (Hschema : NoDup schema.*1).

(** The envelope of a record: the length, the JSON text and the payload. *)
Lemma encode_sample_record_ok payload row record :
  encode_sample_record payload schema row = Ok record ->
  length row = length schema /\
  let text := metadata_to_json (collect_map (zip (map fst schema) row)) in
  record = le_bytes 8 (byte_count text) ++ text ++ payload /\ byte_count record <= U64_MAX.
Proof.
  unfold encode_sample_record, metadata_row_to_object. intros H.
  destruct (Nat.eqb_spec (length row) (length schema)) as [Hlen|]; [|discriminate]. simpl in H.
  ocase H. crack H. ocase H. apply Ok_inj in H as <-. split; [done|]. cbv zeta. split; [done|].
  rewrite !byte_count_app, byte_count_le by lia.
  revert Ha. unfold checked_add. zcase; [|discriminate]. zcase; [|discriminate]. intros _.
  unfold RECORD_METADATA_LEN_BYTES in *. lia.
Qed.

(** Splitting an encoded record gets at its text and its payload. *)
Lemma split_reads_text payload row record :
  encode_sample_record payload schema row = Ok record ->
  split_sample_record record schema =
  (object ← metadata_from_json (metadata_to_json (collect_map (zip (map fst schema) row)));
   metadata ← metadata_object_to_row schema object; Ok (metadata, payload)).
Proof.
  intros (Hlen & E & Hmax)%encode_sample_record_ok. simpl in E. set (text := metadata_to_json _) in *.
  pose proof (byte_count_nonneg text). pose proof (byte_count_nonneg payload).
  assert (Hc : byte_count record = 8 + (byte_count text + byte_count payload))
    by (rewrite E, !byte_count_app, byte_count_le; lia).
  unfold split_sample_record, record_range. rewrite E at 1.
  rewrite get_range_front by (by rewrite byte_count_le). simpl.
  rewrite read_u64_le by (unfold is_u64; lia). simpl. unfold checked_add.
  unfold RECORD_METADATA_LEN_BYTES in *. zcase; [|lia]. simpl.
  rewrite E at 1. rewrite get_range_middle by (rewrite byte_count_le by lia; lia). simpl.
  destruct (metadata_from_json text) as [object|]; [|done]. simpl.
  destruct (metadata_object_to_row schema object) as [metadata|]; [|done]. simpl.
  rewrite E at 1. rewrite app_assoc, get_range_back; [done|..]; rewrite byte_count_app, byte_count_le; lia.
Qed.

Lemma split_encode_record payload row record :
  encode_sample_record payload schema row = Ok record -> row_fits schema row ->
  Forall (fun v => storable v = true) row -> split_sample_record record schema = Ok (row, payload).
Proof.
  intros He Hfits Hstore. pose proof He as (Hlen & _)%encode_sample_record_ok.
  rewrite (split_reads_text _ _ _ He), metadata_json_roundtrip by (intros k v; by apply row_object_storable).
  simpl. by rewrite object_row_roundtrip.
Qed.

(** What [encode_stored_record] wrote [decode_stored_record] reads, in either scope. *)
Lemma decode_encode_record data row c enc max :
  encode_stored_record data schema row c = Ok enc -> row_fits schema row ->
  Forall (fun v => storable v = true) row ->
  encoded_uncompressed_len enc <= max -> encoded_uncompressed_len enc <= memory ->
  decode_stored_record (encoded_bytes enc) (whole_record c) schema c max = Ok (data, row).
Proof.
  intros H Hfits Hstore Hmax Hmem. unfold encode_stored_record, decode_stored_record in *.
  destruct (whole_record c).
  - crack H. ocase H. crack H. injection H as <-. simpl in *.
    assert (Hd : (if compressed c then decompress_payload a0 c max else Ok a0) = Ok a).
    { destruct (compressed c) eqn:Ec; [by eapply decompress_compress|].
      destruct c as [| | | |[]]; try discriminate; simpl in *; congruence. }
    rewrite Hd. simpl. rewrite (split_encode_record data row a) by done. simpl. f_equal. f_equal.
    apply encode_sample_record_ok in Ha as (_ & E & _). simpl in E. rewrite E, app_assoc, length_app.
    rewrite Nat.add_sub. apply drop_app_length.
  - ocase H. crack H. injection H as <-. simpl in *.
    rewrite (split_encode_record a row a0) by done. simpl.
    by erewrite decompress_compress.
Qed.

(** A row with a float that is not finite is written as [null] there and cannot be read. *)
Lemma nonfinite_unreadable payload row record f :
  encode_sample_record payload schema row = Ok record ->
  MFloat f ∈ row -> float_isfinite f = false ->
  Forall (fun v => exact_json (value_to_json v) = true) row ->
  exists e, split_sample_record record schema = Err (JsonError e).
Proof.
  intros He Hf Hfin Hexact. pose proof He as (Hlen & _)%encode_sample_record_ok.
  rewrite (split_reads_text _ _ _ He). set (object := collect_map _).
  assert (Hobj : object = list_to_map (zip (map fst schema) row))
    by (apply collect_map_nodup; rewrite fst_zip; [done|rewrite length_map; lia]).
  assert (Hnull : exists k, object !! k = Some (MFloat f)).
  { apply list_elem_of_lookup in Hf as [i Hi].
    destruct (lookup_lt_is_Some_2 schema i) as [[name kind] Hs]; [apply lookup_lt_Some in Hi; lia|].
    exists name. rewrite Hobj. apply elem_of_list_to_map_1; [rewrite fst_zip; [done|rewrite length_map; lia]|].
    apply list_elem_of_lookup. exists i. apply lookup_zip_with_Some. exists name, (MFloat f).
    change (map ?f ?l) with (f <$> l). by rewrite list_lookup_fmap, Hs. }
  unfold metadata_from_json, metadata_to_json. rewrite parse_print_record.
  - set (step := fun e : pystr * json => _).
    destruct (try_collect step _) as [ys|e] eqn:Et.
    + exfalso. apply try_collect_ok in Et. destruct Hnull as [k Hk].
      apply elem_of_map_to_list in Hk. rewrite <- btree_entries_perm in Hk.
      apply list_elem_of_lookup in Hk as [i Hi].
      destruct (Forall2_lookup_l _ _ _ i (k, JNull) Et) as (y & _ & Hy); [|done].
      change (map ?f ?l) with (f <$> l). rewrite list_lookup_fmap, Hi. simpl. by rewrite Hfin.
    + simpl. enough (exists m, e = JsonError m) as [m ->] by (by exists m).
      eapply (try_collect_err (fun e => exists m, e = JsonError m)); [|exact Et].
      intros [k j] e'. unfold step. destruct j; simpl; try done; [intros [= <-]; by eexists|by destruct (is_i64 z)].
  - apply Forall_map, Forall_forall. intros [k v] Hkv. rewrite btree_entries_perm in Hkv.
    apply elem_of_map_to_list in Hkv. rewrite Hobj in Hkv. apply elem_of_list_to_map_2, elem_of_zip_r in Hkv.
    by eapply Forall_forall in Hexact.
Qed.

Lemma decode_nonfinite data row c enc max f :
  encode_stored_record data schema row c = Ok enc -> MFloat f ∈ row -> float_isfinite f = false ->
  Forall (fun v => exact_json (value_to_json v) = true) row ->
  encoded_uncompressed_len enc <= max -> encoded_uncompressed_len enc <= memory ->
  exists e, decode_stored_record (encoded_bytes enc) (whole_record c) schema c max = Err (JsonError e).
Proof.
  intros H Hf Hfin Hexact Hmax Hmem. unfold encode_stored_record, decode_stored_record in *.
  destruct (whole_record c).
  - crack H. ocase H. crack H. injection H as <-. simpl in *.
    assert (Hd : (if compressed c then decompress_payload a0 c max else Ok a0) = Ok a).
    { destruct (compressed c) eqn:Ec; [by eapply decompress_compress|].
      destruct c as [| | | |[]]; try discriminate; simpl in *; congruence. }
    rewrite Hd. simpl. destruct (nonfinite_unreadable data row a f) as [e He]; [done..|]. exists e. by rewrite He.
  - ocase H. crack H. injection H as <-. simpl in *.
    destruct (nonfinite_unreadable a row a0 f) as [e He]; [done..|]. exists e. by rewrite He.
Qed.
End RecordLaws.
