(* ===== verification/OrderedPipeline.v ===== *)
(** The bounded pipelines of the native writer ([SampleWritePipeline] of
    [src/src/dataset_rt/writer.rs] and [SourceListWritePipeline] of
    [writer/pipeline.rs]): jobs finish in any order, their results are committed in the
    order of their sequence numbers. Which of the running jobs finishes next, and whether
    a Python signal handler raises while the writer waits for it, is a parameter, the
    schedule. *)
From stdpp Require Import base tactics list numbers strings gmap.
From S2P Require Import Prelude Collections Records Seeds Native FileSystem.
Open Scope Z_scope.

(** How one wait of [receive_worker_result] ends: a job finishes, or the signal check
    between two timeouts raises. *)
Inductive wait :=
| JobFinishes (k : nat)
| SignalRaised (e : CacheError).

(** No signal handler raises while the writer waits. *)
Definition undisturbed (schedule : list wait) : Prop :=
  Forall (fun w => match w with JobFinishes _ => True | SignalRaised _ => False end) schedule.

Section Pipeline.
Context {E S : Type} (commit : E -> S -> io S) (overflow : CacheError).

(** The committer, results that arrived early, the next sequence to commit, running jobs
    and their bound, and the schedule. *)
Record pipeline := mk_pipeline {
  pl_state : S;
  pl_pending : gmap Z E;
  pl_next_sequence : Z;
  pl_in_flight : list (Z * E);
  pl_parallelism : nat;
  pl_schedule : list wait }.

Definition new_pipeline (s : S) (parallelism : nat) (schedule : list wait) : pipeline :=
  mk_pipeline s ∅ 0 [] parallelism schedule.

(** [commit_ready_samples] and [commit_ready_events]: commit while the next sequence is
    there; each round takes one result out of [pending]. *)
Fixpoint commit_ready (fuel : nat) (pl : pipeline) : io pipeline :=
  match pl_pending pl !! pl_next_sequence pl, fuel with
  | Some e, Datatypes.S fuel =>
      s ← commit e (pl_state pl);
      next ← io_result (ok_or (checked_add (pl_next_sequence pl) 1) overflow);
      commit_ready fuel (mk_pipeline s (delete (pl_next_sequence pl) (pl_pending pl)) next
        (pl_in_flight pl) (pl_parallelism pl) (pl_schedule pl))
  | _, _ => mret pl
  end.

(** The job that finishes next. *)
Definition finished_job (pl : pipeline) : option ((Z * E) * list (Z * E)) :=
  let choice := match head (pl_schedule pl) with Some (JobFinishes k) => k | _ => 0%nat end in
  let k := (choice mod length (pl_in_flight pl))%nat in
  match pl_in_flight pl !! k with
  | Some job => Some (job, take k (pl_in_flight pl) ++ drop (Datatypes.S k) (pl_in_flight pl))
  | None => None
  end.

(** [receive_worker_result]. *)
Definition receive_worker_result (pl : pipeline) : CacheResult ((Z * E) * list (Z * E)) :=
  match head (pl_schedule pl) with
  | Some (SignalRaised e) => Err e
  | _ => ok_or (finished_job pl) WorkerFailed
  end.

(** [complete_one]. *)
Definition complete_one (pl : pipeline) : io pipeline :=
  match receive_worker_result pl with
  | Err e => io_result (Err e)
  | Ok ((sequence, e), rest) =>
      match pl_pending pl !! sequence with
      | Some _ => io_result (Err WorkerFailed)
      | None =>
          commit_ready (Datatypes.S (size (pl_pending pl)))
            (mk_pipeline (pl_state pl) (<[sequence := e]> (pl_pending pl)) (pl_next_sequence pl) rest
               (pl_parallelism pl) (tail (pl_schedule pl)))
      end
  end.

(** [submit]. *)
Definition submit (sequence : Z) (e : E) (pl : pipeline) : io pipeline :=
  pl ← (if (length (pl_in_flight pl) =? pl_parallelism pl)%nat then complete_one pl else mret pl);
  mret (mk_pipeline (pl_state pl) (pl_pending pl) (pl_next_sequence pl) (pl_in_flight pl ++ [(sequence, e)])
          (pl_parallelism pl) (pl_schedule pl)).

(** The drain of [finish]. *)
Fixpoint drain_jobs (fuel : nat) (pl : pipeline) : io pipeline :=
  match pl_in_flight pl, fuel with
  | [], _ => mret pl
  | _, O => mret pl
  | _, Datatypes.S fuel => pl ← complete_one pl; drain_jobs fuel pl
  end.

Definition finish_pipeline (pl : pipeline) : io S :=
  pl ← drain_jobs (length (pl_in_flight pl)) pl;
  if bool_decide (pl_pending pl = ∅) then mret (pl_state pl) else io_result (Err WorkerFailed).

(** Events submitted in order. *)
Fixpoint submit_all (sequence : Z) (events : list E) (pl : pipeline) : io pipeline :=
  match events with
  | [] => mret pl
  | e :: rest =>
      pl ← submit sequence e pl;
      next ← io_result (ok_or (checked_add sequence 1) overflow);
      submit_all next rest pl
  end.

(** * The reference: commit one event after the other *)

Fixpoint commit_all (events : list E) (s : S) : io S :=
  match events with
  | [] => mret s
  | e :: rest => s ← commit e s; commit_all rest s
  end.

Lemma io_bind_assoc {A B D : Type} (m : io A) (f : A -> io B) (g : B -> io D) d :
  ((m ≫= f) ≫= g) d = (m ≫= fun a => f a ≫= g) d.
Proof. unfold mbind, io_bind. by destruct (m d) as [[a|e] d']. Qed.

Lemma io_bind_ext {A B : Type} (m : io A) (f g : A -> io B) d :
  (forall a d, f a d = g a d) -> (m ≫= f) d = (m ≫= g) d.
Proof. intros H. unfold mbind, io_bind. destruct (m d) as [[a|e] d']; [apply H|done]. Qed.

Lemma io_bind_run {A B : Type} (m m' : io A) (f : A -> io B) d : m d = m' d -> (m ≫= f) d = (m' ≫= f) d.
Proof. intros H. unfold mbind, io_bind. by rewrite H. Qed.

Lemma commit_all_app l1 : forall l2 s d, commit_all (l1 ++ l2) s d = (commit_all l1 s ≫= commit_all l2) d.
Proof.
  induction l1 as [|e l1 IH]; intros l2 s d; [done|]. cbn [commit_all app].
  rewrite io_bind_assoc. apply io_bind_ext. intros s' d'. apply IH.
Qed.

(** * The invariant *)

(** [remaining] are the events submitted and not committed, from the next sequence on;
    each waits in [pending] or runs. *)
Record ordered (remaining : list E) (pl : pipeline) : Prop := {
  or_bound : (0 < pl_parallelism pl)%nat;
  or_jobs : (length (pl_in_flight pl) <= pl_parallelism pl)%nat;
  or_width : 0 <= pl_next_sequence pl /\ pl_next_sequence pl + Z.of_nat (length remaining) <= U64_MAX;
  or_here : forall (i : nat) e, remaining !! i = Some e ->
    pl_pending pl !! (pl_next_sequence pl + Z.of_nat i) = Some e \/
    (pl_next_sequence pl + Z.of_nat i, e) ∈ pl_in_flight pl;
  or_pending : forall q e, pl_pending pl !! q = Some e ->
    pl_next_sequence pl <= q /\ remaining !! Z.to_nat (q - pl_next_sequence pl) = Some e /\
    q ∉ (pl_in_flight pl).*1;
  or_running : forall q e, (q, e) ∈ pl_in_flight pl ->
    pl_next_sequence pl <= q /\ remaining !! Z.to_nat (q - pl_next_sequence pl) = Some e;
  or_nodup : NoDup (pl_in_flight pl).*1;
  or_quiet : undisturbed (pl_schedule pl) }.

(** Nothing can be committed. *)
Definition blocked (pl : pipeline) : Prop := pl_pending pl !! pl_next_sequence pl = None.

Definition with_state (s : S) (pl : pipeline) : pipeline :=
  mk_pipeline s (pl_pending pl) (pl_next_sequence pl) (pl_in_flight pl) (pl_parallelism pl) (pl_schedule pl).

Lemma ordered_with_state remaining pl s : ordered remaining pl -> ordered remaining (with_state s pl).
Proof. by intros []. Qed.

(** The committed prefix leaves, the rest stays in order. *)
Lemma ordered_commit e remaining pl :
  ordered (e :: remaining) pl -> pl_pending pl !! pl_next_sequence pl = Some e ->
  ordered remaining (mk_pipeline (pl_state pl) (delete (pl_next_sequence pl) (pl_pending pl))
    (pl_next_sequence pl + 1) (pl_in_flight pl) (pl_parallelism pl) (pl_schedule pl)).
Proof.
  intros [Hb Hj [Hw0 Hw] Hh Hp Hr Hn Hq0] Hnext. split; simpl; try done.
  - simpl in Hw. lia.
  - intros i x Hi. specialize (Hh (Datatypes.S i) x Hi).
    replace (pl_next_sequence pl + Z.of_nat (Datatypes.S i)) with (pl_next_sequence pl + 1 + Z.of_nat i) in Hh by lia.
    rewrite lookup_delete_ne by lia. done.
  - intros q x Hq. apply lookup_delete_Some in Hq as [Hne Hq]. destruct (Hp q x Hq) as (Hle & Hx & Hout).
    split_and!; [lia| |done]. replace (Z.to_nat (q - pl_next_sequence pl))
      with (Datatypes.S (Z.to_nat (q - (pl_next_sequence pl + 1)))) in Hx by lia. done.
  - intros q x Hq. destruct (Hr q x Hq) as [Hle Hx].
    destruct (Hp _ _ Hnext) as (_ & _ & Hout).
    assert (q <> pl_next_sequence pl) by (intros ->; apply Hout; by apply (list_elem_of_fmap_2 fst) in Hq).
    split; [lia|]. replace (Z.to_nat (q - pl_next_sequence pl))
      with (Datatypes.S (Z.to_nat (q - (pl_next_sequence pl + 1)))) in Hx by lia. done.
Qed.

(** Committing what is ready commits a prefix of the remaining events, in order, and the
    choice of the prefix does not depend on the committer. *)
Lemma commit_ready_ok fuel : forall remaining pl, ordered remaining pl -> (size (pl_pending pl) <= fuel)%nat ->
  exists ready rest pl', remaining = ready ++ rest /\
    ordered rest pl' /\ blocked pl' /\
    (pl_in_flight pl' = pl_in_flight pl /\ pl_next_sequence pl' = pl_next_sequence pl + Z.of_nat (length ready) /\
     pl_parallelism pl' = pl_parallelism pl) /\
    forall s d, commit_ready fuel (with_state s pl) d = (commit_all ready s ≫= fun s => mret (with_state s pl')) d.
Proof.
  induction fuel as [|fuel IH]; intros remaining pl Ho Hf.
  - assert (pl_pending pl = ∅) as Hemp by (apply map_size_empty_inv; lia).
    exists [], remaining, pl. split_and!; [done|done| |done|simpl; lia|done|].
    + unfold blocked. by rewrite Hemp.
    + intros s d. simpl. by rewrite Hemp, lookup_empty.
  - destruct (pl_pending pl !! pl_next_sequence pl) as [e|] eqn:En.
    + pose proof (or_pending _ _ Ho _ _ En) as (_ & He & _). rewrite Z.sub_diag in He.
      destruct remaining as [|e' remaining]; [done|]. injection He as ->.
      pose proof (ordered_commit e remaining pl Ho En) as Ho'.
      destruct (IH remaining _ Ho') as (ready & rest & pl' & Er & Hrest & Hbl & (Hfl & Hnx & Hpar) & Hrun).
      { simpl. rewrite map_size_delete, En. simpl. lia. }
      exists (e :: ready), rest, pl'. split_and!; [by rewrite Er|done|done|done|rewrite Hnx; simpl; lia|done|].
      intros s d. cbn [commit_all commit_ready with_state pl_pending pl_next_sequence pl_state]. rewrite En, io_bind_assoc.
      apply io_bind_ext. intros s' d'.
      destruct (or_width _ _ Ho) as [Hw0 Hw]. simpl in Hw. unfold checked_add.
      destruct (Z.leb_spec (pl_next_sequence pl + 1) U64_MAX); [|lia]. apply Hrun.
    + exists [], remaining, pl. split_and!; try done; [simpl; lia|]. intros s d. cbn [commit_ready with_state pl_pending pl_next_sequence].
      by rewrite En.
Qed.

(** A job finishes. *)
Lemma finished_job_ok pl : pl_in_flight pl <> [] ->
  exists k job, pl_in_flight pl !! k = Some job /\
    finished_job pl = Some (job, take k (pl_in_flight pl) ++ drop (Datatypes.S k) (pl_in_flight pl)).
Proof.
  intros Hne. unfold finished_job. set (k := (_ mod _)%nat).
  assert (Hk : (k < length (pl_in_flight pl))%nat).
  { apply Nat.mod_upper_bound. by destruct (pl_in_flight pl). }
  destruct (lookup_lt_is_Some_2 _ _ Hk) as [job Hjob]. exists k, job. by rewrite Hjob.
Qed.

Lemma ordered_receive remaining pl k q e :
  ordered remaining pl -> pl_in_flight pl !! k = Some (q, e) ->
  pl_pending pl !! q = None /\
  ordered remaining (mk_pipeline (pl_state pl) (<[q := e]> (pl_pending pl)) (pl_next_sequence pl)
    (take k (pl_in_flight pl) ++ drop (Datatypes.S k) (pl_in_flight pl)) (pl_parallelism pl) (tail (pl_schedule pl))).
Proof.
  intros [Hb Hj Hw Hh Hp Hr Hn Hq0] Hk. pose proof (take_drop_middle _ _ _ Hk) as Emid.
  set (rest := take k (pl_in_flight pl) ++ drop (Datatypes.S k) (pl_in_flight pl)).
  assert (Hperm : pl_in_flight pl ≡ₚ (q, e) :: rest) by (rewrite <- Emid; symmetry; apply Permutation_middle).
  rewrite Hperm in Hn. simpl in Hn. apply NoDup_cons in Hn as [Hq Hn].
  assert (Hin : (q, e) ∈ pl_in_flight pl) by (rewrite Hperm; left).
  split; [destruct (pl_pending pl !! q) as [x|] eqn:Ex; [|done]; destruct (Hp _ _ Ex) as (_ & _ & Hout);
    by apply (list_elem_of_fmap_2 fst) in Hin|].
  split; simpl; try done.
  - apply Permutation_length in Hperm. simpl in Hperm. lia.
  - intros i x Hi. destruct (decide (q = pl_next_sequence pl + Z.of_nat i)) as [->|Hne].
    + left. rewrite lookup_insert_eq. destruct (Hr _ _ Hin) as [_ He].
      replace (Z.to_nat (pl_next_sequence pl + Z.of_nat i - pl_next_sequence pl)) with i in He by lia. congruence.
    + rewrite lookup_insert_ne by done. destruct (Hh i x Hi) as [H|H]; [by left|right].
      rewrite Hperm in H. apply elem_of_cons in H as [[= H _]|H]; [by rewrite H in Hne|done].
  - intros r x. destruct (decide (q = r)) as [<-|Hne].
    + rewrite lookup_insert_eq. intros [= <-]. destruct (Hr _ _ Hin). done.
    + rewrite lookup_insert_ne by done. intros Hx. destruct (Hp _ _ Hx) as (H1 & H2 & H3). split_and!; [done|done|].
      intros H. apply H3. rewrite Hperm. simpl. by right.
  - intros r x Hx. apply Hr. rewrite Hperm. by right.
  - destruct Hq0; [constructor|done].
Qed.

Lemma receive_quiet pl : undisturbed (pl_schedule pl) -> receive_worker_result pl = ok_or (finished_job pl) WorkerFailed.
Proof. unfold receive_worker_result. intros Hq. by destruct Hq as [|[]]. Qed.

Lemma complete_one_ok remaining pl : ordered remaining pl -> pl_in_flight pl <> [] ->
  exists ready rest pl', remaining = ready ++ rest /\ ordered rest pl' /\ blocked pl' /\
    (length (pl_in_flight pl) = Datatypes.S (length (pl_in_flight pl')) /\
     pl_next_sequence pl' = pl_next_sequence pl + Z.of_nat (length ready) /\ pl_parallelism pl' = pl_parallelism pl) /\
    forall s d, complete_one (with_state s pl) d = (commit_all ready s ≫= fun s => mret (with_state s pl')) d.
Proof.
  intros Ho Hne. destruct (finished_job_ok pl Hne) as (k & [q e] & Hk & Hjob).
  destruct (ordered_receive remaining pl k q e Ho Hk) as [Hnone Ho'].
  destruct (commit_ready_ok (Datatypes.S (size (pl_pending pl))) _ _ Ho') as (ready & rest & pl' & Er & Hr & Hb & (Hf & Hnx & Hpar) & Hrun).
  { simpl. rewrite map_size_insert, Hnone. simpl. lia. }
  exists ready, rest, pl'. split_and!; [done|done|done| |done|done|].
  - rewrite Hf. simpl. pose proof (lookup_lt_Some _ _ _ Hk). rewrite length_app, length_take, length_drop. lia.
  - intros s d. rewrite <- Hrun. unfold complete_one.
    change (receive_worker_result (with_state s pl)) with (receive_worker_result pl).
    rewrite (receive_quiet _ (or_quiet _ _ Ho)), Hjob. simpl. by rewrite Hnone.
Qed.

(** With no job left nothing remains. *)
Lemma drained remaining pl : ordered remaining pl -> blocked pl -> pl_in_flight pl = [] ->
  remaining = [] /\ pl_pending pl = ∅.
Proof.
  intros Ho Hbl Ej. assert (remaining = []) as ->.
  { destruct remaining as [|e remaining]; [done|]. exfalso. unfold blocked in Hbl.
    destruct (or_here _ _ Ho 0%nat e eq_refl) as [H|H]; rewrite Z.add_0_r in H; [congruence|].
    rewrite Ej in H. by apply elem_of_nil in H. }
  split; [done|]. apply map_eq. intros q. rewrite lookup_empty. destruct (pl_pending pl !! q) eqn:Eq; [|done].
  by destruct (or_pending _ _ Ho _ _ Eq) as (_ & ? & _).
Qed.

(** Draining commits everything that remains. *)
Lemma finish_pipeline_ok remaining pl : ordered remaining pl -> blocked pl ->
  forall s d, finish_pipeline (with_state s pl) d = commit_all remaining s d.
Proof.
  intros Ho Hbl s d. unfold finish_pipeline. simpl.
  remember (length (pl_in_flight pl)) as fuel eqn:Hfuel. revert remaining pl Ho Hbl Hfuel s d.
  induction fuel as [|fuel IH]; intros remaining pl Ho Hbl Hfuel s d.
  - destruct (pl_in_flight pl) as [|job jobs] eqn:Ej; [|discriminate].
    destruct (drained remaining pl Ho Hbl Ej) as [-> Hp].
    cbn [drain_jobs]. simpl. unfold mbind, io_bind, mret, io_ret. simpl. rewrite Ej. simpl. rewrite Hp. by rewrite bool_decide_true.
  - destruct (complete_one_ok remaining pl Ho) as (ready & rest & pl' & -> & Ho' & Hbl' & (Hlen & _) & Hrun);
      [by destruct (pl_in_flight pl)|].
    rewrite commit_all_app. cbn [drain_jobs]. simpl pl_in_flight.
    destruct (pl_in_flight pl) as [|job jobs] eqn:Ej; [discriminate|].
    rewrite !io_bind_assoc. rewrite (io_bind_run _ _ _ d (Hrun s d)), io_bind_assoc. apply io_bind_ext. intros s' d'.
    rewrite <- (IH rest pl' Ho' Hbl') by (simpl in *; lia). done.
Qed.

Lemma ordered_submit remaining pl e n :
  ordered remaining pl -> (length (pl_in_flight pl) < pl_parallelism pl)%nat ->
  n = pl_next_sequence pl + Z.of_nat (length remaining) -> n < U64_MAX ->
  ordered (remaining ++ [e]) (mk_pipeline (pl_state pl) (pl_pending pl) (pl_next_sequence pl)
    (pl_in_flight pl ++ [(n, e)]) (pl_parallelism pl) (pl_schedule pl)).
Proof.
  intros [Hb Hj [Hw0 Hw] Hh Hp Hr Hn Hq0] Hroom Hlast Hmax.
  assert (Hlt : forall q x, (q, x) ∈ pl_in_flight pl -> q < n).
  { intros q x Hq. destruct (Hr q x Hq) as [Hle Hx]. apply lookup_lt_Some in Hx. lia. }
  split; simpl; try done.
  - rewrite length_app. simpl. lia.
  - rewrite length_app. simpl. lia.
  - intros i x Hi. rewrite elem_of_app, list_elem_of_singleton. destruct (decide (i < length remaining)%nat).
    + rewrite lookup_app_l in Hi by done. destruct (Hh i x Hi); auto.
    + pose proof (lookup_lt_Some _ _ _ Hi) as Hl. rewrite length_app in Hl. simpl in Hl.
      assert (i = length remaining) as -> by lia. rewrite list_lookup_middle in Hi by done. injection Hi as <-.
      right. right. f_equal. lia.
  - intros q x Hq. destruct (Hp q x Hq) as (Hle & Hx & Hout). split_and!; [done|by apply lookup_app_l_Some|].
    rewrite fmap_app, elem_of_app. intros [?|H]; [done|]. simpl in H. apply list_elem_of_singleton in H.
    apply lookup_lt_Some in Hx. lia.
  - intros q x Hq. apply elem_of_app in Hq as [Hq|Hq].
    + destruct (Hr q x Hq) as [Hle Hx]. split; [done|by apply lookup_app_l_Some].
    + apply list_elem_of_singleton in Hq. injection Hq as -> ->. split; [lia|].
      replace (Z.to_nat (n - pl_next_sequence pl)) with (length remaining) by lia. by rewrite list_lookup_middle.
  - rewrite fmap_app. apply NoDup_app. split_and!; [done| |by apply NoDup_singleton].
    intros q Hq Hq'. simpl in Hq'. apply list_elem_of_singleton in Hq'. subst q.
    apply list_elem_of_fmap in Hq as ([q x] & Eq & Hq). simpl in Eq. apply Hlt in Hq. lia.
Qed.

(** Before a submission there is room for it. *)
Lemma make_room_ok remaining pl : ordered remaining pl -> blocked pl ->
  exists ready rest pl', remaining = ready ++ rest /\ ordered rest pl' /\ blocked pl' /\
    (length (pl_in_flight pl') < pl_parallelism pl')%nat /\
    pl_next_sequence pl' = pl_next_sequence pl + Z.of_nat (length ready) /\
    forall s d, (if (length (pl_in_flight pl) =? pl_parallelism pl)%nat then complete_one (with_state s pl)
                 else mret (with_state s pl)) d = (commit_all ready s ≫= fun s => mret (with_state s pl')) d.
Proof.
  intros Ho Hbl. pose proof (or_bound _ _ Ho) as H0. pose proof (or_jobs _ _ Ho) as Hj.
  destruct (Nat.eqb_spec (length (pl_in_flight pl)) (pl_parallelism pl)) as [Hfull|Hfull].
  - destruct (complete_one_ok remaining pl Ho) as (ready & rest & pl' & Er & Ho' & Hbl' & (Hlen & Hnx & Hpar) & Hrun);
      [by destruct (pl_in_flight pl); simpl in *; [lia|]|].
    exists ready, rest, pl'. split_and!; try done. lia.
  - exists [], remaining, pl. split_and!; try done; [lia|simpl; lia].
Qed.

Lemma submit_all_ok events : forall n remaining pl s d,
  ordered remaining pl -> blocked pl -> n = pl_next_sequence pl + Z.of_nat (length remaining) ->
  n + Z.of_nat (length events) <= U64_MAX ->
  (submit_all n events (with_state s pl) ≫= finish_pipeline) d = commit_all (remaining ++ events) s d.
Proof.
  induction events as [|e events IH]; intros n remaining pl s d Ho Hbl Hn Hmax.
  - rewrite app_nil_r. unfold mbind, io_bind. simpl. by apply finish_pipeline_ok.
  - simpl length in Hmax. destruct (make_room_ok remaining pl Ho Hbl)
      as (ready & rest & pl' & -> & Ho' & Hbl' & Hroom & Hnx & Hrun).
    rewrite length_app in Hn. cbn [submit_all]. unfold submit. simpl pl_in_flight. simpl pl_parallelism.
    rewrite !io_bind_assoc, (io_bind_run _ _ _ d (Hrun s d)), io_bind_assoc, <- app_assoc, commit_all_app.
    apply io_bind_ext. intros s' d'.
    pose proof (ordered_submit rest pl' e n Ho' Hroom ltac:(lia) ltac:(lia)) as Hs.
    assert (Hc : checked_add n 1 = Some (n + 1)) by (unfold checked_add; by destruct (Z.leb_spec (n + 1) U64_MAX); [|lia]).
    rewrite Hc. rewrite (app_assoc rest [e] events : rest ++ e :: events = (rest ++ [e]) ++ events).
    rewrite <- (IH (n + 1) (rest ++ [e]) _ s' d' Hs); [done|done|simpl; rewrite length_app; simpl; lia|lia].
Qed.

(** Whatever the order in which the jobs finish, the pipeline commits the events in the
    order they were submitted: its result, its error and its effects are those of the
    reference. *)
Lemma pipeline_sequential events s parallelism schedule d :
  (0 < parallelism)%nat -> undisturbed schedule -> Z.of_nat (length events) <= U64_MAX ->
  (submit_all 0 events (new_pipeline s parallelism schedule) ≫= finish_pipeline) d = commit_all events s d.
Proof.
  intros Hp Hq Hlen. apply (submit_all_ok events 0 [] (new_pipeline s parallelism schedule) s d); try done.
  split; simpl; try done; try lia; [by intros q e ?%elem_of_nil|constructor].
Qed.

(** * What commits preserve the pipeline preserves *)

Section Preserves.
Context (Rel : store -> store -> Prop) `{!PreOrder Rel} (I : S -> store -> Prop) (G : E -> store -> Prop).
Context (Gmono : forall e s s', Rel s s' -> G e s -> G e s').
Context (Hcommit : forall e st s, G e s -> I st s -> keeps Rel s I (commit e st)).

(** The committer's invariant, and good events only. *)
Record holds (pl : pipeline) (s : store) : Prop := {
  hl_state : I (pl_state pl) s;
  hl_pending : map_Forall (fun _ e => G e s) (pl_pending pl);
  hl_running : Forall (fun job => G job.2 s) (pl_in_flight pl) }.

Lemma good_moves s s' (pending : gmap Z E) (running : list (Z * E)) : Rel s s' ->
  map_Forall (fun _ e => G e s) pending -> Forall (fun job => G job.2 s) running ->
  map_Forall (fun _ e => G e s') pending /\ Forall (fun job => G job.2 s') running.
Proof.
  intros Hm Hp Hr. split; [eapply map_Forall_impl; [exact Hp|]; simpl; eauto|eapply Forall_impl; [exact Hr|]; simpl; eauto].
Qed.

Lemma holds_moves pl st s s' : Rel s s' -> I st s' -> holds pl s ->
  holds (mk_pipeline st (pl_pending pl) (pl_next_sequence pl) (pl_in_flight pl) (pl_parallelism pl) (pl_schedule pl)) s'.
Proof. intros Hm Hi [_ Hp Hr]. destruct (good_moves s s' _ _ Hm Hp Hr). by split. Qed.

Lemma commit_ready_keeps fuel : forall pl s, holds pl s -> keeps Rel s holds (commit_ready fuel pl).
Proof.
  induction fuel as [|fuel IH]; intros pl s [Hs Hp Hr]; cbn [commit_ready].
  - destruct (pl_pending pl !! pl_next_sequence pl); by apply (keeps_ret _).
  - destruct (pl_pending pl !! pl_next_sequence pl) as [e|] eqn:En; [|by apply (keeps_ret _)].
    eapply (keeps_bind _); [apply Hcommit; [by apply (Hp _ _ En)|done]|]. intros st s' Hm Hst.
    eapply (keeps_bind _ _ _ _ (fun _ => I st)); [apply (keeps_result _); done|]. intros n s2 Hm2 Hst2.
    destruct (good_moves s s2 _ _ (transitivity Hm Hm2) Hp Hr).
    apply IH. split; simpl; [done|by apply map_Forall_delete|done].
Qed.

Lemma complete_one_keeps pl s : holds pl s -> keeps Rel s holds (complete_one pl).
Proof.
  intros [Hs Hp Hr]. unfold complete_one.
  destruct (receive_worker_result pl) as [[[q e] rest]|] eqn:En; [|by apply (keeps_result _)].
  destruct (pl_pending pl !! q); [by apply (keeps_result _)|]. apply commit_ready_keeps.
  assert (Hj : exists k, pl_in_flight pl !! k = Some (q, e) /\ rest = take k (pl_in_flight pl) ++ drop (Datatypes.S k) (pl_in_flight pl)).
  { unfold receive_worker_result, finished_job in En. destruct (head (pl_schedule pl)) as [[]|]; try discriminate;
      destruct (pl_in_flight pl !! _) as [job|] eqn:Ej; try discriminate; simplify_eq/=; eauto. }
  destruct Hj as (k & Hk & ->). split; simpl; [done| |].
  - apply map_Forall_insert_2; [|done]. by apply (Forall_lookup_1 _ _ _ _ Hr Hk).
  - apply Forall_app. split; [by apply Forall_take|by apply Forall_drop].
Qed.

Lemma submit_keeps q e pl s : G e s -> holds pl s -> keeps Rel s holds (submit q e pl).
Proof.
  intros He Hs. unfold submit. eapply (keeps_bind _ _ _ _ holds).
  - destruct (_ =? _)%nat; [by apply complete_one_keeps|by apply (keeps_ret _)].
  - intros pl' s' Hm [H1 H2 H3]. apply (keeps_ret _). split; simpl; [done|done|]. apply Forall_app.
    split; [done|]. repeat constructor. simpl. by eapply Gmono.
Qed.

Lemma drain_keeps fuel : forall pl s, holds pl s -> keeps Rel s holds (drain_jobs fuel pl).
Proof.
  induction fuel as [|fuel IH]; intros pl s Hs; cbn [drain_jobs]; destruct (pl_in_flight pl); try by apply (keeps_ret _).
  eapply (keeps_bind _); [by apply complete_one_keeps|]. intros. by apply IH.
Qed.

Lemma finish_pipeline_keeps pl s : holds pl s -> keeps Rel s I (finish_pipeline pl).
Proof.
  intros Hs. unfold finish_pipeline. eapply (keeps_bind _); [by apply drain_keeps|]. intros pl' s' _ [Hi _ _].
  case_bool_decide; [by apply (keeps_ret _)|by apply (keeps_result _)].
Qed.

Lemma new_pipeline_holds st parallelism schedule s : I st s -> holds (new_pipeline st parallelism schedule) s.
Proof. intros Hs. split; simpl; [done|apply map_Forall_empty|constructor]. Qed.
End Preserves.
End Pipeline.
