(* ===== verification/IndexFile.v ===== *)
(** The index of a cache directory ([src/src/dataset_rt/storage/index.rs] and the row
    functions of [storage.rs]): one fixed-width little-endian row per sample, addressed
    with checked arithmetic. *)
From stdpp Require Import base tactics list numbers strings gmap list_numbers.
From S2P Require Import Prelude Collections Records Seeds Native FileSystem RecordCodec.
Open Scope Z_scope.

Record IndexEntry := mk_index_entry {
  ix_shard_id : Z;
  ix_offset : Z;
  ix_byte_len : Z }.

#[export] Instance IndexEntry_eq_dec : EqDecision IndexEntry.
Proof. solve_decision. Defined.

Definition INDEX_ROW_BYTES : Z := 24.

(** The row [write_index_file] writes for an entry, and the file of all entries. *)
Definition index_row (e : IndexEntry) : list Z :=
  le_bytes 8 (ix_shard_id e) ++ le_bytes 8 (ix_offset e) ++ le_bytes 8 (ix_byte_len e).

Definition index_bytes (index : list IndexEntry) : list Z := concat (map index_row index).

(** [index_field] and [read_index_entry]. *)
Definition index_field (bytes : list Z) (start stop : Z) : CacheResult (list Z) := record_range bytes start stop.

Definition read_index_entry (bytes : list Z) : CacheResult IndexEntry :=
  shard_id ← index_field bytes 0 8 ≫= read_u64;
  offset ← index_field bytes 8 16 ≫= read_u64;
  byte_len ← index_field bytes 16 24 ≫= read_u64;
  Ok (mk_index_entry shard_id offset byte_len).

(** [MappedIndex]: the bytes of its mapping; an empty file has none. *)
Definition MappedIndex : Type := list Z.

(** [MappedIndex::open] of a file with these bytes. *)
Definition mapped_index (bytes : list Z) : CacheResult MappedIndex :=
  if negb (byte_count bytes mod INDEX_ROW_BYTES =? 0)
  then Err (InvalidCache (lit "index length is not divisible by row size"))
  else Ok bytes.

(** [len()]. *)
Definition index_len (m : MappedIndex) : Z := byte_count m / INDEX_ROW_BYTES.

(** [get(position)]. *)
Definition index_get (m : MappedIndex) (position : Z) : CacheResult IndexEntry :=
  row ← ok_or
    (start ← checked_mul position INDEX_ROW_BYTES;
     remaining ← get_range m start (byte_count m);
     get_range remaining 0 INDEX_ROW_BYTES)
    (InvalidCache (lit "sample index " ++ dec position ++ lit " is out of range"));
  read_index_entry row.

(** [iter()]: the whole rows of the mapping. *)
Fixpoint chunks (fuel : nat) (m : list Z) : list (list Z) :=
  match fuel with
  | O => []
  | S fuel => if byte_count m <? INDEX_ROW_BYTES then [] else take 24 m :: chunks fuel (drop 24 m)
  end.

Definition index_iter (m : MappedIndex) : list (CacheResult IndexEntry) :=
  map read_index_entry (chunks (length m) m).

(** * Lemmas *)

Lemma checked_mul_row position : 0 <= position -> position * 24 <= U64_MAX ->
  checked_mul position INDEX_ROW_BYTES = Some (position * 24).
Proof. intros. unfold checked_mul, INDEX_ROW_BYTES. by zcase; [|lia]. Qed.

Lemma get_range_some (m : list Z) start stop : 0 <= start <= stop -> stop <= byte_count m ->
  get_range m start stop = Some (slice start (stop - start) m).
Proof. intros. unfold get_range. by repeat (zcase; [|lia]). Qed.

Lemma get_range_none (m : list Z) start stop : stop < start \/ byte_count m < stop -> get_range m start stop = None.
Proof. intros. unfold get_range. zcase; [|done]. zcase; [lia|done]. Qed.

Lemma byte_count_slice (m : list Z) start n : 0 <= start -> 0 <= n -> start + n <= byte_count m ->
  byte_count (slice start n m) = n.
Proof. intros. unfold byte_count, slice in *. rewrite length_take, length_drop. lia. Qed.

Lemma slice_of_slice (m : list Z) start n k : 0 <= start -> 0 <= k <= n ->
  slice 0 k (slice start n m) = slice start k m.
Proof. intros. unfold slice. change (Z.to_nat 0) with 0%nat. rewrite drop_0, take_take. f_equal. lia. Qed.

(** The row of a position, when the mapping has it. *)
Lemma index_get_in m position : 0 <= position -> position * 24 + 24 <= byte_count m ->
  position * 24 <= U64_MAX ->
  index_get m position = read_index_entry (slice (position * 24) 24 m).
Proof.
  intros Hp Hm Hu. unfold index_get. rewrite checked_mul_row by done. cbn [mbind option_bind].
  rewrite get_range_some by lia. cbn [mbind option_bind].
  rewrite get_range_some by (rewrite ?byte_count_slice; unfold INDEX_ROW_BYTES; lia).
  unfold INDEX_ROW_BYTES. by rewrite slice_of_slice by lia.
Qed.

Lemma index_get_out m position : 0 <= position -> byte_count m < position * 24 + 24 ->
  index_get m position = Err (InvalidCache (lit "sample index " ++ dec position ++ lit " is out of range")).
Proof.
  intros Hp Hm. unfold index_get, checked_mul, INDEX_ROW_BYTES. zcase; [|done]. cbn [mbind option_bind].
  destruct (Z.leb_spec (position * 24) (byte_count m)); [|by rewrite get_range_none by lia].
  rewrite (get_range_some m) by lia. cbn [mbind option_bind].
  by rewrite get_range_none by (rewrite byte_count_slice; lia).
Qed.

Lemma chunks_lookup fuel : forall m i, (length m <= fuel)%nat -> Z.of_nat i * 24 + 24 <= byte_count m ->
  chunks fuel m !! i = Some (slice (Z.of_nat i * 24) 24 m).
Proof.
  unfold byte_count. induction fuel as [|fuel IH]; intros m i Hf Hi; [lia|].
  cbn [chunks]. unfold byte_count, INDEX_ROW_BYTES. zcase; [lia|]. destruct i as [|i]; simpl; [done|].
  rewrite IH by (rewrite length_drop; lia). unfold slice. rewrite drop_drop. do 3 f_equal. lia.
Qed.

Lemma chunks_length fuel : forall m, (length m <= fuel)%nat ->
  Z.of_nat (length (chunks fuel m)) = byte_count m / 24.
Proof.
  unfold byte_count. induction fuel as [|fuel IH]; intros m Hf; [destruct m; [done|simpl in Hf; lia]|].
  cbn [chunks]. unfold byte_count, INDEX_ROW_BYTES. zcase; cbn [length]; [by rewrite Z.div_small by lia|].
  rewrite Nat2Z.inj_succ, IH by (rewrite length_drop; lia). rewrite length_drop.
  rewrite Nat2Z.inj_sub by lia. dlia.
Qed.

(** A slice of eight bytes that are bytes reads as an integer of 64 bits. *)
Lemma read_u64_slice (m : list Z) start : 0 <= start -> start + 8 <= byte_count m ->
  read_u64 (slice start 8 m) = Ok (from_le_bytes (slice start 8 m)).
Proof. intros. unfold read_u64. by rewrite byte_count_slice by lia. Qed.

Lemma read_index_entry_total (row : list Z) : byte_count row = 24 -> exists e, read_index_entry row = Ok e.
Proof.
  intros Hr. unfold read_index_entry, index_field, record_range.
  rewrite !get_range_some by lia. simpl ok_or.
  unfold mbind, cache_bind. rewrite !read_u64_slice by (rewrite ?Hr; simpl; lia). by eexists.
Qed.

Lemma index_row_length e : byte_count (index_row e) = 24.
Proof. unfold index_row. rewrite !byte_count_app, !byte_count_le by lia. done. Qed.

(** An entry whose fields have 64 bits. *)
Definition entry_u64 (e : IndexEntry) : Prop :=
  is_u64 (ix_shard_id e) /\ is_u64 (ix_offset e) /\ is_u64 (ix_byte_len e).

Lemma read_index_row e : entry_u64 e -> read_index_entry (index_row e) = Ok e.
Proof.
  intros (H1 & H2 & H3). unfold read_index_entry, index_field, record_range, index_row.
  pose proof (fun z => byte_count_le 8 z ltac:(lia)) as H8.
  rewrite (get_range_front (le_bytes 8 (ix_shard_id e))) by (by rewrite H8).
  rewrite (get_range_middle _ (le_bytes 8 (ix_offset e)) _ 8 16) by (by rewrite ?H8).
  rewrite (app_assoc (le_bytes 8 (ix_shard_id e))), (get_range_back _ _ 16 24) by (by rewrite ?byte_count_app, ?H8).
  simpl. rewrite !read_u64_le by done. by destruct e.
Qed.

Lemma index_bytes_length index : byte_count (index_bytes index) = 24 * Z.of_nat (length index).
Proof.
  induction index as [|e index IH]; [done|]. unfold index_bytes in *. simpl concat.
  rewrite byte_count_app, IH, index_row_length. simpl length. lia.
Qed.

Lemma index_bytes_slice index : forall i e, index !! i = Some e ->
  slice (Z.of_nat i * 24) 24 (index_bytes index) = index_row e.
Proof.
  induction index as [|e' index IH]; intros i e Hi; [done|]. unfold index_bytes. simpl concat.
  fold (index_bytes index). pose proof (index_row_length e') as Hl. unfold byte_count in Hl.
  destruct i as [|i]; simpl in Hi.
  - injection Hi as ->. unfold slice. rewrite drop_0, take_app_le by lia. apply take_ge. lia.
  - rewrite <- (IH i e Hi). unfold slice. rewrite drop_app_ge by lia. do 2 f_equal. lia.
Qed.

(** The index written for entries opens with them. *)
Lemma mapped_index_bytes index : Forall entry_u64 index ->
  exists m, mapped_index (index_bytes index) = Ok m /\ index_len m = Z.of_nat (length index) /\
    index_iter m = map Ok index.
Proof.
  intros He. exists (index_bytes index). unfold mapped_index, index_len, INDEX_ROW_BYTES.
  pose proof (index_bytes_length index) as Hl. rewrite Hl.
  destruct (Z.eqb_spec (24 * Z.of_nat (length index) mod 24) 0) as [H0|H0]; [|dlia]. simpl.
  split_and!; [done|dlia|]. unfold index_iter. apply list_eq. intros i. change (map ?f ?l) with (f <$> l).
  rewrite !list_lookup_fmap. destruct (index !! i) as [e|] eqn:E.
  + pose proof (lookup_lt_Some _ _ _ E). rewrite chunks_lookup by (done || lia). simpl.
    rewrite (index_bytes_slice _ _ _ E). f_equal. apply read_index_row. by eapply Forall_lookup in He.
  + apply lookup_ge_None in E. rewrite lookup_ge_None_2; [done|].
    pose proof (chunks_length (length (index_bytes index)) (index_bytes index) ltac:(lia)). dlia.
Qed.

Lemma mapped_index_written index : mapped_index (index_bytes index) = Ok (index_bytes index).
Proof.
  unfold mapped_index, INDEX_ROW_BYTES. rewrite index_bytes_length.
  destruct (Z.eqb_spec (24 * Z.of_nat (length index) mod 24) 0) as [H0|H0]; [done|dlia].
Qed.

Lemma index_get_written index (i : nat) e :
  Forall entry_u64 index -> 24 * Z.of_nat (length index) <= U64_MAX -> index !! i = Some e ->
  index_get (index_bytes index) (Z.of_nat i) = Ok e.
Proof.
  intros He Hu Hi. pose proof (lookup_lt_Some _ _ _ Hi).
  rewrite index_get_in by (rewrite ?index_bytes_length; lia). rewrite (index_bytes_slice _ _ _ Hi).
  apply read_index_row. by eapply Forall_lookup in He.
Qed.

(** * Addressing *)

(** C25. Index rows are addressed safely whatever the file holds: an index opens exactly when
    its length is a multiple of the row size, and then every position below its length gives
    the row that scanning gives there, while every other 64-bit position, those whose byte
    offset overflows included, is refused; and the index written for any entries opens with
    exactly those entries. *)
Theorem index_addressing (bytes : list Z) :
  (match mapped_index bytes with
   | Ok m =>
       byte_count bytes mod 24 = 0 /\ Z.of_nat (length (index_iter m)) = index_len m /\
       (forall position, 0 <= position -> byte_count bytes <= U64_MAX ->
          if position <? index_len m
          then exists e, index_get m position = Ok e /\ index_iter m !! Z.to_nat position = Some (Ok e)
          else index_get m position =
               Err (InvalidCache (lit "sample index " ++ dec position ++ lit " is out of range")))
   | Err _ => byte_count bytes mod 24 <> 0
   end) /\
  (forall index, Forall entry_u64 index ->
     exists m, mapped_index (index_bytes index) = Ok m /\ index_len m = Z.of_nat (length index) /\
       index_iter m = map Ok index).
Proof.
  split.
  - unfold mapped_index, INDEX_ROW_BYTES. destruct (Z.eqb_spec (byte_count bytes mod 24) 0) as [H0|H0]; [|done].
    simpl. split_and!; [done| |].
    { unfold index_iter. rewrite length_map. by rewrite chunks_length. }
    intros position Hp Hu. unfold index_len, INDEX_ROW_BYTES. zcase.
    + rewrite index_get_in by dlia. destruct (read_index_entry_total (slice (position * 24) 24 bytes)) as [e He].
      { rewrite byte_count_slice; dlia. }
      exists e. split; [done|]. unfold index_iter. change (map ?f ?l) with (f <$> l).
      rewrite list_lookup_fmap, chunks_lookup, Z2Nat.id by (done || dlia). simpl. by rewrite He.
    + apply index_get_out; [done|]. dlia.
  - intros index. apply mapped_index_bytes.
Qed.
