(* ===== verification/MetadataFile.v ===== *)
(** The metadata table of a cache directory: [write_metadata_file], its batching, and
    [read_metadata_file] of [src/src/dataset_rt/storage.rs]. The Arrow library is the
    class [ArrowFiles]. *)
From stdpp Require Import base tactics list numbers strings gmap.
From S2P Require Import Prelude Collections Records Binary64 Config Seeds Native Metadata FileSystem RecordCodec.
Open Scope Z_scope.

(** * Arrays and batches *)

(** Arrays of the four stored kinds; an array of another type by its length and its
    number of nulls. *)
Inductive Array :=
| BooleanArray (values : list (option bool))
| Int64Array (values : list (option Z))
| Float64Array (values : list (option pyfloat))
| StringArray (values : list (option pystr))
| ForeignArray (ty : ArrowType) (len nulls : Z).

Definition array_type (a : Array) : ArrowType :=
  match a with
  | BooleanArray _ => Boolean | Int64Array _ => Int64 | Float64Array _ => Float64
  | StringArray _ => Utf8 | ForeignArray ty _ _ => ty
  end.

Definition array_len (a : Array) : Z :=
  match a with
  | BooleanArray v => Z.of_nat (length v) | Int64Array v => Z.of_nat (length v)
  | Float64Array v => Z.of_nat (length v) | StringArray v => Z.of_nat (length v)
  | ForeignArray _ len _ => len
  end.

Definition nulls_in {A : Type} (v : list (option A)) : Z := Z.of_nat (length (filter (fun x => x = None) v)).

Definition null_count (a : Array) : Z :=
  match a with
  | BooleanArray v => nulls_in v | Int64Array v => nulls_in v
  | Float64Array v => nulls_in v | StringArray v => nulls_in v
  | ForeignArray _ _ nulls => nulls
  end.

Record RecordBatch := mk_batch { batch_fields : list (pystr * ArrowType); batch_columns : list Array }.

Definition batch_rows (b : RecordBatch) : Z :=
  match batch_columns b with a :: _ => array_len a | [] => 0 end.

(** [RecordBatch::try_new], and the bytes of an IPC file with a schema and its batches;
    a reader gets the batches one by one. *)
Class ArrowFiles := {
  try_new : list (pystr * ArrowType) -> list Array -> result RecordBatch pystr;
  ipc_write : list (pystr * ArrowType) -> list RecordBatch -> unwound (result (list Z) pystr);
  ipc_read : list Z -> unwound (result (list (result RecordBatch pystr)) pystr) }.

(** A batch needs at least one column, and columns of the types of its schema and of one
    length; a file is readable as the batches it was written with. *)
Class ArrowFilesLaws (A : ArrowFiles) : Prop := {
  try_new_ok : forall fields columns n,
    columns <> [] -> Forall2 (fun f a => array_type a = f.2) fields columns ->
    Forall (fun a => array_len a = n) columns ->
    try_new fields columns = Ok (mk_batch fields columns);
  try_new_empty : forall fields b, try_new fields [] <> Ok b;
  ipc_writes : forall fields batches, Forall (fun b => batch_fields b = fields) batches ->
    exists bytes, ipc_write fields batches = Finished (Ok bytes);
  ipc_reads : forall fields batches bytes,
    ipc_write fields batches = Finished (Ok bytes) -> ipc_read bytes = Finished (Ok (map Ok batches)) }.

(** * Writing *)

(** [value.len()]: bytes of a string in UTF-8. *)
Definition len_utf8 (c : Z) : Z :=
  if c <? 0x80 then 1 else if c <? 0x800 then 2 else if c <? 0x10000 then 3 else 4.
Definition str_len (s : pystr) : Z := Zsum (map len_utf8 s).

Definition I32_MAX : Z := 2 ^ 31 - 1.

(** The inner loop of [metadata_batch_len]: string bytes of one row. *)
Fixpoint row_string_bytes (row : list MetadataValue) (row_bytes : Z) : CacheResult Z :=
  match row with
  | [] => Ok row_bytes
  | MString value :: rest =>
      if I32_MAX <? str_len value
      then Err (InvalidInput (lit "metadata string exceeds Arrow UTF-8 offset limit"))
      else row_bytes ← ok_or (checked_add row_bytes (str_len value))
                         (InvalidInput (lit "metadata row byte length overflowed usize"));
           row_string_bytes rest row_bytes
  | _ :: rest => row_string_bytes rest row_bytes
  end.

(** The outer loop: rows of one batch, at least one. *)
Fixpoint scan_batch (rows : list (list MetadataValue)) (max_string_bytes bytes count : Z) : CacheResult Z :=
  match rows with
  | [] => Ok count
  | row :: rest =>
      row_bytes ← row_string_bytes row 0;
      if (0 <? count) && (Z.max 0 (max_string_bytes - bytes) <? row_bytes) then Ok count
      else
        bytes ← ok_or (checked_add bytes row_bytes)
                  (InvalidInput (lit "metadata batch byte length overflowed usize"));
        scan_batch rest max_string_bytes bytes (count + 1)
  end.

Definition metadata_batch_len (rows : list (list MetadataValue)) (max_rows max_string_bytes : Z) : CacheResult Z :=
  scan_batch (take (Z.to_nat max_rows) rows) max_string_bytes 0 0.

Definition MAX_BATCH_ROWS : Z := 65536.
Definition MAX_BATCH_STRING_BYTES : Z := 8 * 1024 * 1024.

(** [metadata_cell] and [build_array]. *)
Definition metadata_cell (row : list MetadataValue) (column : nat) : CacheResult MetadataValue :=
  ok_or (row !! column) (InvalidInput (lit "metadata column is out of range")).

Definition drifted : CacheError := InvalidInput (lit "metadata kind drifted").

Definition build_array (column : nat) (kind : MetadataKind) (rows : list (list MetadataValue)) : CacheResult Array :=
  match kind with
  | KindBool =>
      values ← try_collect (fun row => v ← metadata_cell row column;
                            match v with MBool b => Ok (Some b) | _ => Err drifted end) rows;
      Ok (BooleanArray values)
  | KindInt =>
      values ← try_collect (fun row => v ← metadata_cell row column;
                            match v with MInt z => Ok (Some z) | _ => Err drifted end) rows;
      Ok (Int64Array values)
  | KindFloat =>
      values ← try_collect (fun row => v ← metadata_cell row column;
                            match v with MFloat f => Ok (Some f) | _ => Err drifted end) rows;
      Ok (Float64Array values)
  | KindString =>
      values ← try_collect (fun row => v ← metadata_cell row column;
                            match v with MString s => Ok (Some s) | _ => Err drifted end) rows;
      Ok (StringArray values)
  end.

Definition arrow_schema (schema : schema_of_cache) : list (pystr * ArrowType) :=
  map (fun f => (f.1, arrow_type f.2)) schema.

(** The columns of a schema with their positions. *)
Fixpoint build_columns (column : nat) (schema : schema_of_cache) (rows : list (list MetadataValue))
  : CacheResult (list Array) :=
  match schema with
  | [] => Ok []
  | field :: rest =>
      a ← build_array column field.2 rows;
      columns ← build_columns (S column) rest rows;
      Ok (a :: columns)
  end.

Section Files.
Context {A : ArrowFiles}.

Definition arrow_error {B : Type} (r : result B pystr) : CacheResult B :=
  match r with Ok b => Ok b | Err e => Err (ArrowError e) end.

(** The loop of [write_metadata_file]; [fuel] bounds its rounds. *)
Fixpoint metadata_batches (fuel : nat) (schema : schema_of_cache) (remaining : list (list MetadataValue))
  : option (CacheResult (list RecordBatch)) :=
  match remaining, fuel with
  | [], _ => Some (Ok [])
  | _, O => None
  | _, S fuel =>
      match
        (len ← metadata_batch_len remaining MAX_BATCH_ROWS MAX_BATCH_STRING_BYTES;
         _ ← ensure (len <=? Z.of_nat (length remaining)) (InvalidInput (lit "metadata batch range is invalid"));
         columns ← build_columns 0 schema (take (Z.to_nat len) remaining);
         batch ← arrow_error (try_new (arrow_schema schema) columns);
         Ok (len, batch))
      with
      | Err e => Some (Err e)
      | Ok (len, batch) =>
          match metadata_batches fuel schema (drop (Z.to_nat len) remaining) with
          | Some (Ok batches) => Some (Ok (batch :: batches))
          | other => other
          end
      end
  end.

(** The bytes of the finished metadata file. *)
Definition metadata_file_bytes (schema : schema_of_cache) (rows : list (list MetadataValue))
  : option (CacheResult (list Z)) :=
  match metadata_batches (length rows) schema rows with
  | None => None
  | Some (Err e) => Some (Err e)
  | Some (Ok batches) =>
      Some (native_result (lit "metadata Arrow write")
              (library_error ArrowError (ipc_write (arrow_schema schema) batches)))
  end.

(** * Reading *)

Definition out_of_bounds : CacheError :=
  NativeFailure (lit "metadata Arrow validation: index out of bounds").

(** [array.value(i)]: past the end it panics; [default] is what a null slot holds. *)
Definition array_value {V : Type} (wrap : V -> MetadataValue) (default : V) (values : list (option V)) (i : Z)
  : CacheResult MetadataValue :=
  match values !! Z.to_nat i with
  | Some (Some v) => Ok (wrap v)
  | Some None => Ok (wrap default)
  | None => Err out_of_bounds
  end.

Definition wrong_array (name : pystr) (kind : MetadataKind) : CacheError :=
  InvalidCache (lit "metadata '" ++ name ++ lit "' is not " ++ kind_name kind).

(** [read_metadata_row]: each column, downcast to the array of its kind. *)
Definition read_column_value (field : pystr * MetadataKind) (a : Array) (row_index : Z) : CacheResult MetadataValue :=
  match field.2, a with
  | KindBool, BooleanArray v => array_value MBool false v row_index
  | KindInt, Int64Array v => array_value MInt 0 v row_index
  | KindFloat, Float64Array v => array_value MFloat (Finite 0 1) v row_index
  | KindString, StringArray v => array_value MString [] v row_index
  | kind, _ => Err (wrong_array field.1 kind)
  end.

Fixpoint read_metadata_row (columns : list Array) (schema : schema_of_cache) (row_index : Z)
  : CacheResult (list MetadataValue) :=
  match schema, columns with
  | [], _ => Ok []
  | _, [] => Err (InvalidCache (lit "metadata column is missing"))
  | field :: schema, a :: columns =>
      v ← read_column_value field a row_index;
      row ← read_metadata_row columns schema row_index;
      Ok (v :: row)
  end.

Definition check_column_name (pair : (pystr * ArrowType) * (pystr * MetadataKind)) : CacheResult unit :=
  ensure (bool_decide (pair.1.1 = pair.2.1))
    (InvalidCache (lit "metadata column name does not match '" ++ pair.2.1 ++ lit "'")).

Definition check_column (pair : Array * (pystr * MetadataKind)) : CacheResult unit :=
  ensure (bool_decide (array_type pair.1 = arrow_type pair.2.2) && (null_count pair.1 =? 0))
    (InvalidCache (lit "metadata '" ++ pair.2.1 ++ lit "' has invalid type or null values")).

(** One batch of [read_metadata_file]. *)
Definition read_batch (schema : schema_of_cache) (batch : result RecordBatch pystr)
  : CacheResult (list (list MetadataValue)) :=
  batch ← arrow_error batch;
  _ ← ensure (length (batch_columns batch) =? length schema)%nat
        (InvalidCache (lit "metadata column count does not match manifest schema"));
  _ ← try_collect check_column_name (zip (batch_fields batch) schema);
  _ ← try_collect check_column (zip (batch_columns batch) schema);
  try_collect (read_metadata_row (batch_columns batch) schema) (seqZ 0 (batch_rows batch)).

Definition read_metadata_bytes (bytes : list Z) (schema : schema_of_cache)
  : CacheResult (list (list MetadataValue)) :=
  batches ← native_result (lit "metadata Arrow validation") (library_error ArrowError (ipc_read bytes));
  rows ← try_collect (read_batch schema) batches;
  Ok (concat rows).
End Files.

(** * Batches *)

(** String bytes of a row. *)
Definition row_strings (row : list MetadataValue) : Z :=
  Zsum (map (fun v => match v with MString s => str_len s | _ => 0 end) row).

Lemma str_len_nonneg s : 0 <= str_len s.
Proof.
  apply Zsum_nonneg, Forall_map, Forall_forall. intros c _. unfold len_utf8. repeat zcase; lia.
Qed.

Lemma row_strings_nonneg row : 0 <= row_strings row.
Proof. apply Zsum_nonneg, Forall_map, Forall_forall. intros v _. destruct v; try lia. apply str_len_nonneg. Qed.
#[export] Hint Resolve str_len_nonneg row_strings_nonneg : drt.

Lemma row_string_bytes_ok row : forall acc b, row_string_bytes row acc = Ok b -> b = acc + row_strings row.
Proof.
  induction row as [|v row IH]; intros acc b H; simpl in H.
  - injection H as <-. unfold row_strings. simpl. rewrite Zsum_nil. lia.
  - unfold row_strings. simpl. rewrite Zsum_cons. fold (row_strings row).
    destruct v as [x|x|x|s]; try (rewrite (IH _ _ H); lia).
    ocase H. crack H. unfold ok_or, checked_add in Ha. ocase Ha. injection Ha as <-.
    destruct (acc + str_len s <=? U64_MAX); simplify_eq. rewrite (IH _ _ H). lia.
Qed.

(** One batch: a prefix of the rows, whose strings stay within the limit unless those of
    its first row alone do not. *)
Lemma scan_batch_ok rows max : forall bytes count len,
  0 <= count -> scan_batch rows max bytes count = Ok len ->
  count <= len <= count + Z.of_nat (length rows) /\
  forall bound, max <= bound -> bytes <= bound -> (0 < count \/ match rows with r :: _ => bytes + row_strings r <= bound | [] => True end) ->
  bytes + Zsum (map row_strings (take (Z.to_nat (len - count)) rows)) <= bound.
Proof.
  induction rows as [|row rows IH]; intros bytes count len Hc H; simpl in H.
  - injection H as <-. simpl. split; [lia|]. intros. rewrite Z.sub_diag. change (Zsum _) with 0. lia.
  - crack H. apply row_string_bytes_ok in Ha as ->. rewrite Z.add_0_l in H.
    pose proof (row_strings_nonneg row) as Hr. ocase H.
    + injection H as <-. simpl. split; [lia|]. intros. rewrite Z.sub_diag. change (Zsum _) with 0. lia.
    + crack H. unfold ok_or, checked_add in Ha. ocase Ha. injection Ha as <-. ocase Heqo. simplify_eq.
      apply IH in H as [Hl Hb]; [|lia]. split; [simpl length; lia|]. intros bound Hm Hbytes Hfirst.
      replace (Z.to_nat (len - count)) with (S (Z.to_nat (len - (count + 1)))) by lia.
      simpl. rewrite Zsum_cons, Z.add_assoc. apply Hb; [done| |by left; lia].
      bools. destruct Hfirst as [Hp|Hf]; [|done]. destruct Heqb; bools; lia.
Qed.

Lemma metadata_batch_len_ok rows len :
  metadata_batch_len rows MAX_BATCH_ROWS MAX_BATCH_STRING_BYTES = Ok len -> rows <> [] ->
  0 < len <= Z.of_nat (length rows) /\ len <= MAX_BATCH_ROWS /\
  Zsum (map row_strings (take (Z.to_nat len) rows)) <=
    Z.max MAX_BATCH_STRING_BYTES (match rows with r :: _ => row_strings r | [] => 0 end).
Proof.
  unfold metadata_batch_len. intros H Hne. destruct rows as [|row rows]; [done|].
  assert (HM : MAX_BATCH_ROWS = 65536) by done. generalize dependent MAX_BATCH_ROWS. intros M H HM.
  destruct (Z.to_nat M) as [|n] eqn:EM; [lia|]. cbn [take] in H.
  assert (Hpos : 0 < len).
  { cbn [scan_batch] in H. crack H. simpl in H. crack H. apply scan_batch_ok in H; lia. }
  apply scan_batch_ok in H as [Hl Hb]; [|lia]. cbn [length] in Hl. rewrite length_take in Hl.
  split_and!; [lia|cbn [length]; lia|lia|].
  specialize (Hb (Z.max MAX_BATCH_STRING_BYTES (row_strings row))). rewrite Z.sub_0_r, Z.add_0_l in Hb.
  replace (take (Z.to_nat len) (row :: rows)) with (take (Z.to_nat len) (row :: take n rows)).
  - apply Hb; [lia|unfold MAX_BATCH_STRING_BYTES; lia|]. right. lia.
  - change (row :: take n rows) with (take (S n) (row :: rows)). rewrite take_take. f_equal. lia.
Qed.

(** * Columns *)

(** A column collected cell by cell. *)
Lemma collected_column {V : Type} (ex : MetadataValue -> CacheResult (option V)) (wrap : V -> MetadataValue) (d : V)
    column rows values :
  (forall v x, ex v = Ok x -> exists y, x = Some y /\ v = wrap y) ->
  try_collect (fun row => v ← metadata_cell row column; ex v) rows = Ok values ->
  length values = length rows /\ nulls_in values = 0 /\
  forall (i : nat) row, rows !! i = Some row ->
    exists v, row !! column = Some v /\ (exists y, v = wrap y) /\ array_value wrap d values (Z.of_nat i) = Ok v.
Proof.
  intros Hex H. apply try_collect_ok in H.
  assert (Hcell : forall row x, (v ← metadata_cell row column; ex v) = Ok x ->
    exists y, row !! column = Some (wrap y) /\ x = Some y).
  { intros row x Hx. crack Hx. unfold metadata_cell, ok_or in Ha. ocase Ha. injection Ha as <-.
    apply Hex in Hx as (y & -> & ->). eauto. }
  split_and!; [by apply Forall2_length in H| |].
  - unfold nulls_in. clear -H Hcell. induction H as [|row x rows values Hx _ IH]; [done|].
    apply Hcell in Hx as (y & _ & ->). rewrite filter_cons_False by done. done.
  - intros i row Hi. destruct (Forall2_lookup_l _ _ _ i row H Hi) as (x & Hx & Hf).
    apply Hcell in Hf as (y & Hy & ->). exists (wrap y). split_and!; [done|by exists y|].
    unfold array_value. by rewrite Nat2Z.id, Hx.
Qed.

(** A built column reads back as the cells it was built from. *)
Lemma build_array_ok column kind rows a :
  build_array column kind rows = Ok a ->
  array_type a = arrow_type kind /\ array_len a = Z.of_nat (length rows) /\ null_count a = 0 /\
  forall (i : nat) row, rows !! i = Some row ->
    exists v, row !! column = Some v /\ value_kind v = kind /\
      forall name, read_column_value (name, kind) a (Z.of_nat i) = Ok v.
Proof.
  assert (Hcase : forall (V : Type) ex (wrap : V -> MetadataValue) d values (mk : list (option V) -> Array),
    (forall v x, ex v = Ok x -> exists y, x = Some y /\ v = wrap y) -> (forall y, value_kind (wrap y) = kind) ->
    array_type (mk values) = arrow_type kind -> array_len (mk values) = Z.of_nat (length values) ->
    null_count (mk values) = nulls_in values ->
    (forall name i, read_column_value (name, kind) (mk values) i = array_value wrap d values i) ->
    try_collect (fun row => v ← metadata_cell row column; ex v) rows = Ok values ->
    array_type (mk values) = arrow_type kind /\ array_len (mk values) = Z.of_nat (length rows) /\
    null_count (mk values) = 0 /\
    forall (i : nat) row, rows !! i = Some row ->
      exists v, row !! column = Some v /\ value_kind v = kind /\
        forall name, read_column_value (name, kind) (mk values) (Z.of_nat i) = Ok v).
  { intros V ex wrap d values mk Hex Hk Ht Hl Hn Hr Hc.
    destruct (collected_column ex wrap d column rows values Hex Hc) as (Hlen & H0 & Hv).
    split_and!; [done|by rewrite Hl, Hlen|by rewrite Hn|]. intros i row Hi.
    destruct (Hv i row Hi) as (v & Hcell & [y ->] & Ha). exists (wrap y). split_and!; [done|apply Hk|].
    intros name. by rewrite Hr. }
  unfold build_array. destruct kind; intros H; crack H; injection H as <-.
  - eapply (Hcase bool _ MBool false a0 BooleanArray); [|done..|exact Ha].
    intros v x Hx. destruct v; simplify_eq; eauto.
  - eapply (Hcase Z _ MInt 0 a0 Int64Array); [|done..|exact Ha].
    intros v x Hx. destruct v; simplify_eq; eauto.
  - eapply (Hcase pyfloat _ MFloat (Finite 0 1) a0 Float64Array); [|done..|exact Ha].
    intros v x Hx. destruct v; simplify_eq; eauto.
  - eapply (Hcase pystr _ MString [] a0 StringArray); [|done..|exact Ha].
    intros v x Hx. destruct v; simplify_eq; eauto.
Qed.

(** Built columns read back row by row, as the cells of the schema's columns. *)
Lemma build_columns_ok schema rows : forall column columns,
  build_columns column schema rows = Ok columns ->
  Forall2 (fun f a => array_type a = arrow_type f.2 /\ array_len a = Z.of_nat (length rows) /\ null_count a = 0)
    schema columns /\
  forall (i : nat) row, rows !! i = Some row ->
    (column + length schema <= length row \/ schema = [])%nat /\
    row_fits schema (take (length schema) (drop column row)) /\
    read_metadata_row columns schema (Z.of_nat i) = Ok (take (length schema) (drop column row)).
Proof.
  induction schema as [|[name kind] schema IH]; intros column columns H; simpl in H.
  - injection H as <-. split; [constructor|]. intros i row _. rewrite take_0. split_and!; [by right|constructor|done].
  - crack H. injection H as <-. apply build_array_ok in Ha as (Ht & Hl & Hn & Hv). apply IH in Ha0 as [Hc Hr].
    split; [by constructor|]. intros i row Hi. destruct (Hv i row Hi) as (v & Hcell & Hk & Hread).
    destruct (Hr i row Hi) as (Hlen & Hfit & Hrow). rewrite (drop_S _ _ _ Hcell). cbn [length take].
    split_and!; [|by constructor|].
    + left. apply lookup_lt_Some in Hcell. destruct Hlen as [|E]; [lia|rewrite E; simpl; lia].
    + cbn [read_metadata_row]. by rewrite Hread, Hrow.
Qed.

Section Reading.
Context {A : ArrowFiles} {L : ArrowFilesLaws A}.

Lemma try_collect_units {B : Type} (f : B -> CacheResult unit) l :
  Forall (fun x => f x = Ok tt) l -> exists us, try_collect f l = Ok us.
Proof.
  intros H. exists (map (fun _ => tt) l). apply try_collect_ok. induction H; constructor; auto.
Qed.

(** The rows of a batch as its reader sees them. *)
Definition stored_rows (schema : schema_of_cache) (rows : list (list MetadataValue)) : list (list MetadataValue) :=
  map (take (length schema)) rows.

Lemma read_built_batch schema rows columns batch :
  build_columns 0 schema rows = Ok columns -> try_new (arrow_schema schema) columns = Ok batch ->
  schema <> [] /\ batch_fields batch = arrow_schema schema /\
  read_batch schema (Ok batch) = Ok (stored_rows schema rows).
Proof.
  intros Hc Hb. apply build_columns_ok in Hc as [Hf Hr].
  assert (Hne : columns <> []) by (intros ->; by apply try_new_empty in Hb).
  assert (Hs : schema <> []) by (by intros ->; inversion Hf; subst).
  rewrite (try_new_ok _ _ (Z.of_nat (length rows))) in Hb; [|done|..].
  2:{ apply Forall2_fmap_l. eapply Forall2_impl; [exact Hf|]. by intros [] a (Ht & _). }
  2:{ apply Forall_forall. intros a Ha. apply list_elem_of_lookup in Ha as [i Hi].
      destruct (Forall2_lookup_r _ _ _ i a Hf Hi) as (f & _ & _ & Hl & _). done. }
  injection Hb as <-. split_and!; [done|done|]. unfold read_batch. simpl.
  rewrite (Forall2_length _ _ _ Hf), Nat.eqb_refl. simpl.
  destruct (try_collect_units check_column_name (zip (arrow_schema schema) schema)) as [u1 ->].
  { apply Forall_forall. intros [f g] Hfg. apply list_elem_of_lookup in Hfg as [i Hi].
    apply lookup_zip_with_Some in Hi as (x & y & [= -> ->] & Hx & Hy). unfold arrow_schema in Hx.
    change (map ?f ?l) with (f <$> l) in Hx. rewrite list_lookup_fmap, Hy in Hx. injection Hx as <-.
    unfold check_column_name. simpl. by rewrite bool_decide_true. }
  simpl. destruct (try_collect_units check_column (zip columns schema)) as [u2 ->].
  { apply Forall_forall. intros [a f] Hfg. apply list_elem_of_lookup in Hfg as [i Hi].
    apply lookup_zip_with_Some in Hi as (x & y & [= -> ->] & Hx & Hy).
    destruct (Forall2_lookup_lr _ _ _ i _ _ Hf Hy Hx) as (Ht & _ & Hn).
    unfold check_column. simpl. by rewrite bool_decide_true, Hn. }
  simpl. apply try_collect_ok. unfold stored_rows. apply Forall2_same_length_lookup_2.
  - rewrite length_seqZ, length_map. unfold batch_rows. simpl. destruct columns as [|a columns]; [done|].
    inversion Hf as [|? ? ? ? (_ & Hl & _) _]; subst. rewrite Hl. lia.
  - intros i q row Hq Hrow. apply lookup_seqZ in Hq as [-> _]. change (map ?f ?l) with (f <$> l) in Hrow.
    rewrite list_lookup_fmap in Hrow. apply fmap_Some in Hrow as (r & Hi & ->).
    destruct (Hr i r Hi) as (_ & _ & Hread). rewrite drop_0 in Hread. by rewrite Z.add_0_l.
Qed.

(** How the rows of a table are cut into batches. *)
Definition batch_bounds (part : list (list MetadataValue)) : Prop :=
  part <> [] /\ Z.of_nat (length part) <= MAX_BATCH_ROWS /\
  Zsum (map row_strings part) <= Z.max MAX_BATCH_STRING_BYTES (match part with r :: _ => row_strings r | [] => 0 end).

Lemma metadata_batches_ok schema fuel : forall rows, (length rows <= fuel)%nat ->
  exists r, metadata_batches fuel schema rows = Some r /\
  forall batches, r = Ok batches ->
  exists parts, concat parts = rows /\ Forall batch_bounds parts /\
    Forall (fun b => batch_fields b = arrow_schema schema) batches /\
    (rows <> [] -> schema <> []) /\
    (forall row, row ∈ rows -> row_fits schema (take (length schema) row)) /\
    Forall2 (fun part batch => read_batch schema (Ok batch) = Ok (stored_rows schema part)) parts batches.
Proof.
  induction fuel as [|fuel IH]; intros rows Hf.
  - destruct rows; [|simpl in Hf; lia]. exists (Ok []). split; [done|]. intros batches [= <-].
    exists []. split_and!; try done. by intros row ?%elem_of_nil.
  - destruct rows as [|row0 rest].
    { exists (Ok []). split; [done|]. intros batches [= <-]. exists []. split_and!; try done. by intros row ?%elem_of_nil. }
    cbn [metadata_batches]. set (rows := row0 :: rest) in *.
    match goal with |- context [match ?x with Ok _ => _ | Err _ => _ end] => destruct x as [[len batch]|e] eqn:E end;
      [|exists (Err e); split; [done|discriminate]].
    crack E. injection E as <- <-. apply ensure_ok in Ha0.
    apply metadata_batch_len_ok in Ha as (Hlen & Hmax & Hstr); [|done].
    unfold arrow_error in Ha2. ocase Ha2. injection Ha2 as <-.
    pose proof Ha1 as Hcols. apply build_columns_ok in Hcols as [_ Hrow].
    destruct (read_built_batch _ _ _ _ Ha1 Heqr) as (Hs & Hfields & Hread).
    destruct (IH (drop (Z.to_nat a) rows)) as (r & -> & Hr); [rewrite length_drop; lia|].
    destruct r as [batches|e]; [|exists (Err e); split; [done|discriminate]].
    eexists. split; [done|]. intros bs [= <-].
    destruct (Hr batches eq_refl) as (parts & Hc & Hb & Hbf & _ & Hfit & Hp).
    exists (take (Z.to_nat a) rows :: parts). split_and!.
    + simpl. rewrite Hc. apply take_drop.
    + constructor; [|done]. unfold batch_bounds. rewrite length_take.
      split_and!; [intros E0; apply (f_equal length) in E0; rewrite length_take in E0; simpl in E0; lia|lia|].
      unfold rows in *. destruct (Z.to_nat a) as [|n] eqn:En; [lia|]. exact Hstr.
    + by constructor.
    + done.
    + intros row Hin. rewrite <- (take_drop (Z.to_nat a) rows), elem_of_app in Hin.
      destruct Hin as [Hin|Hin]; [|by apply Hfit]. apply list_elem_of_lookup in Hin as [i Hi].
      destruct (Hrow i row Hi) as (_ & Hrf & _). by rewrite drop_0 in Hrf.
    + by constructor.
Qed.
End Reading.

(** * Accepted tables *)

(** Rows whose strings Arrow offsets can address. *)
Definition row_addressable (row : list MetadataValue) : Prop :=
  Forall (fun v => match v with MString s => str_len s <= I32_MAX | _ => True end) row /\
  row_strings row <= U64_MAX.

Lemma row_string_bytes_total row : forall acc, 0 <= acc ->
  Forall (fun v => match v with MString s => str_len s <= I32_MAX | _ => True end) row ->
  acc + row_strings row <= U64_MAX -> exists b, row_string_bytes row acc = Ok b.
Proof.
  induction row as [|v row IH]; intros acc Ha Hv Hs; simpl; [by eexists|].
  inversion Hv as [|? ? Hv1 Hv2]; subst. unfold row_strings in Hs. simpl in Hs. rewrite Zsum_cons in Hs.
  fold (row_strings row) in Hs. pose proof (row_strings_nonneg row).
  destruct v as [x|x|x|s]; try (apply IH; [done|done|lia]). pose proof (str_len_nonneg s).
  zcase; [lia|]. unfold checked_add. zcase; [|lia]. simpl. apply IH; [lia|done|lia].
Qed.

Lemma scan_batch_total rows max : forall bytes count, 0 <= bytes <= U64_MAX -> 0 <= max <= U64_MAX ->
  0 < count \/ (count = 0 /\ bytes = 0) -> Forall row_addressable rows ->
  exists len, scan_batch rows max bytes count = Ok len.
Proof.
  induction rows as [|row rows IH]; intros bytes count Hb Hm Hc Hr; cbn [scan_batch]; [by eexists|].
  inversion Hr as [|? ? [Hv Hs] Hrest]; subst. pose proof (row_strings_nonneg row).
  destruct (row_string_bytes_total row 0) as [b Hrb]; [lia|done|lia|]. rewrite Hrb. simpl.
  apply row_string_bytes_ok in Hrb as ->. rewrite Z.add_0_l.
  destruct ((0 <? count) && (Z.max 0 (max - bytes) <? row_strings row)) eqn:E; [by eexists|].
  assert (bytes + row_strings row <= U64_MAX).
  { destruct Hc as [Hc|[_ ->]]; [|lia]. apply andb_false_iff in E as [E|E]; bools; lia. }
  unfold checked_add. zcase; [|lia]. simpl. apply IH; [lia|done|left; lia|done].
Qed.

Lemma build_array_total column kind rows :
  Forall (fun row => exists v, row !! column = Some v /\ value_kind v = kind) rows ->
  exists a, build_array column kind rows = Ok a.
Proof.
  assert (Hcol : forall (V : Type) (ex : MetadataValue -> CacheResult (option V)),
    (forall v, value_kind v = kind -> exists x, ex v = Ok x) ->
    Forall (fun row => exists v, row !! column = Some v /\ value_kind v = kind) rows ->
    exists values, try_collect (fun row => v ← metadata_cell row column; ex v) rows = Ok values).
  { intros V ex Hex H. induction H as [|row rows (v & Hv & Hk) _ [values IH]]; simpl; [by eexists|].
    rewrite IH. replace (metadata_cell row column) with (Ok (E := CacheError) v) by (unfold metadata_cell; by rewrite Hv).
    simpl. destruct (Hex v Hk) as [x ->]. by eexists. }
  intros H. unfold build_array.
  destruct kind; match goal with |- context [try_collect (fun row => metadata_cell row column ≫= ?ex) rows] =>
    destruct (Hcol _ ex) as [values ->]; [|done|by eexists] end;
    intros [b|z|f|s]; try discriminate; by eexists.
Qed.

Lemma build_columns_total schema rows : forall column,
  Forall (fun row => row_fits schema (drop column row)) rows ->
  exists columns, build_columns column schema rows = Ok columns.
Proof.
  induction schema as [|[name kind] schema IH]; intros column H; simpl; [by eexists|].
  destruct (build_array_total column kind rows) as [a ->].
  { eapply Forall_impl; [exact H|]. intros row Hr. inversion Hr as [|? v ? r Hk _ Hd E]; subst. exists v.
    split; [|done]. apply (f_equal (lookup 0%nat)) in E. by rewrite lookup_drop, Nat.add_0_r in E. }
  destruct (IH (S column)) as [columns ->]; [|by eexists].
  eapply Forall_impl; [exact H|]. intros row Hr. inversion Hr as [|? v ? r _ Hrest Hd E]; subst.
  replace (S column) with (column + 1)%nat by lia. by rewrite <- drop_drop, <- E.
Qed.

Section Writing.
Context {A : ArrowFiles} {L : ArrowFilesLaws A}.
Context (schema : schema_of_cache) (Hschema : schema <> []).

Lemma metadata_batches_total fuel : forall rows, (length rows <= fuel)%nat ->
  Forall (row_fits schema) rows -> Forall row_addressable rows ->
  exists batches, metadata_batches fuel schema rows = Some (Ok batches).
Proof.
  induction fuel as [|fuel IH]; intros rows Hf Hfit Haddr.
  - destruct rows; [by exists []|simpl in Hf; lia].
  - destruct rows as [|row0 rest]; [by exists []|]. cbn [metadata_batches]. set (rows := row0 :: rest) in *.
    assert (exists len, metadata_batch_len rows MAX_BATCH_ROWS MAX_BATCH_STRING_BYTES = Ok len) as [len Hlen].
    { apply scan_batch_total; [done|done|by right|by apply Forall_take]. }
    rewrite Hlen. cbn [mbind cache_bind]. apply metadata_batch_len_ok in Hlen as (Hlen & _ & _); [|done].
    unfold ensure. zcase; [|lia]. cbn [mbind cache_bind].
    destruct (build_columns_total schema (take (Z.to_nat len) rows) 0) as [columns Hc].
    { apply Forall_take. eapply Forall_impl; [exact Hfit|]. intros row. by rewrite drop_0. }
    rewrite Hc. cbn [mbind cache_bind]. apply build_columns_ok in Hc as [Hc _].
    rewrite (try_new_ok _ _ (Z.of_nat (length (take (Z.to_nat len) rows)))).
    + simpl. destruct (IH (drop (Z.to_nat len) rows)) as [batches ->];
        [rewrite length_drop; lia|by apply Forall_drop|by apply Forall_drop|by eexists].
    + intros ->. by inversion Hc.
    + apply Forall2_fmap_l. eapply Forall2_impl; [exact Hc|]. by intros [] a (Ht & _).
    + apply Forall_forall. intros a Ha. apply list_elem_of_lookup in Ha as [i Hi].
      destruct (Forall2_lookup_r _ _ _ i a Hc Hi) as (f & _ & _ & Hl & _). done.
Qed.
End Writing.

Section Table.
Context {A : ArrowFiles} {L : ArrowFilesLaws A}.

(** A metadata file that was written reads back as its rows, and was only written with
    rows that fit the schema. *)
Lemma metadata_file_reads schema rows bytes :
  metadata_file_bytes schema rows = Some (Ok bytes) -> rows <> [] ->
  schema <> [] /\ (forall row, row ∈ rows -> row_fits schema (take (length schema) row)) /\
  read_metadata_bytes bytes schema = Ok (stored_rows schema rows).
Proof.
  unfold metadata_file_bytes. intros H Hne.
  destruct (metadata_batches_ok schema (length rows) rows) as (r & E & Hr); [done|]. rewrite E in H.
  destruct r as [batches|e]; [|discriminate]. injection H as H. apply finished_ok in H.
  destruct (Hr batches eq_refl) as (parts & Hc & _ & _ & Hs & Hfit & Hp). split_and!; [by apply Hs|done|].
  unfold read_metadata_bytes. rewrite (ipc_reads _ _ _ H). simpl.
  assert (Hall : try_collect (read_batch schema) (map Ok batches) = Ok (map (stored_rows schema) parts)).
  { apply try_collect_ok. apply Forall2_fmap_l, Forall2_fmap_r. apply Forall2_flip.
    eapply Forall2_impl; [exact Hp|]. done. }
  rewrite Hall. simpl. f_equal. rewrite <- Hc. unfold stored_rows. by rewrite concat_map.
Qed.

(** Every table of fitting, addressable rows is written, and reads back. *)
Lemma metadata_file_total schema rows :
  schema <> [] -> rows <> [] -> Forall (row_fits schema) rows -> Forall row_addressable rows ->
  exists bytes, metadata_file_bytes schema rows = Some (Ok bytes) /\ read_metadata_bytes bytes schema = Ok rows.
Proof.
  intros Hs Hne Hfit Haddr.
  destruct (metadata_batches_total schema Hs (length rows) rows) as [batches E]; [done..|].
  destruct (metadata_batches_ok schema (length rows) rows) as (r & E' & Hr); [done|].
  rewrite E in E'. injection E' as <-. destruct (Hr batches eq_refl) as (_ & _ & _ & Hb & _).
  destruct (ipc_writes _ _ Hb) as [bytes Hw]. exists bytes.
  assert (Hm : metadata_file_bytes schema rows = Some (Ok bytes)) by (unfold metadata_file_bytes; by rewrite E, Hw).
  split; [done|]. destruct (metadata_file_reads _ _ _ Hm Hne) as (_ & _ & ->). f_equal.
  unfold stored_rows. rewrite <- (map_id rows) at 2. apply map_ext_elem. intros row Hin.
  apply take_ge. eapply Forall_forall in Hfit; [|exact Hin]. by rewrite (Forall2_length _ _ _ Hfit).
Qed.

(** C26. The metadata table is written in batches that Arrow's 32-bit offsets can address:
    the loop ends for every table, the batches are the rows cut into consecutive nonempty
    parts of at most 65536 rows and at most 8 MiB of string bytes (a part whose first row
    alone has more aside), every accepted table is written, and the file that comes out
    reads back as exactly the rows that went in. *)
Theorem metadata_table_batches (schema : schema_of_cache) (rows : list (list MetadataValue)) :
  (exists r, metadata_batches (length rows) schema rows = Some r /\
     forall batches, r = Ok batches ->
     exists parts, concat parts = rows /\ Forall batch_bounds parts /\
       Forall2 (fun part batch => read_batch schema (Ok batch) = Ok (stored_rows schema part)) parts batches) /\
  (schema <> [] -> rows <> [] -> Forall (row_fits schema) rows -> Forall row_addressable rows ->
   exists bytes, metadata_file_bytes schema rows = Some (Ok bytes) /\ read_metadata_bytes bytes schema = Ok rows) /\
  (forall bytes, rows <> [] -> metadata_file_bytes [] rows <> Some (Ok bytes)).
Proof.
  split_and!.
  - destruct (metadata_batches_ok schema (length rows) rows) as (r & E & Hr); [done|]. exists r. split; [done|].
    intros batches H. destruct (Hr batches H) as (parts & Hc & Hb & _ & _ & _ & Hp). by exists parts.
  - apply metadata_file_total.
  - intros bytes Hne H. by destruct (metadata_file_reads _ _ _ H Hne) as (? & _).
Qed.
End Table.

(** * A concrete library *)

#[export] Instance ArrowType_countable : Countable ArrowType.
Proof.
  apply (inj_countable
    (fun t => match t with Boolean => 0 | Int64 => 1 | Int32 => 2 | UInt64 => 3 | UInt32 => 4 | Float64 => 5
              | Float32 => 6 | Utf8 => 7 | LargeUtf8 => 8 | Utf8View => 9 | OtherType => 10 end)
    (fun n => [Boolean; Int64; Int32; UInt64; UInt32; Float64; Float32; Utf8; LargeUtf8; Utf8View; OtherType] !! Z.to_nat n)).
  by intros [].
Defined.
#[export] Instance Array_eq_dec : EqDecision Array.
Proof. solve_decision. Defined.
#[export] Instance Array_countable : Countable Array.
Proof.
  apply (inj_countable'
    (fun a => match a with BooleanArray v => inl v | Int64Array v => inr (inl v) | Float64Array v => inr (inr (inl v))
              | StringArray v => inr (inr (inr (inl v))) | ForeignArray t l n => inr (inr (inr (inr (t, l, n)))) end)
    (fun x => match x with inl v => BooleanArray v | inr (inl v) => Int64Array v | inr (inr (inl v)) => Float64Array v
              | inr (inr (inr (inl v))) => StringArray v | inr (inr (inr (inr (t, l, n)))) => ForeignArray t l n end)).
  by intros [].
Defined.
#[export] Instance RecordBatch_eq_dec : EqDecision RecordBatch.
Proof. solve_decision. Defined.
#[export] Instance RecordBatch_countable : Countable RecordBatch.
Proof.
  apply (inj_countable' (fun b => (batch_fields b, batch_columns b)) (fun '(f, cs) => mk_batch f cs)). by intros [].
Defined.

Definition columns_agree (fields : list (pystr * ArrowType)) (columns : list Array) : bool :=
  bool_decide (map array_type columns = map snd fields) &&
  match columns with
  | [] => false
  | a :: rest => forallb (fun b => array_len b =? array_len a) rest
  end.

(** A file is the number of its batches. *)
Definition demo_arrow : ArrowFiles := {|
  try_new := fun fields columns =>
    if columns_agree fields columns then Ok (mk_batch fields columns) else Err (lit "Invalid argument error");
  ipc_write := fun _ batches => Finished (Ok [Zpos (countable.encode batches)]);
  ipc_read := fun bytes =>
    match bytes with
    | [Zpos x] => match countable.decode x with
                  | Some batches => Finished (Ok (map Ok batches)) | None => Finished (Err (lit "not Arrow")) end
    | _ => Finished (Err (lit "not Arrow"))
    end |}.

Lemma demo_arrow_laws : ArrowFilesLaws demo_arrow.
Proof.
  split; simpl.
  - intros fields columns n Hne Ht Hl.
    assert (columns_agree fields columns = true) as ->; [|done]. unfold columns_agree.
    rewrite bool_decide_true.
    + destruct columns as [|a rest]; [done|]. simpl. apply Is_true_true, forallb_True.
      inversion Hl as [|? ? Ha Hr]; subst. eapply Forall_impl; [exact Hr|]. intros b ->. simpl. by rewrite Z.eqb_refl.
    + clear -Ht. induction Ht as [|f a fields columns E _ IH]; [done|]. simpl. by rewrite E, IH.
  - intros fields b. unfold columns_agree. by destruct (bool_decide _).
  - intros fields batches _. by eexists.
  - intros fields batches bytes [= <-]. by rewrite countable.decode_encode.
Qed.

(** A table of two columns, written and read back. *)
Lemma metadata_table_batches_witness :
  let rows := [[MInt 7; MString (lit "a")]; [MInt 8; MString []]] in
  let schema := [(lit "id", KindInt); (lit "name", KindString)] in
  exists bytes, metadata_file_bytes (A := demo_arrow) schema rows = Some (Ok bytes) /\
    read_metadata_bytes (A := demo_arrow) bytes schema = Ok rows.
Proof.
  intros rows schema.
  destruct (metadata_table_batches (L := demo_arrow_laws) schema rows) as (_ & H & _).
  apply H; [done|done|repeat constructor|].
  repeat constructor; try (vm_compute; discriminate).
Defined.
