(* ===== verification/Interface.v ===== *)
(** What the native library gives the Python layer: the random generators of the
    samplers, the weighted distribution's own checks, the opening of a cache
    directory, the decoding of a stored sample, and path resolution. The
    components above are defined and proved against this interface. *)
From stdpp Require Import base tactics list numbers strings gmap.
From S2P Require Import Prelude Records Native Metadata.
Open Scope Z_scope.

(** [uniform key n] and [weighted key ws] draw one position from a generator
    seeded with [key]; [distribution_error ws] is the refusal of the weighted
    distribution; [open_cache p validate position] opens a cache directory,
    [read_payload c i] reads one stored sample, and [resolve] is [Path.resolve]. *)
Class NativeReader := {
  uniform : Z -> Z -> Z;
  weighted : Z -> list pyfloat -> Z;
  distribution_error : list pyfloat -> option CacheError;
  open_cache : path -> bool -> Z -> result LoadedCache CacheError;
  read_payload : LoadedCache -> Z -> result (list Z * gmap pystr MetadataValue) CacheError;
  resolve : path -> path }.

(** Draws stay in the range asked for, and weights that passed validation make a
    distribution. *)
Class NativeReaderLaws (N : NativeReader) : Prop := {
  generators_ok : generators_in_range uniform weighted;
  distribution_accepts : forall ws,
    validate_weights ws (Z.of_nat (length ws)) = Ok tt -> distribution_error ws = None }.

(** ** A concrete reader *)

(** Every directory holds two samples with one stored column. *)
Definition demo_open (p : path) (validate : bool) (position : Z) : result LoadedCache CacheError :=
  Ok (mk_cache position [(lit "label", KindInt)] [[MInt 4]; [MInt 5]] []).
Definition demo_payload (c : LoadedCache) (i : Z) : result (list Z * gmap pystr MetadataValue) CacheError :=
  Ok ([cache_identity c; i], ∅).

Definition demo_native : NativeReader := {|
  uniform := fun _ _ => 0; weighted := fun _ _ => 0; distribution_error := fun _ => None;
  open_cache := demo_open; read_payload := demo_payload; resolve := fun p => p |}.

Lemma demo_native_laws : NativeReaderLaws demo_native.
Proof. split; [split; simpl; intros; lia|done]. Qed.
