(* ===== verification/Dataset.v ===== *)
(** [CachedDataset] of [src/dataset_rt/dataset.py] over the native state: loading,
    the frozen reconstruction recipe, metadata updates, iteration through a
    Python generator, random access, manifest updates and reconstruction from a
    saved configuration. The native constructor and [get_item] are those of
    [src/src/dataset_rt/dataset.rs] and [runtime.rs]. *)
From stdpp Require Import base tactics list numbers strings gmap.
From S2P Require Import Prelude Records Config Seeds Reconstruction Native Metadata Interface.
Open Scope Z_scope.

(** [u64] and [usize] arguments: integers outside the range do not cross the
    boundary. *)
Definition extract_u64 (z : Z) : outcome Z :=
  if z <? 0 then Raise (OtherException (lit "OverflowError") (lit "can't convert negative int to unsigned"))
  else if U64_MAX <? z then Raise (OtherException (lit "OverflowError") (lit "int too big to convert"))
  else Ret z.

Lemma extract_u64_inv z n : extract_u64 z = Ret n -> n = z /\ is_u64 z.
Proof.
  unfold extract_u64. zcase; [discriminate|]. zcase; [discriminate|].
  intros [= <-]. split; [done|split; lia].
Qed.

Lemma extract_u64_ok z : is_u64 z -> extract_u64 z = Ret z.
Proof. intros [H1 H2]. unfold extract_u64. zcase; [lia|]. by zcase; [lia|]. Qed.

(** * Data *)

(** [DatasetState]: the open caches with their derived lookups, the active table
    and the mutable sampling state. *)
Record native_dataset := mk_native {
  nat_caches : list LoadedCache;
  nat_lookup : gmap Z Z;
  nat_offsets : list Z;
  nat_schema : list (pystr * MetadataKind);
  nat_table : option table;
  nat_state : dataset_state }.

(** [None] stands for [OriginalMetadata()]. *)
Record ReaderRecipe := mk_recipe {
  recipe_cache_paths : list path;
  recipe_reader_config : ReaderConfig;
  recipe_sample_count : Z;
  recipe_metadata : option MetadataSnapshot }.

Record CachedDataset := mk_dataset {
  cd_cache_paths : list path;
  cd_reader_config : ReaderConfig;
  cd_runtime_num_workers : Z;
  cd_inner : native_dataset;
  cd_recipe : ReaderRecipe }.

(** The generator behind [iter(dataset)]: its body starts at the first [next]. *)
Inductive generator :=
| GenNew
| GenRunning (plan : EpochPlan) (total emitted : Z)
| GenDone.

(** Native result of a manifest update: success, entries (path, identity, status),
    failed path, message. *)
Record native_manifests := mk_native_manifests {
  nm_success : bool;
  nm_records : list (path * Z * pystr);
  nm_failed_path : option path;
  nm_message : pystr }.

Section Dataset.
Context {N : NativeReader}.

(** * Native construction *)

(** [EpochSampler::weighted] refuses what the validation or the distribution refuses. *)
Definition weights_error (ws : list pyfloat) : option CacheError :=
  match validate_weights ws (Z.of_nat (length ws)) with
  | Err e => Some e
  | Ok _ => distribution_error ws
  end.

(** Open every cache in path order. The loads run concurrently; of several
    failures the model reports the first by position. *)
Fixpoint load_caches (validate : bool) (position : Z) (paths : list path)
  : result (list LoadedCache) CacheError :=
  match paths with
  | [] => Ok []
  | p :: rest =>
      match open_cache p validate position with
      | Err e => Err e
      | Ok c => match load_caches validate (position + 1) rest with
                | Err e => Err e
                | Ok cs => Ok (c :: cs)
                end
      end
  end.

Definition load_native (paths : list path) (seed prefetch : Z) (shuffle validate : bool)
  : result native_dataset CacheError :=
  match paths with
  | [] => Err (InvalidInput (lit "CachedDataset requires at least one cache path"))
  | _ =>
  if prefetch =? 0 then Err (InvalidInput (lit "prefetch_size must be greater than zero"))
  else match load_caches validate 0 paths with
  | Err e => Err e
  | Ok caches =>
  match cache_lookup caches with
  | Err e => Err e
  | Ok lookup =>
  match common_schema caches with
  | Err e => Err e
  | Ok schema =>
  match cache_offsets_from 0 (map sample_count caches) with
  | Err e => Err e
  | Ok offsets =>
  match load_state (total_samples caches) seed shuffle with
  | Err e => Err e
  | Ok s => Ok (mk_native caches lookup offsets schema None s)
  end end end end end end.

(** [DatasetRuntime(num_workers)] of the native module. *)
Definition native_runtime (num_workers : Z) : outcome Z :=
  n ← extract_u64 num_workers;
  if n =? 0 then Raise (ValueError (lit "num_workers must be greater than zero")) else Ret n.

(** [_RustCachedDataset(runtime, paths, seed, prefetch, shuffle, validate)]. *)
Definition native_cached_dataset (paths : list path) (c : ReaderConfig) : outcome native_dataset :=
  seed ← extract_u64 (reader_seed_value c);
  prefetch ← extract_u64 (reader_prefetch_size c);
  to_python (load_native paths seed prefetch (reader_shuffle c) (reader_validate_cache c)).

Definition native_len (n : native_dataset) : Z := ds_epoch_len (nat_state n).

Definition with_state (s : dataset_state) (n : native_dataset) : native_dataset :=
  mk_native (nat_caches n) (nat_lookup n) (nat_offsets n) (nat_schema n) (nat_table n) s.

(** [update_metadata_arrow]: select, validate, then replace everything at once. *)
Definition update_metadata_arrow (t : table) (selection : option (list Z)) (n : native_dataset)
  : result native_dataset CacheError :=
  match match selection with None => Ok t | Some sel => select_view t sel end with
  | Err e => Err e
  | Ok t =>
  match extract_metadata_arrow t (nat_caches n) (nat_offsets n) (nat_lookup n) (nat_schema n) with
  | Err e => Err e
  | Ok a =>
  match replace_active a (nat_state n) with
  | Err e => Err e
  | Ok s => Ok (mk_native (nat_caches n) (nat_lookup n) (nat_offsets n) (nat_schema n) (Some t) s)
  end end end.

(** The current table: the accepted one, or the original one. *)
Definition metadata_arrow (n : native_dataset) : table :=
  match nat_table n with
  | Some t => t
  | None => build_samples_metadata (nat_caches n) (nat_schema n)
  end.

(** The exported table and the row count the native side reports for it. *)
Definition export_metadata_arrow (n : native_dataset) : table * Z :=
  match nat_table n with
  | Some t => (t, num_rows t)
  | None => (build_samples_metadata (nat_caches n) (nat_schema n), ds_total (nat_state n))
  end.

Definition sample_of (c : LoadedCache) (i : Z) : result CachedSample CacheError :=
  match read_payload c i with
  | Err e => Err e
  | Ok (data, metadata) => Ok (mk_sample data metadata (cache_identity c) i)
  end.

(** [load_planned_sample]. *)
Definition load_planned_sample (n : native_dataset) (index : Z) : result CachedSample CacheError :=
  match locate_physical_sample (map sample_count (nat_caches n)) (nat_offsets n) index with
  | Err e => Err e
  | Ok (cache_index, sample_index) =>
      match nat_caches n !! Z.to_nat cache_index with
      | None => Err (InvalidCache (lit "cache id is out of range"))
      | Some c => sample_of c sample_index
      end
  end.

(** [load_sample_by_identity]. *)
Definition load_sample_by_identity (n : native_dataset) (cache_id sample_id : Z)
  : result CachedSample CacheError :=
  let no_cache := Err (InvalidInput (lit "cache_id " ++ dec cache_id ++ lit " is out of range")) in
  match nat_lookup n !! cache_id with
  | None => no_cache
  | Some index =>
      match nat_caches n !! Z.to_nat index with
      | None => no_cache
      | Some c =>
          if sample_count c <=? sample_id
          then Err (InvalidInput (lit "sample_id " ++ dec sample_id ++
                                  lit " is out of range for cache_id " ++ dec cache_id))
          else sample_of c sample_id
      end
  end.

(** * The Python object *)

Definition cached_dataset_load (num_workers : Z) (paths : list path) (c : ReaderConfig)
  : outcome CachedDataset :=
  inner ← native_cached_dataset paths c;
  Ret (mk_dataset paths c num_workers inner
         (mk_recipe (map resolve paths) c (native_len inner) None)).

Definition with_inner (inner : native_dataset) (d : CachedDataset) : CachedDataset :=
  mk_dataset (cd_cache_paths d) (cd_reader_config d) (cd_runtime_num_workers d) inner (cd_recipe d).

(** [replace(self._recipe, sample_count=len(self._inner), metadata=...)]. *)
Definition with_recipe (metadata : option MetadataSnapshot) (d : CachedDataset) : CachedDataset :=
  mk_dataset (cd_cache_paths d) (cd_reader_config d) (cd_runtime_num_workers d) (cd_inner d)
    (mk_recipe (recipe_cache_paths (cd_recipe d)) (recipe_reader_config (cd_recipe d))
       (native_len (cd_inner d)) metadata).

Definition dataset_len (d : CachedDataset) : Z := native_len (cd_inner d).

Definition restore_metadata (s : MetadataSnapshot) (d : CachedDataset) : outcome unit * CachedDataset :=
  match update_metadata_arrow (snap_table s) (snap_selection s) (cd_inner d) with
  | Err e => (Raise (into_py_err e), d)
  | Ok inner => (Ret tt, with_recipe (Some s) (with_inner inner d))
  end.

Definition update_metadata (t : table) (d : CachedDataset) : outcome unit * CachedDataset :=
  restore_metadata (mk_snapshot t None) d.

(** [get_metadata()], whose conversion keeps the shared table, and the compatibility
    names of both operations. *)
Definition get_metadata (d : CachedDataset) : table := metadata_arrow (cd_inner d).
Definition samples_metadata (d : CachedDataset) : table := get_metadata d.
Definition set_samples_metadata (t : table) (d : CachedDataset) : outcome unit * CachedDataset :=
  update_metadata t d.

(** [_reader_recipe()], and [CachedDataset()] itself. *)
Definition reader_recipe (d : CachedDataset) : ReaderRecipe := cd_recipe d.
Definition construct_directly : outcome CachedDataset :=
  Raise (TypeError (lit "use DatasetRuntime.cached_dataset() to create a CachedDataset")).

Definition set_epoch_len (epoch_len : Z) (d : CachedDataset) : outcome unit * CachedDataset :=
  if epoch_len <? 1 then (Raise (ValueError (lit "epoch_len must be at least 1")), d)
  else match extract_u64 epoch_len with
  | Raise e => (Raise e, d)
  | Ret n =>
      match native_set_epoch_len n (nat_state (cd_inner d)) with
      | Err e => (Raise (into_py_err e), d)
      | Ok s =>
          let d := with_inner (with_state s (cd_inner d)) d in
          (Ret tt, with_recipe (recipe_metadata (cd_recipe d)) d)
      end
  end.

(** One sample of a running native iterator, in planned order. A sample that cannot
    be read raises at its own position; in the native window its error may arrive up
    to the lookahead earlier ([Native.iterator_refines_reader]). *)
Definition run_next (p : EpochPlan) (total emitted : Z) (d : CachedDataset)
  : outcome (option CachedSample) * generator :=
  if total <=? emitted then (Ret None, GenDone)
  else match next_physical_index uniform weighted p emitted with
  | (None, _) => (Raise (into_py_err WorkerFailed), GenDone)
  | (Some index, p') =>
      match load_planned_sample (cd_inner d) index with
      | Err e => (Raise (into_py_err e), GenDone)
      | Ok sample => (Ret (Some sample), GenRunning p' total (emitted + 1))
      end
  end.

(** [next(generator)]: [Ret None] is [StopIteration]. A finished or failed
    generator stays finished. *)
Definition gen_next (g : generator) (d : CachedDataset)
  : outcome (option CachedSample) * generator * CachedDataset :=
  match g with
  | GenDone => (Ret None, GenDone, d)
  | GenRunning p total emitted => (run_next p total emitted d, d)
  | GenNew =>
      match epoch_plan weights_error (nat_state (cd_inner d)) with
      | Err e => (Raise (into_py_err e), GenDone, d)
      | Ok (p, s) =>
          let d := with_inner (with_state s (cd_inner d)) d in
          (run_next p (plan_len p) 0 d, d)
      end
  end.

(** [get_item(cache_id, sample_id)]. *)
Definition get_item (cache_id sample_id : pyval) (d : CachedDataset) : outcome CachedSample :=
  match cache_id, sample_id with
  | PInt c, PInt s =>
      if negb ((0 <=? c) && (c <=? Z.shiftl 1 64 - 1))
      then Raise (IndexError (lit "cache_id " ++ dec c ++ lit " is out of range"))
      else if negb ((0 <=? s) && (s <=? Z.shiftl 1 64 - 1))
      then Raise (IndexError (lit "sample_id " ++ dec s ++ lit " is out of range"))
      else match load_sample_by_identity (cd_inner d) c s with
      | Ok sample => Ret sample
      | Err (InvalidInput m) => Raise (IndexError m)
      | Err e => Raise (into_py_err e)
      end
  | _, _ => Raise (TypeError (lit "cache_id and sample_id must be integers"))
  end.

(** The status tags of the native migration. *)
Definition manifest_entry (r : path * Z * pystr) : outcome ManifestUpdateEntry :=
  let '(p, id, status) := r in
  if decide (status = lit "updated") then Ret (mk_entry p id Updated)
  else if decide (status = lit "unchanged") then Ret (mk_entry p id Unchanged)
  else if decide (status = lit "durability_unknown") then Ret (mk_entry p id DurabilityUnknown)
  else Raise (ValueError (lit "invalid native manifest update status: " ++ status)).

(** [update_manifests(version)]; [migrate] is the native migration. *)
Definition update_manifests (migrate : outcome native_manifests) (version : pyval)
  : outcome (result ManifestUpdateReport ManifestUpdateError) :=
  if bool_decide (version = PInt 3) then
    m ← migrate;
    entries ← traverse manifest_entry (nm_records m);
    if nm_success m then Ret (Ok (mk_report entries))
    else
      let target := match nm_failed_path m with
                    | Some p => TargetPath p
                    | None => AbsentManifestTarget (lit "request has no filesystem target")
                    end in
      Ret (Err (mk_update_error target (nm_message m) entries))
  else Ret (Err (mk_update_error (AbsentManifestTarget (lit "unsupported migration request"))
                   (lit "unsupported manifest migration target; expected integer 3") [])).

(** * Reconstruction *)

(** The configuration [dump_configuration] saves for an exported row count. *)
Definition configuration_of (row_count : Z) (d : CachedDataset) : DatasetConfiguration :=
  mk_configuration (map resolve (recipe_cache_paths (cd_recipe d)))
    (recipe_reader_config (cd_recipe d)) (cd_runtime_num_workers d) (dataset_len d) row_count.

(** [_from_configuration(config, metadata, selection)]. *)
Definition from_configuration (c : DatasetConfiguration) (metadata : table) (selection : option (list Z))
  : outcome CachedDataset :=
  workers ← native_runtime (config_num_workers c);
  d ← cached_dataset_load workers (config_cache_paths c) (config_reader c);
  match restore_metadata (mk_snapshot metadata selection) d with
  | (Raise e, _) => Raise e
  | (Ret _, d) =>
      match set_epoch_len (config_epoch_len c) d with
      | (Raise e, _) => Raise e
      | (Ret _, d) => Ret d
      end
  end.

(** [from_config] on the contents of an export: validate, map, reconstruct. *)
Definition from_config (c : DatasetConfiguration) (metadata : table) : outcome CachedDataset :=
  c ← make_configuration c;
  _ ← load_metadata (table_rows metadata) c;
  from_configuration c metadata None.

(** * Sessions *)

(** What a caller does with one dataset: pull from several iterators, change the
    epoch length or the table, and edit the public path list. *)
Inductive operation :=
| OpSetEpochLen (n : Z)
| OpUpdateMetadata (t : table)
| OpIter
| OpNext (i : nat)
| OpEditPaths (paths : list path).

Definition session : Type := CachedDataset * list generator.

Definition run_operation (o : operation) (s : session) : session :=
  let '(d, gens) := s in
  match o with
  | OpSetEpochLen n => ((set_epoch_len n d).2, gens)
  | OpUpdateMetadata t => ((update_metadata t d).2, gens)
  | OpIter => (d, gens ++ [GenNew])
  | OpNext i =>
      match gens !! i with
      | None => s
      | Some g => let '(_, g', d') := gen_next g d in (d', <[i:=g']> gens)
      end
  | OpEditPaths paths =>
      (mk_dataset paths (cd_reader_config d) (cd_runtime_num_workers d) (cd_inner d) (cd_recipe d), gens)
  end.

Definition run_operations (ops : list operation) (s : session) : session :=
  fold_left (fun s o => run_operation o s) ops s.

(** * The recipe follows the native state *)

(** The recipe's metadata describes the table the native side uses. *)
Definition metadata_agrees (m : option MetadataSnapshot) (n : native_dataset) : Prop :=
  match m, nat_table n, ds_active (nat_state n) with
  | None, None, None => True
  | Some s, Some t, Some a =>
      visible_rows s = table_rows t /\ table_columns (snap_table s) = table_columns t /\
      extract_metadata_arrow t (nat_caches n) (nat_offsets n) (nat_lookup n) (nat_schema n) = Ok a
  | _, _, _ => False
  end.

(** The parts of a dataset no operation changes. *)
Definition same_source (d0 d : CachedDataset) : Prop :=
  recipe_cache_paths (cd_recipe d) = recipe_cache_paths (cd_recipe d0) /\
  recipe_reader_config (cd_recipe d) = recipe_reader_config (cd_recipe d0) /\
  cd_runtime_num_workers d = cd_runtime_num_workers d0 /\
  nat_caches (cd_inner d) = nat_caches (cd_inner d0) /\
  nat_lookup (cd_inner d) = nat_lookup (cd_inner d0) /\
  nat_offsets (cd_inner d) = nat_offsets (cd_inner d0) /\
  nat_schema (cd_inner d) = nat_schema (cd_inner d0) /\
  ds_total (nat_state (cd_inner d)) = ds_total (nat_state (cd_inner d0)) /\
  ds_seed (nat_state (cd_inner d)) = ds_seed (nat_state (cd_inner d0)) /\
  ds_shuffle (nat_state (cd_inner d)) = ds_shuffle (nat_state (cd_inner d0)).

Record tracked (d0 d : CachedDataset) : Prop := mk_tracked {
  tr_source : same_source d0 d;
  tr_count : recipe_sample_count (cd_recipe d) = dataset_len d;
  tr_len : 1 <= dataset_len d;
  tr_metadata : metadata_agrees (recipe_metadata (cd_recipe d)) (cd_inner d) }.

Lemma select_view_rows t sel v : select_view t sel = Ok v ->
  table_rows v = visible_rows (mk_snapshot t (Some sel)) /\ table_columns v = table_columns t.
Proof. unfold select_view. intros H. ocase H. by injection H as <-. Qed.

Lemma replace_active_ok a s s' : replace_active a s = Ok s' ->
  1 <= ds_epoch_len s' /\ ds_epoch_len s' = Z.of_nat (length (physical_indices a)) /\
  ds_active s' = Some a /\ ds_total s' = ds_total s /\ ds_seed s' = ds_seed s /\
  ds_shuffle s' = ds_shuffle s /\ ds_sequential_offset s' = 0 /\ ds_draw_offset s' = 0.
Proof.
  unfold replace_active, new_epoch_len. intros H. destruct (Z.eqb_spec (Z.of_nat (length (physical_indices a))) 0);
    [discriminate|]. injection H as <-. simpl. split_and!; (done || lia).
Qed.

Lemma update_metadata_arrow_ok t sel n n' : update_metadata_arrow t sel n = Ok n' ->
  exists v a, nat_table n' = Some v /\ ds_active (nat_state n') = Some a /\
    table_rows v = visible_rows (mk_snapshot t sel) /\ table_columns v = table_columns t /\
    extract_metadata_arrow v (nat_caches n) (nat_offsets n) (nat_lookup n) (nat_schema n) = Ok a /\
    replace_active a (nat_state n) = Ok (nat_state n') /\
    n' = mk_native (nat_caches n) (nat_lookup n) (nat_offsets n) (nat_schema n) (Some v) (nat_state n').
Proof.
  unfold update_metadata_arrow. intros H.
  destruct (match sel with None => Ok t | Some s => select_view t s end) as [v|] eqn:Ev; [|discriminate].
  destruct (extract_metadata_arrow v _ _ _ _) as [a|] eqn:Ea; [|discriminate].
  destruct (replace_active a _) as [s|] eqn:Er; [|discriminate]. injection H as <-. exists v, a. simpl.
  destruct (replace_active_ok _ _ _ Er) as (_ & _ & Ha & _).
  assert (table_rows v = visible_rows (mk_snapshot t sel) /\ table_columns v = table_columns t) as [? ?].
  { destruct sel as [s'|]; [by apply select_view_rows|by injection Ev as ->]. }
  by split_and!.
Qed.

Lemma restore_metadata_tracked s d0 d : tracked d0 d -> tracked d0 (restore_metadata s d).2.
Proof.
  intros [Hs Hc Hl Hm]. unfold restore_metadata.
  destruct (update_metadata_arrow _ _ _) as [n|e] eqn:E; [|by constructor].
  apply update_metadata_arrow_ok in E as (v & a & Hv & Ha & Hr & Hcol & He & Hra & Hn).
  destruct (replace_active_ok _ _ _ Hra) as (Hlen & _ & _ & H1 & H2 & H3 & _). rewrite Hn.
  destruct Hs as (? & ? & ? & ? & ? & ? & ? & ? & ? & ?).
  constructor; simpl; [|done|done|].
  - unfold same_source. simpl. split_and!; congruence.
  - unfold metadata_agrees. simpl. rewrite Ha. destruct s. by split_and!.
Qed.

Lemma set_epoch_len_tracked n d0 d : tracked d0 d -> tracked d0 (set_epoch_len n d).2.
Proof.
  intros [Hs Hc Hl Hm]. unfold set_epoch_len. destruct (Z.ltb_spec n 1); [by constructor|].
  destruct (extract_u64 n) as [m|] eqn:E; [|by constructor].
  apply extract_u64_inv in E as [-> _].
  unfold native_set_epoch_len, new_epoch_len. destruct (Z.eqb_spec n 0); [lia|]. simpl. by constructor.
Qed.

Lemma epoch_plan_state s p s' : epoch_plan weights_error s = Ok (p, s') ->
  exists o q, s' = mk_state (ds_total s) (ds_seed s) (ds_shuffle s) (ds_active s) (ds_epoch_len s) o q.
Proof. unfold epoch_plan. intros H. repeat ocase H; injection H as _ <-; eauto. Qed.

Lemma gen_next_tracked g d0 d : tracked d0 d -> tracked d0 (gen_next g d).2.
Proof.
  intros [Hs Hc Hl Hm]. unfold gen_next. destruct g; [|by constructor..].
  destruct (epoch_plan _ _) as [[p s]|] eqn:E; [|by constructor].
  apply epoch_plan_state in E as (o & q & ->). by constructor.
Qed.

Lemma run_operations_tracked ops d0 : forall d gens, tracked d0 d ->
  tracked d0 (run_operations ops (d, gens)).1.
Proof.
  induction ops as [|o ops IH]; intros d gens Ht; simpl; [done|].
  destruct o as [n|t| |i|paths]; try apply IH.
  - by apply set_epoch_len_tracked.
  - by apply restore_metadata_tracked.
  - done.
  - simpl. destruct (gens !! i) as [g|]; [|by apply IH].
    pose proof (gen_next_tracked g d0 d Ht) as Hg. destruct (gen_next g d) as [[o g'] d']. by apply IH.
  - destruct Ht. by constructor.
Qed.

Lemma load_native_ok paths seed prefetch shuffle validate n :
  load_native paths seed prefetch shuffle validate = Ok n ->
  load_caches validate 0 paths = Ok (nat_caches n) /\
  cache_lookup (nat_caches n) = Ok (nat_lookup n) /\
  common_schema (nat_caches n) = Ok (nat_schema n) /\
  cache_offsets_from 0 (map sample_count (nat_caches n)) = Ok (nat_offsets n) /\
  nat_table n = None /\ 0 < total_samples (nat_caches n) /\
  nat_state n = mk_state (total_samples (nat_caches n)) seed shuffle None (total_samples (nat_caches n)) 0 0.
Proof.
  unfold load_native. intros H. do 6 ocase H.
  unfold load_state, new_epoch_len in H.
  match type of H with context [total_samples ?c =? 0] =>
    destruct (Z.eqb_spec (total_samples c) 0); [discriminate|];
    assert (0 <= total_samples c)
      by (apply Zsum_nonneg, Forall_map, Forall_forall; intros x _; unfold sample_count; lia)
  end.
  injection H as <-. simpl. split_and!; (done || lia).
Qed.

Lemma cached_dataset_load_ok workers paths c d : cached_dataset_load workers paths c = Ret d ->
  is_u64 (reader_seed_value c) /\ is_u64 (reader_prefetch_size c) /\
  load_native paths (reader_seed_value c) (reader_prefetch_size c) (reader_shuffle c)
    (reader_validate_cache c) = Ok (cd_inner d) /\
  d = mk_dataset paths c workers (cd_inner d)
        (mk_recipe (map resolve paths) c (native_len (cd_inner d)) None).
Proof.
  unfold cached_dataset_load, native_cached_dataset. intros H.
  apply bind_ret in H as (n & H & [= <-]).
  apply bind_ret in H as (seed & Es & H). apply bind_ret in H as (prefetch & Ep & H).
  apply extract_u64_inv in Es as [-> Hs], Ep as [-> Hp].
  destruct (load_native _ _ _ _ _) eqn:E; [|discriminate]. injection H as <-. by split_and!.
Qed.

Lemma load_tracked workers paths c d : cached_dataset_load workers paths c = Ret d -> tracked d d.
Proof.
  intros H. apply cached_dataset_load_ok in H as (_ & _ & Hn & ->).
  apply load_native_ok in Hn as (_ & _ & _ & _ & Ht & Hpos & Hs).
  constructor; simpl.
  - done.
  - done.
  - unfold dataset_len, native_len. simpl. rewrite Hs. simpl. lia.
  - unfold metadata_agrees. by rewrite Ht, Hs.
Qed.

(** * Reconstruction *)

(** The active population: physical samples with their weights, in row order. *)
Definition population (s : dataset_state) : list (Z * pyfloat) :=
  match ds_active s with
  | Some a => zip (physical_indices a) (row_weights a)
  | None => map (fun p => (p, Finite 1 1)) (seqZ 0 (ds_total s))
  end.

(** The same reader at the start of its streams. *)
Definition fresh_copy (d d' : CachedDataset) : Prop :=
  population (nat_state (cd_inner d')) = population (nat_state (cd_inner d)) /\
  table_rows (metadata_arrow (cd_inner d')) = table_rows (metadata_arrow (cd_inner d)) /\
  dataset_len d' = dataset_len d /\
  ds_seed (nat_state (cd_inner d')) = ds_seed (nat_state (cd_inner d)) /\
  ds_shuffle (nat_state (cd_inner d')) = ds_shuffle (nat_state (cd_inner d)) /\
  cd_runtime_num_workers d' = cd_runtime_num_workers d /\
  ds_sequential_offset (nat_state (cd_inner d')) = 0 /\
  ds_draw_offset (nat_state (cd_inner d')) = 0.

Lemma load_caches_resolve validate paths :
  (forall p k, open_cache (resolve p) validate k = open_cache p validate k) ->
  forall position, load_caches validate position (map resolve paths) = load_caches validate position paths.
Proof.
  intros Hr. induction paths as [|p paths IH]; intros position; simpl; [done|].
  rewrite Hr. destruct (open_cache p validate position); [|done]. by rewrite IH.
Qed.

Lemma load_native_resolve paths seed prefetch shuffle validate :
  (forall p k, open_cache (resolve p) validate k = open_cache p validate k) ->
  load_native (map resolve paths) seed prefetch shuffle validate =
  load_native paths seed prefetch shuffle validate.
Proof.
  intros Hr. unfold load_native. rewrite load_caches_resolve by done. by destruct paths.
Qed.

Lemma zip_const {A B} (b : B) (l : list A) : zip l (map (fun _ => b) l) = map (fun x => (x, b)) l.
Proof. induction l as [|x l IH]; simpl; [done|]. by rewrite <- IH. Qed.

Section RoundTrip.
Context (d0 : CachedDataset) (workers : Z) (paths : list path) (c : ReaderConfig).
Context (Hload : cached_dataset_load workers paths c = Ret d0).
Context (Hworkers : is_u64 workers) (Hpos : 0 < workers).
Context (Hschema : plain_schema (nat_schema (cd_inner d0))).
Context (Hwidth : forall k values, k ∈ nat_caches (cd_inner d0) -> values ∈ cache_rows k ->
                  length values = length (nat_schema (cd_inner d0))).

(** The exported table is accepted by a freshly loaded reader as the population
    the dataset has. *)
Lemma export_accepted d : tracked d0 d ->
  let '(t, rows) := export_metadata_arrow (cd_inner d) in
  t = metadata_arrow (cd_inner d) /\ num_rows t = rows /\ 0 < rows /\
  exists a, extract_metadata_arrow t (nat_caches (cd_inner d0)) (nat_offsets (cd_inner d0))
              (nat_lookup (cd_inner d0)) (nat_schema (cd_inner d0)) = Ok a /\
    zip (physical_indices a) (row_weights a) = population (nat_state (cd_inner d)) /\
    Z.of_nat (length (physical_indices a)) = rows.
Proof.
  intros [Hs _ _ Hm]. destruct Hs as (_ & _ & _ & Hc & Hlk & Ho & Hsc & Ht & _).
  apply cached_dataset_load_ok in Hload as (_ & _ & Hn & _).
  apply load_native_ok in Hn as (_ & Hl & _ & Hof & _ & Hp & Hst).
  unfold export_metadata_arrow, metadata_arrow. unfold metadata_agrees in Hm. unfold population.
  destruct (nat_table (cd_inner d)) as [t|].
  - destruct (recipe_metadata (cd_recipe d)) as [s|]; [|done].
    destruct (ds_active (nat_state (cd_inner d))) as [a|]; [|done]. destruct Hm as (_ & _ & He).
    rewrite Hc, Hlk, Ho, Hsc in He. destruct (extract_active_wf _ _ _ _ _ _ He) as (H1 & H2 & H3 & _).
    assert (0 < num_rows t) by (unfold num_rows; destruct (table_rows t); [done|simpl; lia]).
    split_and!; [done..|]. exists a. split_and!; [done..|]. rewrite H1. done.
  - destruct (recipe_metadata (cd_recipe d)) as [s|]; [done|].
    destruct (ds_active (nat_state (cd_inner d))) as [a|]; [done|].
    rewrite Hc, Hsc, Ht, Hst. simpl ds_total.
    pose proof (original_table_accepted _ _ _ _ Hl Hof Hwidth Hschema Hp) as He.
    destruct (extract_active_wf _ _ _ _ _ _ He) as (H1 & _). cbn [physical_indices] in H1. rewrite length_seqZ in H1.
    split_and!; [done|unfold num_rows; lia|done|]. eexists. split; [exact He|]. simpl.
    split; [apply zip_const|]. rewrite length_seqZ. lia.
Qed.

Lemma roundtrip_ok (Hr : forall p k, open_cache (resolve p) (reader_validate_cache c) k =
                         open_cache p (reader_validate_cache c) k) d :
  reader_config_valid c = true -> tracked d0 d -> dataset_len d <= U64_MAX ->
  let '(t, rows) := export_metadata_arrow (cd_inner d) in
  exists d', from_config (configuration_of rows d) t = Ret d' /\ fresh_copy d d'.
Proof.
  intros Hc Ht Hlen. pose proof (export_accepted d Ht) as Hex.
  destruct (export_metadata_arrow (cd_inner d)) as [t rows].
  destruct Hex as (Etab & Hrows & Hr0 & a & He & Hpop & Ha).
  destruct Ht as [Hs Hcount Hl Hm]. destruct Hs as (Hpaths & Hreader & Hw & Hcaches & _ & _ & _ & _ & Hseed & Hshuf).
  pose proof (cached_dataset_load_ok _ _ _ _ Hload) as (Hu1 & Hu2 & Hn & Ed0).
  pose proof (load_native_ok _ _ _ _ _ _ Hn) as (_ & _ & _ & _ & _ & _ & Hst).
  rewrite Ed0 in Hpaths, Hreader, Hw. simpl in Hpaths, Hreader, Hw.
  unfold from_config, make_configuration, configuration_valid, configuration_of. simpl.
  rewrite Hpaths, Hreader, Hw, Hc.
  destruct paths as [|p0 ps] eqn:Ep; [discriminate Hn|]. rewrite <- Ep in *.
  replace (match map resolve (map resolve paths) with [] => false | _ => true end) with true by (by rewrite Ep).
  rewrite (proj2 (Z.ltb_lt 0 workers) Hpos), (proj2 (Z.ltb_lt 0 (dataset_len d)) ltac:(lia)),
    (proj2 (Z.ltb_lt 0 rows) Hr0). simpl.
  unfold load_metadata. simpl. unfold num_rows in Hrows. rewrite Hrows, Z.eqb_refl. simpl.
  unfold from_configuration, native_runtime. simpl. rewrite extract_u64_ok by done. simpl.
  destruct (Z.eqb_spec workers 0); [lia|]. simpl.
  unfold cached_dataset_load, native_cached_dataset. rewrite !extract_u64_ok by done. simpl.
  rewrite !load_native_resolve by done. rewrite Hn. simpl.
  unfold restore_metadata, update_metadata_arrow. simpl. rewrite He.
  unfold replace_active, new_epoch_len. rewrite Ha. destruct (Z.eqb_spec rows 0); [lia|]. simpl.
  unfold set_epoch_len. destruct (Z.ltb_spec (dataset_len d) 1); [lia|].
  rewrite extract_u64_ok by (split; lia). simpl. unfold native_set_epoch_len, new_epoch_len.
  destruct (Z.eqb_spec (dataset_len d) 0); [lia|]. eexists. split; [done|].
  unfold fresh_copy. simpl. split_and!; [exact Hpop|by rewrite Etab|done|..]; try done;
    rewrite ?Hseed, ?Hshuf, ?Hst; congruence.
Qed.
End RoundTrip.
End Dataset.

(** What a reconstructed reader is: the caches of its paths, the accepted view of
    the table as population, the configured length and settings, fresh cursors. *)
Lemma from_configuration_ok {N : NativeReader} c t sel d :
  from_configuration c t sel = Ret d ->
  exists n v a,
    load_native (config_cache_paths c) (reader_seed_value (config_reader c))
      (reader_prefetch_size (config_reader c)) (reader_shuffle (config_reader c))
      (reader_validate_cache (config_reader c)) = Ok n /\
    table_rows v = visible_rows (mk_snapshot t sel) /\ table_columns v = table_columns t /\
    extract_metadata_arrow v (nat_caches n) (nat_offsets n) (nat_lookup n) (nat_schema n) = Ok a /\
    1 <= config_epoch_len c <= U64_MAX /\
    cd_inner d = mk_native (nat_caches n) (nat_lookup n) (nat_offsets n) (nat_schema n) (Some v)
      (mk_state (total_samples (nat_caches n)) (reader_seed_value (config_reader c))
         (reader_shuffle (config_reader c)) (Some a) (config_epoch_len c) 0 0).
Proof.
  unfold from_configuration. intros H. apply bind_ret in H as (w & _ & H). apply bind_ret in H as (d1 & H1 & H).
  apply cached_dataset_load_ok in H1 as (_ & _ & Hn & E1).
  pose proof (load_native_ok _ _ _ _ _ _ Hn) as (_ & _ & _ & _ & _ & _ & Hst).
  destruct (restore_metadata _ d1) as [[u|] d2] eqn:E2; [|discriminate].
  unfold restore_metadata in E2. destruct (update_metadata_arrow _ _ _) as [n2|] eqn:E3; [|discriminate].
  injection E2 as <- <-. apply update_metadata_arrow_ok in E3 as (v & a & Hv & Ha & Hr & Hcol & He & Hra & En2).
  destruct (set_epoch_len _ _) as [[u'|] d3] eqn:E4; [|discriminate]. injection H as <-.
  unfold set_epoch_len in E4. destruct (Z.ltb_spec (config_epoch_len c) 1); [discriminate|].
  destruct (extract_u64 _) as [m|] eqn:Em; [|discriminate]. apply extract_u64_inv in Em as [-> Hm].
  unfold native_set_epoch_len, new_epoch_len in E4. destruct (Z.eqb_spec (config_epoch_len c) 0); [lia|].
  injection E4 as <- <-. exists (cd_inner d1), v, a. destruct Hm.
  destruct (replace_active_ok _ _ _ Hra) as (_ & _ & R1 & R2 & R3 & R4 & R5 & R6).
  split_and!; [done..|lia|lia|]. rewrite En2. simpl. by rewrite R1, R2, R3, R4, R5, R6, Hst.
Qed.

(** C23. The recipe worker processes are built from always describes the dataset as
    it is: after any sequence of iterations, length changes, table updates and
    edits of the public path list, accepted or refused, its sample count is the
    dataset's length, its paths and reader settings are those of construction,
    and its metadata is the table the native reader uses; a refused update leaves
    the dataset unchanged. *)
Theorem recipe_tracks_native {N : NativeReader} (workers : Z) (paths : list path) (c : ReaderConfig) (d0 : CachedDataset)
    (ops : list operation)
    (Hload : cached_dataset_load workers paths c = Ret d0) :
  let d := (run_operations ops (d0, [])).1 in
  recipe_sample_count (cd_recipe d) = dataset_len d /\ 1 <= dataset_len d /\
  recipe_cache_paths (cd_recipe d) = map resolve paths /\ recipe_reader_config (cd_recipe d) = c /\
  metadata_agrees (recipe_metadata (cd_recipe d)) (cd_inner d) /\
  (forall n e, (set_epoch_len n d).1 = Raise e -> (set_epoch_len n d).2 = d) /\
  (forall t e, (update_metadata t d).1 = Raise e -> (update_metadata t d).2 = d).
Proof.
  intros d. pose proof (run_operations_tracked ops d0 d0 []
    (load_tracked _ _ _ _ Hload)) as [Hs Hc Hl Hm]. fold d in Hs, Hc, Hl, Hm.
  apply cached_dataset_load_ok in Hload as (_ & _ & _ & E). destruct Hs as (Hp & Hr & _).
  rewrite E in Hp, Hr. split_and!; [done..| |].
  - intros n e. unfold set_epoch_len. repeat (case_match; try done).
  - intros t e. unfold update_metadata, restore_metadata. by case_match.
Qed.



(** * Random access and iteration *)

Lemma locate_physical_sample_range counts offsets index k j :
  locate_physical_sample counts offsets index = Ok (k, j) ->
  0 <= k /\ exists count, counts !! Z.to_nat k = Some count /\ 0 <= j < count.
Proof.
  unfold locate_physical_sample, checked_sub. intros H.
  destruct (Z.leb_spec 1 (partition_point (fun o => o <=? index) offsets)); [|discriminate].
  destruct (offsets !! _) as [o|]; [|discriminate].
  destruct (Z.leb_spec o index); [|discriminate].
  destruct (counts !! _) as [count|] eqn:E; [|discriminate].
  destruct (Z.leb_spec count (index - o)); [discriminate|]. injection H as <- <-.
  split; [lia|]. exists count. split; [done|lia].
Qed.

Section Access.
Context {N : NativeReader}.
Context (n : native_dataset) (Hlookup : cache_lookup (nat_caches n) = Ok (nat_lookup n)).

Lemma sample_of_identity c i s : sample_of c i = Ok s ->
  sample_cache_id s = cache_identity c /\ sample_sample_id s = i.
Proof. unfold sample_of. intros H. repeat ocase H. by injection H as <-. Qed.

Lemma load_sample_by_identity_ok k c j : nat_caches n !! k = Some c -> 0 <= j < sample_count c ->
  load_sample_by_identity n (cache_identity c) j = sample_of c j.
Proof.
  intros Hk Hj. unfold load_sample_by_identity.
  rewrite (lookup_cache _ _ Hlookup _ _ Hk), Nat2Z.id, Hk.
  by destruct (Z.leb_spec (sample_count c) j); [lia|].
Qed.

Lemma load_planned_sample_inv index s : load_planned_sample n index = Ok s ->
  exists k c, nat_caches n !! k = Some c /\ sample_cache_id s = cache_identity c /\
    0 <= sample_sample_id s < sample_count c /\
    sample_of c (sample_sample_id s) = Ok s.
Proof.
  unfold load_planned_sample. intros H.
  destruct (locate_physical_sample _ _ _) as [[k j]|] eqn:E; [|discriminate].
  destruct (nat_caches n !! Z.to_nat k) as [c|] eqn:Ek; [|discriminate].
  apply locate_physical_sample_range in E as (Hk & count & Hc & Hj).
  change (map ?f ?l) with (f <$> l) in Hc. rewrite list_lookup_fmap, Ek in Hc. injection Hc as <-.
  destruct (sample_of_identity _ _ _ H) as [H1 H2].
  exists (Z.to_nat k), c. rewrite H2. split_and!; (done || lia).
Qed.

Lemma planned_sample_random_access index s : load_planned_sample n index = Ok s ->
  load_sample_by_identity n (sample_cache_id s) (sample_sample_id s) = Ok s.
Proof.
  intros H. destruct (load_planned_sample_inv _ _ H) as (k & c & Hk & -> & Hj & Hs).
  by rewrite (load_sample_by_identity_ok k).
Qed.

Lemma load_sample_by_identity_missing id sid :
  (forall c, c ∈ nat_caches n -> cache_identity c = id -> sample_count c <= sid) ->
  exists m, load_sample_by_identity n id sid = Err (InvalidInput m).
Proof.
  intros H. unfold load_sample_by_identity. destruct (nat_lookup n !! id) as [p|] eqn:E; [|eauto].
  destruct (lookup_position _ _ Hlookup _ _ E) as (k & c & Hk & Hid & ->). rewrite Nat2Z.id, Hk.
  specialize (H c (list_elem_of_lookup_2 _ _ _ Hk) Hid).
  destruct (Z.leb_spec (sample_count c) sid); [eauto|lia].
Qed.
End Access.

Lemma epoch_plan_len werror s p s' : epoch_plan werror s = Ok (p, s') -> plan_len p = ds_epoch_len s.
Proof. unfold epoch_plan. intros H. by repeat ocase H; injection H as <- _. Qed.

Lemma gen_next_sample {N : NativeReader} g d s g' d' :
  gen_next g d = (Ret (Some s), g', d') ->
  (exists index, load_planned_sample (cd_inner d') index = Ok s) /\
  nat_caches (cd_inner d') = nat_caches (cd_inner d) /\ nat_lookup (cd_inner d') = nat_lookup (cd_inner d).
Proof.
  assert (R : forall p t e d2, run_next p t e d2 = (Ret (Some s), g') ->
    exists index, load_planned_sample (cd_inner d2) index = Ok s).
  { intros p t e d2. unfold run_next. intros H. repeat ocase H. injection H as <- _. eauto. }
  unfold gen_next. intros H. destruct g as [|p t e|]; [|injection H as H <-; eauto|discriminate].
  destruct (epoch_plan _ _) as [[p st]|]; [|discriminate]. injection H as H <-. eauto.
Qed.

(** C34. Random access and iteration agree: a sample handed out by an iterator,
    whatever was done to the dataset before, is the sample [get_item] returns for
    its identity; an identity that no open cache stores is refused with an
    [IndexError] and a value that is not a plain integer with a [TypeError]. *)
Theorem get_item_agrees {N : NativeReader} (workers : Z) (paths : list path) (c : ReaderConfig) (d0 : CachedDataset)
    (ops : list operation) (d := (run_operations ops (d0, [])).1)
    (Hload : cached_dataset_load workers paths c = Ret d0)
    (Hids : forall k, k ∈ nat_caches (cd_inner d0) -> is_u64 (cache_identity k) /\ is_u64 (sample_count k)) :
  (forall g s g' d', gen_next g d = (Ret (Some s), g', d') ->
     get_item (PInt (sample_cache_id s)) (PInt (sample_sample_id s)) d' = Ret s) /\
  (forall id sid, (forall k, k ∈ nat_caches (cd_inner d) -> cache_identity k = id -> sample_count k <= sid) ->
     exists m, get_item (PInt id) (PInt sid) d = Raise (IndexError m)) /\
  (forall v w, (forall z, v <> PInt z) \/ (forall z, w <> PInt z) ->
     exists m, get_item v w d = Raise (TypeError m)).
Proof.
  pose proof (run_operations_tracked ops d0 d0 []
    (load_tracked _ _ _ _ Hload)) as [Hs _ _ _]. fold d in Hs.
  destruct Hs as (_ & _ & _ & Hc & Hl & _).
  apply cached_dataset_load_ok in Hload as (_ & _ & Hn & _).
  apply load_native_ok in Hn as (_ & Hlk & _). rewrite <- Hc, <- Hl in Hlk. rewrite <- Hc in Hids.
  split_and!.
  - intros g s g' d' H. apply gen_next_sample in H as ([index Hi] & Hc' & Hl').
    rewrite <- Hc', <- Hl' in Hlk. rewrite <- Hc' in Hids.
    destruct (load_planned_sample_inv _ _ _ Hi) as (k & k' & Hk & Hid & Hj & _).
    destruct (Hids k' (list_elem_of_lookup_2 _ _ _ Hk)) as [[H1 H2] [_ H3]].
    unfold get_item. rewrite Hid. change (Z.shiftl 1 64 - 1) with U64_MAX.
    do 4 (zcase; [|lia]). simpl. rewrite <- Hid. by rewrite (planned_sample_random_access _ Hlk index).
  - intros id sid H. unfold get_item. case_match; [eauto|]. case_match; [eauto|].
    destruct (load_sample_by_identity_missing _ Hlk id sid H) as [m ->]. eauto.
  - intros v w H. unfold get_item. destruct v; eauto. destruct w; eauto.
    exfalso. destruct H as [H|H]; by eapply H.
Qed.

(** * Iterators are isolated *)

(** An iterator that has started is a snapshot: pulling from it gives the same
    result before and after any other operations on the dataset, and other
    iterators, length changes and table updates do not change what it emits. *)
Theorem running_iterator_isolated {N : NativeReader}
    (d : CachedDataset) (gens : list generator) (ops : list operation) (p : EpochPlan) (total emitted : Z)
    (Hd : tracked d d) :
  let d' := (run_operations ops (d, gens)).1 in
  (gen_next (GenRunning p total emitted) d').1 =
  (gen_next (GenRunning p total emitted) d).1.
Proof.
  intros d'. pose proof (run_operations_tracked ops d d gens Hd)
    as [(_ & _ & _ & Hc & _ & Ho & _) _ _ _]. fold d' in Hc, Ho.
  simpl. unfold run_next, load_planned_sample. by rewrite Hc, Ho.
Qed.

(** * Concrete datasets *)

#[local] Existing Instance demo_native.

Definition demo_reader : ReaderConfig := mk_reader_config 3 64 false false.
Definition demo_dataset : CachedDataset :=
  match cached_dataset_load 2 [[lit "a"]; [lit "b"]] demo_reader with
  | Ret d => d
  | Raise _ => mk_dataset [] demo_reader 0 (mk_native [] ∅ [] [] None (mk_state 0 0 false None 0 0 0))
                 (mk_recipe [] demo_reader 0 None)
  end.

(** Two iterators, one refused and one accepted table, a new length. *)
Definition demo_table : table :=
  mk_table [(lit "label", Int64); (lit "cache_id", UInt64); (lit "sample_id", Int64); (lit "weight", Float64)]
    [[Some (MInt 9); Some (MInt 1); Some (MInt 0); Some (MFloat (Finite 5 2))];
     [Some (MInt 9); Some (MInt 1); Some (MInt 0); Some (MFloat (Finite 1 1))];
     [Some (MInt 9); Some (MInt 0); Some (MInt 1); Some (MFloat (Finite 1 4))]].
Definition demo_ops : list operation :=
  [OpIter; OpNext 0; OpUpdateMetadata (mk_table [] [[]]); OpUpdateMetadata demo_table; OpIter;
   OpSetEpochLen 5; OpSetEpochLen 0; OpNext 1; OpNext 1; OpEditPaths []].
Definition demo_after : CachedDataset :=
  (run_operations demo_ops (demo_dataset, [])).1.

Lemma demo_loaded :
  cached_dataset_load 2 [[lit "a"]; [lit "b"]] demo_reader = Ret demo_dataset.
Proof. vm_compute. reflexivity. Qed.

Definition demo_cache (id : Z) : LoadedCache := mk_cache id [(lit "label", KindInt)] [[MInt 4]; [MInt 5]] [].

Lemma demo_caches : nat_caches (cd_inner demo_dataset) = [demo_cache 0; demo_cache 1] /\
  nat_caches (cd_inner demo_after) = [demo_cache 0; demo_cache 1].
Proof. split; vm_compute; reflexivity. Qed.

Lemma recipe_tracks_native_witness :
  recipe_sample_count (cd_recipe demo_after) = dataset_len demo_after /\
  recipe_sample_count (cd_recipe demo_after) = 5.
Proof.
  split; [|vm_compute; reflexivity].
  exact (proj1 (recipe_tracks_native
    2 [[lit "a"]; [lit "b"]] demo_reader demo_dataset demo_ops demo_loaded)).
Defined.



Lemma get_item_agrees_witness :
  get_item (PInt 1) (PInt 0) demo_after = Ret (mk_sample [1; 0] ∅ 1 0) /\
  exists m, get_item (PInt 1) (PInt 2) demo_after = Raise (IndexError m).
Proof.
  split; [vm_compute; reflexivity|].
  refine (proj1 (proj2 (get_item_agrees
    2 [[lit "a"]; [lit "b"]] demo_reader demo_dataset demo_ops demo_loaded _)) 1 2 _).
  - rewrite (proj1 demo_caches). intros k [->|[->|[]%elem_of_nil]%elem_of_cons]%elem_of_cons;
      repeat split; vm_compute; discriminate.
  - fold demo_after. rewrite (proj2 demo_caches).
    intros k [->|[->|[]%elem_of_nil]%elem_of_cons]%elem_of_cons _; vm_compute; discriminate.
Defined.

Lemma running_iterator_isolated_witness :
  (gen_next (GenRunning (Sequential 4 0 4 None) 4 1) demo_after).1 =
  (gen_next (GenRunning (Sequential 4 0 4 None) 4 1) demo_dataset).1.
Proof.
  apply (running_iterator_isolated demo_dataset []
    demo_ops (Sequential 4 0 4 None) 4 1).
  exact (load_tracked _ _ _ _ demo_loaded).
Defined.

(** An iterator obtained before a length change but not pulled from yet takes the
    new length: creating it snapshots nothing. *)
Lemma unstarted_iterator_sees_update :
  let '(d, gens) := run_operations
                      [OpIter; OpSetEpochLen 1; OpNext 0; OpNext 0] (demo_dataset, []) in
  dataset_len demo_dataset = 4 /\ gens = [GenDone].
Proof. vm_compute. done. Qed.
