(* ===== verification/Refinement.v ===== *)
(** An abstract specification of [CachedDataset] and the proof that the object of
    [src/dataset_rt/dataset.py] over its native state implements it. The
    specification knows neither plans, samplers, cursors nor recipes: a dataset is a
    population of rows with an endless stream over it, an epoch length and the
    number of samples handed out so far, and an iterator is an interval of that
    stream. *)
From stdpp Require Import base tactics list numbers strings gmap.
From S2P Require Import Prelude Records Config Seeds Native Metadata Interface Dataset.
Open Scope Z_scope.

(** * The specification *)

Section Spec.
Context {N : NativeReader}.

(** The rows iterated over: the samples of the caches, or the rows of a table. *)
Inductive population := Original (total : Z) | Table (t : table) (a : ActiveTable).

Definition population_size (p : population) : Z :=
  match p with Original n => n | Table _ a => Z.of_nat (length (physical_indices a)) end.

(** The row of the endless stream at position [i]: the rows in order, again and
    again, or the [i]-th seeded draw. *)
Definition stream_row (shuffle : bool) (seed : Z) (p : population) (i : Z) : Z :=
  if shuffle
  then match p with
       | Original n => uniform (sample_key seed i) n
       | Table _ a => weighted (sample_key seed i) (row_weights a)
       end
  else i mod population_size p.

(** The physical sample of a row. *)
Definition row_sample_index (p : population) (row : Z) : Z :=
  match p with Original _ => row | Table _ a => physical_indices a !!! Z.to_nat row end.

(** What never changes: order mode and seed, the samples by physical position and
    by identity, the original table, and which tables are accepted. *)
Record fixed := mk_fixed {
  fx_shuffle : bool;
  fx_seed : Z;
  fx_sample : Z -> outcome CachedSample;
  fx_item : pyval -> pyval -> outcome CachedSample;
  fx_original : table;
  fx_accept : table -> result ActiveTable CacheError }.

Record abstract := mk_abstract {
  ab_population : population;
  ab_len : Z;
  ab_position : Z }.

(** An iterator: not started, the interval of a stream from [start], at its end. *)
Inductive abstract_iter :=
| AbstractNew
| AbstractRun (p : population) (start total emitted : Z)
| AbstractDone.

Definition abstract_emit (f : fixed) (p : population) (start total emitted : Z)
  : outcome (option CachedSample) * abstract_iter :=
  if total <=? emitted then (Ret None, AbstractDone)
  else match fx_sample f (row_sample_index p (stream_row (fx_shuffle f) (fx_seed f) p (start + emitted))) with
       | Raise e => (Raise e, AbstractDone)
       | Ret s => (Ret (Some s), AbstractRun p start total (emitted + 1))
       end.

(** The first [next] takes the following interval of the stream. Shuffled positions
    are 64-bit counters. *)
Definition abstract_next (f : fixed) (g : abstract_iter) (x : abstract)
  : outcome (option CachedSample) * abstract_iter * abstract :=
  match g with
  | AbstractDone => (Ret None, AbstractDone, x)
  | AbstractRun p start total emitted => (abstract_emit f p start total emitted, x)
  | AbstractNew =>
      if fx_shuffle f && (U64_MAX <? ab_position x + ab_len x)
      then (Raise (ValueError (lit "shuffled draw offset overflowed u64")), AbstractDone, x)
      else (abstract_emit f (ab_population x) (ab_position x) (ab_len x) 0,
            mk_abstract (ab_population x) (ab_len x) (ab_position x + ab_len x))
  end.

Definition abstract_set_len (n : Z) (x : abstract) : outcome unit * abstract :=
  if n <? 1 then (Raise (ValueError (lit "epoch_len must be at least 1")), x)
  else match extract_u64 n with
       | Raise e => (Raise e, x)
       | Ret _ => (Ret tt, mk_abstract (ab_population x) n (ab_position x))
       end.

Definition abstract_update (f : fixed) (t : table) (x : abstract) : outcome unit * abstract :=
  match fx_accept f t with
  | Err e => (Raise (into_py_err e), x)
  | Ok a => (Ret tt, mk_abstract (Table t a) (Z.of_nat (length (physical_indices a))) 0)
  end.

(** * Requests and what the caller observes *)

Inductive request :=
| Request (o : operation)
| RequestLen
| RequestItem (cache_id sample_id : pyval)
| RequestMetadata.

Inductive observation :=
| Nothing
| SawUpdate (r : outcome unit)
| SawNext (r : outcome (option CachedSample))
| SawLen (n : Z)
| SawItem (r : outcome CachedSample)
| SawMetadata (t : table).

Definition observe (q : request) (s : session) : observation * session :=
  let '(d, gens) := s in
  match q with
  | Request o =>
      (match o with
       | OpSetEpochLen n => SawUpdate (set_epoch_len n d).1
       | OpUpdateMetadata t => SawUpdate (update_metadata t d).1
       | OpNext i => match gens !! i with
                     | Some g => SawNext (gen_next g d).1.1
                     | None => Nothing
                     end
       | OpIter | OpEditPaths _ => Nothing
       end, run_operation o s)
  | RequestLen => (SawLen (dataset_len d), s)
  | RequestItem c i => (SawItem (get_item c i d), s)
  | RequestMetadata => (SawMetadata (metadata_arrow (cd_inner d)), s)
  end.

Definition abstract_session : Type := abstract * list abstract_iter.

Definition abstract_observe (f : fixed) (q : request) (s : abstract_session)
  : observation * abstract_session :=
  let '(x, gens) := s in
  match q with
  | Request (OpSetEpochLen n) => (SawUpdate (abstract_set_len n x).1, ((abstract_set_len n x).2, gens))
  | Request (OpUpdateMetadata t) => (SawUpdate (abstract_update f t x).1, ((abstract_update f t x).2, gens))
  | Request OpIter => (Nothing, (x, gens ++ [AbstractNew]))
  | Request (OpNext i) =>
      match gens !! i with
      | None => (Nothing, s)
      | Some g => let '(r, g', x') := abstract_next f g x in (SawNext r, (x', <[i:=g']> gens))
      end
  | Request (OpEditPaths _) => (Nothing, s)
  | RequestLen => (SawLen (ab_len x), s)
  | RequestItem c i => (SawItem (fx_item f c i), s)
  | RequestMetadata =>
      (SawMetadata (match ab_population x with Original _ => fx_original f | Table t _ => t end), s)
  end.

(** The observations of a sequence of requests. *)
Fixpoint trace {S : Type} (step : request -> S -> observation * S) (qs : list request) (s : S)
  : list observation :=
  match qs with
  | [] => []
  | q :: rest => let '(o, s') := step q s in o :: trace step rest s'
  end.

(** The specification of a freshly loaded dataset. *)
Definition fixed_of (d : CachedDataset) : fixed :=
  let n := cd_inner d in
  mk_fixed (ds_shuffle (nat_state n)) (ds_seed (nat_state n))
    (fun index => to_python (load_planned_sample n index))
    (fun c i => get_item c i d)
    (build_samples_metadata (nat_caches n) (nat_schema n))
    (fun t => extract_metadata_arrow t (nat_caches n) (nat_offsets n) (nat_lookup n) (nat_schema n)).

Definition abstract_of (d : CachedDataset) : abstract :=
  mk_abstract (Original (ds_total (nat_state (cd_inner d)))) (dataset_len d) 0.
End Spec.

(** * The simulation *)

Section Simulation.
Context {N : NativeReader} {L : NativeReaderLaws N}.

(** A population the samplers accept. *)
Definition valid_population (p : population) : Prop :=
  1 <= population_size p /\
  match p with
  | Original _ => True
  | Table _ a => length (row_weights a) = length (physical_indices a) /\ weights_error (row_weights a) = None
  end.

Definition indices_of (p : population) : option (list Z) :=
  match p with Original _ => None | Table _ a => Some (physical_indices a) end.

(** The native plan of an interval of the stream after [emitted] samples. *)
Definition plan_of (shuffle : bool) (seed : Z) (p : population) (start total emitted : Z) : EpochPlan :=
  if shuffle
  then Shuffled (match p with
                 | Original n => Uniform seed (start + emitted) (total - emitted) n
                 | Table _ a => Weighted (row_weights a) seed (start + emitted) (total - emitted)
                 end) (indices_of p)
  else Sequential total (start mod population_size p) (population_size p) (indices_of p).

Lemma plan_of_next shuffle seed p start total e : valid_population p -> 0 <= start -> 0 <= e < total ->
  (shuffle = true -> start + total <= U64_MAX) ->
  next_physical_index uniform weighted (plan_of shuffle seed p start total e) e =
  (Some (row_sample_index p (stream_row shuffle seed p (start + e))), plan_of shuffle seed p start total (e + 1)).
Proof.
  intros [Hn Hp] Hs He Hb. destruct (generators_ok (N := N)) as [Hu Hw].
  unfold plan_of, stream_row, next_physical_index. destruct shuffle.
  - specialize (Hb eq_refl).
    assert (Es : saturating_succ (start + e) = start + (e + 1)) by (unfold saturating_succ; lia).
    destruct p as [n|t a]; simpl in *; rewrite Es; (destruct (Z.eqb_spec (total - e) 0); [lia|]); simpl;
      replace (total - e - 1) with (total - (e + 1)) by lia; [done|].
    rewrite list_lookup_lookup_total_lt; [done|]. destruct Hp as [Hlen _].
    pose proof (Hw (sample_key seed (start + e)) (row_weights a) ltac:(lia)). lia.
  - destruct (Z.leb_spec total e); [lia|].
    rewrite wrapping_add_ok by (lia || apply Z.mod_pos_bound; lia). simpl.
    rewrite Z.add_mod_idemp_l by lia.
    pose proof (Z.mod_pos_bound (start + e) (population_size p) ltac:(lia)).
    destruct p as [n|t a]; simpl in *; [done|]. by rewrite list_lookup_lookup_total_lt by lia.
Qed.

Section Related.
Context (d0 : CachedDataset).
Abbreviation shuffle := (ds_shuffle (nat_state (cd_inner d0))).
Abbreviation seed := (ds_seed (nat_state (cd_inner d0))).

Definition related_population (p : population) (n : native_dataset) : Prop :=
  match p, nat_table n, ds_active (nat_state n) with
  | Original total, None, None => total = ds_total (nat_state n)
  | Table t a, Some t', Some a' => t = t' /\ a = a'
  | _, _, _ => False
  end.

Record related (d : CachedDataset) (x : abstract) : Prop := mk_related {
  re_source : same_source d0 d;
  re_population : related_population (ab_population x) (cd_inner d);
  re_valid : valid_population (ab_population x);
  re_len : dataset_len d = ab_len x /\ 1 <= ab_len x;
  re_position : 0 <= ab_position x /\
    if shuffle then ds_draw_offset (nat_state (cd_inner d)) = ab_position x
    else ds_sequential_offset (nat_state (cd_inner d)) = ab_position x mod population_size (ab_population x) }.

Definition related_iter (g : generator) (h : abstract_iter) : Prop :=
  match g, h with
  | GenNew, AbstractNew | GenDone, AbstractDone => True
  | GenRunning plan total e, AbstractRun p start total' e' =>
      total' = total /\ e' = e /\ plan = plan_of shuffle seed p start total e /\ valid_population p /\
      0 <= start /\ 0 <= e <= total /\ (shuffle = true -> start + total <= U64_MAX)
  | _, _ => False
  end.

Lemma related_active d x : related d x ->
  active_len (nat_state (cd_inner d)) = population_size (ab_population x) /\
  active_physical_indices (nat_state (cd_inner d)) = indices_of (ab_population x).
Proof.
  intros [Hs Hp _ _ _]. unfold related_population in Hp. unfold active_len, active_physical_indices.
  destruct (ab_population x), (nat_table (cd_inner d)), (ds_active _); try done; simpl; by destruct Hp; subst.
Qed.

(** Planning a new iterator takes the next interval of the stream. *)
Lemma epoch_plan_related d x : related d x ->
  match epoch_plan weights_error (nat_state (cd_inner d)) with
  | Err e => shuffle = true /\ U64_MAX < ab_position x + ab_len x /\
             e = InvalidInput (lit "shuffled draw offset overflowed u64")
  | Ok (p, s) =>
      (shuffle = true -> ab_position x + ab_len x <= U64_MAX) /\
      p = plan_of shuffle seed (ab_population x) (ab_position x) (ab_len x) 0 /\
      related (with_inner (with_state s (cd_inner d)) d)
        (mk_abstract (ab_population x) (ab_len x) (ab_position x + ab_len x))
  end.
Proof.
  intros H. destruct (related_active d x H) as [Hal Hap]. destruct H as [Hs Hp Hv [Hl Hl1] [Hpos Hoff]].
  pose proof Hs as (? & ? & ? & ? & ? & ? & ? & Ht & Hseed & Hsh). pose proof Hv as [Hn Hw].
  unfold dataset_len, native_len in Hl. unfold epoch_plan, plan_of. rewrite Hsh, Hseed, Hl, Hal, Hap.
  destruct shuffle eqn:Es; simpl.
  - unfold advance_draw_offset, checked_add. rewrite Hoff.
    destruct (Z.leb_spec (ab_position x + ab_len x) U64_MAX); [|by split_and!].
    unfold related_population in Hp. rewrite Z.add_0_r, Z.sub_0_r.
    destruct (ab_population x) as [n|t a] eqn:Ep, (nat_table (cd_inner d)) eqn:Et,
      (ds_active (nat_state (cd_inner d))) eqn:Ea; try done; simpl in Hn.
    + subst n. destruct (Z.eqb_spec (ds_total (nat_state (cd_inner d))) 0); [lia|]. split; [done|]. split; [done|].
      constructor; simpl; rewrite ?Et, ?Ea, ?Es; try done; lia.
    + destruct Hp as [<- <-]. destruct Hw as [_ ->]. split; [done|]. split; [done|].
      constructor; simpl; rewrite ?Et, ?Ea, ?Es; try done; lia.
  - rewrite Hoff, advance_cyclic_ok by (lia || apply Z.mod_pos_bound; lia). split; [done|]. split; [done|].
    constructor; simpl; rewrite ?Es; try done. split; [lia|]. by rewrite Z.add_mod_idemp_l by lia.
Qed.

(** Both sides emit the same sample of the interval. *)
Lemma emit_related d p start total e : same_source d0 d -> valid_population p -> 0 <= start -> 0 <= e <= total ->
  (shuffle = true -> start + total <= U64_MAX) ->
  (run_next (plan_of shuffle seed p start total e) total e d).1 =
    (abstract_emit (fixed_of d0) p start total e).1 /\
  related_iter (run_next (plan_of shuffle seed p start total e) total e d).2
    (abstract_emit (fixed_of d0) p start total e).2.
Proof.
  intros Hs Hv Hst He Hb. unfold run_next, abstract_emit. destruct (Z.leb_spec total e); [done|].
  rewrite plan_of_next by (done || lia). simpl.
  destruct Hs as (_ & _ & _ & Hc & _ & Ho & _). unfold load_planned_sample. rewrite Hc, Ho.
  destruct (match locate_physical_sample _ _ _ with Err e => _ | Ok _ => _ end); simpl; [|done].
  split; [done|]. split_and!; try done; lia.
Qed.

Lemma plan_of_len p start total : plan_len (plan_of shuffle seed p start total 0) = total.
Proof. unfold plan_of. destruct shuffle; [destruct p; simpl; lia|done]. Qed.

Lemma next_related d x g h : related d x -> related_iter g h ->
  let '(r, g', d') := gen_next g d in
  let '(r', h', x') := abstract_next (fixed_of d0) h x in
  r = r' /\ related_iter g' h' /\ related d' x'.
Proof.
  intros Hr Hg. destruct g as [|plan total e|], h as [|p start total' e'|]; try done; unfold gen_next, abstract_next.
  - pose proof (epoch_plan_related d x Hr) as Hp. change (fx_shuffle (fixed_of d0)) with shuffle.
    destruct (epoch_plan _ _) as [[plan s]|err].
    + destruct Hp as (Hb & -> & Hr').
      replace (shuffle && (U64_MAX <? ab_position x + ab_len x)) with false
        by (destruct shuffle; [destruct (Z.ltb_spec U64_MAX (ab_position x + ab_len x)); [specialize (Hb eq_refl); lia|]|]; done).
      rewrite plan_of_len. pose proof (re_source _ _ Hr') as Hs'.
      destruct Hr as [_ _ Hv [_ Hl] [Hpos _]].
      destruct (emit_related _ (ab_population x) (ab_position x) (ab_len x) 0 Hs' Hv Hpos ltac:(lia) Hb) as [H1 H2].
      destruct (run_next _ _ _ _), (abstract_emit _ _ _ _ _). by split_and!.
    + destruct Hp as (-> & Hb & ->). destruct (Z.ltb_spec U64_MAX (ab_position x + ab_len x)); [|lia]. by split_and!.
  - destruct Hg as (-> & -> & -> & Hv & Hst & He & Hb). pose proof (re_source _ _ Hr) as Hs.
    destruct (emit_related d p start total e Hs Hv Hst He Hb) as [H1 H2].
    destruct (run_next _ _ _ _), (abstract_emit _ _ _ _ _). by split_and!.
Qed.

Lemma set_len_related n d x : related d x ->
  (set_epoch_len n d).1 = (abstract_set_len n x).1 /\ related (set_epoch_len n d).2 (abstract_set_len n x).2.
Proof.
  intros [Hs Hp Hv Hl Hpos]. unfold set_epoch_len, abstract_set_len. destruct (Z.ltb_spec n 1); [done|].
  destruct (extract_u64 n) as [m|] eqn:E; [|done]. apply extract_u64_inv in E as [-> _].
  unfold native_set_epoch_len, new_epoch_len. destruct (Z.eqb_spec n 0); [lia|]. by split.
Qed.

Lemma update_related t d x : related d x ->
  (update_metadata t d).1 = (abstract_update (fixed_of d0) t x).1 /\
  related (update_metadata t d).2 (abstract_update (fixed_of d0) t x).2.
Proof.
  intros Hr. pose proof Hr as [Hs _ _ _ _].
  pose proof Hs as (Hs1 & Hs2 & Hs3 & Hc & Hlk & Ho & Hsch & Ht & Hseed & Hsh).
  unfold update_metadata, restore_metadata, abstract_update, update_metadata_arrow. simpl.
  rewrite <- Hc, <- Hlk, <- Ho, <- Hsch.
  destruct (extract_metadata_arrow t _ _ _ _) as [a|e] eqn:Ea; [|done].
  apply extract_active_wf in Ea as (H1 & H2 & Hne & Hw).
  unfold replace_active, new_epoch_len.
  destruct (Z.eqb_spec (Z.of_nat (length (physical_indices a))) 0) as [E0|E0].
  { destruct (table_rows t); [done|simpl in *; lia]. }
  split; [done|]. constructor; simpl; [by unfold same_source; simpl; split_and!|done| |by split; [|lia]|].
  - split; [simpl; lia|]. split; [congruence|]. unfold weights_error.
    replace (Z.of_nat (length (row_weights a))) with (num_rows t) by (unfold num_rows; by rewrite H2).
    rewrite Hw. apply distribution_accepts. by rewrite H2.
  - split; [lia|]. by destruct shuffle.
Qed.

(** One request: same observation, related sessions. *)
Lemma observe_related q d gens x its : related d x -> Forall2 related_iter gens its ->
  (observe q (d, gens)).1 = (abstract_observe (fixed_of d0) q (x, its)).1 /\
  related (observe q (d, gens)).2.1 (abstract_observe (fixed_of d0) q (x, its)).2.1 /\
  Forall2 related_iter (observe q (d, gens)).2.2 (abstract_observe (fixed_of d0) q (x, its)).2.2.
Proof.
  intros Hr HF. destruct q as [o| |c i|]; simpl.
  - destruct o as [n|t| |i|paths]; simpl.
    + destruct (set_len_related n d x Hr) as [-> ?]. done.
    + destruct (update_related t d x Hr) as [-> ?]. done.
    + split_and!; [done|done|]. apply Forall2_app; [done|]. by repeat constructor.
    + destruct (gens !! i) as [g|] eqn:Eg.
      * destruct (Forall2_lookup_l _ _ _ _ _ HF Eg) as (h & -> & Hg).
        pose proof (next_related d x g h Hr Hg) as H.
        destruct (gen_next g d) as [[r g'] d'], (abstract_next _ h x) as [[r' h'] x'].
        destruct H as (-> & Hg' & Hr'). simpl. split_and!; [done|done|]. by apply Forall2_insert.
      * assert (its !! i = None) as ->; [|done].
        apply lookup_ge_None. apply lookup_ge_None in Eg. by rewrite <- (Forall2_length _ _ _ HF).
    + destruct Hr. split_and!; [done| |done]. by constructor.
  - pose proof (re_len _ _ Hr) as [-> _]. done.
  - split; [|done]. f_equal. destruct (re_source _ _ Hr) as (_ & _ & _ & Hc & Hl & _).
    unfold get_item, load_sample_by_identity. simpl. by rewrite Hc, Hl.
  - split; [|done]. f_equal. pose proof (re_population _ _ Hr) as Hp. unfold related_population in Hp.
    destruct (re_source _ _ Hr) as (_ & _ & _ & Hc & _ & _ & Hsch & _). unfold metadata_arrow. simpl.
    destruct (ab_population x), (nat_table (cd_inner d)), (ds_active (nat_state (cd_inner d))); try done;
      [by rewrite Hc, Hsch|by destruct Hp].
Qed.

Lemma trace_related qs : forall d gens x its, related d x -> Forall2 related_iter gens its ->
  trace observe qs (d, gens) = trace (abstract_observe (fixed_of d0)) qs (x, its).
Proof.
  induction qs as [|q qs IH]; intros d gens x its Hr HF; [done|]. cbn [trace].
  destruct (observe_related q d gens x its Hr HF) as (Ho & Hr' & HF').
  destruct (observe q (d, gens)) as [o [d' gens']], (abstract_observe _ q (x, its)) as [o' [x' its']].
  simpl in *. rewrite Ho. f_equal. by apply IH.
Qed.
End Related.
End Simulation.

Lemma load_related {N : NativeReader} workers paths c d : cached_dataset_load workers paths c = Ret d ->
  related d d (abstract_of d).
Proof.
  intros (_ & _ & Hn & _)%cached_dataset_load_ok.
  apply load_native_ok in Hn as (_ & _ & _ & _ & Ht & Hp & Hs).
  constructor; simpl; rewrite ?Ht, ?Hs; simpl; try done; try (split; simpl; lia).
  - split; [by unfold dataset_len, native_len; rewrite Hs|]. unfold dataset_len, native_len. rewrite Hs. simpl. lia.
  - split; [lia|]. by case_match.
Qed.


#[local] Existing Instance demo_native.
#[local] Existing Instance demo_native_laws.

Definition demo_requests : list request :=
  [RequestLen; Request OpIter; Request (OpNext 0); Request (OpSetEpochLen 3); Request OpIter; Request (OpNext 1);
   Request (OpUpdateMetadata demo_table); Request (OpNext 0); Request OpIter; Request (OpNext 2);
   RequestItem (PInt 1) (PInt 0); RequestMetadata; Request (OpSetEpochLen 0)].

