(* ===== verification/Passes.v ===== *)
(** Whole passes over a freshly loaded dataset: an iterator whose interval of the
    stream is not used up delivers a sample of the population, and one that is used
    up stops. Stated for any property every sample of the population has. *)
From stdpp Require Import base tactics list numbers strings gmap.
From S2P Require Import Prelude Records Config Seeds Native Metadata Interface Dataset Refinement.
Open Scope Z_scope.

Section Passes.
Context {N : NativeReader} {L : NativeReaderLaws N} (d0 : CachedDataset).
Context (T : Z) (good_sample : CachedSample -> Prop)
  (Hpop : 1 <= T /\ forall index, 0 <= index < T ->
     exists s, load_planned_sample (cd_inner d0) index = Ok s /\ good_sample s).

Abbreviation shuffle := (ds_shuffle (nat_state (cd_inner d0))).

(** An iterator of the abstract dataset over the fixture with [n] samples to go, and
    the position the dataset has once it started. *)
Definition pending (n : Z) (x : abstract) (h : abstract_iter) : Prop :=
  ab_population x = Original T /\ ab_len x = T /\ 0 <= ab_position x /\
  match h with
  | AbstractNew => n = T /\ (shuffle = true -> ab_position x + T <= U64_MAX)
  | AbstractRun p start total e => p = Original T /\ 0 <= start /\ 0 <= e <= total /\ n = total - e
  | AbstractDone => n = 0
  end.

Definition settled (x : abstract) (h : abstract_iter) : Z :=
  ab_position x + match h with AbstractNew => ab_len x | _ => 0 end.

Lemma stream_row_range i : 0 <= row_sample_index (Original T) (stream_row shuffle (ds_seed (nat_state (cd_inner d0))) (Original T) i) < T.
Proof.
  destruct Hpop as [HT Hsample]. destruct (generators_ok (N := N)) as [Hu _]. unfold stream_row. simpl.
  destruct shuffle; [apply Hu; lia|apply Z.mod_pos_bound; lia].
Qed.

Lemma abstract_emit_good start total e : 0 <= e < total ->
  exists s, abstract_emit (fixed_of d0) (Original T) start total e =
    (Ret (Some s), AbstractRun (Original T) start total (e + 1)) /\ good_sample s.
Proof.
  intros He. unfold abstract_emit. destruct (Z.leb_spec total e); [lia|].
  destruct (proj2 Hpop _ (stream_row_range (start + e))) as (s & Hs & Hg). simpl in *. rewrite Hs. simpl. eauto.
Qed.

(** One step of an iterator with samples to go. *)
Lemma pending_next n g d x h : 0 < n -> related d0 d x -> related_iter d0 g h -> pending n x h ->
  exists s g' d' x' h', gen_next g d = (Ret (Some s), g', d') /\ good_sample s /\
    related d0 d' x' /\ related_iter d0 g' h' /\ pending (n - 1) x' h' /\ settled x' h' = settled x h.
Proof.
  intros Hn Hr Hg (Hp & Hlen & Hpos & Hh). pose proof (next_related d0 d x g h Hr Hg) as H.
  destruct (gen_next g d) as [[r g'] d'].
  assert (exists s h' x', abstract_next (fixed_of d0) h x = (Ret (Some s), h', x') /\ good_sample s /\
    pending (n - 1) x' h' /\ settled x' h' = settled x h) as (s & h' & x' & E & Hs & Hp' & Hst).
  { unfold abstract_next. change (fx_shuffle (fixed_of d0)) with shuffle.
    destruct h as [|p start total e|]; simpl in Hh; [|..|lia].
    - destruct Hh as [-> Hb]. rewrite Hp, Hlen.
      replace (shuffle && (U64_MAX <? ab_position x + T)) with false
        by (destruct shuffle; [destruct (Z.ltb_spec U64_MAX (ab_position x + T)); [specialize (Hb eq_refl); lia|]|]; done).
      destruct (abstract_emit_good (ab_position x) T 0) as (s & -> & Hs); [lia|].
      do 3 eexists. split; [done|]. unfold pending, settled. simpl. split_and!; (done || lia).
    - destruct Hh as (-> & Hst & He & ->). destruct (abstract_emit_good start total e) as (s & -> & Hs); [lia|].
      do 3 eexists. split; [done|]. unfold pending, settled. simpl. split_and!; (done || lia). }
  rewrite E in H. destruct H as (-> & ? & ?). do 5 eexists. by split_and!.
Qed.

Lemma pending_end g d x h : related d0 d x -> related_iter d0 g h -> pending 0 x h ->
  exists g', gen_next g d = (Ret None, g', d).
Proof.
  intros Hr Hg (Hp & Hlen & Hpos & Hh). destruct Hpop as [HT _].
  destruct h as [|p start total e|]; simpl in Hh; [lia| |]; destruct g as [|plan total' e'|]; try done; simpl in *.
  - destruct Hg as (-> & -> & _). unfold run_next. destruct (Z.leb_spec total' e'); [eauto|lia].
  - eauto.
Qed.

(** A generator and its dataset with [n] samples to go; [pos] is where the stream
    continues after it. *)
Definition at_pending (n pos : Z) (s : generator * CachedDataset) : Prop :=
  exists x h, related d0 s.2 x /\ related_iter d0 s.1 h /\ pending n x h /\ settled x h = pos.

Lemma at_pending_next n pos g d : 0 < n -> at_pending n pos (g, d) ->
  exists s g' d', gen_next g d = (Ret (Some s), g', d') /\ good_sample s /\ at_pending (n - 1) pos (g', d').
Proof.
  intros Hn (x & h & Hr & Hg & Hp & Hst).
  destruct (pending_next n g d x h Hn Hr Hg Hp) as (s & g' & d' & x' & h' & E & Hs & Hr' & Hg' & Hp' & Hst').
  exists s, g', d'. split_and!; [done|done|]. exists x', h'. split_and!; try done. congruence.
Qed.

Lemma at_pending_end pos g d : at_pending 0 pos (g, d) -> exists g', gen_next g d = (Ret None, g', d).
Proof. intros (x & h & Hr & Hg & Hp & Hst). by apply (pending_end g d x h). Qed.

(** A new iterator on the dataset a pass has left. *)
Lemma at_restart pos g d : at_pending 0 pos (g, d) -> (shuffle = true -> pos + T <= U64_MAX) ->
  at_pending T (pos + T) (GenNew, d).
Proof.
  intros (x & h & Hr & _ & (Hp & Hl & Hpos & Hh) & Hst) Hb. destruct Hpop as [HT _]. exists x, AbstractNew.
  assert (ab_position x = pos) by (unfold settled in Hst; destruct h; simpl in *; lia).
  split_and!; [done|done| |unfold settled; lia]. split_and!; [done|done|done|done|]. intros Es. specialize (Hb Es). lia.
Qed.

(** A new iterator after one sample was drawn from another and the length was set to
    that of the population. *)
Lemma at_pending_set_len n pos g d : 0 < n -> at_pending n pos (g, d) -> g <> GenNew -> T <= U64_MAX ->
  (shuffle = true -> pos + T <= U64_MAX) ->
  exists d', set_epoch_len T d = (Ret tt, d') /\ at_pending T (pos + T) (GenNew, d').
Proof.
  intros Hn (x & h & Hr & Hg & (Hp & Hl & Hpos & Hh) & Hst) Hne HTb Hb. destruct Hpop as [HT _].
  destruct (set_len_related d0 T d x Hr) as [E1 E2].
  unfold abstract_set_len in E1, E2. destruct (Z.ltb_spec T 1); [lia|].
  rewrite extract_u64_ok in E1, E2 by (unfold is_u64; lia).
  destruct (set_epoch_len T d) as [[[]|] d2]; simpl in *; [|done]. exists d2. split; [done|].
  assert (Hpx : ab_position x = pos).
  { unfold settled in Hst. destruct g, h; try done; simpl in *; lia. }
  exists (mk_abstract (ab_population x) T (ab_position x)), AbstractNew.
  split; [done|]. split; [done|]. split; [|unfold settled; simpl; lia]. unfold pending. simpl. rewrite Hpx in *.
  by split_and!.
Qed.

Lemma loaded_pending workers paths c : cached_dataset_load workers paths c = Ret d0 ->
  ds_total (nat_state (cd_inner d0)) = T -> dataset_len d0 = T -> T <= U64_MAX -> at_pending T T (GenNew, d0).
Proof.
  intros Hl Ht Hlen Hb. exists (abstract_of d0), AbstractNew. split_and!.
  - by eapply load_related.
  - done.
  - unfold pending, abstract_of. simpl. rewrite Ht, Hlen. split_and!; (done || lia).
  - unfold settled, abstract_of. simpl. lia.
Qed.
End Passes.

(** * Caches of one size *)

Section Uniform.
Context {N : NativeReader} (workers : Z) (paths : list path) (reader : ReaderConfig) (d0 : CachedDataset)
  (Hload : cached_dataset_load workers paths reader = Ret d0).
Context (K m : Z) (HK : 1 <= K) (Hm : 1 <= m) (Hlen : Z.of_nat (length (nat_caches (cd_inner d0))) = K)
  (Hcount : forall k cache, nat_caches (cd_inner d0) !! k = Some cache -> sample_count cache = m).

Lemma uniform_counts : map sample_count (nat_caches (cd_inner d0)) = replicate (Z.to_nat K) m.
Proof.
  apply list_eq. intros k. change (map ?g ?l) with (g <$> l). rewrite list_lookup_fmap.
  destruct (nat_caches (cd_inner d0) !! k) as [cache|] eqn:E; simpl.
  - rewrite (Hcount k cache E). apply lookup_lt_Some in E. symmetry. apply lookup_replicate. split; [done|lia].
  - symmetry. apply lookup_ge_None. apply lookup_ge_None in E. rewrite length_replicate. lia.
Qed.

(** The sample at a physical index is the record of that number. *)
Lemma uniform_sample index : 0 <= index < K * m ->
  exists k cache, nat_caches (cd_inner d0) !! k = Some cache /\ Z.of_nat k = index / m /\ 0 <= index mod m < m /\
    load_planned_sample (cd_inner d0) index = sample_of cache (index mod m).
Proof.
  intros Hi. apply cached_dataset_load_ok in Hload as (_ & _ & Hn & _).
  apply load_native_ok in Hn as (_ & _ & _ & Ho & _). set (k := Z.to_nat (index / m)).
  assert (Hkm : 0 <= index / m < K) by dlia.
  destruct (lookup_lt_is_Some_2 (nat_caches (cd_inner d0)) k) as [cache Ek]; [unfold k; lia|].
  assert (Hj : 0 <= index mod m < m) by (apply Z.mod_pos_bound; lia).
  exists k, cache. split_and!; [done|unfold k; lia|lia|lia|]. unfold load_planned_sample.
  replace (locate_physical_sample (map sample_count (nat_caches (cd_inner d0))) (nat_offsets (cd_inner d0)) index) with
    (@Ok _ CacheError (Z.of_nat k, index mod m)).
  { by rewrite Nat2Z.id, Ek. }
  rewrite <- (locate_physical_sample_inverse (map sample_count (nat_caches (cd_inner d0)))
    (nat_offsets (cd_inner d0)) k m (index mod m)); [f_equal| |done| |done]; rewrite uniform_counts.
  - rewrite take_replicate, Zsum_replicate. unfold k. rewrite Nat.min_l by lia. pose proof (Z.div_mod index m). lia.
  - apply Forall_replicate. lia.
  - apply lookup_replicate. split; [done|unfold k; lia].
Qed.

Lemma uniform_total : ds_total (nat_state (cd_inner d0)) = K * m /\ dataset_len d0 = K * m.
Proof.
  apply cached_dataset_load_ok in Hload as (_ & _ & Hn & _). apply load_native_ok in Hn as (_ & _ & _ & _ & _ & _ & Hst).
  assert (total_samples (nat_caches (cd_inner d0)) = K * m).
  { unfold total_samples. rewrite uniform_counts, Zsum_replicate. lia. }
  unfold dataset_len, native_len. rewrite Hst. simpl. done.
Qed.
End Uniform.
