(* ===== verification/Export.v ===== *)
(** The publication protocol of [dump_configuration] in
    [src/dataset_rt/reconstruction.py], with a failure injected before, during or
    after any of its steps, and the lifetime of [ConstructionArtifacts]. The
    state of the export directory is recorded after every effect, so that a
    reader that looks at any moment, and a process killed at any moment, are
    covered. *)
From stdpp Require Import base tactics list numbers strings gmap.
From S2P Require Import Prelude Records Config Seeds Reconstruction Native Metadata Interface Dataset.
Open Scope Z_scope.

(** * The export directory *)

Definition CONFIG_NAME : pystr := lit "dataset.json".
Definition METADATA_NAME : pystr := lit "metadata.arrow".
Definition PARTIAL : pystr := lit ".partial".

(** A file of the directory: contents, whether they are all written, whether they
    are known to be on disk. *)
Inductive artifact :=
| MetadataFile (t : table) (complete synced : bool)
| ConfigFile (c : DatasetConfiguration) (complete synced : bool)
| OrderFile (order : npy)
| OtherFile.

Abbreviation directory :=
  (@gmap (list Z) (@list_eq_dec Z Z.eq_dec) (@list_countable Z Z.eq_dec Z_countable) artifact).

Definition mark_synced (a : artifact) : artifact :=
  match a with
  | MetadataFile t complete _ => MetadataFile t complete true
  | ConfigFile c complete _ => ConfigFile c complete true
  | _ => a
  end.

(** The steps of an export, and where a failure of a step strikes: a write that
    fails midway leaves an incomplete file, and an interrupt may arrive after the
    effect of a step. *)
Inductive step :=
| ExportMetadata | BuildConfiguration | SyncMetadata | WriteConfig | SyncConfig
| ReplaceMetadata | ReplaceConfig | Unlink (name : pystr).

Inductive fault :=
| NoFault
| FaultBefore (e : py_exc)
| FaultDuring (e : py_exc)
| FaultAfter (e : py_exc).

(** Directory states left behind so far, the current one, and the outcome. *)
Definition fsm (A : Type) : Type := directory -> list directory * directory * outcome A.

#[export] Instance fsm_ret : MRet fsm := fun A a d => ([], d, Ret a).
#[export] Instance fsm_bind : MBind fsm := fun A B f m d =>
  let '(seen, d, r) := m d in
  match r with
  | Raise e => (seen, d, Raise e)
  | Ret a => let '(seen', d, r) := f a d in (seen ++ seen', d, r)
  end.

Definition fs_raise {A : Type} (e : py_exc) : fsm A := fun d => ([], d, Raise e).
Definition fs_get : fsm directory := fun d => ([], d, Ret d).
Definition fs_put (d' : directory) : fsm unit := fun _ => ([d'], d', Ret tt).

(** [try: m  except BaseException: handler; raise]. *)
Definition fs_reraise {A : Type} (m : fsm A) (handler : fsm unit) : fsm A := fun d =>
  let '(seen, d, r) := m d in
  match r with
  | Ret a => (seen, d, Ret a)
  | Raise e =>
      let '(seen', d, r') := handler d in
      (seen ++ seen', d, match r' with Ret _ => Raise e | Raise e' => Raise e' end)
  end.

Section Protocol.
Context (faults : step -> fault).

(** An effect of one step; [midway] is what a failure in the middle leaves. *)
Definition perform (s : step) (midway effect : directory -> directory) : fsm unit :=
  match faults s with
  | NoFault => d ← fs_get; _ ← fs_put (midway d); fs_put (effect d)
  | FaultBefore e => fs_raise e
  | FaultDuring e => d ← fs_get; _ ← fs_put (midway d); fs_raise e
  | FaultAfter e => d ← fs_get; _ ← fs_put (midway d); _ ← fs_put (effect d); fs_raise e
  end.

(** [export_metadata_arrow(path)]: create, write, finish and sync. *)
Definition export_file (name : pystr) (t : table) : fsm unit :=
  d ← fs_get;
  match d !! name with
  | Some _ => fs_raise (RuntimeError (lit "I/O error: File exists (os error 17)"))
  | None => perform ExportMetadata (<[name := MetadataFile t false false]>)
                                   (<[name := MetadataFile t true true]>)
  end.

(** [_sync_file(path)]. *)
Definition sync_file (s : step) (name : pystr) : fsm unit :=
  d ← fs_get;
  match d !! name with
  | None => fs_raise FileNotFoundError
  | Some a => perform s id (<[name := mark_synced a]>)
  end.

(** [path.write_text(...)]. *)
Definition write_text (name : pystr) (c : DatasetConfiguration) : fsm unit :=
  perform WriteConfig (<[name := ConfigFile c false false]>) (<[name := ConfigFile c true false]>).

(** [source.replace(target)]: an atomic rename. *)
Definition replace_file (s : step) (source target : pystr) : fsm unit :=
  d ← fs_get;
  match d !! source with
  | None => fs_raise FileNotFoundError
  | Some a => perform s id (fun d => <[target := a]> (delete source d))
  end.

(** [target.unlink(missing_ok=True)]. *)
Definition unlink (name : pystr) : fsm unit := perform (Unlink name) id (delete name).

Fixpoint unlink_all (names : list pystr) : fsm unit :=
  match names with
  | [] => mret tt
  | name :: rest => _ ← unlink name; unlink_all rest
  end.

Definition config_path : pystr := CONFIG_NAME.
Definition metadata_path : pystr := METADATA_NAME.
Definition pending_config : pystr := CONFIG_NAME ++ PARTIAL.
Definition pending_metadata : pystr := METADATA_NAME ++ PARTIAL.
Definition targets : list pystr := [config_path; metadata_path; pending_config; pending_metadata].

(** The body of the [try]: [t] and [row_count] are the exported table and the count
    the native side returns, [config row_count] the configuration to save. *)
Definition publish (t : table) (config : outcome DatasetConfiguration) : fsm unit :=
  _ ← export_file pending_metadata t;
  c ← match faults BuildConfiguration with
      | NoFault => fun d => ([], d, config)
      | FaultBefore e | FaultDuring e | FaultAfter e => fs_raise e
      end;
  _ ← sync_file SyncMetadata pending_metadata;
  _ ← write_text pending_config c;
  _ ← sync_file SyncConfig pending_config;
  _ ← replace_file ReplaceMetadata pending_metadata metadata_path;
  replace_file ReplaceConfig pending_config config_path.

Definition dump_files (t : table) (config : outcome DatasetConfiguration) : fsm pystr :=
  d ← fs_get;
  if existsb (fun name => bool_decide (is_Some (d !! name))) targets
  then fs_raise (FileExistsError (lit "dataset export already exists; choose an unused directory"))
  else
    _ ← fs_reraise (publish t config) (unlink_all targets);
    d ← fs_get;
    match d !! config_path with
    | Some _ => mret config_path
    | None => fs_raise (ValidationError (lit "FilePath"))
    end.

(** [dump_configuration(dataset, path)] for an existing directory. *)
Definition dump_configuration {N : NativeReader} (d : CachedDataset) : fsm pystr :=
  let '(t, row_count) := export_metadata_arrow (cd_inner d) in
  dump_files t (make_configuration (configuration_of row_count d)).

(** [CachedDataset.dump_config]. *)
Definition dump_config {N : NativeReader} (d : CachedDataset) : fsm pystr := dump_configuration d.
End Protocol.

(** * Artifact lifetime *)

(** The directories of the filesystem that hold exports, by path. *)
Abbreviation filesystem :=
  (@gmap (list (list Z)) (@list_eq_dec (list Z) (@list_eq_dec Z Z.eq_dec))
     (@list_countable (list Z) (@list_eq_dec Z Z.eq_dec) (@list_countable Z Z.eq_dec Z_countable)) directory).

Record ConstructionArtifacts := mk_artifacts {
  art_directory : path;
  art_pid : Z;
  art_temporary : bool }.

(** [create(work_dir)] in process [pid]; [mkdtemp root] makes a new directory below
    [root], or below the system's temporary directory. *)
Definition create_artifacts (pid : Z) (is_directory : path -> bool) (mkdtemp : option path -> outcome path)
    (work_dir : option path) (fs : filesystem) : outcome ConstructionArtifacts * filesystem :=
  let root := match work_dir with
              | None => Ret None
              | Some p => if is_directory p then Ret (Some p) else Raise (ValidationError (lit "DirectoryPath"))
              end in
  match r ← root; mkdtemp r with
  | Raise e => (Raise e, fs)
  | Ret p => (Ret (mk_artifacts p pid (match work_dir with None => true | Some _ => false end)), <[p := ∅]> fs)
  end.

(** [discard()] in process [pid]: [shutil.rmtree(..., ignore_errors=True)], taken to
    reach every entry of the directory. *)
Definition discard (pid : Z) (a : ConstructionArtifacts) (fs : filesystem) : filesystem :=
  if art_pid a =? pid then delete (art_directory a) fs else fs.

(** [__del__], when the last owner in process [pid] releases the artifacts. *)
Definition release (pid : Z) (a : ConstructionArtifacts) (fs : filesystem) : filesystem :=
  if art_temporary a then discard pid a fs else fs.

(** * A small program logic *)

(** From a directory satisfying [P], every state left behind satisfies [I], a
    normal end satisfies [Q] and a raised exception leaves a state satisfying [I]. *)
Definition triple {A : Type} (I P : directory -> Prop) (m : fsm A) (Q : A -> directory -> Prop) : Prop :=
  forall d, P d -> let '(seen, d', r) := m d in
    Forall I seen /\ match r with Ret a => Q a d' | Raise _ => I d' end.

Lemma triple_bind {A B : Type} I P (m : fsm A) R (f : A -> fsm B) Q :
  triple I P m R -> (forall a, triple I (R a) (f a) Q) -> triple I P (m ≫= f) Q.
Proof.
  intros Hm Hf d Hd. specialize (Hm d Hd). unfold mbind, fsm_bind.
  destruct (m d) as [[seen d1] [a|e]]; [|done]. destruct Hm as [Hs Ha]. specialize (Hf a d1 Ha).
  destruct (f a d1) as [[seen' d2] r]. destruct Hf. split; [by apply Forall_app|done].
Qed.

Lemma triple_weaken {A : Type} I P P' (m : fsm A) (Q Q' : A -> directory -> Prop) :
  triple I P m Q -> (forall d, P' d -> P d) -> (forall a d, Q a d -> Q' a d) -> triple I P' m Q'.
Proof.
  intros H HP HQ d Hd. specialize (H d (HP d Hd)). destruct (m d) as [[seen d1] [a|e]]; [|done].
  destruct H. auto.
Qed.

Lemma triple_perform faults s (mid eff : directory -> directory) (I P Q : directory -> Prop) :
  (forall d, P d -> I d /\ I (mid d) /\ Q (eff d)) -> (forall d, Q d -> I d) ->
  triple I P (perform faults s mid eff) (fun _ => Q).
Proof.
  intros H HQ d Hd. destruct (H d Hd) as (H0 & Hm & He). pose proof (HQ _ He). unfold perform.
  destruct (faults s); simpl; repeat constructor; auto.
Qed.

Lemma triple_raise {A : Type} I P e (Q : A -> directory -> Prop) :
  (forall d, P d -> I d) -> triple I P (fs_raise e) Q.
Proof. intros H d Hd. split; [constructor|]. by apply H. Qed.

Lemma triple_get {A : Type} I (P : directory -> Prop) (k : directory -> fsm A) Q :
  (forall d, P d -> triple I P (k d) Q) -> triple I P (fs_get ≫= k) Q.
Proof.
  intros H d Hd. specialize (H d Hd d Hd). unfold mbind, fsm_bind, fs_get.
  by destruct (k d d) as [[seen d1] r].
Qed.

Section Publication.
Context (faults : step -> fault) (t : table) (config : outcome DatasetConfiguration) (base : directory).
Context (Hbase : forall name, name ∈ targets -> base !! name = None).

(** Files that do not belong to the export keep their contents. *)
Definition frame (d : directory) : Prop := forall name, name ∉ targets -> d !! name = base !! name.

(** A visible configuration is the saved one, complete and on disk, next to the
    complete table on disk. *)
Definition published_ok (d : directory) : Prop :=
  forall a, d !! config_path = Some a -> exists c, config = Ret c /\ a = ConfigFile c true true /\
    d !! metadata_path = Some (MetadataFile t true true).

Definition safe (d : directory) : Prop := frame d /\ published_ok d.

Lemma target_names :
  config_path <> metadata_path /\ config_path <> pending_config /\ config_path <> pending_metadata /\
  metadata_path <> pending_config /\ metadata_path <> pending_metadata /\ pending_config <> pending_metadata.
Proof. split_and!; vm_compute; discriminate. Qed.

Lemma frame_insert name a d : name ∈ targets -> frame d -> frame (<[name := a]> d).
Proof. intros Ht Hd n Hn. rewrite lookup_insert_ne by congruence. by apply Hd. Qed.

Lemma frame_delete name d : name ∈ targets -> frame d -> frame (delete name d).
Proof. intros Ht Hd n Hn. rewrite lookup_delete_ne by congruence. by apply Hd. Qed.

Lemma safe_unpublished d : frame d -> d !! config_path = None -> safe d.
Proof. intros Hf Hn. split; [done|]. intros a. by rewrite Hn. Qed.

(** The contents of the four targets; everything else is untouched. *)
Definition phase (cp mp pc pm : option artifact) (d : directory) : Prop :=
  frame d /\ d !! config_path = cp /\ d !! metadata_path = mp /\
  d !! pending_config = pc /\ d !! pending_metadata = pm.

Lemma phase_safe mp pc pm d : phase None mp pc pm d -> safe d.
Proof. intros (Hf & Hc & _). by apply safe_unpublished. Qed.

Lemma phase_published c pc pm d : config = Ret c ->
  phase (Some (ConfigFile c true true)) (Some (MetadataFile t true true)) pc pm d -> safe d.
Proof.
  intros Hc (Hf & Hcp & Hmp & _). split; [done|]. intros a. rewrite Hcp. intros [= <-]. eauto.
Qed.

Ltac solve_phase :=
  match goal with H : phase _ _ _ _ _ |- _ => destruct H as (? & ? & ? & ? & ?) end;
  destruct target_names as (? & ? & ? & ? & ? & ?);
  split_and!;
  [ repeat first [apply frame_insert; [set_solver|] | apply frame_delete; [set_solver|]]; assumption
  | simplify_map_eq; done .. ].

(** One step of the protocol, by the targets before, midway and after it. *)
Lemma perform_phase s mid eff cp mp pc pm mp1 pc1 pm1 cp2 mp2 pc2 pm2 :
  (forall d, phase cp mp pc pm d -> phase None mp1 pc1 pm1 (mid d) /\ phase cp2 mp2 pc2 pm2 (eff d)) ->
  cp = None -> (forall d, phase cp2 mp2 pc2 pm2 d -> safe d) ->
  triple safe (phase cp mp pc pm) (perform faults s mid eff) (fun _ => phase cp2 mp2 pc2 pm2).
Proof.
  intros H -> Hs. apply triple_perform; [|done]. intros d Hd. destruct (H d Hd).
  split_and!; [by eapply phase_safe..|done].
Qed.

Lemma publish_triple :
  triple safe (phase None None None None) (publish faults t config)
    (fun _ d => exists c, config = Ret c /\
       phase (Some (ConfigFile c true true)) (Some (MetadataFile t true true)) None None d).
Proof.
  unfold publish.
  apply triple_bind with (fun _ => phase None None None (Some (MetadataFile t true true))).
  { apply triple_get. intros d (_ & _ & _ & _ & ->). eapply perform_phase; [|done|apply phase_safe].
    intros d1 H1. split; solve_phase. }
  intros _. apply triple_bind with
    (fun c d => config = Ret c /\ phase None None None (Some (MetadataFile t true true)) d).
  { intros d Hd. destruct (faults BuildConfiguration); simpl;
      (split; [constructor|]); try (by eapply phase_safe). destruct config; [done|by eapply phase_safe]. }
  intros c d [Hc Hd]. revert Hd. revert d. set (M := MetadataFile t true true).
  change (triple safe (phase None None None (Some M))
    (_ ← sync_file faults SyncMetadata pending_metadata; _ ← write_text faults pending_config c;
     _ ← sync_file faults SyncConfig pending_config;
     _ ← replace_file faults ReplaceMetadata pending_metadata metadata_path;
     replace_file faults ReplaceConfig pending_config config_path)
    (fun _ d => exists c, config = Ret c /\ phase (Some (ConfigFile c true true)) (Some M) None None d)).
  apply triple_bind with (fun _ => phase None None None (Some M)).
  { apply triple_get. intros d (_ & _ & _ & _ & ->). eapply perform_phase; [|done|apply phase_safe].
    intros d1 H1. split; solve_phase. }
  intros _. apply triple_bind with (fun _ => phase None None (Some (ConfigFile c true false)) (Some M)).
  { eapply perform_phase; [|done|apply phase_safe]. intros d1 H1. split; solve_phase. }
  intros _. apply triple_bind with (fun _ => phase None None (Some (ConfigFile c true true)) (Some M)).
  { apply triple_get. intros d (_ & _ & _ & -> & _). eapply perform_phase; [|done|apply phase_safe].
    intros d1 H1. split; solve_phase. }
  intros _. apply triple_bind with (fun _ => phase None (Some M) (Some (ConfigFile c true true)) None).
  { apply triple_get. intros d (_ & _ & _ & _ & ->). eapply perform_phase; [|done|apply phase_safe].
    intros d1 H1. split; solve_phase. }
  intros _. eapply triple_weaken; [|done|].
  { apply triple_get. intros d (_ & _ & _ & -> & _).
    eapply perform_phase; [|done|intros d1; apply (phase_published c _ None d1 Hc)].
    intros d1 H1. split; [solve_phase|]. solve_phase. }
  intros a d Hd. exists c. split; [done|exact Hd].
Qed.

(** Clean-up removes the configuration first, so a visible one stays complete. *)
Lemma unlink_unpublished names : names ⊆ targets ->
  triple safe (fun d => safe d /\ d !! config_path = None) (unlink_all faults names)
    (fun _ d => safe d /\ d !! config_path = None).
Proof.
  induction names as [|name names IH]; intros Hsub.
  { intros d Hd. split; [constructor|exact Hd]. }
  apply triple_bind with (fun _ d => safe d /\ d !! config_path = None); [|intros _; apply IH; set_solver].
  apply triple_perform; [|by intros d [? ?]]. intros d [Hs Hc]. split; [done|split; [done|]].
  assert (Hn : delete name d !! config_path = None) by (apply lookup_delete_None; auto).
  split; [|done]. apply safe_unpublished; [|done]. apply frame_delete; [set_solver|apply Hs].
Qed.

Lemma unlink_targets : triple safe safe (unlink_all faults targets) (fun _ d => safe d).
Proof.
  unfold targets. cbn [unlink_all].
  apply triple_bind with (fun _ d => safe d /\ d !! config_path = None).
  - apply triple_perform; [|by intros d [? ?]]. intros d Hs. split; [done|split; [done|]].
    assert (Hn : delete config_path d !! config_path = None) by (apply lookup_delete_None; auto).
    split; [|done]. apply safe_unpublished; [|done]. apply frame_delete; [set_solver|apply Hs].
  - intros _. eapply triple_weaken; [apply (unlink_unpublished [metadata_path; pending_config; pending_metadata])| |].
    + intros x Hx. by right.
    + done.
    + by intros _ d [? _].
Qed.

Lemma clean_phase d : (forall name, name ∈ targets -> d !! name = None) -> frame d ->
  phase None None None None d.
Proof. intros H Hf. split_and!; [done|apply H; unfold targets; set_solver..]. Qed.

Lemma phase_clean d : phase None None None None d -> d = base.
Proof.
  intros (Hf & H1 & H2 & H3 & H4). apply map_eq. intros name.
  destruct (decide (name ∈ targets)) as [Hn|Hn]; [|by apply Hf]. rewrite (Hbase name Hn).
  unfold targets in Hn. repeat (apply elem_of_cons in Hn as [->|Hn]; [done|]). by apply elem_of_nil in Hn.
Qed.

Lemma unlink_clean d : (forall name, faults (Unlink name) = NoFault) -> frame d ->
  exists seen, unlink_all faults targets d = (seen, base, Ret tt).
Proof.
  intros Hu Hf. unfold targets, unlink_all, unlink, perform. rewrite !Hu.
  unfold mbind, fsm_bind, fs_get, fs_put, mret, fsm_ret. simpl. eexists. f_equal. f_equal.
  apply phase_clean. unfold id. split_and!; [|by simplify_map_eq..].
  repeat (apply frame_delete; [unfold targets; set_solver|]). done.
Qed.

Lemma dump_files_guard (d : directory) : (forall name, name ∈ targets -> d !! name = None) ->
  existsb (fun name => bool_decide (is_Some (d !! name))) targets = false.
Proof.
  intros H. apply not_true_iff_false. intros E. apply existsb_exists in E as (name & Hn & Hd).
  apply bool_decide_eq_true in Hd. rewrite H in Hd by (by apply list_elem_of_In). by apply is_Some_None in Hd.
Qed.

Definition published (c : DatasetConfiguration) : directory -> Prop :=
  phase (Some (ConfigFile c true true)) (Some (MetadataFile t true true)) None None.

Lemma dump_files_run : let '(seen, d, r) := dump_files faults t config base in
  Forall safe seen /\ safe d /\
  (r = Ret config_path -> exists c, config = Ret c /\ published c d) /\
  (forall e, r = Raise e -> (forall name, faults (Unlink name) = NoFault) -> d = base) /\
  (forall p, r = Ret p -> p = config_path).
Proof.
  assert (Hf : frame base) by done.
  unfold dump_files. unfold mbind at 1, fsm_bind at 1, fs_get at 1. rewrite dump_files_guard by done.
  pose proof (publish_triple base (clean_phase base Hbase Hf)) as Hp.
  pose proof unlink_targets as HU. pose proof unlink_clean as HC. revert HU HC.
  generalize (unlink_all faults targets) as U. intros U HU HC.
  unfold fs_reraise. unfold mbind, fsm_bind, fs_get. simpl.
  destruct (publish faults t config base) as [[seen d] [u|e]]; destruct Hp as [Hs Hd].
  - destruct Hd as (c & Hc & Hph). pose proof Hph as (_ & Hcp & _). rewrite Hcp. simpl.
    rewrite app_nil_r. split_and!; [done|apply (phase_published c None None d Hc Hph)|..]; eauto; congruence.
  - specialize (HU d Hd) as Hu. specialize (HC d) as Hcl. destruct (U d) as [[seen' d'] r'].
    assert (Hs' : Forall safe seen' /\ safe d').
    { destruct r'; destruct Hu as [? Hu]; split; (done || apply Hu). }
    destruct Hs' as [Hs1 Hs2]. simpl. rewrite ?app_nil_r.
    destruct r' as [u|e']; simpl; split_and!; try done; try (by apply Forall_app);
      intros e1 He1 Hnf; destruct (Hcl Hnf (proj1 Hd)) as [s2 [= -> -> ?]]; done.
Qed.
End Publication.

(** * Runs without failures *)

Definition runs {A : Type} (m : fsm A) (d d' : directory) (a : A) : Prop := exists seen, m d = (seen, d', Ret a).

Lemma export_bind {A B : Type} (m : fsm A) (f : A -> fsm B) d d1 d2 a b :
  runs m d d1 a -> runs (f a) d1 d2 b -> runs (m ≫= f) d d2 b.
Proof. intros [s1 E1] [s2 E2]. unfold runs, mbind, fsm_bind. rewrite E1, E2. eauto. Qed.

Lemma runs_get {A : Type} (k : directory -> fsm A) d d' a : runs (k d) d d' a -> runs (fs_get ≫= k) d d' a.
Proof. intros H. by apply export_bind with d d; [eexists|]. Qed.

Lemma export_perform faults s mid eff d : faults s = NoFault -> runs (perform faults s mid eff) d (eff d) tt.
Proof. intros E. unfold perform, runs. rewrite E. by eexists. Qed.

Lemma publish_runs faults t c base : (forall s, faults s = NoFault) -> base !! pending_metadata = None ->
  exists d, runs (publish faults t (Ret c)) base d tt.
Proof.
  intros Hf Hn. pose proof target_names as (? & ? & ? & ? & ? & ?). unfold publish.
  eexists. eapply export_bind.
  { apply runs_get. rewrite Hn. by apply export_perform. }
  eapply export_bind; [rewrite Hf; by eexists|].
  eapply export_bind; [apply runs_get; rewrite lookup_insert_eq; by apply export_perform|].
  eapply export_bind; [by apply export_perform|].
  eapply export_bind; [apply runs_get; rewrite lookup_insert_eq; by apply export_perform|].
  eapply export_bind.
  { apply runs_get. rewrite !lookup_insert_ne, lookup_insert_eq by done. by apply export_perform. }
  apply runs_get. rewrite lookup_insert_ne, lookup_delete_ne, lookup_insert_eq by done. by apply export_perform.
Qed.

(** The files of a complete export. *)
Definition complete_export (t : table) (c : DatasetConfiguration) (base d : directory) : Prop :=
  d = <[config_path := ConfigFile c true true]> (<[metadata_path := MetadataFile t true true]> base).

Lemma published_complete t base c d : (forall name, name ∈ targets -> base !! name = None) ->
  published t base c d -> complete_export t c base d.
Proof.
  intros Hb (Hf & H1 & H2 & H3 & H4). pose proof target_names as (? & ? & ? & ? & ? & ?).
  apply map_eq. intros name. destruct (decide (name ∈ targets)) as [Hn|Hn].
  - pose proof (Hb name Hn) as Hbn. unfold targets in Hn.
    repeat (apply elem_of_cons in Hn as [->|Hn]; [simplify_map_eq; congruence|]). by apply elem_of_nil in Hn.
  - rewrite (Hf name Hn). unfold targets in Hn.
    rewrite !lookup_insert_ne by (intros <-; apply Hn; set_solver). done.
Qed.

(** C7. A configuration is published last and never seen half-written: in every
    state of the directory, at the end, after any failure and after a kill at any
    moment, a visible [dataset.json] is the complete saved configuration next to
    the complete exported table, and files outside the export are untouched; a
    directory that already holds any of the export's names is refused unchanged. *)
Theorem export_publication_safe (faults : step -> fault) {N : NativeReader} (ds : CachedDataset)
    (base : directory) :
  let t := (export_metadata_arrow (cd_inner ds)).1 in
  let config := make_configuration (configuration_of (export_metadata_arrow (cd_inner ds)).2 ds) in
  let '(seen, final, r) := dump_configuration faults ds base in
  (Forall (fun name => base !! name = None) targets ->
   Forall (fun d =>
     (forall name, name ∉ targets -> d !! name = base !! name) /\
     (forall a, d !! config_path = Some a -> exists c, config = Ret c /\ a = ConfigFile c true true /\
        d !! metadata_path = Some (MetadataFile t true true))) (seen ++ [final])) /\
  (Exists (fun name => is_Some (base !! name)) targets ->
   seen = [] /\ final = base /\
   r = Raise (FileExistsError (lit "dataset export already exists; choose an unused directory"))).
Proof.
  unfold dump_configuration. destruct (export_metadata_arrow (cd_inner ds)) as [t rows]. simpl.
  set (config := make_configuration _).
  destruct (dump_files faults t config base) as [[seen final] r] eqn:E. split.
  - intros Hb. rewrite Forall_forall in Hb.
    pose proof (dump_files_run faults t config base Hb) as H. rewrite E in H.
    destruct H as (Hs & Hd & _). by apply Forall_app_2; [|constructor].
  - intros Hx. apply Exists_exists in Hx as (name & Hn & Hb). unfold dump_files in E.
    unfold mbind, fsm_bind, fs_get in E.
    replace (existsb (fun name => bool_decide (is_Some (base !! name))) targets) with true in E.
    + by injection E as <- <- <-.
    + symmetry. apply existsb_exists. exists name. split; [by apply list_elem_of_In|].
      by apply bool_decide_eq_true.
Qed.


#[local] Existing Instance demo_native.

