(* ===== verification/Loader.v ===== *)
(** The loader's dataset adapter of [src/dataset_rt/integrations/loader.py]: the
    process-local state machine of [ReaderAdapter] (setup once per process,
    budgeted passes over a retained native stream, serialization without native
    state) and [WorkerInitializer]. *)
From stdpp Require Import base tactics list numbers strings gmap.
From S2P Require Import Prelude Records Config Seeds Partition Reconstruction Options Planner.
From S2P Require Import Native Metadata Interface Dataset Export.
Open Scope Z_scope.

(** * Data *)

(** [PendingReader], [EmptyPartition], [LocalReader]. *)
Inductive reader_state :=
| PendingReader
| EmptyPartition (pid : Z)
| LocalReader (pid : Z) (dataset : CachedDataset) (stream : generator).

(** What [config_path] leads to: the parsed configuration or the error of parsing
    it, the mapped table, and the shared row order when one was prepared. *)
Record bundle := mk_bundle {
  bundle_config : outcome DatasetConfiguration;
  bundle_table : table;
  bundle_order : option npy }.

(** One lifecycle event. *)
Record reader_event := mk_event {
  event_name : pystr;
  event_pid : Z;
  event_rank : Z;
  event_worker : option Z;
  event_seed : Z;
  event_native_threads : Z;
  event_persistent : bool;
  event_samples : Z;
  event_population : Z;
  event_sampling_reset : bool }.

(** [get_worker_info()]: nothing in the main process, otherwise worker id and count. *)
Abbreviation worker_info := (option (Z * Z)).

Record ReaderAdapter (T : Type) := mk_adapter {
  ad_replica : ReplicaIdentity;
  ad_shuffle : bool;
  ad_seed : option Z;
  ad_native_num_workers : Z;
  ad_sample_transform_fn : option (CachedSample -> outcome T);
  ad_row_count : Z;
  ad_partitions : list WorkerPlan;
  ad_config_path : path;
  ad_verbose : bool;
  ad_persistent_workers : bool;
  ad_artifacts : option ConstructionArtifacts;
  ad_state : reader_state }.
Arguments mk_adapter {T} _ _ _ _ _ _ _ _ _ _ _ _.
Arguments ad_replica {T} _.
Arguments ad_shuffle {T} _.
Arguments ad_seed {T} _.
Arguments ad_native_num_workers {T} _.
Arguments ad_sample_transform_fn {T} _.
Arguments ad_row_count {T} _.
Arguments ad_partitions {T} _.
Arguments ad_config_path {T} _.
Arguments ad_verbose {T} _.
Arguments ad_persistent_workers {T} _.
Arguments ad_artifacts {T} _.
Arguments ad_state {T} _.

Section Adapter.
Context {T : Type}.
Context {N : NativeReader}.

(** [ReaderAdapter(...)]: no native state exists yet. *)
Definition new_adapter (replica : ReplicaIdentity) (shuffle : bool) (seed : option Z)
    (native_num_workers : Z) (transform : option (CachedSample -> outcome T)) (row_count : Z)
    (partitions : list WorkerPlan) (config_path : path) (verbose persistent : bool) : ReaderAdapter T :=
  mk_adapter replica shuffle seed native_num_workers transform row_count partitions config_path
    verbose persistent None PendingReader.

Definition with_reader (s : reader_state) (a : ReaderAdapter T) : ReaderAdapter T :=
  mk_adapter (ad_replica a) (ad_shuffle a) (ad_seed a) (ad_native_num_workers a)
    (ad_sample_transform_fn a) (ad_row_count a) (ad_partitions a) (ad_config_path a)
    (ad_verbose a) (ad_persistent_workers a) (ad_artifacts a) s.

(** [__reduce__] and the reconstruction from its arguments. *)
Definition pickle_roundtrip (a : ReaderAdapter T) : ReaderAdapter T :=
  new_adapter (ad_replica a) (ad_shuffle a) (ad_seed a) (ad_native_num_workers a)
    (ad_sample_transform_fn a) (ad_row_count a) (ad_partitions a) (ad_config_path a)
    (ad_verbose a) (ad_persistent_workers a).

Definition adapter_len (a : ReaderAdapter T) : Z := ad_row_count a.

(** [loader_event] of [loader_logging.py]: the application's handlers come first;
    without any, a logger that is not silenced prints to the standard error. [text] is the
    formatted message. *)
Inductive log_action :=
| LoggerInfo (text : pystr)
| StderrLine (text : pystr)
| NotLogged.

Definition loader_event (has_handlers : bool) (level : Z) (info_enabled : bool) (text : pystr) : log_action :=
  if has_handlers then LoggerInfo text
  else if negb (level =? 0) && negb info_enabled then NotLogged
  else StderrLine (lit "[dataset_rt.loader] " ++ text).

(** [_log_reader_event]. *)
Definition log_reader_event (event : pystr) (pid : Z) (info : worker_info) (recipe : WorkerPlan)
    (a : ReaderAdapter T) : list reader_event :=
  if negb (ad_verbose a) then []
  else [mk_event event pid (plan_rank recipe) (fst <$> info) (plan_seed recipe)
          (if plan_sample_count recipe =? 0 then 0 else ad_native_num_workers a)
          (ad_persistent_workers a) (plan_sample_count recipe) (plan_population_size recipe)
          (bool_decide (event = lit "reader_started"))].

Definition worker_plan (info : worker_info) (a : ReaderAdapter T) : outcome WorkerPlan :=
  let '(worker_id, worker_count) := match info with None => (0, 1) | Some i => i end in
  if negb (worker_count =? Z.of_nat (length (ad_partitions a)))
  then Raise (RuntimeError (lit "DataLoader worker count differs from prepared partitions"))
  else
    recipe ← index_at (ad_partitions a) worker_id;
    if negb (plan_rank recipe =? rank (ad_replica a)) || negb (plan_worker_id recipe =? worker_id)
    then Raise (RuntimeError (lit "worker plan does not match consumer identity"))
    else Ret recipe.

(** [_create_dataset]: the saved configuration with this consumer's settings. *)
Definition consumer_configuration (c : DatasetConfiguration) (recipe : WorkerPlan) (a : ReaderAdapter T)
  : DatasetConfiguration :=
  mk_configuration (config_cache_paths c)
    (mk_reader_config (plan_seed recipe) (reader_prefetch_size (config_reader c)) (ad_shuffle a)
       (reader_validate_cache (config_reader c)))
    (ad_native_num_workers a) (plan_sample_count recipe) (plan_population_size recipe).

Definition create_dataset (b : bundle) (recipe : WorkerPlan) (a : ReaderAdapter T) : outcome CachedDataset :=
  config ← bundle_config b;
  _ ← load_metadata (table_rows (bundle_table b)) config;
  selection ← population_selection (bundle_order b) (config_row_count config) (plan_offset recipe)
                (plan_population_size recipe) (plan_partition_seed recipe);
  from_configuration (consumer_configuration config recipe a) (bundle_table b) selection.

(** [setup()] in process [pid]. *)
Definition setup (pid : Z) (info : worker_info) (b : bundle) (a : ReaderAdapter T)
  : outcome unit * ReaderAdapter T * list reader_event :=
  match ad_state a with
  | LocalReader owner _ _ | EmptyPartition owner =>
      if negb (owner =? pid)
      then (Raise (RuntimeError (lit "DatasetRT loader native state belongs to another PID")), a, [])
      else (Ret tt, a, [])
  | PendingReader =>
      match worker_plan info a with
      | Raise e => (Raise e, a, [])
      | Ret recipe =>
          if plan_sample_count recipe =? 0
          then (Ret tt, with_reader (EmptyPartition pid) a,
                log_reader_event (lit "reader_empty") pid info recipe a)
          else match create_dataset b recipe a with
               | Raise e => (Raise e, a, [])
               | Ret d => (Ret tt, with_reader (LocalReader pid d GenNew) a,
                           log_reader_event (lit "reader_started") pid info recipe a)
               end
      end
  end.

(** [_transform]. *)
Definition transform (a : ReaderAdapter T) (s : CachedSample) : outcome (CachedSample + T) :=
  match ad_sample_transform_fn a with
  | None => Ret (inl s)
  | Some f => t ← f s; Ret (inr t)
  end.

(** One sample of the retained stream: at its end a new native iterator is taken;
    a [StopIteration] from that one is an error inside a generator. *)
Definition next_sample (d : CachedDataset) (g : generator)
  : outcome CachedSample * CachedDataset * generator :=
  match gen_next g d with
  | (Ret (Some s), g, d) => (Ret s, d, g)
  | (Raise e, g, d) => (Raise e, d, g)
  | (Ret None, _, d) =>
      match gen_next GenNew d with
      | (Ret (Some s), g, d) => (Ret s, d, g)
      | (Ret None, g, d) => (Raise (RuntimeError (lit "generator raised StopIteration")), d, g)
      | (Raise e, g, d) => (Raise e, d, g)
      end
  end.

(** [n] rounds of the [for] loop of [__iter__]. *)
Fixpoint emit (n : nat) (f : CachedSample -> outcome (CachedSample + T)) (d : CachedDataset) (g : generator)
  : list (CachedSample + T) * outcome unit * CachedDataset * generator :=
  match n with
  | O => ([], Ret tt, d, g)
  | S n' =>
      let '(r, d, g) := next_sample d g in
      match r with
      | Raise e => ([], Raise e, d, g)
      | Ret s =>
          match f s with
          | Raise e => ([], Raise e, d, g)
          | Ret x =>
              let '(xs, r, d, g) := emit n' f d g in (x :: xs, r, d, g)
          end
      end
  end.

(** One pass: the consumer pulls up to [want] samples from [iter(adapter)]; the
    generator's body runs only when something is pulled. *)
Definition run_pass (pid : Z) (info : worker_info) (b : bundle) (want : Z) (a : ReaderAdapter T)
  : list (CachedSample + T) * outcome unit * ReaderAdapter T * list reader_event :=
  if want <=? 0 then ([], Ret tt, a, [])
  else
    let '(r, a, started) := setup pid info b a in
    match r with
    | Raise e => ([], Raise e, a, started)
    | Ret _ =>
        let logged := if ad_verbose a
                      then recipe ← worker_plan info a; Ret (log_reader_event (lit "reader_pass") pid info recipe a)
                      else Ret [] in
        match logged with
        | Raise e => ([], Raise e, a, started)
        | Ret events =>
            match ad_state a with
            | EmptyPartition _ => ([], Ret tt, a, started ++ events)
            | PendingReader =>
                ([], Raise (RuntimeError (lit "DatasetRT reader setup did not complete")), a, started ++ events)
            | LocalReader owner d g =>
                let '(xs, r, d, g) := emit (Z.to_nat (Z.min want (dataset_len d))) (transform a) d g in
                (xs, r, with_reader (LocalReader owner d g) a, started ++ events)
            end
        end
    end.

(** [WorkerInitializer.__call__]; [info] carries the dataset of the worker when it
    is an adapter. *)
Definition worker_initializer (callback : option (Z -> outcome unit)) (worker_id pid : Z)
    (info : option (worker_info * ReaderAdapter T)) (b : bundle) : outcome unit * option (ReaderAdapter T) :=
  match info with
  | None => (Raise (RuntimeError (lit "DatasetRT initialization requires its DataLoader worker")), None)
  | Some (i, a) =>
      let '(r, a, _) := setup pid i b a in
      match r with
      | Raise e => (Raise e, Some a)
      | Ret _ => match callback with
                 | None => (Ret tt, Some a)
                 | Some f => (f worker_id, Some a)
                 end
      end
  end.

(** Successive passes in one process. *)
Fixpoint run_passes (pid : Z) (info : worker_info) (b : bundle) (wants : list Z) (a : ReaderAdapter T)
  : list (CachedSample + T) * outcome unit * ReaderAdapter T :=
  match wants with
  | [] => ([], Ret tt, a)
  | want :: rest =>
      let '(xs, r, a, _) := run_pass pid info b want a in
      match r with
      | Raise e => (xs, Raise e, a)
      | Ret _ => let '(ys, r, a) := run_passes pid info b rest a in (xs ++ ys, r, a)
      end
  end.
End Adapter.

(** * Passes continue one stream *)

Section Stream.
Context {N : NativeReader}.
Context (d0 : CachedDataset) (deliver : Z -> CachedSample).
Context {L : NativeReaderLaws N}.

Abbreviation werror := weights_error.
Definition start_state : dataset_state := nat_state (cd_inner d0).
Definition quota : Z := ds_epoch_len start_state.
Definition planned_index (i : Z) : Z := stream uniform weighted start_state i.

Context (Hwf : wf_state werror start_state) (Hquota : 1 <= quota).
Context (Hread : forall i, 0 <= i -> load_planned_sample (cd_inner d0) (planned_index i) = Ok (deliver i)).

(** The dataset and its retained iterator after [n] samples: the native streams
    stand at position [m], the running iterator covers the samples up to there. *)
Definition at_position (n : Z) (d : CachedDataset) (g : generator) : Prop :=
  nat_caches (cd_inner d) = nat_caches (cd_inner d0) /\
  nat_offsets (cd_inner d) = nat_offsets (cd_inner d0) /\
  wf_state werror (nat_state (cd_inner d)) /\ ds_epoch_len (nat_state (cd_inner d)) = quota /\
  ds_shuffle (nat_state (cd_inner d)) = ds_shuffle start_state /\
  exists m, (forall i, stream uniform weighted (nat_state (cd_inner d)) i = planned_index (m + i)) /\
    (ds_shuffle (nat_state (cd_inner d)) = true ->
     ds_draw_offset (nat_state (cd_inner d)) = ds_draw_offset start_state + m) /\
    match g with
    | GenNew | GenDone => m = n
    | GenRunning p total e => total = quota /\ 0 <= e <= total /\ m = n - e + total /\
        plan_samples uniform weighted (Z.to_nat (total - e)) p e =
        Some (map (fun j => planned_index (n - e + j)) (seqZ e (total - e)))
    end.

Lemma load_planned_same d i : nat_caches (cd_inner d) = nat_caches (cd_inner d0) ->
  nat_offsets (cd_inner d) = nat_offsets (cd_inner d0) -> 0 <= i ->
  load_planned_sample (cd_inner d) (planned_index i) = Ok (deliver i).
Proof. intros Hc Ho Hi. rewrite <- (Hread i Hi). unfold load_planned_sample. by rewrite Hc, Ho. Qed.

Lemma run_next_position n d p total e : 0 <= n -> e < total -> at_position n d (GenRunning p total e) ->
  exists g, run_next p total e d = (Ret (Some (deliver n)), g) /\
    at_position (n + 1) d g.
Proof.
  intros Hn He (Hc & Ho & Hw & Hl & Hs & m & Hst & Hd & -> & He' & -> & Hp). unfold run_next.
  destruct (Z.leb_spec quota e); [lia|].
  replace (Z.to_nat (quota - e)) with (S (Z.to_nat (quota - (e + 1)))) in Hp by lia.
  rewrite (seqZ_S e) in Hp by lia. simpl in Hp.
  destruct (next_physical_index uniform weighted p e) as [[i|] p']; [|discriminate].
  destruct (plan_samples _ _ _ p' (e + 1)) as [l|] eqn:El; [|discriminate]. injection Hp as -> ->.
  replace (n - e + e) with n by lia. rewrite load_planned_same by done.
  eexists. split; [done|]. split_and!; [done..|]. exists (n - e + quota). split_and!; try done; try lia.
  rewrite El. replace (quota - e - 1) with (quota - (e + 1)) by lia. f_equal. apply map_ext.
  intros j. f_equal. lia.
Qed.

Lemma start_position n d : 0 <= n -> at_position n d GenNew ->
  (ds_shuffle start_state = true -> ds_draw_offset start_state + n + quota <= U64_MAX) ->
  exists p s, epoch_plan werror (nat_state (cd_inner d)) = Ok (p, s) /\ plan_len p = quota /\
    at_position n (with_inner (with_state s (cd_inner d)) d) (GenRunning p quota 0).
Proof.
  intros Hn (Hc & Ho & Hw & Hl & Hs & m & Hst & Hd & ->) Hb.
  pose proof (run_iterator_ok uniform weighted werror (nat_state (cd_inner d)) generators_ok Hw) as Hr.
  rewrite Hl in Hr. specialize (Hr Hquota).
  assert (Hb' : ds_shuffle (nat_state (cd_inner d)) = true ->
    ds_draw_offset (nat_state (cd_inner d)) + quota <= U64_MAX).
  { intros E. rewrite (Hd E). apply Hb. congruence. }
  specialize (Hr Hb'). unfold run_iterator in Hr.
  destruct (epoch_plan _ _) as [[p s]|] eqn:Ep; [|discriminate].
  pose proof (epoch_plan_len _ _ _ _ Ep) as El. rewrite Hl in El.
  destruct (plan_samples _ _ _ p 0) as [l|] eqn:Es; [|discriminate]. injection Hr as -> ->.
  exists p, (advanced quota (nat_state (cd_inner d))). split; [done|]. split; [done|].
  split_and!; simpl; [done|done|by apply advanced_wf; [|lia]|done|done|]. exists (n + quota). split_and!.
  - intros i. rewrite (advanced_stream uniform weighted werror quota _ i Hw). rewrite Hst. f_equal. lia.
  - intros E. rewrite E. rewrite (Hd E). lia.
  - done.
  - lia.
  - lia.
  - lia.
  - rewrite Z.sub_0_r, <- El, Es. f_equal. rewrite El. apply map_ext. intros j. rewrite Hst. f_equal. lia.
Qed.

(** One round of the loop delivers the next sample of the stream. *)
Lemma next_sample_position n d g : 0 <= n -> at_position n d g ->
  (ds_shuffle start_state = true -> ds_draw_offset start_state + n + quota <= U64_MAX) ->
  exists d' g', next_sample d g = (Ret (deliver n), d', g') /\
    at_position (n + 1) d' g'.
Proof.
  intros Hn Hp Hb.
  assert (New : forall d, at_position n d GenNew -> exists d' g',
    gen_next GenNew d = (Ret (Some (deliver n)), g', d') /\
    at_position (n + 1) d' g').
  { intros d1 H1. destruct (start_position n d1 Hn H1 Hb) as (p & s & E & El & Hr). unfold gen_next. rewrite E, El.
    destruct (run_next_position n _ p quota 0 Hn ltac:(lia) Hr) as (g' & -> & H'). eauto. }
  unfold next_sample. destruct g as [|p total e|].
  - destruct (New d Hp) as (d' & g' & -> & H). eauto.
  - change (gen_next (GenRunning p total e) d)
      with (run_next p total e d, d).
    destruct (decide (e < total)) as [He|He].
    + destruct (run_next_position n d p total e Hn He Hp) as (g' & -> & H). eauto.
    + unfold run_next. destruct (Z.leb_spec total e); [|lia].
      destruct (New d) as (d' & g' & E & H1); [|rewrite E; eauto].
      destruct Hp as (Hc & Ho & Hw & Hl & Hs & m & Hst & Hd & -> & He' & -> & _).
      split_and!; [done..|]. exists (n - e + quota). split_and!; [done|done|lia].
  - change (gen_next GenDone d)
      with (@Ret (option CachedSample) None, GenDone, d). destruct (New d) as (d' & g' & E & H); [exact Hp|rewrite E; eauto].
Qed.

Lemma emit_position {T} (F : CachedSample -> outcome (CachedSample + T)) f k :
  (forall s, F s = Ret (f s)) -> forall n d g, 0 <= n -> at_position n d g ->
  (ds_shuffle start_state = true -> ds_draw_offset start_state + n + Z.of_nat k + quota <= U64_MAX) ->
  exists d' g', emit k F d g =
      (map (fun i => f (deliver i)) (seqZ n (Z.of_nat k)), Ret tt, d', g') /\
    at_position (n + Z.of_nat k) d' g'.
Proof.
  intros HF. induction k as [|k IH]; intros n d g Hn Hp Hb; simpl emit.
  { exists d, g. rewrite seqZ_nil by done. split; [done|]. by rewrite Z.add_0_r. }
  destruct (next_sample_position n d g Hn Hp) as (d1 & g1 & -> & H1); [intros E; specialize (Hb E); lia|]. rewrite HF.
  destruct (IH (n + 1) d1 g1 ltac:(lia) H1) as (d2 & g2 & -> & H2); [intros E; specialize (Hb E); lia|].
  exists d2, g2. rewrite (seqZ_S n) by lia. simpl. split.
  - by replace (Z.of_nat (S k) - 1) with (Z.of_nat k) by lia.
  - by replace (n + Z.of_nat (S k)) with (n + 1 + Z.of_nat k) by lia.
Qed.

Lemma fresh_position : at_position 0 d0 GenNew.
Proof.
  split_and!; [done..|]. exists 0. split_and!; [|intros _; unfold start_state; lia|done]. intros i. by rewrite Z.add_0_l.
Qed.

Section Passes.
Context {T : Type}.
Context (pid : Z) (info : worker_info) (b : bundle) (recipe : WorkerPlan).
Context (f : CachedSample -> CachedSample + T).

(** An adapter whose consumer has taken [n] samples so far in this process. *)
Definition consumed (n : Z) (a : ReaderAdapter T) : Prop :=
  worker_plan info a = Ret recipe /\ (forall s, transform a s = Ret (f s)) /\
  plan_sample_count recipe <> 0 /\ create_dataset b recipe a = Ret d0 /\
  match ad_state a with
  | PendingReader => n = 0
  | LocalReader owner d g => owner = pid /\ at_position n d g
  | EmptyPartition _ => False
  end.

Lemma consumed_setup n a : consumed n a -> exists a' events d g,
  setup pid info b a = (Ret tt, a', events) /\
  a' = with_reader (LocalReader pid d g) a /\ at_position n d g.
Proof.
  intros (Hw & Ht & Hc & Hd & Hs). unfold setup. destruct (ad_state a) as [|p|owner d g] eqn:E; [|done|].
  - subst n. rewrite Hw. destruct (Z.eqb_spec (plan_sample_count recipe) 0); [done|]. rewrite Hd.
    eexists _, _, d0, GenNew. split; [done|]. split; [done|]. apply fresh_position.
  - destruct Hs as [-> Hs]. rewrite Z.eqb_refl. simpl. eexists _, _, d, g. split; [done|]. split; [|done].
    destruct a. simpl in E. by subst.
Qed.

Lemma run_pass_position want n a : 1 <= want -> 0 <= n -> consumed n a ->
  (ds_shuffle start_state = true ->
   ds_draw_offset start_state + n + Z.min want quota + quota <= U64_MAX) ->
  exists a' events, run_pass pid info b want a =
      (map (fun i => f (deliver i)) (seqZ n (Z.min want quota)), Ret tt, a', events) /\
    consumed (n + Z.min want quota) a'.
Proof.
  intros Hwant Hn Ha Hb. destruct (consumed_setup n a Ha) as (a1 & events & d & g & Es & -> & Hp).
  destruct Ha as (Hw & Ht & Hc & Hd & _). unfold run_pass. destruct (Z.leb_spec want 0); [lia|]. rewrite Es.
  change (worker_plan info (with_reader (LocalReader pid d g) a)) with (worker_plan info a). rewrite Hw.
  assert (Elog : exists l, (if ad_verbose (with_reader (LocalReader pid d g) a)
    then Ret (log_reader_event (lit "reader_pass") pid info recipe (with_reader (LocalReader pid d g) a))
    else Ret []) = Ret l) by (destruct (ad_verbose _); eauto).
  destruct Elog as [l El]. cbn [mbind outcome_bind]. unfold mbind, outcome_bind. rewrite El.
  cbn [with_reader ad_state]. pose proof Hp as (_ & _ & _ & Hlen & _).
  assert (Ed : dataset_len d = quota) by exact Hlen. rewrite Ed.
  destruct (emit_position (transform (with_reader (LocalReader pid d g) a)) f (Z.to_nat (Z.min want quota))
    Ht n d g Hn Hp) as (d' & g' & Ee & Hp'); [intros E; specialize (Hb E); lia|].
  rewrite Z2Nat.id in Ee, Hp' by lia.
  match goal with |- context [emit ?k ?F ?d1 ?g1] =>
    change (emit k F d1 g1) with (emit k (transform (with_reader (LocalReader pid d g) a)) d1 g1) end.
  rewrite Ee. eexists _, _. split; [done|]. by split_and!.
Qed.

Lemma run_passes_position wants : Forall (Z.le 1) wants -> forall n a, 0 <= n -> consumed n a ->
  (ds_shuffle start_state = true ->
   ds_draw_offset start_state + n + Zsum (map (fun w => Z.min w quota) wants) + quota <= U64_MAX) ->
  exists a', run_passes pid info b wants a =
      (map (fun i => f (deliver i)) (seqZ n (Zsum (map (fun w => Z.min w quota) wants))), Ret tt, a') /\
    consumed (n + Zsum (map (fun w => Z.min w quota) wants)) a'.
Proof.
  induction 1 as [|want wants Hwant HF IH]; intros n a Hn Ha Hb; cbn [run_passes map] in *.
  { exists a. rewrite Zsum_nil, seqZ_nil by done. split; [done|]. by rewrite Z.add_0_r. }
  rewrite Zsum_cons in *. set (k := Z.min want quota) in *.
  assert (Hk : 0 <= k) by (unfold k; lia).
  assert (Hr : 0 <= Zsum (map (fun w => Z.min w quota) wants)).
  { apply Zsum_nonneg, Forall_map. eapply Forall_impl; [exact HF|]. simpl. lia. }
  destruct (run_pass_position want n a Hwant Hn Ha) as (a1 & events & E1 & H1).
  { intros E. specialize (Hb E). fold k. lia. }
  fold k in E1, H1. rewrite E1.
  destruct (IH (n + k) a1 ltac:(lia) H1) as (a2 & E2 & H2); [intros E; specialize (Hb E); lia|].
  rewrite E2. exists a2. rewrite seqZ_app_lengths, map_app by done. split; [done|].
  by replace (n + (k + Zsum (map (fun w => Z.min w quota) wants)))
    with (n + k + Zsum (map (fun w => Z.min w quota) wants)) by lia.
Qed.
End Passes.
End Stream.

Section Consumer.
Context {N : NativeReader}.
Context {L : NativeReaderLaws N}.

Lemma create_dataset_ok {T} b recipe (a : ReaderAdapter T) d :
  create_dataset b recipe a = Ret d ->
  active_len (nat_state (cd_inner d)) <= U64_MAX ->
  wf_state weights_error (nat_state (cd_inner d)) /\
  1 <= ds_epoch_len (nat_state (cd_inner d)) /\
  ds_epoch_len (nat_state (cd_inner d)) = plan_sample_count recipe /\
  ds_sequential_offset (nat_state (cd_inner d)) = 0 /\ ds_draw_offset (nat_state (cd_inner d)) = 0 /\
  ds_shuffle (nat_state (cd_inner d)) = ad_shuffle a /\ ds_seed (nat_state (cd_inner d)) = plan_seed recipe.
Proof.
  unfold create_dataset. intros H Hlen. apply bind_ret in H as (c & _ & H). apply bind_ret in H as (rows & _ & H).
  apply bind_ret in H as (sel & _ & H).
  apply from_configuration_ok in H as (n & v & act & _ & _ & _ & He & Hl & Ed). simpl in Hl.
  destruct (extract_active_wf _ _ _ _ _ _ He) as (H1 & H2 & H3 & H4).
  rewrite Ed in *. simpl in *. split_and!; try done; try lia.
  assert (Hpos : 1 <= Z.of_nat (length (physical_indices act))).
  { rewrite H1. destruct (table_rows v); [done|simpl; lia]. }
  constructor; unfold active_len in *; simpl in *; try lia.
  intros a0 [= <-]. rewrite H1, H2. split; [|done]. unfold weights_error.
  replace (Z.of_nat (length (row_weights act))) with (num_rows v) by (unfold num_rows; by rewrite H2).
  rewrite H4. apply distribution_accepts. rewrite H2. exact H4.
Qed.
End Consumer.

(** C4. Passes continue one stream: a consumer that takes any number of samples in
    each of its passes, abandoning passes midway or finishing them, receives
    without a gap or a repeat the samples of its reader's single stream, at most
    its quota per pass, each transformed once. *)
Theorem passes_continue_stream {T : Type} {N : NativeReader} {L : NativeReaderLaws N}
    (pid : Z) (info : worker_info) (b : bundle) (recipe : WorkerPlan) (a : ReaderAdapter T) (d : CachedDataset)
    (f : CachedSample -> CachedSample + T) (deliver : Z -> CachedSample) (wants : list Z)
    (Ha : ad_state a = PendingReader) (Hplan : worker_plan info a = Ret recipe)
    (Hd : create_dataset b recipe a = Ret d)
    (Hf : forall s, transform a s = Ret (f s))
    (Hlen : active_len (nat_state (cd_inner d)) <= U64_MAX)
    (Hread : forall i, 0 <= i -> load_planned_sample (cd_inner d)
               (stream uniform weighted (nat_state (cd_inner d)) i) = Ok (deliver i))
    (Hwants : Forall (Z.le 1) wants)
    (Hdraws : Zsum (map (fun w => Z.min w (plan_sample_count recipe)) wants) + plan_sample_count recipe <= U64_MAX) :
  exists a', run_passes pid info b wants a =
    (map (fun i => f (deliver i))
       (seqZ 0 (Zsum (map (fun w => Z.min w (plan_sample_count recipe)) wants))), Ret tt, a').
Proof.
  destruct (create_dataset_ok _ _ _ _ Hd Hlen)
    as (Hwf & Hq & Eq & Hso & Hdo & _).
  destruct (run_passes_position d deliver Hwf Hq Hread pid info b recipe f wants Hwants 0 a) as (a' & E & _).
  - lia.
  - unfold consumed. rewrite Ha. split_and!; try done. lia.
  - intros _. unfold quota, start_state. rewrite Hdo, Eq. lia.
  - exists a'. unfold quota, start_state in E. by rewrite Eq in E.
Qed.

(** C27. Native state stays in the process that created it: an adapter inherited
    with a reader (or an empty partition) of another process refuses to set up
    and to emit, and is left untouched; an adapter that went through
    serialization carries neither native state nor the right to delete the
    exported files; and after a successful setup the
    state belongs to the calling process. *)
Theorem native_state_process_local {T : Type} {N : NativeReader}
    (pid : Z) (info : worker_info) (b : bundle) (a : ReaderAdapter T) (want : Z) :
  (forall owner, owner <> pid -> 1 <= want ->
     ad_state a = EmptyPartition owner \/ (exists d g, ad_state a = LocalReader owner d g) ->
     run_pass pid info b want a =
     ([], Raise (RuntimeError (lit "DatasetRT loader native state belongs to another PID")), a, [])) /\
  (ad_state (pickle_roundtrip a) = PendingReader /\ ad_artifacts (pickle_roundtrip a) = None) /\
  (forall a' events, setup pid info b a = (Ret tt, a', events) ->
     ad_state a' = EmptyPartition pid \/ exists d g, ad_state a' = LocalReader pid d g).
Proof.
  split; [|split; [done|]].
  - intros owner Ho Hw Hs. unfold run_pass, setup. destruct (Z.leb_spec want 0); [lia|].
    destruct Hs as [->|(d & g & ->)]; (destruct (Z.eqb_spec owner pid); [done|]); done.
  - intros a' events. unfold setup. destruct (ad_state a) as [|owner|owner d g] eqn:E.
    + destruct (worker_plan info a) as [recipe|]; [|discriminate]. destruct (_ =? 0).
      * intros [= <- _]. by left.
      * destruct (create_dataset _ _ _) as [d|]; [|discriminate]. intros [= <- _]. right. by eexists _, _.
    + destruct (Z.eqb_spec owner pid) as [->|]; simpl; [|discriminate]. intros [= <- _]. by left.
    + destruct (Z.eqb_spec owner pid) as [->|]; simpl; [|discriminate]. intros [= <- _]. right. by eexists _, _.
Qed.

(** * A concrete consumer *)

#[local] Existing Instance demo_native.
#[local] Existing Instance demo_native_laws.

Definition demo_bundle : bundle :=
  mk_bundle (make_configuration (configuration_of 4 demo_dataset))
    (export_metadata_arrow (cd_inner demo_dataset)).1 None.
Definition demo_plan : WorkerPlan := mk_plan 0 0 0 4 3 0 None.
Definition demo_adapter : ReaderAdapter Z :=
  new_adapter (mk_replica 0 1) false None 2 (Some (fun s => Ret (sample_sample_id s))) 3 [demo_plan] []
    true false.
Definition demo_consumer : CachedDataset :=
  match create_dataset demo_bundle demo_plan demo_adapter with
  | Ret d => d
  | Raise _ => demo_dataset
  end.
Definition demo_deliver (i : Z) : CachedSample :=
  mk_sample [(i mod 4) / 2; (i mod 4) mod 2] ∅ ((i mod 4) / 2) ((i mod 4) mod 2).

Lemma demo_consumer_created :
  create_dataset demo_bundle demo_plan demo_adapter = Ret demo_consumer.
Proof. vm_compute. reflexivity. Qed.

Lemma demo_stream i : stream uniform weighted (nat_state (cd_inner demo_consumer)) i =
  [0; 1; 2; 3] !!! Z.to_nat (i mod 4).
Proof.
  assert (E : nat_state (cd_inner demo_consumer) =
    mk_state 4 0 false (Some (mk_active [0; 1; 2; 3] [Finite 1 1; Finite 1 1; Finite 1 1; Finite 1 1])) 3 0 0)
    by (vm_compute; reflexivity).
  rewrite E. unfold stream. simpl. by rewrite Z.add_0_l.
Qed.

Lemma demo_reads i : 0 <= i -> load_planned_sample (cd_inner demo_consumer)
    (stream uniform weighted (nat_state (cd_inner demo_consumer)) i) = Ok (demo_deliver i).
Proof.
  intros Hi. rewrite demo_stream. unfold demo_deliver. pose proof (Z.mod_pos_bound i 4 ltac:(lia)).
  assert (i mod 4 = 0 \/ i mod 4 = 1 \/ i mod 4 = 2 \/ i mod 4 = 3) as [->|[->|[->| ->]]] by lia;
    vm_compute; reflexivity.
Qed.

Lemma passes_continue_stream_witness :
  exists a', run_passes 100 None demo_bundle [2; 5; 1] demo_adapter =
    (map (fun i => inr (sample_sample_id (demo_deliver i))) (seqZ 0 6), Ret tt, a').
Proof.
  apply (passes_continue_stream 100 None demo_bundle demo_plan demo_adapter demo_consumer
    (fun s => inr (sample_sample_id s)) demo_deliver [2; 5; 1]).
  - reflexivity.
  - reflexivity.
  - exact demo_consumer_created.
  - reflexivity.
  - vm_compute. discriminate.
  - exact demo_reads.
  - repeat constructor; discriminate.
  - vm_compute. discriminate.
Defined.
