(* ===== verification/Construction.v ===== *)
(** Loader construction: [make_dataloader] and [_prepare_adapter] of
    [src/dataset_rt/integrations/loader.py], with the checks of its arguments,
    the export of the construction artifacts and their removal on any failure,
    and [to_torch_dataloader] of [src/dataset_rt/dataset.py]. *)
From stdpp Require Import base tactics list numbers strings gmap.
From S2P Require Import Prelude Collections PyStr Records Config Seeds Partition Reconstruction Resources Options.
From S2P Require Import Planner Native Metadata Interface Dataset Export Loader.
Open Scope Z_scope.

(** * Argument names *)

(** The keyword arguments [dataloader_kwargs] may not repeat. *)
Definition reserved_kwargs : list pystr :=
  map lit ["dataset"; "sampler"; "batch_sampler"; "shuffle"; "seed"; "samples_per_epoch";
           "worker_partition"; "work_dir"; "batch_size"; "num_workers"; "sample_transform_fn";
           "collate_fn"; "drop_last"; "pin_memory"; "timeout"; "native_num_workers";
           "multiprocessing_context"; "worker_init_fn"; "prefetch_factor"; "persistent_workers";
           "verbose"; "dataloader_kwargs"]%string.

Definition check_kwargs (extra : list pystr) : outcome unit :=
  match filter (fun n => n ∈ extra) reserved_kwargs with
  | [] => Ret tt
  | conflicts => Raise (ValueError (lit "dataloader_kwargs contains reserved arguments: " ++
                                    join_with (lit ", ") (sort_by str_leb conflicts)))
  end.

(** * Environment *)

(** What the surroundings answer during one construction: the process, the platform,
    the process group, randomness, and failures of each outside step. *)
Record environment := mk_environment {
  env_pid : Z;
  env_worker : worker_info;
  env_group : option (Z * Z);
  env_methods : list pystr;
  env_default_method : pystr;
  env_cpus : Z;
  env_local_world_size : option pystr;
  env_secret : Z;
  env_worker_secret : Z -> Z;
  env_broadcast : list pyval -> list pyval;
  env_is_directory : path -> bool;
  env_mkdtemp : option path -> outcome path;
  env_faults : step -> fault;
  env_pickle : outcome unit;
  env_load_configuration : outcome unit;
  env_row_order : outcome unit;
  env_numpy_shuffle : Z -> list Z -> list Z;
  env_dataloader : outcome unit;
  env_log : outcome unit }.

(** The constructed [DataLoader] with the settings it was given. *)
Record loader (T : Type) := mk_loader {
  ld_adapter : ReaderAdapter T;
  ld_batch_size : Z;
  ld_workers : ResolvedWorkers }.
Arguments mk_loader {T} _ _ _.
Arguments ld_adapter {T} _.
Arguments ld_batch_size {T} _.
Arguments ld_workers {T} _.

Section Construction.
Context {T : Type} {N : NativeReader}.

(** [_validate_transform]: the pickling probe runs only for loading processes. *)
Definition validate_transform (pickle : outcome unit) (transform : option (CachedSample -> outcome T))
    (num_workers : Z) : outcome unit :=
  match transform with
  | None => Ret tt
  | Some _ =>
      if num_workers =? 0 then Ret tt
      else match pickle with
           | Ret _ => Ret tt
           | Raise (KeyboardInterrupt m) => Raise (KeyboardInterrupt m)
           | Raise (SystemExit s) => Raise (SystemExit s)
           | Raise _ => Raise (TypeError (lit "sample_transform_fn must be picklable for multiprocess loading"))
           end
  end.

Definition warn_restarting_workers (w : ResolvedWorkers) : list py_warning :=
  if (processes (counts w) =? 0) || persistent w then []
  else [UserWarning (lit "persistent_workers=False restarts DatasetRT readers on every DataLoader pass with the same sampling seed and reset draw offset or sequential cursor. With unchanged metadata, each epoch repeats the same sample sequence, including when seed='random'. Short epochs can repeatedly omit the rest of the population. Set persistent_workers=True to continue sampling across epochs.")].

(** Integer of a validated argument. *)
Definition int_of (v : pyval) : Z := match v with PInt z => z | _ => 0 end.

(** [load_configuration] of the file just published. *)
Definition read_configuration (d : directory) : outcome DatasetConfiguration :=
  match d !! config_path with
  | Some (ConfigFile c true _) => make_configuration c
  | Some _ => Raise (ValidationError (lit "DatasetConfiguration"))
  | None => Raise (ValidationError (lit "FilePath"))
  end.

Definition ORDER_NAME : pystr := lit "partition-order.npy".

(** The part of [_prepare_adapter] after the export, on the artifact directory. *)
Definition plan_adapter (env : environment) (o : LoaderOptions) (workers : ResolvedWorkers)
    (replica : ReplicaIdentity) (seed : option Z) (count : Z)
    (transform : option (CachedSample -> outcome T)) (artifacts : ConstructionArtifacts) (d : directory)
  : outcome (ReaderAdapter T * list py_warning) * directory :=
  match (_ ← env_load_configuration env; read_configuration d) with
  | Raise e => (Raise e, d)
  | Ret config =>
      let partition := resolved_partition o in
      match prepare_partitions (env_worker_secret env) (config_row_count config) replica
              (processes (counts workers)) (int_of (opt_batch_size o)) count partition
              (truth (opt_shuffle o)) seed (truth (opt_drop_last o)) with
      | Raise e => (Raise e, d)
      | Ret (plans, warnings) =>
          let ordered :=
            if truth (opt_shuffle o) && bool_decide (partition = Split)
            then match seed with
                 | None => Raise (RuntimeError (lit "shuffled partitions require a resolved seed"))
                 | Some s =>
                     _ ← env_row_order env;
                     Ret (<[ORDER_NAME := OrderFile (prepare_row_order (env_numpy_shuffle env)
                                                       (config_row_count config) s)]> d)
                 end
            else Ret d in
          match ordered with
          | Raise e => (Raise e, d)
          | Ret d =>
              let a := new_adapter replica (truth (opt_shuffle o)) seed (native_threads (counts workers))
                         transform (Zsum (map plan_sample_count plans)) plans
                         (path_join (art_directory artifacts) config_path)
                         (truth (opt_verbose o)) (persistent workers) in
              (Ret (mk_adapter (ad_replica a) (ad_shuffle a) (ad_seed a) (ad_native_num_workers a)
                      (ad_sample_transform_fn a) (ad_row_count a) (ad_partitions a) (ad_config_path a)
                      (ad_verbose a) (ad_persistent_workers a) (Some artifacts) (ad_state a), warnings), d)
          end
      end
  end.

(** [_prepare_adapter]. *)
Definition prepare_adapter (env : environment) (ds : CachedDataset) (o : LoaderOptions)
    (workers : ResolvedWorkers) (replica : ReplicaIdentity) (seed : option Z) (count : Z)
    (transform : option (CachedSample -> outcome T)) (artifacts : ConstructionArtifacts) (fs : filesystem)
  : outcome (ReaderAdapter T * list py_warning) * filesystem :=
  match fs !! art_directory artifacts with
  | None => (Raise (ValidationError (lit "DirectoryPath")), fs)
  | Some d =>
      let '(_, d, r) := dump_configuration (env_faults env) ds d in
      let fs := <[art_directory artifacts := d]> fs in
      match r with
      | Raise e => (Raise e, fs)
      | Ret _ =>
          let '(r, d) := plan_adapter env o workers replica seed count transform artifacts d in
          (r, <[art_directory artifacts := d]> fs)
      end
  end.

(** The sample budget: explicit, or inherited from the dataset's recipe. *)
Definition sample_budget (o : LoaderOptions) (ds : CachedDataset) : outcome Z :=
  let count := match opt_samples_per_epoch o with
               | PNone => recipe_sample_count (cd_recipe ds)
               | v => int_of v
               end in
  if negb ((1 <=? count) && (count <=? MAX_SAMPLE_BUDGET))
  then Raise (ValueError (lit "inherited samples_per_epoch must be between 1 and " ++ dec MAX_SAMPLE_BUDGET))
  else Ret count.

(** Everything before the artifacts exist. *)
Definition check_arguments (env : environment) (ds : CachedDataset) (o : LoaderOptions)
    (transform : option (CachedSample -> outcome T)) (extra : list pystr)
  : outcome (ReplicaIdentity * ResolvedWorkers * Z * option Z * list py_warning) :=
  _ ← check_kwargs extra;
  _ ← post_init (env_methods env) o;
  replica ← capture_replica (env_worker env) (env_group env);
  workers ← resolve_workers (env_cpus env) (env_local_world_size env) (env_default_method env) o
              (world_size replica);
  _ ← validate_transform (env_pickle env) transform (processes (counts workers));
  let warnings := warn_restarting_workers workers in
  count ← sample_budget o ds;
  seed ← common_seed (env_secret env) (env_broadcast env) replica (truth (opt_shuffle o)) (resolved_seed o);
  Ret (replica, workers, count, seed, warnings).

Definition make_dataloader (env : environment) (ds : CachedDataset) (o : LoaderOptions)
    (transform : option (CachedSample -> outcome T)) (work_dir : option path) (extra : list pystr)
    (fs : filesystem) : outcome (loader T * list py_warning) * filesystem :=
  match check_arguments env ds o transform extra with
  | Raise e => (Raise e, fs)
  | Ret (replica, workers, count, seed, warnings) =>
      match create_artifacts (env_pid env) (env_is_directory env) (env_mkdtemp env) work_dir fs with
      | (Raise e, fs) => (Raise e, fs)
      | (Ret artifacts, fs) =>
          let '(r, fs) := prepare_adapter env ds o workers replica seed count transform artifacts fs in
          let built :=
            '(adapter, more) ← r;
            _ ← env_dataloader env;
            _ ← (if truth (opt_verbose o) then env_log env else Ret tt);
            Ret (mk_loader adapter (int_of (opt_batch_size o)) workers, warnings ++ more) in
          match built with
          | Raise e => (Raise e, discard (env_pid env) artifacts fs)
          | Ret l => (Ret l, fs)
          end
      end
  end.

(** The keyword defaults of [to_torch_dataloader]. *)
Definition default_options : LoaderOptions :=
  mk_options (PBool true) (PStr (lit "random")) PNone PNone (PInt 1) (PStr (lit "auto")) (PStr (lit "auto"))
    (PBool false) (PBool false) (PStr (lit "auto")) (PInt 0) (ContextName (lit "spawn")) (PStr (lit "auto"))
    (PBool true).

(** [to_torch_dataloader]: every argument is handed to [make_dataloader]. *)
Definition to_torch_dataloader (env : environment) (ds : CachedDataset) (o : LoaderOptions)
    (transform : option (CachedSample -> outcome T)) (work_dir : option path)
    (dataloader_kwargs : option (list pystr)) (fs : filesystem)
  : outcome (loader T * list py_warning) * filesystem :=
  make_dataloader env ds o transform work_dir (default [] dataloader_kwargs) fs.
End Construction.

(** * Artifacts *)

(** The contents of the artifact directory of a finished construction: the complete
    export, and the shared row order exactly when shuffled rows are split. *)
Definition artifact_contents {N : NativeReader} (ds : CachedDataset) (o : LoaderOptions) (d : directory) : Prop :=
  let '(t, rows) := export_metadata_arrow (cd_inner ds) in
  exists d0, complete_export t (configuration_of rows ds) ∅ d0 /\
    (d = d0 \/ exists order, truth (opt_shuffle o) = true /\ resolved_partition o = Split /\
       d = <[ORDER_NAME := OrderFile order]> d0).

Lemma make_configuration_inv c c' : make_configuration c = Ret c' -> c' = c /\ configuration_valid c = true.
Proof. unfold make_configuration. destruct (configuration_valid c); [|discriminate]. by intros [= <-]. Qed.

Lemma dump_fresh {N : NativeReader} faults ds seen d p :
  dump_configuration faults ds ∅ = (seen, d, Ret p) ->
  let '(t, rows) := export_metadata_arrow (cd_inner ds) in
  configuration_valid (configuration_of rows ds) = true /\
  complete_export t (configuration_of rows ds) ∅ d.
Proof.
  unfold dump_configuration. destruct (export_metadata_arrow (cd_inner ds)) as [t rows]. intros E.
  assert (Hb : forall name, name ∈ targets -> (∅ : directory) !! name = None) by (intros; apply lookup_empty).
  pose proof (dump_files_run faults t (make_configuration (configuration_of rows ds)) ∅ Hb) as H.
  rewrite E in H. destruct H as (_ & _ & Hr & _ & Hp). rewrite (Hp p eq_refl) in Hr.
  destruct (Hr eq_refl) as (c & Hc & Hpub). apply make_configuration_inv in Hc as [-> Hv].
  split; [done|]. by apply published_complete.
Qed.

Section Artifacts.
Context {T : Type} {N : NativeReader} (env : environment) (ds : CachedDataset) (o : LoaderOptions).
Context (transform : option (CachedSample -> outcome T)).

(** What planning does to the directory, and which adapter it builds. *)
Lemma plan_adapter_ok workers replica seed count artifacts d a ws d' :
  plan_adapter env o workers replica seed count transform artifacts d = (Ret (a, ws), d') ->
  exists config plans more,
    read_configuration d = Ret config /\
    prepare_partitions (env_worker_secret env) (config_row_count config) replica
      (processes (counts workers)) (int_of (opt_batch_size o)) count (resolved_partition o)
      (truth (opt_shuffle o)) seed (truth (opt_drop_last o)) = Ret (plans, more) /\
    ad_partitions a = plans /\ ad_row_count a = Zsum (map plan_sample_count plans) /\
    ad_state a = PendingReader /\ ad_artifacts a = Some artifacts /\ ad_replica a = replica /\
    (d' = d \/ exists order, truth (opt_shuffle o) = true /\ resolved_partition o = Split /\
       d' = <[ORDER_NAME := OrderFile order]> d).
Proof.
  unfold plan_adapter. intros H. destruct (env_load_configuration env); [|discriminate]. simpl in H.
  destruct (read_configuration d) as [config|]; [|discriminate].
  destruct (prepare_partitions _ _ _ _ _ _ _ _ _ _) as [[plans more]|] eqn:Ep; [|discriminate].
  destruct (truth (opt_shuffle o) && bool_decide (resolved_partition o = Split)) eqn:Es.
  - apply andb_true_iff in Es as [Es1 Es2%bool_decide_eq_true]. destruct seed as [s|]; [|discriminate].
    destruct (env_row_order env); [|discriminate]. simpl in H. injection H as <- <- <-.
    exists config, plans, more. split_and!; [done..|]. right. eauto.
  - injection H as <- <- <-. exists config, plans, more. split_and!; [done..|]. by left.
Qed.

Lemma prepare_adapter_fs workers replica seed count artifacts fs :
  fs !! art_directory artifacts = Some ∅ ->
  exists d, (prepare_adapter env ds o workers replica seed count transform artifacts fs).2 =
            <[art_directory artifacts := d]> fs.
Proof.
  intros Hd. unfold prepare_adapter. rewrite Hd.
  destruct (dump_configuration _ _ _) as [[seen d] [p|e]]; [|by exists d].
  destruct (plan_adapter _ _ _ _ _ _ _ _ _) as [r d']. exists d'. simpl. by rewrite insert_insert_eq.
Qed.

Lemma prepare_adapter_ok workers replica seed count artifacts fs a ws fs' :
  fs !! art_directory artifacts = Some ∅ ->
  prepare_adapter env ds o workers replica seed count transform artifacts fs = (Ret (a, ws), fs') ->
  exists plans more d,
    prepare_partitions (env_worker_secret env) (export_metadata_arrow (cd_inner ds)).2 replica
      (processes (counts workers)) (int_of (opt_batch_size o)) count (resolved_partition o)
      (truth (opt_shuffle o)) seed (truth (opt_drop_last o)) = Ret (plans, more) /\
    ad_partitions a = plans /\ ad_row_count a = Zsum (map plan_sample_count plans) /\
    ad_state a = PendingReader /\ ad_artifacts a = Some artifacts /\ ad_replica a = replica /\
    fs' = <[art_directory artifacts := d]> fs /\ artifact_contents ds o d.
Proof.
  intros Hd. unfold prepare_adapter. rewrite Hd.
  destruct (dump_configuration _ _ _) as [[seen d] [p|e]] eqn:Ed; [|discriminate].
  destruct (plan_adapter _ _ _ _ _ _ _ _ _) as [r d'] eqn:Ep. intros [= -> <-].
  apply plan_adapter_ok in Ep as (config & plans & more & Hr & Hp & H1 & H2 & H3 & H4 & H5 & H6).
  apply dump_fresh in Ed. unfold artifact_contents.
  destruct (export_metadata_arrow (cd_inner ds)) as [t rows]. destruct Ed as [Hv Hc].
  unfold read_configuration in Hr. unfold complete_export in Hc. rewrite Hc, lookup_insert_eq in Hr.
  apply make_configuration_inv in Hr as [-> _].
  exists plans, more, d'. rewrite insert_insert_eq. split_and!; try done. exists d. by split.
Qed.
End Artifacts.

(** The plans of a constructed loader come from its checked arguments. *)
Lemma make_dataloader_plans {T : Type} {N : NativeReader} env ds o (transform : option (CachedSample -> outcome T))
    work_dir extra fs l ws fs' :
  make_dataloader env ds o transform work_dir extra fs = (Ret (l, ws), fs') ->
  exists replica workers count seed warnings more,
    check_arguments env ds o transform extra = Ret (replica, workers, count, seed, warnings) /\
    prepare_partitions (env_worker_secret env) (export_metadata_arrow (cd_inner ds)).2 replica
      (processes (counts workers)) (int_of (opt_batch_size o)) count (resolved_partition o)
      (truth (opt_shuffle o)) seed (truth (opt_drop_last o)) = Ret (ad_partitions (ld_adapter l), more) /\
    ld_batch_size l = int_of (opt_batch_size o) /\
    0 < config_row_count (configuration_of (export_metadata_arrow (cd_inner ds)).2 ds).
Proof.
  unfold make_dataloader. destruct (check_arguments _ _ _ _ _) as [[[[[replica workers] count] seed] warnings]|];
    [|done].
  unfold create_artifacts. destruct (r ← _; env_mkdtemp env r) as [p|]; [|done].
  set (artifacts := mk_artifacts p (env_pid env) _).
  assert (Hd : (<[p := ∅]> fs : filesystem) !! art_directory artifacts = Some ∅) by (by apply lookup_insert_eq).
  destruct (prepare_adapter _ _ _ _ _ _ _ _ _ _) as [[[a more]|e] fs1] eqn:Ep; simpl; [|done].
  destruct (env_dataloader env); simpl; [|done].
  destruct (if truth (opt_verbose o) then env_log env else Ret tt); simpl; [|done].
  intros [= <- _ _]. pose proof Ep as Ep'.
  apply prepare_adapter_ok in Ep' as (plans & more' & d' & Hp & <- & _); [|done].
  exists replica, workers, count, seed, warnings, more'. split; [done|]. split; [done|]. split; [done|].
  unfold prepare_adapter in Ep. rewrite Hd in Ep.
  destruct (dump_configuration _ _ _) as [[seen d] [q|e]] eqn:Ed; [|done].
  apply dump_fresh in Ed. destruct (export_metadata_arrow (cd_inner ds)) as [t rows]. destruct Ed as [Hv _].
  unfold configuration_valid in Hv. simpl. bools. done.
Qed.


(** A construction in a single process with one CPU. *)
Definition demo_env : environment :=
  mk_environment 100 None None [lit "fork"; lit "spawn"] (lit "fork") 1 None 7 (fun _ => 0) (fun l => l)
    (fun _ => true) (fun _ => Ret [lit "tmp"; lit "dataset-rt-1"]) (fun _ => NoFault) (Ret tt) (Ret tt) (Ret tt)
    (fun _ l => l) (Ret tt) (Ret tt).

#[local] Existing Instance demo_native.

