(* ===== verification/Epoch.v ===== *)
(** One loader epoch from end to end: the plans of all ranks, the exported table,
    the readers the workers build from them and the samples their first pass
    emits, composed over [Planner], [Reconstruction], [Dataset] and [Loader]. *)
From stdpp Require Import base tactics list numbers strings gmap.
From S2P Require Import Prelude Records Config Seeds Partition Reconstruction Options Planner.
From S2P Require Import Native Metadata Interface Dataset Export Loader.
Open Scope Z_scope.

(** * Selected tables *)

Lemma Forall2_selected {A B} `{Inhabited B} (R : A -> B -> Prop) rows xs sel :
  Forall2 R rows xs -> (forall i, i ∈ sel -> 0 <= i < Z.of_nat (length rows)) ->
  Forall2 R (omap (fun i => rows !! Z.to_nat i) sel) (map (fun i => xs !!! Z.to_nat i) sel).
Proof.
  intros HF. induction sel as [|i sel IH]; intros Hr; simpl; [constructor|].
  destruct (Hr i ltac:(left)) as [H1 H2].
  destruct (lookup_lt_is_Some_2 rows (Z.to_nat i)) as [x Hx]; [lia|]. rewrite Hx.
  destruct (Forall2_lookup_l _ _ _ _ _ HF Hx) as (y & Hy & Hxy).
  constructor; [by rewrite (list_lookup_total_correct _ _ _ Hy)|]. apply IH. intros j Hj. apply Hr. by right.
Qed.

#[export] Instance pyfloat_inhabited : Inhabited pyfloat := populate NotANumber.

Lemma map_lookup_fst {A B} `{Inhabited A, Inhabited B} (xs : list (A * B)) sel :
  (forall i, i ∈ sel -> 0 <= i < Z.of_nat (length xs)) ->
  map fst (map (fun i => xs !!! Z.to_nat i) sel) = map (fun i => map fst xs !!! Z.to_nat i) sel /\
  map snd (map (fun i => xs !!! Z.to_nat i) sel) = map (fun i => map snd xs !!! Z.to_nat i) sel.
Proof.
  intros Hr. rewrite !map_map. split; apply map_ext_elem; intros i Hi; destruct (Hr i Hi);
    destruct (lookup_lt_is_Some_2 xs (Z.to_nat i)) as [x Hx]; try lia;
    rewrite (list_lookup_total_correct _ _ _ Hx); symmetry; apply list_lookup_total_correct;
    change (map ?f ?l) with (f <$> l); by rewrite list_lookup_fmap, Hx.
Qed.

Lemma required_column_columns t t' name : table_columns t = table_columns t' ->
  required_column t name = required_column t' name.
Proof. intros E. unfold required_column, column_by_name. by rewrite E. Qed.

Lemma validate_columns_columns t t' schema : table_columns t = table_columns t' ->
  validate_required_metadata_columns t schema = validate_required_metadata_columns t' schema.
Proof.
  intros E. induction schema as [|[name kind] schema IH]; simpl; [done|].
  rewrite (required_column_columns t t' name E). by rewrite IH.
Qed.

(** The population of a row view is the view of the population. *)
Lemma extract_view t caches offsets lookup schema a sel :
  extract_metadata_arrow t caches offsets lookup schema = Ok a -> sel <> [] ->
  (forall i, i ∈ sel -> 0 <= i < num_rows t) ->
  validate_weights (map (fun i => row_weights a !!! Z.to_nat i) sel) (Z.of_nat (length sel)) = Ok tt ->
  exists v, select_view t sel = Ok v /\
    extract_metadata_arrow v caches offsets lookup schema =
    Ok (mk_active (map (fun i => physical_indices a !!! Z.to_nat i) sel)
                  (map (fun i => row_weights a !!! Z.to_nat i) sel)).
Proof.
  intros He Hne Hr Hw. unfold select_view.
  replace (forallb (fun row => row <? num_rows t) sel) with true.
  2: { symmetry. apply forallb_forall. intros i Hi. apply Z.ltb_lt, Hr. by apply list_elem_of_In. }
  eexists. split; [done|]. unfold extract_metadata_arrow in He |- *. repeat ocase He. injection He as <-.
  match goal with E : read_rows _ _ _ _ _ _ _ = Ok ?xs |- _ => pose proof (read_rows_inv _ _ _ _ _ _ _ _ E) as HF;
    rename xs into pairs end.
  pose proof (Forall2_selected _ _ _ sel HF Hr) as HS. pose proof (Forall2_length _ _ _ HF) as HL.
  assert (Hl : length (omap (fun i => table_rows t !! Z.to_nat i) sel) = length sel).
  { by rewrite (Forall2_length _ _ _ HS), length_map. }
  unfold num_rows at 1. cbn [table_rows]. rewrite Hl.
  destruct (Z.eqb_spec (Z.of_nat (length sel)) 0); [destruct sel; [done|simpl in *; lia]|].
  destruct (map_lookup_fst pairs sel) as [E1 E2]; [intros i Hi; rewrite <- HL; by apply Hr|].
  rewrite (validate_columns_columns _ t) by done.
  rewrite (required_column_columns (mk_table _ _) t (lit "cache_id")), (required_column_columns (mk_table _ _) t (lit "sample_id")),
    (required_column_columns (mk_table _ _) t (lit "weight")) by done.
  repeat match goal with E : ?x = Ok _ |- context [?x] => rewrite E end.
  unfold num_rows. cbn [table_rows]. rewrite Hl. rewrite (read_rows_Forall2 _ _ _ _ _ _ _ _ HS), E1, E2.
  cbn [row_weights] in Hw. by rewrite Hw.
Qed.

(** * One consumer *)

Lemma load_native_reseed {N : NativeReader} paths seed prefetch shuffle validate n seed' shuffle' :
  load_native paths seed prefetch shuffle validate = Ok n ->
  load_native paths seed' prefetch shuffle' validate =
  Ok (with_state (mk_state (total_samples (nat_caches n)) seed' shuffle' None (total_samples (nat_caches n)) 0 0) n).
Proof.
  intros H. pose proof (load_native_ok _ _ _ _ _ _ H) as (_ & _ & _ & _ & Ht & Hp & _).
  unfold load_native in *. do 6 ocase H. unfold load_state, new_epoch_len in *.
  match type of H with context [total_samples ?c =? 0] => destruct (Z.eqb_spec (total_samples c) 0); [discriminate|] end.
  injection H as <-. done.
Qed.

Lemma from_configuration_ret {N : NativeReader} c t sel n v a :
  is_u64 (config_num_workers c) -> 0 < config_num_workers c ->
  is_u64 (reader_seed_value (config_reader c)) -> is_u64 (reader_prefetch_size (config_reader c)) ->
  load_native (config_cache_paths c) (reader_seed_value (config_reader c))
    (reader_prefetch_size (config_reader c)) (reader_shuffle (config_reader c))
    (reader_validate_cache (config_reader c)) = Ok n ->
  match sel with None => Ok t | Some s => select_view t s end = Ok v ->
  extract_metadata_arrow v (nat_caches n) (nat_offsets n) (nat_lookup n) (nat_schema n) = Ok a ->
  1 <= config_epoch_len c <= U64_MAX ->
  exists d, from_configuration c t sel = Ret d /\
    cd_inner d = mk_native (nat_caches n) (nat_lookup n) (nat_offsets n) (nat_schema n) (Some v)
      (mk_state (total_samples (nat_caches n)) (reader_seed_value (config_reader c))
         (reader_shuffle (config_reader c)) (Some a) (config_epoch_len c) 0 0).
Proof.
  intros Hw Hw0 Hs Hp Hn Hv He Hl. pose proof (load_native_ok _ _ _ _ _ _ Hn) as (_ & _ & _ & _ & _ & _ & Hst).
  destruct (extract_active_wf _ _ _ _ _ _ He) as (H1 & _ & H3 & _).
  unfold from_configuration, native_runtime. rewrite extract_u64_ok by done. simpl.
  destruct (Z.eqb_spec (config_num_workers c) 0); [lia|]. simpl.
  unfold cached_dataset_load, native_cached_dataset. rewrite !extract_u64_ok by done. simpl. rewrite Hn. simpl.
  unfold restore_metadata, update_metadata_arrow. simpl. rewrite Hv, He.
  unfold replace_active, new_epoch_len. rewrite H1.
  destruct (Z.eqb_spec (Z.of_nat (length (table_rows v))) 0); [destruct (table_rows v); [done|simpl in *; lia]|]. simpl.
  unfold set_epoch_len. destruct (Z.ltb_spec (config_epoch_len c) 1); [lia|].
  rewrite extract_u64_ok by (split; lia). simpl. unfold native_set_epoch_len, new_epoch_len.
  destruct (Z.eqb_spec (config_epoch_len c) 0); [lia|]. eexists. split; [done|]. simpl. by rewrite Hst.
Qed.

Lemma stream_sequential uniform weighted total seed idx ws len i :
  stream uniform weighted (mk_state total seed false (Some (mk_active idx ws)) len 0 0) i =
  idx !!! Z.to_nat (i mod Z.of_nat (length idx)).
Proof. unfold stream, active_len. simpl. done. Qed.

Section Consumer.
Context {N : NativeReader}.
Context {L : NativeReaderLaws N}.
(** The exported configuration and table, the native state they were exported from
    and its population. *)
Context (c : DatasetConfiguration) (t : table) (n0 : native_dataset) (a : ActiveTable).
Context (Hload : forall seed shuffle, exists n1,
  load_native (config_cache_paths c) seed (reader_prefetch_size (config_reader c)) shuffle
    (reader_validate_cache (config_reader c)) = Ok n1 /\
  nat_caches n1 = nat_caches n0 /\ nat_offsets n1 = nat_offsets n0 /\ nat_lookup n1 = nat_lookup n0 /\
  nat_schema n1 = nat_schema n0).
Context (Hprefetch : is_u64 (reader_prefetch_size (config_reader c))).
Context (Hrows : num_rows t = config_row_count c) (Hcount : 0 < config_row_count c < 2 ^ 63).
Context (Ha : extract_metadata_arrow t (nat_caches n0) (nat_offsets n0) (nat_lookup n0) (nat_schema n0) = Ok a).
Context (weights_finite : forall sel, Z.of_nat (length sel) <= config_row_count c ->
  (forall i, i ∈ sel -> 0 <= i < config_row_count c) ->
  validate_weights (map (fun i => row_weights a !!! Z.to_nat i) sel) (Z.of_nat (length sel)) = Ok tt).
Context (row_sample : Z -> CachedSample).
Context (Hread : forall i, 0 <= i < config_row_count c ->
  load_planned_sample n0 (physical_indices a !!! Z.to_nat i) = Ok (row_sample i)).

Lemma population_length : Z.of_nat (length (physical_indices a)) = config_row_count c /\
  length (row_weights a) = length (physical_indices a).
Proof.
  destruct (extract_active_wf _ _ _ _ _ _ Ha) as (H1 & H2 & _). unfold num_rows in Hrows.
  split; congruence.
Qed.

Lemma view_population sel rows : default (seqZ 0 (config_row_count c)) sel = rows -> rows <> [] ->
  Z.of_nat (length rows) <= config_row_count c -> (forall i, i ∈ rows -> 0 <= i < config_row_count c) ->
  exists v, match sel with None => Ok t | Some s => select_view t s end = Ok v /\
    extract_metadata_arrow v (nat_caches n0) (nat_offsets n0) (nat_lookup n0) (nat_schema n0) =
    Ok (mk_active (map (fun i => physical_indices a !!! Z.to_nat i) rows)
                  (map (fun i => row_weights a !!! Z.to_nat i) rows)).
Proof.
  intros Hsel Hne Hlen Hr. destruct sel as [s|]; simpl in Hsel; subst rows.
  - apply extract_view; [done|done|by rewrite Hrows|by apply weights_finite].
  - exists t. split; [done|]. rewrite Ha. destruct population_length as [H1 H2].
    rewrite <- H1 at 1. rewrite seqZ_lookup_all. rewrite <- H1, <- H2, seqZ_lookup_all. by destruct a.
Qed.

Section Plan.
Context {T : Type} (pid : Z) (info : worker_info) (p : WorkerPlan) (ad : ReaderAdapter T) (rows : list Z).
Context (Hstate : ad_state ad = PendingReader) (Hshuffle : ad_shuffle ad = false).
Context (Htransform : ad_sample_transform_fn ad = None).
Context (Hthreads : 0 < ad_native_num_workers ad <= U64_MAX).
Context (Hplan : worker_plan info ad = Ret p) (Hseed : plan_seed p = 0).
Context (Hsel : exists sel, population_selection None (config_row_count c) (plan_offset p)
                  (plan_population_size p) (plan_partition_seed p) = Ret sel /\
                default (seqZ 0 (config_row_count c)) sel = rows).
Context (Hlen : Z.of_nat (length rows) = plan_sample_count p) (Hpos : 0 < plan_sample_count p <= config_row_count c).
Context (Hrange : forall i, i ∈ rows -> 0 <= i < config_row_count c).

Lemma consumer_created : exists d, create_dataset (mk_bundle (Ret c) t None) p ad = Ret d /\
  nat_caches (cd_inner d) = nat_caches n0 /\ nat_offsets (cd_inner d) = nat_offsets n0 /\
  exists total ws, nat_state (cd_inner d) =
    mk_state total 0 false (Some (mk_active (map (fun i => physical_indices a !!! Z.to_nat i) rows) ws))
      (plan_sample_count p) 0 0.
Proof.
  destruct Hsel as (sel & Es & Hdef). destruct (Hload 0 false) as (n1 & Hn1 & E1 & E2 & E3 & E4).
  destruct (view_population sel rows Hdef) as (v & Hv & He); [by destruct rows; simpl in *; [lia|]|lia|done|].
  assert (Hu : config_row_count c <= U64_MAX) by (rewrite U64_MAX_eq; lia).
  destruct (from_configuration_ret (consumer_configuration c p ad) t sel n1 v
    (mk_active (map (fun i => physical_indices a !!! Z.to_nat i) rows)
               (map (fun i => row_weights a !!! Z.to_nat i) rows))) as (d & Hd & Ed); simpl.
  - split; lia.
  - lia.
  - rewrite Hseed. split; [lia|]. vm_compute. discriminate.
  - done.
  - by rewrite Hseed, Hshuffle.
  - done.
  - by rewrite E1, E2, E3, E4.
  - lia.
  - exists d. unfold create_dataset. simpl. unfold load_metadata. unfold num_rows in Hrows.
    rewrite Hrows, Z.eqb_refl. simpl. rewrite Es. simpl. split; [done|]. rewrite Ed. simpl.
    rewrite E1, E2, Hseed, Hshuffle. split_and!; [done..|]. eauto.
Qed.

(** The first pass of a consumer reads its population in order. *)
Lemma consumer_first_pass want : plan_sample_count p <= want ->
  exists ad' events,
    run_pass pid info
      (mk_bundle (Ret c) t None) want ad = (map (fun i => inl (row_sample i)) rows, Ret tt, ad', events).
Proof.
  intros Hwant. destruct consumer_created as (d & Hd & Ec & Eo & total & ws & Est).
  assert (Hu : config_row_count c <= U64_MAX) by (rewrite U64_MAX_eq; lia).
  assert (Hal : active_len (nat_state (cd_inner d)) <= U64_MAX).
  { rewrite Est. unfold active_len. simpl. rewrite length_map. lia. }
  destruct (create_dataset_ok _ _ _ _ Hd Hal) as (Hwf & Hq & _).
  set (deliver := fun i => row_sample (rows !!! Z.to_nat (i mod plan_sample_count p))).
  destruct (run_pass_position d deliver Hwf Hq)
    with (T := T) (pid := pid) (info := info)
      (b := mk_bundle (Ret c) t None) (recipe := p) (f := @inl CachedSample T) (want := want) (n := 0) (a := ad)
    as (ad' & events & E & _).
  - intros i Hi. unfold planned_index, start_state. rewrite Est, stream_sequential, length_map, Hlen.
    pose proof (Z.mod_pos_bound i (plan_sample_count p) ltac:(lia)).
    destruct (lookup_lt_is_Some_2 rows (Z.to_nat (i mod plan_sample_count p))) as [r Hr]; [lia|].
    unfold deliver. rewrite (list_lookup_total_correct _ _ _ Hr).
    rewrite (list_lookup_total_correct _ _ (physical_indices a !!! Z.to_nat r)).
    + rewrite <- (Hread r) by (apply Hrange; by eapply list_elem_of_lookup_2).
      unfold load_planned_sample. by rewrite Ec, Eo.
    + change (map ?f ?l) with (f <$> l). by rewrite list_lookup_fmap, Hr.
  - lia.
  - lia.
  - unfold consumed. rewrite Hstate. unfold transform. rewrite Htransform. split_and!; try done. lia.
  - unfold start_state. rewrite Est. discriminate.
  - exists ad', events. rewrite E. unfold quota, start_state. rewrite Est. simpl ds_epoch_len.
    rewrite Z.min_r by lia. do 3 f_equal. unfold deliver.
    transitivity (map (fun i => @inl CachedSample T (row_sample i))
      (map (fun i => rows !!! Z.to_nat i) (seqZ 0 (Z.of_nat (length rows))))).
    + rewrite map_map, Hlen. apply map_ext_elem. intros i Hi%elem_of_seqZ. by rewrite Z.mod_small by lia.
    + by rewrite seqZ_lookup_all.
Qed.
End Plan.
End Consumer.

(** * All ranks *)

Definition worker_identity (num_workers k : Z) : worker_info :=
  if num_workers =? 0 then None else Some (k, num_workers).

Section Epoch.
Context {N : NativeReader}.
Context (T : Type) (c : DatasetConfiguration) (t : table).
Context (fresh : Z -> Z -> Z) (w : Z) (num_workers : Z -> Z) (batch threads : Z) (verbose persistent : bool).
Context (config_path : path) (pid : Z -> Z -> Z).

(** The adapter rank [r] prepares for one sequential pass over the split table. *)
Definition rank_adapter (r : Z) (plans : list WorkerPlan) : ReaderAdapter T :=
  new_adapter (mk_replica r w) false None threads None (Zsum (map plan_sample_count plans)) plans
    config_path verbose persistent.

(** The first pass of one consumer process, exhausted by its loader. *)
Definition consumer_pass (r k : Z) (a : ReaderAdapter T) : outcome (list (CachedSample + T)) :=
  let '(xs, res, _, _) :=
    run_pass (pid r k)
      (worker_identity (num_workers r) k) (mk_bundle (Ret c) t None) (config_row_count c) a in
  _ ← res; Ret xs.

Definition rank_epoch (r : Z) : outcome (list (CachedSample + T)) :=
  '(plans, _) ← prepare_partitions (fresh r) (config_row_count c) (mk_replica r w) (num_workers r) batch
                  (config_row_count c) Split false None false;
  parts ← traverse (fun k => consumer_pass r k (rank_adapter r plans)) (seqZ 0 (Z.max 1 (num_workers r)));
  Ret (concat parts).

Definition loader_epoch : outcome (list (CachedSample + T)) :=
  ranks ← traverse rank_epoch (seqZ 0 w); Ret (concat ranks).
End Epoch.

Section Coverage.
Context {N : NativeReader}.
Context {L : NativeReaderLaws N}.
Context (T : Type) (c : DatasetConfiguration) (t : table) (n0 : native_dataset) (a : ActiveTable).
Context (Hload : forall seed shuffle, exists n1,
  load_native (config_cache_paths c) seed (reader_prefetch_size (config_reader c)) shuffle
    (reader_validate_cache (config_reader c)) = Ok n1 /\
  nat_caches n1 = nat_caches n0 /\ nat_offsets n1 = nat_offsets n0 /\ nat_lookup n1 = nat_lookup n0 /\
  nat_schema n1 = nat_schema n0).
Context (Hprefetch : is_u64 (reader_prefetch_size (config_reader c))).
Context (Hrows : num_rows t = config_row_count c).
Context (Ha : extract_metadata_arrow t (nat_caches n0) (nat_offsets n0) (nat_lookup n0) (nat_schema n0) = Ok a).
Context (weights_finite : forall sel, Z.of_nat (length sel) <= config_row_count c ->
  (forall i, i ∈ sel -> 0 <= i < config_row_count c) ->
  validate_weights (map (fun i => row_weights a !!! Z.to_nat i) sel) (Z.of_nat (length sel)) = Ok tt).
Context (row_sample : Z -> CachedSample).
Context (Hread : forall i, 0 <= i < config_row_count c ->
  load_planned_sample n0 (physical_indices a !!! Z.to_nat i) = Ok (row_sample i)).
Context (fresh : Z -> Z -> Z) (w : Z) (num_workers : Z -> Z) (batch threads : Z) (verbose persistent : bool).
Context (config_path : path) (pid : Z -> Z -> Z).
Context (Hthreads : 0 < threads <= U64_MAX) (Hw : 0 < w).
Context (Hin : forall r, 0 <= r < w ->
  plannable (config_row_count c) w (num_workers r) batch (config_row_count c) false None).

Let n := config_row_count c.
Let local := local_budget n w batch false.

Lemma epoch_table : 1 <= n <= 2 ^ 53.
Proof. destruct (Hin 0) as [? _ _ _ Hs _]; [lia|]. rewrite max_budget in Hs. unfold n. lia. Qed.

Lemma epoch_local : n <= local * w < n + w /\ 0 < local <= n.
Proof.
  pose proof epoch_table as Hn. destruct (Hin 0) as [_ _ _ ? _ _]; [lia|].
  destruct (local_budget_bounds n w batch false) as [H1 H2]; [lia..|]. fold local in H1, H2. nia.
Qed.

Definition plan_rows (p : WorkerPlan) : list Z := map (fun i => i mod n) (span_rows (plan_span p)).

Lemma sequential_selection offset len : 0 <= offset -> 0 < len <= n ->
  exists sel, population_selection None n offset len None = Ret sel /\
    default (seqZ 0 n) sel = map (fun i => i mod n) (seqZ offset len).
Proof.
  intros Ho Hl. pose proof epoch_table.
  assert (Hord : order_ok n (seqZ 0 n) (prepare_row_order (fun _ l => l) n 0)).
  { apply (prepare_row_order_ok (fun _ l => l)); [done|lia]. }
  destruct (population_selection_plan _ _ n offset len None ltac:(lia) Ho ltac:(lia) ltac:(lia) Hord)
    as (sel & E & Es).
  exists sel. split; [exact E|]. rewrite Es. simpl. apply cyclic_rows_map.
Qed.

Section Rank.
Context (r : Z) (plans : list WorkerPlan) (Hr : 0 <= r < w).
Context (Hpl : Planner.planned (fresh r) n r w (num_workers r) batch n Split false None false plans).

Let ad := rank_adapter T w threads verbose persistent config_path r plans.

Lemma plans_length : Z.of_nat (length plans) = Z.max 1 (num_workers r).
Proof.
  pose proof (pd_ids _ _ _ _ _ _ _ _ _ _ _ _ Hpl) as H. apply (f_equal length) in H.
  rewrite length_map, length_seqZ in H. lia.
Qed.

Lemma plan_at k : 0 <= k < Z.max 1 (num_workers r) ->
  exists p, plans !! Z.to_nat k = Some p /\ plan_worker_id p = k.
Proof.
  intros Hk. pose proof plans_length. destruct (lookup_lt_is_Some_2 plans (Z.to_nat k)) as [p Hp]; [lia|].
  exists p. split; [done|]. pose proof (pd_ids _ _ _ _ _ _ _ _ _ _ _ _ Hpl) as Hids.
  apply (f_equal (fun l => l !! Z.to_nat k)) in Hids. change (map ?f ?l) with (f <$> l) in Hids.
  rewrite list_lookup_fmap, Hp, lookup_seqZ_lt in Hids by lia. injection Hids as ->. lia.
Qed.

Lemma plan_fields p : p ∈ plans -> plan_rank p = r /\ plan_seed p = 0 /\ plan_partition_seed p = None /\
  plan_population_size p = plan_sample_count p /\ 0 <= plan_offset p /\ 0 <= plan_sample_count p <= n.
Proof.
  intros Hp. destruct Hpl as [_ Hs Hact Ht Hf _ HI]. rewrite Forall_forall in Hact, HI.
  destruct (HI p Hp) as (H1 & _ & H3 & H4), (Hact p Hp) as (Hc & _ & _). simpl in H4. injection H4 as H4.
  specialize (Ht eq_refl). destruct Ht as [Ht _]. specialize (Hf eq_refl eq_refl).
  pose proof epoch_local as [Hl1 Hl2].
  assert (Ho : 0 <= span_offset (row_span (effective_population n n local w) w r)).
  { apply row_span_offset; [|lia|lia]. unfold effective_population. rewrite Z.eqb_refl. nia. }
  split_and!; try done.
  - by apply (map_eq_elem _ _ plans).
  - apply tiles_offsets in Ht. rewrite Forall_forall in Ht.
    specialize (Ht (plan_span p) ltac:(by apply list_elem_of_fmap_2)). cbv [plan_span fst] in Ht. fold local in Ht. lia.
  - transitivity local; [|lia]. fold local in Hs. rewrite <- Hs. apply Zsum_elem_le.
    + apply Forall_map, Forall_forall. intros q Hq. apply (Hact q Hq).
    + by apply list_elem_of_fmap_2.
Qed.

Lemma rank_worker_plan k p : plans !! Z.to_nat k = Some p -> plan_worker_id p = k ->
  0 <= k < Z.max 1 (num_workers r) -> worker_plan (worker_identity (num_workers r) k) ad = Ret p.
Proof.
  intros Hp Hk Hrange. pose proof plans_length as HL. destruct (Hin r Hr) as [_ _ Hnw _ _ _].
  assert (HR : plan_rank p = r) by (apply plan_fields; by eapply list_elem_of_lookup_2).
  assert (E : exists count, match worker_identity (num_workers r) k with None => (0, 1) | Some i => i end = (k, count) /\
    count = Z.of_nat (length plans)).
  { unfold worker_identity. destruct (Z.eqb_spec (num_workers r) 0) as [E|E]; eexists; (split; [|symmetry]).
    - f_equal. lia.
    - lia.
    - done.
    - lia. }
  destruct E as (count & E & ->). unfold worker_plan. rewrite E.
  cbn [ad rank_adapter new_adapter ad_partitions ad_replica rank]. rewrite Z.eqb_refl. simpl.
  unfold index_at. destruct (Z.ltb_spec k 0); [lia|]. rewrite Hp. simpl. by rewrite HR, Hk, !Z.eqb_refl.
Qed.

Lemma consumer_pass_ok k p : plans !! Z.to_nat k = Some p -> plan_worker_id p = k ->
  0 <= k < Z.max 1 (num_workers r) ->
  consumer_pass T c t num_workers pid r k ad =
  Ret (map (fun i => inl (row_sample i)) (plan_rows p)).
Proof.
  intros Hp Hk Hrange. pose proof epoch_table as Hn.
  destruct (plan_fields p) as (H1 & H2 & H3 & H4 & H5 & H6); [by eapply list_elem_of_lookup_2|].
  pose proof (rank_worker_plan k p Hp Hk Hrange) as Hplan. unfold consumer_pass.
  destruct (Z.eqb_spec (plan_sample_count p) 0) as [E0|E0].
  - unfold run_pass. fold n. destruct (Z.leb_spec n 0); [lia|].
    unfold setup. cbn [ad rank_adapter new_adapter ad_state]. fold ad. rewrite Hplan, E0. simpl.
    unfold plan_rows, span_rows, plan_span. simpl. rewrite H4, E0, seqZ_nil by done. simpl.
    change (worker_plan _ (with_reader _ ad)) with (worker_plan (worker_identity (num_workers r) k) ad).
    rewrite Hplan. simpl. by destruct verbose.
  - destruct (sequential_selection (plan_offset p) (plan_sample_count p) H5 ltac:(lia)) as (sel & Es & Edef).
    destruct (consumer_first_pass c t n0 a Hload Hprefetch Hrows ltac:(fold n; lia) Ha weights_finite
      row_sample Hread (pid r k) (worker_identity (num_workers r) k) p ad (plan_rows p)) with (want := n)
      as (ad' & events & E); try done.
    + exists sel. fold n. rewrite H3, H4. split; [done|]. unfold plan_rows, span_rows, plan_span. simpl. by rewrite H4.
    + unfold plan_rows, span_rows, plan_span. simpl. rewrite length_map, length_seqZ, H4. lia.
    + fold n. lia.
    + intros i [j [-> _]]%list_elem_of_fmap. apply Z.mod_pos_bound. fold n. lia.
    + lia.
    + fold n. by rewrite E.
Qed.

Lemma rank_parts : traverse (fun k => consumer_pass T c t num_workers pid r k ad) (seqZ 0 (Z.max 1 (num_workers r))) =
  Ret (map (fun p => map (fun i => inl (row_sample i)) (plan_rows p)) plans).
Proof.
  pose proof plans_length as HL.
  rewrite (traverse_ret _ (fun k => match plans !! Z.to_nat k with
    | Some p => map (fun i => inl (row_sample i)) (plan_rows p) | None => [] end)).
  - f_equal. rewrite <- HL. apply list_eq. intros i.
    change (map ?f ?l) with (f <$> l). rewrite !list_lookup_fmap.
    destruct (decide (i < length plans)%nat) as [Hi|Hi].
    + rewrite lookup_seqZ_lt by lia. simpl. rewrite Z.add_0_l, Nat2Z.id.
      destruct (lookup_lt_is_Some_2 plans i Hi) as [p ->]. done.
    + rewrite lookup_seqZ_ge by lia. by rewrite lookup_ge_None_2 by lia.
  - intros k Hk%elem_of_seqZ. destruct (plan_at k ltac:(lia)) as (p & Hp & Hid). rewrite Hp.
    apply consumer_pass_ok; [done|done|lia].
Qed.
End Rank.

Lemma rank_epoch_ok r : 0 <= r < w ->
  rank_epoch T c t fresh w num_workers
    batch threads verbose persistent config_path pid r =
  Ret (map (fun i => inl (row_sample (i mod n))) (span_rows (span_pair (row_span (local * w) w r)))).
Proof.
  intros Hr. pose proof epoch_local as [_ Hloc]. unfold rank_epoch. fold n.
  destruct (prepare_partitions_ok (fresh r) n r w (num_workers r) batch n Split false None false (Hin r Hr) Hr)
    as (plans & ws & _ & -> & Hpl). simpl. rewrite (rank_parts r plans Hr Hpl). simpl. f_equal.
  destruct (pd_split _ _ _ _ _ _ _ _ _ _ _ _ Hpl eq_refl) as [Ht Hsum]. fold local in Ht, Hsum.
  specialize (Hsum ltac:(lia)). unfold effective_population in Ht, Hsum. rewrite Z.eqb_refl in Ht, Hsum.
  rewrite <- (map_map plan_span (fun s => map (fun i => inl (row_sample i)) (map (fun i => i mod n) (span_rows s)))).
  transitivity (map (fun i => @inl CachedSample T (row_sample (i mod n))) (concat (map span_rows (map plan_span plans)))).
  - rewrite concat_map. f_equal. rewrite (map_map span_rows). apply map_ext. intros s. by rewrite map_map.
  - f_equal. erewrite tiles_rows by exact Ht. cbv [span_rows span_pair fst snd]. rewrite <- Hsum, map_map. done.
Qed.

Lemma loader_epoch_ok :
  loader_epoch T c t fresh w num_workers
    batch threads verbose persistent config_path pid =
  Ret (map (fun i => inl (row_sample (i mod n))) (seqZ 0 (local * w))).
Proof.
  pose proof epoch_local. unfold loader_epoch.
  rewrite (traverse_ret _ (fun r => map (fun i => inl (row_sample (i mod n)))
    (span_rows (span_pair (row_span (local * w) w r))))).
  - simpl. f_equal. rewrite <- (map_map (fun r => span_rows (span_pair (row_span (local * w) w r)))
      (map (fun i => inl (row_sample (i mod n))))), <- concat_map.
    by rewrite row_span_rows by nia.
  - intros r Hr%elem_of_seqZ. apply rank_epoch_ok. lia.
Qed.
End Coverage.

Lemma zip_projections {A B} (l : list A) (k : list B) : length l = length k ->
  map fst (zip l k) = l /\ map snd (zip l k) = k.
Proof.
  revert k. induction l as [|x l IH]; intros [|y k] E; simpl in *; try discriminate; [done|].
  destruct (IH k ltac:(lia)) as [-> ->]. done.
Qed.

(** The row positions of a table padded to a multiple of the rank count. *)
Lemma padded_cycle n w l : 0 <= n -> 0 < w -> n <= l * w < n + w ->
  let rows := map (fun i => i mod n) (seqZ 0 (l * w)) in
  (forall i, 0 <= i < n -> i ∈ rows) /\ n <= Z.of_nat (length rows) < n + w /\
  ((w | n) -> rows = seqZ 0 n).
Proof.
  intros Hn Hw Hl rows. unfold rows. split_and!.
  - intros i Hi. apply list_elem_of_fmap. exists i. rewrite Z.mod_small by lia. split; [done|].
    apply elem_of_seqZ. lia.
  - rewrite length_map, length_seqZ. lia.
  - rewrite length_map, length_seqZ. lia.
  - intros [k Ek].
    assert (k <= l) by (apply (Z.mul_le_mono_pos_r _ _ w); lia).
    assert (l < k + 1) by (apply (Z.mul_lt_mono_pos_r w); lia).
    replace (l * w) with n by (replace l with k by lia; done).
    transitivity (map id (seqZ 0 n)); [|apply map_id].
    apply map_ext_elem. intros i Hi%elem_of_seqZ. unfold id. apply Z.mod_small. lia.
Qed.


#[local] Existing Instance demo_native.
#[local] Existing Instance demo_native_laws.

(** Two ranks share the four samples of the demonstration dataset; rank one uses a
    loading worker, rank zero loads in its main process. *)
Lemma demo_weights_finite sel : (forall i, i ∈ sel -> 0 <= i < 4) ->
  validate_weights (map (fun i => map snd (population (nat_state (cd_inner demo_dataset))) !!! Z.to_nat i) sel)
    (Z.of_nat (length sel)) = Ok tt.
Proof.
  intros Hr.
  replace (map snd (population (nat_state (cd_inner demo_dataset)))) with
    [Finite 1 1; Finite 1 1; Finite 1 1; Finite 1 1] by (vm_compute; reflexivity).
  rewrite (map_ext_elem _ (fun _ => Finite 1 1)).
  - unfold validate_weights. rewrite length_map, Z.eqb_refl, map_const_replicate. simpl. by apply validate_ones.
  - intros i Hi. specialize (Hr i Hi).
    assert (i = 0 \/ i = 1 \/ i = 2 \/ i = 3) as [->|[->|[->| ->]]] by lia; reflexivity.
Qed.

