(* ===== verification/Runtime.v ===== *)
(** [DatasetRuntime] of [src/dataset_rt/runtime.py]: conversion of native write
    results, the choice between serial and parallel writing, and the creation of a
    dataset from cache sources; and the legacy Torch view of
    [src/dataset_rt/integrations/torch.py]. *)
From stdpp Require Import base tactics list numbers strings gmap.
From S2P Require Import Prelude Records Config Seeds Native Metadata Interface Dataset Loader.
Open Scope Z_scope.

(** A native write result: status, source name, detail. *)
Abbreviation raw_result := (pystr * pystr * pystr)%type.

(** [path_of] is [Path(...)] of the reported directory. *)
Definition cache_write_result (path_of : pystr -> path) (r : raw_result) : outcome CacheWriteResult :=
  let '(status, source_name, detail) := r in
  if decide (status = lit "success") then Ret (CacheWriteSuccess source_name (path_of detail))
  else if decide (status = lit "error") then Ret (CacheWriteError source_name detail)
  else Raise (ValueError (lit "unknown cache write result status: " ++ status)).

Fixpoint successful_cache_paths (results : list CacheWriteResult) : list path :=
  match results with
  | [] => []
  | CacheWriteSuccess _ p :: rest => p :: successful_cache_paths rest
  | CacheWriteError _ _ :: rest => successful_cache_paths rest
  end.

(** The messages of the failed sources. *)
Fixpoint failure_messages (results : list CacheWriteResult) : list pystr :=
  match results with
  | [] => []
  | CacheWriteError name message :: rest => (name ++ lit ": " ++ message) :: failure_messages rest
  | CacheWriteSuccess _ _ :: rest => failure_messages rest
  end.

Definition format_cache_sources_dataset_error (results : list CacheWriteResult) : pystr :=
  match failure_messages results with
  | [] => lit "no cache sources were provided"
  | messages => lit "no caches were written: " ++ join_with (lit "; ") messages
  end.

Inductive CacheSourcesDatasetResult :=
| CacheSourcesDatasetSuccess (dataset : CachedDataset) (results : list CacheWriteResult)
| CacheSourcesDatasetError (results : list CacheWriteResult) (message : pystr).

Definition cache_sources_dataset_error (results : list CacheWriteResult) : CacheSourcesDatasetResult :=
  CacheSourcesDatasetError results (format_cache_sources_dataset_error results).

(** [_write_sources]: [serial] is the native [write_cache] call, [parallel] the
    supervised write of [writer.py]. *)
Definition write_sources (path_of : pystr -> path) (c : WriterConfig)
    (serial : outcome (list raw_result)) (parallel : outcome (list CacheWriteResult))
  : outcome (list CacheWriteResult) :=
  if (0 <? num_processes c) && negb (profiler_enabled (profiler c)) then parallel
  else results ← serial; traverse (cache_write_result path_of) results.

(** [write_cache]: existing caches are not reused; the two ways of writing by their
    [reuse_existing]. *)
Definition runtime_write_cache (path_of : pystr -> path) (c : WriterConfig)
    (serial : bool -> outcome (list raw_result)) (parallel : bool -> outcome (list CacheWriteResult))
  : outcome (list CacheWriteResult) :=
  write_sources path_of c (serial false) (parallel false).

(** [DatasetRuntime(num_workers=...)] keeps the requested count and the native pool. *)
Record DatasetRuntime := mk_runtime { runtime_num_workers : Z }.

Definition new_runtime (num_workers : Z) : outcome DatasetRuntime :=
  n ← native_runtime num_workers; Ret (mk_runtime n).

Section Runtime.
Context {N : NativeReader}.

Definition cached_dataset (r : DatasetRuntime) (paths : list path) (c : ReaderConfig) : outcome CachedDataset :=
  cached_dataset_load (runtime_num_workers r) paths c.

(** [from_cache_sources] after the sources were written or reused. *)
Definition from_cache_sources (r : DatasetRuntime) (reader : ReaderConfig)
    (written : outcome (list CacheWriteResult)) : outcome CacheSourcesDatasetResult :=
  results ← written;
  match successful_cache_paths results with
  | [] => Ret (cache_sources_dataset_error results)
  | paths => d ← cached_dataset r paths reader; Ret (CacheSourcesDatasetSuccess d results)
  end.
End Runtime.

(** [to_torch_iterable_dataset]: the view holds the dataset itself; [import] is the import
    of the Torch module. *)
Record torch_view := mk_torch_view { view_dataset : CachedDataset }.

Definition ImportError (msg : pystr) : py_exc := OtherException (lit "ImportError") msg.

Definition to_torch_iterable_dataset (import : outcome unit) (d : CachedDataset) : outcome torch_view :=
  match import with
  | Ret _ => Ret (mk_torch_view d)
  | Raise (OtherException kind msg as e) =>
      if bool_decide (kind = lit "ImportError" \/ kind = lit "ModuleNotFoundError")
      then Raise (ImportError (lit "CachedDataset.to_torch_iterable_dataset requires PyTorch to be installed"))
      else Raise e
  | Raise e => Raise e
  end.

(** The legacy Torch view iterates only outside of loading workers. *)
Definition torch_iter (info : worker_info) : outcome generator :=
  match info with
  | Some _ => Raise (RuntimeError (lit "Use Dataloader with num workers = 0. Use DatasetRuntime(num_workers=N) for parallel cache reads."))
  | None => Ret GenNew
  end.
Definition torch_len (d : CachedDataset) : Z := dataset_len d.

(** * Properties *)

Definition succeeded (r : CacheWriteResult) : Prop :=
  match r with CacheWriteSuccess _ _ => True | CacheWriteError _ _ => False end.

Definition result_path (r : CacheWriteResult) : option path :=
  match r with CacheWriteSuccess _ p => Some p | CacheWriteError _ _ => None end.

Lemma successful_omap results : successful_cache_paths results = omap result_path results.
Proof. induction results as [|[n p|n m] results IH]; simpl; [done|by rewrite IH|done]. Qed.

Lemma no_success results : successful_cache_paths results = [] <-> Forall (fun r => ~ succeeded r) results.
Proof.
  induction results as [|[n p|n m] results IH]; simpl.
  - by split; [constructor|].
  - split; [discriminate|]. intros [H _]%Forall_cons. by destruct H.
  - rewrite IH, Forall_cons. simpl. tauto.
Qed.

Lemma some_success results : successful_cache_paths results <> [] -> Exists succeeded results.
Proof.
  induction results as [|[n p|n m] results IH]; simpl; [done|by left|]. intros H. right. by apply IH.
Qed.

(** Creating a dataset from sources keeps what succeeded: with at least one
    written or reused cache the dataset is loaded from exactly the successful
    caches in source order, all per-source results are returned with it, and its
    recipe names those directories; without any, the result is an error that
    carries every per-source result and describes each failure. *)
Theorem from_cache_sources_keeps_successes
    {N : NativeReader}
    (r : DatasetRuntime) (reader : ReaderConfig) (results : list CacheWriteResult)
    (x : CacheSourcesDatasetResult)
    (Hx : from_cache_sources r reader (Ret results) = Ret x) :
  match x with
  | CacheSourcesDatasetSuccess d kept =>
      kept = results /\ Exists succeeded results /\
      cd_cache_paths d = omap result_path results /\
      recipe_cache_paths (cd_recipe d) = map resolve (omap result_path results) /\
      load_caches (reader_validate_cache reader) 0 (omap result_path results) =
        Ok (nat_caches (cd_inner d))
  | CacheSourcesDatasetError kept message =>
      kept = results /\ Forall (fun s => ~ succeeded s) results /\
      (results = [] -> message = lit "no cache sources were provided") /\
      (results <> [] -> message = lit "no caches were written: " ++ join_with (lit "; ") (failure_messages results))
  end.
Proof.
  unfold from_cache_sources in Hx. simpl in Hx.
  destruct (successful_cache_paths results) as [|p ps] eqn:E.
  - injection Hx as <-. simpl. pose proof (proj1 (no_success results) E) as Hn.
    split_and!; [done|done|by intros ->|]. unfold format_cache_sources_dataset_error.
    destruct results as [|[n p|n m] rest]; [done|by apply Forall_cons in Hn as [[] _]|done].
  - apply bind_ret in Hx as (d & Hd & [= <-]). rewrite <- successful_omap.
    apply cached_dataset_load_ok in Hd as (_ & _ & Hn & Ed). rewrite Ed. simpl.
    apply load_native_ok in Hn as (Hl & _). rewrite E. split_and!; try done.
    apply some_success. by rewrite E.
Qed.

#[local] Existing Instance demo_native.

Lemma from_cache_sources_keeps_successes_witness :
  match from_cache_sources (mk_runtime 2) demo_reader
          (Ret [CacheWriteError (lit "b") (lit "disk full"); CacheWriteSuccess (lit "a") [lit "a"]]) with
  | Ret (CacheSourcesDatasetSuccess d kept) => cd_cache_paths d = [[lit "a"]]
  | _ => False
  end.
Proof.
  destruct (from_cache_sources (mk_runtime 2) demo_reader
    (Ret [CacheWriteError (lit "b") (lit "disk full"); CacheWriteSuccess (lit "a") [lit "a"]])) as [x|e] eqn:E;
    [|discriminate E].
  pose proof (from_cache_sources_keeps_successes (mk_runtime 2) demo_reader _ x E) as H.
  destruct x as [d kept|kept m]; [apply H|]. destruct H as (_ & H & _).
  apply Forall_cons in H as [_ [H _]%Forall_cons]. apply H. exact I.
Defined.
