(* ===== verification/Manifest.v ===== *)
(** The versioned manifest of a cache directory
    ([src/src/dataset_rt/storage/manifest.rs]): its three versions, the upgrade of a
    legacy manifest to a persistent identity, and the dispatch of its reader at the
    untyped JSON boundary. The JSON library and the generated conversions of the typed
    fields are the class [ManifestFormat]. *)
From stdpp Require Import base tactics list numbers strings gmap.
From S2P Require Import Prelude Collections Records Config Seeds Native Metadata.
Open Scope Z_scope.

(** * Manifest records *)

Record ShardManifest := mk_shard {
  shard_name : pystr;
  shard_uncompressed_byte_len : Z;
  shard_byte_len : Z;
  shard_compression_of : NativeCompression;
  shard_sha256 : pystr }.

(** [ManifestFields]: the storage fields of every version, with the application's own
    extensions. *)
Record ManifestFields (Value : Type) := mk_fields {
  mf_source_name : pystr;
  mf_sample_count : Z;
  mf_metadata_schema : list (pystr * MetadataKind);
  mf_metadata_sha256 : pystr;
  mf_index_sha256 : pystr;
  mf_shards : list ShardManifest;
  mf_extra : gmap pystr Value }.
Arguments mk_fields {Value}.
Arguments mf_source_name {Value}.
Arguments mf_sample_count {Value}.
Arguments mf_metadata_schema {Value}.
Arguments mf_metadata_sha256 {Value}.
Arguments mf_index_sha256 {Value}.
Arguments mf_shards {Value}.
Arguments mf_extra {Value}.

Inductive Manifest (Value : Type) :=
| V2 (fields : ManifestFields Value)
| V3 (cache_id : Z) (fields : ManifestFields Value)
| V4 (cache_id : Z) (fields : ManifestFields Value).
Arguments V2 {Value}.
Arguments V3 {Value}.
Arguments V4 {Value}.

(** The JSON library and the generated field conversions: numbers, the typed fields in
    declaration order, and the text of an object given by its entries. *)
Class ManifestFormat := {
  Value : Type;
  value_eq_dec : EqDecision Value;
  number : Z -> Value;
  as_u64 : Value -> option Z;
  field_values : ManifestFields Value -> list Value;
  fields_from : list Value -> gmap pystr Value -> result (ManifestFields Value) pystr;
  print_object : list (pystr * Value) -> list Z;
  parse_object : list Z -> result (list (pystr * Value)) pystr }.
#[export] Existing Instance value_eq_dec.

Definition field_names : list pystr :=
  [lit "source_name"; lit "sample_count"; lit "metadata_schema"; lit "metadata_sha256";
   lit "index_sha256"; lit "shards"].

(** The text of an object reads back as its entries, numbers as themselves, the typed
    fields as themselves, and the extensions are kept as they are. *)
Class ManifestFormatLaws (J : ManifestFormat) : Prop := {
  parse_print : forall entries, parse_object (print_object entries) = Ok entries;
  as_u64_number : forall z, is_u64 z -> as_u64 (number z) = Some z;
  as_u64_range : forall v z, as_u64 v = Some z -> is_u64 z;
  field_values_length : forall f, length (field_values f) = length field_names;
  fields_from_values : forall f, fields_from (field_values f) (mf_extra f) = Ok f;
  fields_from_extra : forall vs extra f, fields_from vs extra = Ok f -> mf_extra f = extra }.

Section Manifest.
Context {J : ManifestFormat}.

(** [fields()], [whole_record()] and [resolve_cache_id(position)]. *)
Definition fields (m : Manifest Value) : ManifestFields Value :=
  match m with V2 f | V3 _ f | V4 _ f => f end.

Definition manifest_whole_record (m : Manifest Value) : bool :=
  match m with V4 _ _ => true | _ => false end.

Definition resolve_cache_id (m : Manifest Value) (position : Z) : Z :=
  match m with V2 _ => position | V3 id _ | V4 id _ => id end.

(** [into_v3(cache_id)]. *)
Definition without_extra (name : pystr) (f : ManifestFields Value) : ManifestFields Value :=
  mk_fields (mf_source_name f) (mf_sample_count f) (mf_metadata_schema f) (mf_metadata_sha256 f)
    (mf_index_sha256 f) (mf_shards f) (delete name (mf_extra f)).

Definition into_v3 (cache_id : Z) (m : Manifest Value) : Manifest Value :=
  match m with
  | V2 f => V3 cache_id (without_extra (lit "cache_id") f)
  | V3 id f => V3 id f
  | V4 id f => V4 id f
  end.

(** * Serialization *)

(** The entries of the flattened fields; extensions are kept in key order. *)
Definition entry_leb (a b : pystr * Value) : bool := str_leb a.1 b.1.

Definition fields_entries (f : ManifestFields Value) : list (pystr * Value) :=
  zip field_names (field_values f) ++ sort_by entry_leb (map_to_list (mf_extra f)).

Definition FORMAT_VERSION : Z := 4.

Definition serialize (m : Manifest Value) : list (pystr * Value) :=
  match m with
  | V2 f => (lit "format_version", number 2) :: fields_entries f
  | V3 id f => (lit "format_version", number 3) :: (lit "cache_id", number id) :: fields_entries f
  | V4 id f =>
      (lit "format_version", number FORMAT_VERSION) :: (lit "cache_id", number id) :: fields_entries f
  end.

(** [unique_fields]. *)
Fixpoint unique_fields_from (fields : gmap pystr Value) (entries : list (pystr * Value))
  : result (gmap pystr Value) pystr :=
  match entries with
  | [] => Ok fields
  | (name, value) :: rest =>
      match fields !! name with
      | Some _ => Err (lit "duplicate manifest field " ++ name)
      | None => unique_fields_from (<[name := value]> fields) rest
      end
  end.

Definition unique_fields := unique_fields_from ∅.

(** The flattened [ManifestFields] of an object: every typed field must be there, the
    other entries are extensions. *)
Fixpoint typed_values (body : gmap pystr Value) (names : list pystr) : result (list Value) pystr :=
  match names with
  | [] => Ok []
  | name :: rest =>
      match body !! name with
      | None => Err (lit "missing field `" ++ name ++ lit "`")
      | Some v => match typed_values body rest with Ok vs => Ok (v :: vs) | Err e => Err e end
      end
  end.

Definition remove_names (names : list pystr) (body : gmap pystr Value) : gmap pystr Value :=
  foldr delete body names.

Definition fields_of (body : gmap pystr Value) : result (ManifestFields Value) pystr :=
  match typed_values body field_names with
  | Err e => Err e
  | Ok vs => fields_from vs (remove_names field_names body)
  end.

(** [ManifestV3] of an object. *)
Definition identified_fields (body : gmap pystr Value) : result (Z * ManifestFields Value) pystr :=
  match body !! lit "cache_id" with
  | None => Err (lit "missing field `cache_id`")
  | Some v =>
      match as_u64 v with
      | None => Err (lit "invalid type: expected u64")
      | Some id =>
          match fields_of (delete (lit "cache_id") body) with
          | Ok f => Ok (id, f)
          | Err e => Err e
          end
      end
  end.

(** Compression of every shard has the scope of the version. *)
Definition scope_agrees (m : Manifest Value) : bool :=
  forallb (fun s => Bool.eqb (whole_record (shard_compression_of s)) (manifest_whole_record m))
    (mf_shards (fields m)).

Definition versioned (version : Z) (body : gmap pystr Value) : result (Manifest Value) pystr :=
  if version =? 2 then match fields_of body with Ok f => Ok (V2 f) | Err e => Err e end
  else if version =? 3
  then match identified_fields body with Ok (id, f) => Ok (V3 id f) | Err e => Err e end
  else if version =? 4
  then match identified_fields body with Ok (id, f) => Ok (V4 id f) | Err e => Err e end
  else Err (lit "unsupported format version " ++ dec version).

Definition deserialize (entries : list (pystr * Value)) : result (Manifest Value) pystr :=
  match unique_fields entries with
  | Err e => Err e
  | Ok object =>
      match object !! lit "format_version" ≫= as_u64 with
      | None => Err (lit "manifest requires integer format_version")
      | Some version =>
          match versioned version (delete (lit "format_version") object) with
          | Err e => Err e
          | Ok m =>
              if scope_agrees m then Ok m
              else Err (lit "compression scope disagrees with manifest format version")
          end
      end
  end.

(** [serde_json::to_writer_pretty] and [serde_json::from_slice] of a manifest. *)
Definition encode (m : Manifest Value) : list Z := print_object (serialize m).

Definition decode (bytes : list Z) : result (Manifest Value) CacheError :=
  match parse_object bytes with
  | Err e => Err (JsonError e)
  | Ok entries => match deserialize entries with Ok m => Ok m | Err e => Err (JsonError e) end
  end.

(** [serde_json::to_value] of the fields. *)
Definition fields_json (f : ManifestFields Value) : gmap pystr Value := list_to_map (fields_entries f).
End Manifest.

(** * Reading back what was written *)

Section Laws.
Context {J : ManifestFormat} {L : ManifestFormatLaws J}.

(** The names an extension cannot have. *)
Definition reserved_names (m : Manifest Value) : list pystr :=
  lit "format_version" ::
  match m with V2 _ => field_names | V3 _ _ | V4 _ _ => lit "cache_id" :: field_names end.

(** What reading a manifest guarantees. *)
Record manifest_wf (m : Manifest Value) : Prop := {
  wf_scope : scope_agrees m = true;
  wf_extra : forall name, name ∈ reserved_names m -> mf_extra (fields m) !! name = None;
  wf_identity : match m with V2 _ => True | V3 id _ | V4 id _ => is_u64 id end }.

Lemma lookup_remove_names (names : list pystr) (body : gmap pystr Value) (name : pystr) :
  remove_names names body !! name = if decide (name ∈ names) then None else body !! name.
Proof.
  induction names as [|n names IH]; simpl; [done|].
  destruct (decide (name = n)) as [->|Hn].
  - rewrite lookup_delete_eq. rewrite decide_True; [done|]. by left.
  - rewrite lookup_delete_ne by done. rewrite IH.
    destruct (decide (name ∈ names)), (decide (name ∈ n :: names)) as [Hi|Hi]; try done.
    + destruct Hi. by right.
    + apply elem_of_cons in Hi. by destruct Hi.
Qed.

Lemma typed_values_lookup body names vs :
  Forall2 (fun name v => body !! name = Some v) names vs -> typed_values body names = Ok vs.
Proof. induction 1 as [|n v names vs Hn _ IH]; simpl; [done|]. by rewrite Hn, IH. Qed.

Lemma unique_fields_from_ok entries : forall acc : gmap pystr Value,
  NoDup entries.*1 -> (forall name, name ∈ entries.*1 -> acc !! name = None) ->
  unique_fields_from acc entries = Ok (list_to_map entries ∪ acc).
Proof.
  induction entries as [|[name v] entries IH]; intros acc Hnd Hacc; simpl in *.
  - by rewrite (left_id_L ∅ (∪)).
  - apply NoDup_cons in Hnd as [Hname Hnd].
    rewrite Hacc by left. rewrite IH; [|done|].
    + f_equal. rewrite <- insert_union_l, insert_union_r; [done|]. by apply not_elem_of_list_to_map_1.
    + intros other Ho. rewrite lookup_insert_ne; [apply Hacc; by right|]. by intros ->.
Qed.

Lemma unique_fields_ok entries : NoDup entries.*1 -> unique_fields entries = Ok (list_to_map entries).
Proof.
  intros Hnd. unfold unique_fields. rewrite unique_fields_from_ok; [|done|intros; apply lookup_empty].
  by rewrite (right_id_L ∅ (∪)).
Qed.

Lemma field_names_nodup : NoDup (lit "format_version" :: lit "cache_id" :: field_names).
Proof. apply (bool_decide_unpack _). vm_compute. done. Qed.

Lemma typed_names f : (zip field_names (field_values f)).*1 = field_names.
Proof. apply fst_zip. by rewrite field_values_length. Qed.

Lemma extension_map (extra : gmap pystr Value) :
  list_to_map (sort_by entry_leb (map_to_list extra)) = extra.
Proof.
  rewrite <- (list_to_map_to_list extra) at 2. apply list_to_map_proper; [|apply sort_by_perm].
  rewrite sort_by_perm. apply NoDup_fst_map_to_list.
Qed.

Lemma fields_entries_names f name :
  name ∈ (fields_entries f).*1 <-> name ∈ field_names \/ is_Some (mf_extra f !! name).
Proof.
  unfold fields_entries. rewrite fmap_app, typed_names, elem_of_app, sort_by_perm.
  split; (intros [Hn|Hn]; [by left|right]).
  - apply list_elem_of_fmap in Hn as ([k v] & -> & He). apply elem_of_map_to_list in He. by exists v.
  - destruct Hn as [v Hv]. apply elem_of_map_to_list in Hv. by apply (list_elem_of_fmap_2 fst) in Hv.
Qed.

Lemma fields_entries_nodup f :
  (forall name, name ∈ field_names -> mf_extra f !! name = None) -> NoDup (fields_entries f).*1.
Proof.
  intros Hf. unfold fields_entries. rewrite fmap_app, typed_names, sort_by_perm.
  pose proof field_names_nodup as Hn. apply NoDup_cons in Hn as [_ Hn]. apply NoDup_cons in Hn as [_ Hn].
  apply NoDup_app. split; [done|]. split; [|apply NoDup_fst_map_to_list].
  intros name Hname He. apply list_elem_of_fmap in He as ([k v] & -> & He).
  apply elem_of_map_to_list in He. simpl in *. by rewrite (Hf k Hname) in He.
Qed.

(** The flattened fields read back as themselves. *)
Lemma fields_of_entries f :
  (forall name, name ∈ field_names -> mf_extra f !! name = None) ->
  fields_of (list_to_map (fields_entries f)) = Ok f.
Proof.
  intros Hf. pose proof field_names_nodup as Hn. apply NoDup_cons in Hn as [_ Hn].
  apply NoDup_cons in Hn as [_ Hn]. pose proof (field_values_length f) as Hlen.
  unfold fields_of. erewrite typed_values_lookup.
  2:{ apply Forall2_same_length_lookup_2; [by rewrite Hlen|]. intros i name v Hi Hv.
      apply elem_of_list_to_map_1; [by apply fields_entries_nodup|].
      unfold fields_entries. apply elem_of_app. left. apply list_elem_of_lookup. exists i.
      apply lookup_zip_with_Some. by exists name, v. }
  rewrite <- (fields_from_values f). f_equal. apply map_eq. intros name.
  rewrite lookup_remove_names. destruct (decide (name ∈ field_names)) as [Hin|Hin].
  - symmetry. by apply Hf.
  - unfold fields_entries. rewrite list_to_map_app, lookup_union_r, extension_map; [done|].
    apply not_elem_of_list_to_map_1. by rewrite typed_names.
Qed.

(** ** Well-formed manifests read back *)

Lemma extension_absent m name :
  manifest_wf m -> name ∈ reserved_names m -> name ∉ field_names -> name ∉ (fields_entries (fields m)).*1.
Proof.
  intros Hm Hr Hn. rewrite fields_entries_names. intros [H|[v H]]; [done|].
  by rewrite (wf_extra m Hm) in H.
Qed.

Lemma typed_reserved m name : name ∈ field_names -> name ∈ reserved_names m.
Proof. intros H. right. destruct m; [done|right; done..]. Qed.

Lemma special_names : lit "format_version" ∉ field_names /\ lit "cache_id" ∉ field_names /\
  lit "format_version" <> lit "cache_id".
Proof.
  pose proof field_names_nodup as H. apply NoDup_cons in H as [H1 H]. apply NoDup_cons in H as [H2 _].
  split; [|split]; [|done|]; intros He; apply H1; [by right|rewrite He; by left].
Qed.

Lemma wf_fields_of m : manifest_wf m -> fields_of (list_to_map (fields_entries (fields m))) = Ok (fields m).
Proof. intros Hm. apply fields_of_entries. intros name Hn. by apply (wf_extra m Hm), typed_reserved. Qed.

Lemma identified_fields_ok m id : manifest_wf m -> is_u64 id ->
  lit "cache_id" ∈ reserved_names m ->
  identified_fields (list_to_map ((lit "cache_id", number id) :: fields_entries (fields m))) = Ok (id, fields m).
Proof.
  intros Hm Hid Hr. destruct special_names as (_ & Hc & _). unfold identified_fields. simpl.
  rewrite lookup_insert_eq, as_u64_number by done. rewrite delete_insert_id.
  - by rewrite wf_fields_of.
  - apply not_elem_of_list_to_map_1. by apply extension_absent.
Qed.

(** The object of a well-formed manifest: its names are distinct, so its reader
    takes the version and is left with the body. *)
Lemma deserialize_versioned version body m :
  NoDup (lit "format_version" :: body.*1) -> is_u64 version ->
  versioned version (list_to_map body) = Ok m -> scope_agrees m = true ->
  deserialize ((lit "format_version", number version) :: body) = Ok m.
Proof.
  intros Hnd Hv Hm Hs. unfold deserialize. rewrite unique_fields_ok by done. simpl.
  rewrite lookup_insert_eq. simpl. rewrite as_u64_number by done.
  apply NoDup_cons in Hnd as [Hn _]. rewrite delete_insert_id by by apply not_elem_of_list_to_map_1.
  by rewrite Hm, Hs.
Qed.

Lemma serialize_reads_back m : manifest_wf m -> deserialize (serialize m) = Ok m.
Proof.
  intros Hm. destruct special_names as (Hv & Hc & Hvc).
  assert (NoDup (fields_entries (fields m)).*1) as Hnd
    by (apply fields_entries_nodup; intros; by apply (wf_extra m Hm), typed_reserved).
  pose proof (extension_absent m (lit "format_version") Hm ltac:(by left) Hv) as Hfv.
  pose proof (wf_scope m Hm) as Hs. pose proof (wf_identity m Hm) as Hid.
  destruct m as [f|id f|id f]; simpl in *; apply deserialize_versioned; try done.
  - by apply NoDup_cons.
  - unfold versioned. cbn [Z.eqb Pos.eqb]. pose proof (wf_fields_of (V2 f) Hm) as E. cbn [fields] in E. by rewrite E.
  - simpl. apply NoDup_cons. split; [|apply NoDup_cons; split; [|done]].
    + by apply not_elem_of_cons.
    + apply (extension_absent (V3 id f)); [done|right; left|done].
  - unfold versioned. cbn [Z.eqb Pos.eqb FORMAT_VERSION].
    pose proof (identified_fields_ok (V3 id f) id Hm Hid ltac:(right; left)) as E. cbn [fields] in E. by rewrite E.
  - simpl. apply NoDup_cons. split; [|apply NoDup_cons; split; [|done]].
    + by apply not_elem_of_cons.
    + apply (extension_absent (V4 id f)); [done|right; left|done].
  - unfold versioned. cbn [Z.eqb Pos.eqb FORMAT_VERSION].
    pose proof (identified_fields_ok (V4 id f) id Hm Hid ltac:(right; left)) as E. cbn [fields] in E. by rewrite E.
Qed.

(** ** What is read is well-formed *)

Lemma fields_of_extra body f name :
  fields_of body = Ok f -> name ∈ field_names \/ body !! name = None -> mf_extra f !! name = None.
Proof.
  unfold fields_of. intros Hf Hn. destruct (typed_values _ _) as [vs|e]; [|done].
  rewrite (fields_from_extra _ _ _ Hf), lookup_remove_names.
  destruct (decide (name ∈ field_names)); [done|]. by destruct Hn.
Qed.

Lemma identified_fields_wf body id f : identified_fields body = Ok (id, f) ->
  is_u64 id /\ fields_of (delete (lit "cache_id") body) = Ok f.
Proof.
  unfold identified_fields. destruct (body !! _) as [v|]; [|done].
  destruct (as_u64 v) as [z|] eqn:Hz; [|done]. destruct (fields_of _) as [g|] eqn:Hg; [|done].
  intros [= <- <-]. split; [|done]. by eapply as_u64_range.
Qed.

Lemma deserialize_wf entries m : deserialize entries = Ok m -> manifest_wf m.
Proof.
  unfold deserialize. destruct (unique_fields entries) as [object|]; [|done].
  destruct (_ ≫= _) as [version|]; [|done]. set (body := delete _ object).
  assert (body !! lit "format_version" = None) as Hb by apply lookup_delete_eq.
  destruct (versioned version body) as [m'|] eqn:Hm; [|done].
  destruct (scope_agrees m') eqn:Hs; [|done]. intros [= <-].
  assert (forall id f name, identified_fields body = Ok (id, f) ->
    name ∈ lit "format_version" :: lit "cache_id" :: field_names -> mf_extra f !! name = None) as Hid.
  { intros id f name Hf Hn. apply identified_fields_wf in Hf as [_ Hf]. eapply fields_of_extra; [done|].
    apply elem_of_cons in Hn as [->|Hn].
    - right. by rewrite lookup_delete_ne by (by intros ?; apply special_names).
    - apply elem_of_cons in Hn as [->|Hn]; [right; apply lookup_delete_eq|by left]. }
  unfold versioned in Hm. repeat case_match; try done; simplify_eq; (split; [done|simpl|simpl; try done]).
  - intros name Hn. eapply fields_of_extra; [done|]. apply elem_of_cons in Hn as [->|Hn]; [by right|by left].
  - intros name Hn. by eapply Hid.
  - by eapply identified_fields_wf.
  - intros name Hn. by eapply Hid.
  - by eapply identified_fields_wf.
Qed.

Lemma into_v3_wf id m : manifest_wf m -> is_u64 id -> manifest_wf (into_v3 id m).
Proof.
  intros [Hs He Hi] Hid. destruct m as [f|z f|z f]; try done. split; simpl; [done| |done].
  intros name Hn. apply elem_of_cons in Hn as [->|Hn].
  - rewrite lookup_delete_ne by (intros H; symmetry in H; by apply special_names in H). apply He. by left.
  - apply elem_of_cons in Hn as [->|Hn]; [apply lookup_delete_eq|].
    rewrite lookup_delete_ne by (intros <-; by apply special_names in Hn). apply He. by right.
Qed.

Lemma decode_wf bytes m : decode bytes = Ok m -> manifest_wf m.
Proof.
  unfold decode. destruct (parse_object bytes) as [entries|]; [|done].
  destruct (deserialize entries) eqn:Hd; [|done]. intros [= <-]. by eapply deserialize_wf.
Qed.

Lemma decode_encode m : manifest_wf m -> decode (encode m) = Ok m.
Proof. intros Hm. unfold decode, encode. by rewrite parse_print, serialize_reads_back. Qed.
End Laws.


(** ** A concrete format *)

(** Values are numbers or typed fields; an object's text is the number of its entries. *)
#[export] Instance algo_countable : Countable CompressionAlgo.
Proof.
  apply (inj_countable'
    (fun a => match a with AlgoNone => None | AlgoLz4 => Some true | AlgoBrotli => Some false end)
    (fun x => match x with None => AlgoNone | Some true => AlgoLz4 | Some false => AlgoBrotli end)).
  by intros [].
Defined.
#[export] Instance NativeCompression_eq_dec : EqDecision NativeCompression.
Proof. solve_decision. Defined.
#[export] Instance NativeCompression_countable : Countable NativeCompression.
Proof.
  apply (inj_countable'
    (fun c => match c with
              | NativeNone => inl None | NativeLz4Fast a => inl (Some (inl a))
              | NativeLz4HC l => inl (Some (inr (inl l))) | NativeBrotli l => inl (Some (inr (inr l)))
              | NativeLegacy a r => inr (a, r) end)
    (fun x => match x with
              | inl None => NativeNone | inl (Some (inl a)) => NativeLz4Fast a
              | inl (Some (inr (inl l))) => NativeLz4HC l | inl (Some (inr (inr l))) => NativeBrotli l
              | inr (a, r) => NativeLegacy a r end)).
  by intros [].
Defined.
#[export] Instance ShardManifest_eq_dec : EqDecision ShardManifest.
Proof. solve_decision. Defined.
#[export] Instance ShardManifest_countable : Countable ShardManifest.
Proof.
  apply (inj_countable'
    (fun s => (shard_name s, shard_uncompressed_byte_len s, shard_byte_len s, shard_compression_of s, shard_sha256 s))
    (fun '(n, u, b, c, h) => mk_shard n u b c h)).
  by intros [].
Defined.
#[export] Instance MetadataKind_countable : Countable MetadataKind.
Proof.
  apply (inj_countable'
    (fun k => match k with KindBool => (true, true) | KindInt => (true, false)
              | KindFloat => (false, true) | KindString => (false, false) end)
    (fun '(a, b) => if a then (if b then KindBool else KindInt) else if b then KindFloat else KindString)).
  by intros [].
Defined.

Abbreviation demo_value := (Z + (pystr + (list (pystr * MetadataKind) + list ShardManifest)))%type.

Definition demo_format : ManifestFormat := {|
  Value := demo_value;
  number := inl;
  as_u64 := fun v => match v with
                     | inl z => if bool_decide (is_u64 z) then Some z else None
                     | inr _ => None
                     end;
  field_values := fun f =>
    [inr (inl (mf_source_name f)); inl (mf_sample_count f); inr (inr (inl (mf_metadata_schema f)));
     inr (inl (mf_metadata_sha256 f)); inr (inl (mf_index_sha256 f)); inr (inr (inr (mf_shards f)))];
  fields_from := fun vs extra =>
    match vs with
    | [inr (inl n); inl c; inr (inr (inl schema)); inr (inl m); inr (inl i); inr (inr (inr shards))] =>
        Ok (mk_fields n c schema m i shards extra)
    | _ => Err (lit "invalid type")
    end;
  print_object := fun entries => [Zpos (countable.encode entries)];
  parse_object := fun bytes =>
    match bytes with
    | [Zpos p] => match countable.decode p with Some entries => Ok entries | None => Err (lit "expected value") end
    | _ => Err (lit "expected value")
    end |}.

Lemma demo_format_laws : ManifestFormatLaws demo_format.
Proof.
  split; simpl.
  - intros entries. by rewrite countable.decode_encode.
  - intros z Hz. by rewrite bool_decide_true.
  - intros [z|v] z' H; [|done]. destruct (bool_decide (is_u64 z)) eqn:E; simplify_eq. by apply bool_decide_eq_true in E.
  - done.
  - by intros [].
  - intros vs extra f H. by repeat case_match; simplify_eq.
Qed.

(** A legacy manifest with one shard and an extension that has the reserved name. *)
Definition demo_fields : ManifestFields (@Value demo_format) :=
  mk_fields (lit "a") 2 [(lit "label", KindInt)] (lit "m") (lit "i")
    [mk_shard (lit "s") 10 9 (NativeLegacy AlgoLz4 (Finite 1 1)) (lit "h")]
    {[ lit "cache_id" := inl 9; lit "note" := inl 5 ]}.

