(* ===== verification/CacheStore.v ===== *)
(** Cache directories ([src/src/dataset_rt/storage.rs]): the builder that writes one
    ([CacheBuilder], [OpenShard]), the loader that opens one ([load_cache] and its
    checks), the bounded cache of shard readers, and the reading of one sample. *)
From stdpp Require Import base tactics list numbers strings gmap.
From S2P Require Import Prelude Collections Records Binary64 Config Seeds Native Metadata.
From S2P Require Import Manifest FileSystem RecordCodec IndexFile MetadataFile.
Open Scope Z_scope.

(** SHA-256, the hexadecimal text of a digest, and how many of the last bytes a buffered
    writer still holds when it is dropped. *)
Class Hashing := {
  sha256 : list Z -> list Z;
  hex_encode : list Z -> pystr;
  still_buffered : list Z -> nat }.

(** The capacity of a buffered writer is 8 KiB. *)
Class HashingLaws (H : Hashing) : Prop := {
  still_buffered_small : forall bytes, byte_count bytes <= 8192 -> still_buffered bytes = length bytes }.

(** [path.display()]. *)
Definition display_path (p : path) : pystr := lit "/" ++ join_with (lit "/") p.

(** * Identities and names *)

(** [format!("{id:06}.bin")]. *)
Definition pad6 (id : Z) : pystr := replicate (6 - length (dec id)) 48 ++ dec id.
Definition shard_file_name (id : Z) : pystr := pad6 id ++ lit ".bin".

Definition shard_path (p : path) (name : pystr) : path := p ++ [lit "shards"; name].

(** [u64::from_be_bytes] of a prefix. *)
Definition from_be_bytes (b : list Z) : Z := from_le_bytes (reverse b).

Definition I64_MAX : Z := 2 ^ 63 - 1.

(** The first eight bytes of a digest, padded with zeros if there were fewer. *)
Definition digest_prefix (digest : list Z) : list Z := take 8 (digest ++ replicate 8 0).

(** The UTF-8 bytes of a name. *)
Definition utf8_bytes (c : Z) : list Z :=
  if c <? 0x80 then [c]
  else if c <? 0x800 then [Z.lor 0xC0 (Z.shiftr c 6); Z.lor 0x80 (Z.land c 0x3F)]
  else if c <? 0x10000
  then [Z.lor 0xE0 (Z.shiftr c 12); Z.lor 0x80 (Z.land (Z.shiftr c 6) 0x3F); Z.lor 0x80 (Z.land c 0x3F)]
  else [Z.lor 0xF0 (Z.shiftr c 18); Z.lor 0x80 (Z.land (Z.shiftr c 12) 0x3F);
        Z.lor 0x80 (Z.land (Z.shiftr c 6) 0x3F); Z.lor 0x80 (Z.land c 0x3F)].
Definition as_bytes (s : pystr) : list Z := concat (map utf8_bytes s).

Definition cache_id_from_name {H : Hashing} (name : pystr) : Z :=
  Z.land (from_be_bytes (digest_prefix (sha256 (as_bytes name)))) I64_MAX.

(** * Builder *)

(** [OpenShard]: its writer and its hasher by the bytes they were given. *)
Record OpenShard := mk_open_shard {
  os_id : Z;
  os_name : pystr;
  os_written : list Z;
  os_byte_len : Z;
  os_uncompressed_byte_len : Z;
  os_hashed : list Z }.

Record CacheBuilder := mk_builder {
  cb_path : path;
  cb_source_name : pystr;
  cb_max_shard_bytes : Z;
  cb_schema : schema_of_cache;
  cb_metadata_rows : list (list MetadataValue);
  cb_index : list IndexEntry;
  cb_shards : list ShardManifest;
  cb_shard_compression : NativeCompression;
  cb_current_shard : OpenShard }.

(** [PushSampleStats] without its timers. *)
Record PushSampleStats := mk_push_stats { ps_uncompressed_bytes : Z; ps_stored_bytes : Z }.

Section Store.
Context {J : ManifestFormat} {H : Hashing} {C : NativeCodecs} {R : RecordJson} {F : ArrowFiles}.

(** [hash_file]. *)
Definition digest_text (bytes : list Z) : pystr := hex_encode (sha256 bytes).
Definition hash_file (p : path) : io pystr := bytes ← read_file p; mret (digest_text bytes).

(** [OpenShard::create]. *)
Definition open_shard_create (cache_path : path) (id : Z) : io OpenShard :=
  let name := shard_file_name id in
  _ ← create_file (shard_path cache_path name);
  mret (mk_open_shard id name [] 0 0 []).

(** [OpenShard::write_payload]. *)
Definition write_payload (data : list Z) (uncompressed_byte_len : Z) (s : OpenShard)
  : CacheResult (IndexEntry * OpenShard) :=
  byte_len ← ok_or (checked_add (os_byte_len s) (byte_count data))
               (InvalidInput (lit "shard byte length overflowed u64"));
  uncompressed ← ok_or (checked_add (os_uncompressed_byte_len s) uncompressed_byte_len)
                   (InvalidInput (lit "shard uncompressed byte length overflowed u64"));
  Ok (mk_index_entry (os_id s) (os_byte_len s) (byte_count data),
      mk_open_shard (os_id s) (os_name s) (os_written s ++ data) byte_len uncompressed (os_hashed s ++ data)).

(** [OpenShard::finish]: the bytes reach the file by this flush at the latest. *)
Definition open_shard_finish (cache_path : path) (c : NativeCompression) (s : OpenShard) : io ShardManifest :=
  _ ← append_file (shard_path cache_path (os_name s)) (os_written s);
  mret (mk_shard (os_name s) (os_uncompressed_byte_len s) (os_byte_len s) c (digest_text (os_hashed s))).

(** [CacheBuilder::create]. *)
Definition builder_create (p : path) (source_name : pystr) (max_shard_bytes : Z) (c : NativeCompression)
  : io CacheBuilder :=
  present ← exists_path p;
  if (present : bool)
  then io_result (Err (InvalidInput (lit "cache path already exists: " ++ display_path p)))
  else
    _ ← create_dir_all (p ++ [lit "shards"]);
    shard ← open_shard_create p 0;
    mret (mk_builder p source_name max_shard_bytes [] [] [] [] c shard).

(** [validate_metadata]: the first nonempty metadata fixes the schema. *)
Definition schema_from (metadata : gmap pystr MetadataValue) : schema_of_cache :=
  map (fun e => (e.1, value_kind e.2)) (btree_entries metadata).

Definition expected_field (metadata : gmap pystr MetadataValue) (field : pystr * MetadataKind)
  : CacheResult MetadataValue :=
  match metadata !! field.1 with
  | Some value =>
      if decide (value_kind value = field.2) then Ok value
      else Err (InvalidInput (lit "metadata field '" ++ field.1 ++ lit "' expected " ++
                              kind_name field.2 ++ lit ", got " ++ kind_name (value_kind value)))
  | None => Err (InvalidInput (lit "metadata field '" ++ field.1 ++ lit "' is missing"))
  end.

Definition schema_after (schema : schema_of_cache) (metadata : gmap pystr MetadataValue) : schema_of_cache :=
  match schema with [] => schema_from metadata | _ => schema end.

Definition validate_metadata (metadata : gmap pystr MetadataValue) (schema : schema_of_cache)
  : CacheResult (list MetadataValue * schema_of_cache) :=
  let schema := schema_after schema metadata in
  if negb (size metadata =? length schema)%nat
  then Err (InvalidInput (lit "metadata keys must be identical for every sample"))
  else row ← try_collect (expected_field metadata) schema; Ok (row, schema).

Definition with_shards (b : CacheBuilder) (shards : list ShardManifest) (current : OpenShard) : CacheBuilder :=
  mk_builder (cb_path b) (cb_source_name b) (cb_max_shard_bytes b) (cb_schema b) (cb_metadata_rows b)
    (cb_index b) shards (cb_shard_compression b) current.

(** [rotate_shard_if_needed]: a record that does not fit the rest of a nonempty shard
    starts the next one. *)
Definition rotate_shard_if_needed (next_payload_len : Z) (b : CacheBuilder) : io CacheBuilder :=
  let current := cb_current_shard b in
  if os_byte_len current =? 0 then mret b
  else if next_payload_len <=? Z.max 0 (cb_max_shard_bytes b - os_byte_len current) then mret b
  else
    next_id ← io_result (ok_or (checked_add (os_id current) 1) (InvalidInput (lit "shard id overflowed u64")));
    opened ← open_shard_create (cb_path b) next_id;
    closed ← open_shard_finish (cb_path b) (cb_shard_compression b) current;
    mret (with_shards b (cb_shards b ++ [closed]) opened).

(** [push_sample]. *)
Definition push_sample (data : list Z) (metadata : gmap pystr MetadataValue) (b : CacheBuilder)
  : io (PushSampleStats * CacheBuilder) :=
  '(row, schema) ← io_result (validate_metadata metadata (cb_schema b));
  record ← io_result (encode_stored_record data schema row (cb_shard_compression b));
  let stored := encoded_bytes record in
  b ← rotate_shard_if_needed (byte_count stored) b;
  '(entry, shard) ← io_result (write_payload stored (encoded_uncompressed_len record) (cb_current_shard b));
  mret (mk_push_stats (encoded_uncompressed_len record) (byte_count stored),
        mk_builder (cb_path b) (cb_source_name b) (cb_max_shard_bytes b) schema
          (cb_metadata_rows b ++ [row]) (cb_index b ++ [entry]) (cb_shards b) (cb_shard_compression b) shard).

(** Samples pushed one after the other. *)
Fixpoint push_all (samples : list (list Z * gmap pystr MetadataValue)) (b : CacheBuilder) : io CacheBuilder :=
  match samples with
  | [] => mret b
  | (data, metadata) :: rest => '(_, b) ← push_sample data metadata b; push_all rest b
  end.

(** [write_metadata_file]. *)
Definition write_metadata_file (p : path) (schema : schema_of_cache) (rows : list (list MetadataValue)) : io pystr :=
  let file := path_join p (lit "metadata.arrow") in
  _ ← create_file file;
  bytes ← io_result (match metadata_file_bytes schema rows with Some r => r | None => Err WorkerFailed end);
  _ ← append_file file bytes;
  hash_file file.

(** [write_index_file]. *)
Definition write_index_file (p : path) (index : list IndexEntry) : io pystr :=
  let file := path_join p (lit "index.bin") in
  _ ← create_file file;
  _ ← append_file file (index_bytes index);
  hash_file file.

(** [write_manifest]: its buffered writer is dropped without a flush of its own, so a
    failure to write its last bytes is not reported. *)
Definition write_manifest (p : path) (m : Manifest Value) : io unit :=
  let file := path_join p (lit "manifest.json") in
  let bytes := encode m in
  let flushed := (length bytes - still_buffered bytes)%nat in
  _ ← create_file file;
  _ ← append_file file (take flushed bytes);
  _ ← attempt (append_file file (drop flushed bytes));
  mret tt.

Definition builder_manifest (b : CacheBuilder) (shards : list ShardManifest) (metadata_sha256 index_sha256 : pystr)
  : Manifest Value :=
  let id := cache_id_from_name (cb_source_name b) in
  let fields := mk_fields (cb_source_name b) (Z.of_nat (length (cb_index b))) (cb_schema b)
                  metadata_sha256 index_sha256 shards ∅ in
  if whole_record (cb_shard_compression b) then V4 id fields else V3 id fields.

(** [finish]: the manifest comes last. *)
Definition builder_finish (b : CacheBuilder) : io (Manifest Value) :=
  if bool_decide (cb_index b = [])
  then io_result (Err (InvalidInput (lit "cache source yielded no samples")))
  else
    final_shard ← open_shard_finish (cb_path b) (cb_shard_compression b) (cb_current_shard b);
    metadata_sha256 ← write_metadata_file (cb_path b) (cb_schema b) (cb_metadata_rows b);
    index_sha256 ← write_index_file (cb_path b) (cb_index b);
    let manifest := builder_manifest b (cb_shards b ++ [final_shard]) metadata_sha256 index_sha256 in
    _ ← write_manifest (cb_path b) manifest;
    mret manifest.

(** A whole source: create, push every sample, finish. *)
Definition write_samples (p : path) (source_name : pystr) (max_shard_bytes : Z) (c : NativeCompression)
    (samples : list (list Z * gmap pystr MetadataValue)) : io (Manifest Value) :=
  b ← builder_create p source_name max_shard_bytes c;
  b ← push_all samples b;
  builder_finish b.

(** * Loader *)

(** [LoadedCache] of [storage.rs]. *)
Record OpenCache := mk_open_cache {
  oc_cache_id : Z;
  oc_manifest : Manifest Value;
  oc_metadata_rows : option (list (list MetadataValue));
  oc_index : MappedIndex;
  oc_path : path;
  oc_validate_embedded_metadata : bool }.

(** [read_manifest]. *)
Definition read_manifest (p : path) : io (Manifest Value) :=
  let file := path_join p (lit "manifest.json") in
  present ← exists_path file;
  if negb present
  then io_result (Err (InvalidCache (lit "missing manifest: " ++ display_path file)))
  else bytes ← read_file file; io_result (decode bytes).

(** [verify_file_checksum]. *)
Definition verify_file_checksum (p : path) (expected : pystr) : io unit :=
  actual ← hash_file p;
  io_result (ensure (bool_decide (actual = expected)) (InvalidCache (lit "checksum mismatch for " ++ display_path p))).

(** [verify_shards]. *)
Fixpoint verify_shards (p : path) (shards : list ShardManifest) (validate_cache : bool) : io unit :=
  match shards with
  | [] => mret tt
  | shard :: rest =>
      let file := shard_path p (shard_name shard) in
      len ← metadata_len file;
      _ ← io_result (ensure (len =? shard_byte_len shard)
                       (InvalidCache (lit "shard length mismatch for " ++ display_path file)));
      _ ← (if validate_cache then verify_file_checksum file (shard_sha256 shard) else mret tt);
      verify_shards p rest validate_cache
  end.

(** [validate_loaded_shapes]. *)
Fixpoint check_entries (shards : list ShardManifest) (entries : list (CacheResult IndexEntry)) : CacheResult unit :=
  match entries with
  | [] => Ok tt
  | entry :: rest =>
      entry ← entry;
      match shards !! Z.to_nat (ix_shard_id entry) with
      | None => Err (InvalidCache (lit "index references missing shard " ++ dec (ix_shard_id entry)))
      | Some _ => check_entries shards rest
      end
  end.

Definition validate_loaded_shapes (f : ManifestFields Value) (rows : option (list (list MetadataValue)))
    (index : MappedIndex) : CacheResult unit :=
  _ ← match rows with
      | Some rows => ensure (Z.of_nat (length rows) =? mf_sample_count f)
                       (InvalidCache (lit "metadata row count does not match manifest"))
      | None => Ok tt
      end;
  _ ← ensure (index_len index =? mf_sample_count f) (InvalidCache (lit "index row count does not match manifest"));
  check_entries (mf_shards f) (index_iter index).

(** [load_cache]. *)
Definition load_cache (p : path) (validate_cache : bool) (position : Z) : io OpenCache :=
  manifest ← read_manifest p;
  let cache_id := resolve_cache_id manifest position in
  let f := fields manifest in
  let metadata_path := path_join p (lit "metadata.arrow") in
  let index_path := path_join p (lit "index.bin") in
  _ ← (if validate_cache
       then _ ← verify_file_checksum metadata_path (mf_metadata_sha256 f);
            verify_file_checksum index_path (mf_index_sha256 f)
       else mret tt);
  _ ← verify_shards p (mf_shards f) validate_cache;
  index_file ← read_file index_path;
  index ← io_result (mapped_index index_file);
  rows ← (if validate_cache
          then bytes ← read_file metadata_path;
               rows ← io_result (read_metadata_bytes bytes (mf_metadata_schema f)); mret (Some rows)
          else _ ← metadata_len metadata_path; mret None);
  _ ← io_result (validate_loaded_shapes f rows index);
  mret (mk_open_cache cache_id manifest rows index p validate_cache).

(** * Shard readers *)

(** [ShardReaderCache]: an open reader by the bytes of its immutable file. *)
Record ShardReaderCache := mk_readers {
  rc_readers : gmap path (list Z);
  rc_recent_paths : list path;
  rc_max_readers : nat }.

Definition MAX_CACHED_SHARD_READERS : nat := 64.
Definition new_readers : ShardReaderCache := mk_readers ∅ [] MAX_CACHED_SHARD_READERS.

Definition mark_recent (p : path) (rc : ShardReaderCache) : ShardReaderCache :=
  mk_readers (rc_readers rc) (filter (fun q => q <> p) (rc_recent_paths rc) ++ [p]) (rc_max_readers rc).

(** [evict_if_full]: one path leaves the queue in each round. *)
Fixpoint evict_if_full (recent : list path) (readers : gmap path (list Z)) (max_readers : nat) : ShardReaderCache :=
  if (size readers <? max_readers)%nat then mk_readers readers recent max_readers
  else match recent with
       | [] => mk_readers readers [] max_readers
       | p :: recent => evict_if_full recent (delete p readers) max_readers
       end.

(** [open_reader] and [reader_for]; the cache keeps its changes when the open fails. *)
Definition open_reader (p : path) (rc : ShardReaderCache) : io (CacheResult unit * ShardReaderCache) :=
  let rc := evict_if_full (rc_recent_paths rc) (rc_readers rc) (rc_max_readers rc) in
  opened ← attempt (read_file p);
  match opened with
  | Err e => mret (Err e, rc)
  | Ok bytes => mret (Ok tt, mk_readers (<[p := bytes]> (rc_readers rc)) (rc_recent_paths rc ++ [p]) (rc_max_readers rc))
  end.

Definition reader_mut (p : path) (rc : ShardReaderCache) : CacheResult (list Z) :=
  ok_or (rc_readers rc !! p) (InvalidCache (lit "shard reader is unavailable")).

Definition reader_for (p : path) (rc : ShardReaderCache) : io (CacheResult (list Z) * ShardReaderCache) :=
  if bool_decide (is_Some (rc_readers rc !! p))
  then let rc := mark_recent p rc in mret (reader_mut p rc, rc)
  else
    '(opened, rc) ← open_reader p rc;
    mret (_ ← opened; reader_mut p rc, rc).

(** * Samples *)

(** What [read_sample_with_cache] checks before it asks for a reader: the entry, its
    shard and the end of its record. *)
Definition locate_record (c : OpenCache) (sample_index : Z) : CacheResult (IndexEntry * ShardManifest * Z) :=
  entry ← index_get (oc_index c) sample_index;
  shard ← ok_or (mf_shards (fields (oc_manifest c)) !! Z.to_nat (ix_shard_id entry))
            (InvalidCache (lit "shard id " ++ dec (ix_shard_id entry) ++ lit " is out of range"));
  stop ← ok_or (checked_add (ix_offset entry) (ix_byte_len entry))
           (InvalidCache (lit "record offset and length overflowed u64"));
  Ok (entry, shard, stop).

(** The part behind the reader: bounds, allocation, [read_exact] and decoding. *)
Definition read_record (c : OpenCache) (entry : IndexEntry) (shard : ShardManifest) (stop : Z) (reader : list Z)
  : CacheResult (list Z * list MetadataValue) :=
  if shard_byte_len shard <? stop then Err (InvalidCache (lit "record extends beyond shard length"))
  else match reserve (ix_byte_len entry) with
       | Some error => Err (InvalidCache (lit "cannot allocate record of " ++ dec (ix_byte_len entry) ++
                                          lit " bytes: " ++ error))
       | None =>
           record ← ok_or (get_range reader (ix_offset entry) stop) (IoError (lit "failed to fill whole buffer"));
           decode_stored_record record (manifest_whole_record (oc_manifest c))
             (mf_metadata_schema (fields (oc_manifest c))) (shard_compression_of shard)
             (shard_uncompressed_byte_len shard)
       end.

(** [with_metadata_rows]: rows that were not loaded with the cache are read now. *)
Definition metadata_rows_of (c : OpenCache) : io (CacheResult (list (list MetadataValue))) :=
  match oc_metadata_rows c with
  | Some rows => mret (Ok rows)
  | None =>
      attempt (bytes ← read_file (path_join (oc_path c) (lit "metadata.arrow"));
               io_result (read_metadata_bytes bytes (mf_metadata_schema (fields (oc_manifest c)))))
  end.

Definition check_embedded (c : OpenCache) (sample_index : Z) (rows : CacheResult (list (list MetadataValue)))
    (sample : list Z * list MetadataValue) : CacheResult (list Z * list MetadataValue) :=
  rows ← rows;
  metadata ← ok_or (rows !! Z.to_nat sample_index)
               (InvalidCache (lit "metadata row " ++ dec sample_index ++ lit " is out of range"));
  _ ← validate_redundant_metadata metadata sample.2 sample_index;
  Ok sample.

(** [read_sample_with_cache]. *)
Definition read_sample_with_cache (c : OpenCache) (sample_index : Z) (readers : ShardReaderCache)
  : io (CacheResult (list Z * list MetadataValue) * ShardReaderCache) :=
  match locate_record c sample_index with
  | Err e => mret (Err e, readers)
  | Ok (entry, shard, stop) =>
      '(reader, readers) ← reader_for (shard_path (oc_path c) (shard_name shard)) readers;
      let sample := reader ← reader; read_record c entry shard stop reader in
      match sample with
      | Ok sample =>
          if oc_validate_embedded_metadata c
          then rows ← metadata_rows_of c; mret (check_embedded c sample_index rows sample, readers)
          else mret (Ok sample, readers)
      | Err e => mret (Err e, readers)
      end
  end.
End Store.
