(* ===== verification/ReaderCache.v ===== *)
(** The bounded cache of shard readers ([ShardReaderCache] of
    [src/src/dataset_rt/storage.rs]) refines a recency stack: whatever is asked of it, it
    holds the most recently used paths, at most its budget of file handles, and gives the
    bytes of the file asked for. *)
From stdpp Require Import base tactics list numbers strings gmap.
From S2P Require Import Prelude Collections Records Native FileSystem CacheStore.
Open Scope Z_scope.

(** * The specification *)

(** Paths in the order of their last use. *)
Definition touch (stack : list path) (p : path) : list path := filter (fun q => q <> p) stack ++ [p].
Definition recency (uses : list path) : list path := fold_left touch uses [].

(** The last [n] elements. *)
Definition last_n {A : Type} (n : nat) (l : list A) : list A := drop (length l - n) l.

Lemma last_n_all {A : Type} n (l : list A) : (length l <= n)%nat -> last_n n l = l.
Proof. intros. unfold last_n. by replace (length l - n)%nat with 0%nat by lia. Qed.

Lemma last_n_snoc {A : Type} n (l : list A) x : last_n (S n) (l ++ [x]) = last_n n l ++ [x].
Proof.
  unfold last_n. rewrite length_app. simpl. rewrite drop_app_le by lia. do 2 f_equal. lia.
Qed.

Lemma last_n_split {A : Type} n (l : list A) : l = take (length l - n) l ++ last_n n l.
Proof. unfold last_n. by rewrite take_drop. Qed.

Lemma filter_ne_notin (p : path) (l : list path) : p ∉ l -> filter (fun q => q <> p) l = l.
Proof.
  intros Hp. induction l as [|q l IH]; [done|]. apply not_elem_of_cons in Hp as [H1 H2].
  rewrite filter_cons_True by done. by rewrite IH.
Qed.

Lemma length_filter_ne (p : path) (l : list path) : NoDup l -> p ∈ l ->
  length (filter (fun q => q <> p) l) = (length l - 1)%nat.
Proof.
  intros Hn Hp. apply list_elem_of_split in Hp as (l1 & l2 & ->). apply NoDup_app in Hn as (_ & H1 & H2).
  apply NoDup_cons in H2 as [H2 _]. rewrite filter_app, filter_cons_False by (by intros []).
  rewrite !filter_ne_notin; [rewrite !length_app; simpl; lia|done|].
  intros Hin. apply (H1 p Hin). left.
Qed.

Lemma touch_nodup stack p : NoDup stack -> NoDup (touch stack p).
Proof.
  intros Hn. unfold touch. apply NoDup_app. split_and!; [by apply NoDup_filter| |by apply NoDup_singleton].
  intros q Hq ->%list_elem_of_singleton. by apply list_elem_of_filter in Hq as [Hq _].
Qed.

(** The last [n] of a touched stack. *)
Lemma last_n_touch n stack p : NoDup stack ->
  last_n (S n) (touch stack p) =
  if decide (p ∈ last_n (S n) stack) then touch (last_n (S n) stack) p
  else last_n n (last_n (S n) stack) ++ [p].
Proof.
  intros Hnd. unfold touch at 1. rewrite last_n_snoc. set (L := last_n (S n) stack).
  set (low := take (length stack - S n) stack). assert (E : stack = low ++ L) by apply last_n_split.
  assert (HL : (length L <= S n)%nat) by (unfold L, last_n; rewrite length_drop; lia).
  assert (Hlow : low = [] \/ length L = S n).
  { unfold low, L, last_n. destruct (decide (length stack <= S n)%nat).
    - left. by replace (length stack - S n)%nat with 0%nat by lia.
    - right. rewrite length_drop. lia. }
  rewrite E in Hnd. apply NoDup_app in Hnd as (Hn1 & Hn2 & Hn3). case_decide as Hp.
  - unfold touch. f_equal. rewrite E, filter_app, (filter_ne_notin p low) by (intros Hq; by apply (Hn2 p)).
    pose proof (length_filter_ne p L Hn3 Hp) as Hlen. unfold last_n. rewrite length_app, Hlen.
    destruct Hlow as [->|Hl]; [simpl; by replace (length L - 1 - n)%nat with 0%nat by lia|].
    rewrite drop_app_ge by lia. by replace (length low + (length L - 1) - n - length low)%nat with 0%nat by lia.
  - f_equal. rewrite E at 1. rewrite filter_app, (filter_ne_notin p L) by done.
    unfold last_n. rewrite length_app. destruct Hlow as [->|Hl].
    + done.
    + rewrite drop_app_ge by lia. f_equal. lia.
Qed.

(** * The cache *)

(** Paths in use and open readers are the same, within the budget, and every reader is
    the file it was opened for. *)
Record readers_ok (rc : ShardReaderCache) (s : store) : Prop := {
  ro_max : (0 < rc_max_readers rc)%nat;
  ro_nodup : NoDup (rc_recent_paths rc);
  ro_same : forall p, is_Some (rc_readers rc !! p) <-> p ∈ rc_recent_paths rc;
  ro_budget : (length (rc_recent_paths rc) <= rc_max_readers rc)%nat;
  ro_bytes : forall p bytes, rc_readers rc !! p = Some bytes -> s !! p = Some (RegularFile bytes) }.

Lemma readers_size rc s : readers_ok rc s -> size (rc_readers rc) = length (rc_recent_paths rc).
Proof.
  intros [_ Hn Hs _ _]. rewrite <- size_dom. replace (dom (rc_readers rc)) with (list_to_set (C := gset path) (rc_recent_paths rc)).
  - by apply size_list_to_set.
  - apply set_eq. intros p. by rewrite elem_of_dom, elem_of_list_to_set, Hs.
Qed.

Lemma new_readers_ok s : readers_ok new_readers s.
Proof.
  split; simpl; [unfold MAX_CACHED_SHARD_READERS; lia|constructor| |lia|done].
  intros p. rewrite lookup_empty. split; [by intros []|by intros ?%elem_of_nil].
Qed.

(** Before a reader is opened at most one leaves, the least recently used one. *)
Lemma evict_ok rc s : readers_ok rc s ->
  exists rc', evict_if_full (rc_recent_paths rc) (rc_readers rc) (rc_max_readers rc) = rc' /\
    readers_ok rc' s /\ rc_max_readers rc' = rc_max_readers rc /\
    rc_recent_paths rc' = last_n (rc_max_readers rc - 1) (rc_recent_paths rc) /\
    forall p, rc_readers rc !! p = None -> rc_readers rc' !! p = None.
Proof.
  intros Hok. pose proof (readers_size _ _ Hok) as Hsize. destruct Hok as [Hm Hn Hs Hb Hf].
  eexists. split; [done|]. destruct rc as [readers recent max]. simpl in *.
  destruct (Nat.ltb_spec (size readers) max) as [Hlt|Hge].
  - assert (evict_if_full recent readers max = mk_readers readers recent max) as ->.
    { destruct recent; simpl; (destruct (Nat.ltb_spec (size readers) max); [done|lia]). }
    simpl. rewrite last_n_all by lia. split_and!; try done.
  - destruct recent as [|p recent]; [simpl in *; lia|]. simpl in Hsize, Hb. simpl evict_if_full.
    destruct (Nat.ltb_spec (size readers) max); [lia|]. apply NoDup_cons in Hn as [Hp Hn].
    destruct (proj2 (Hs p) ltac:(left)) as [bytes Hbytes].
    assert (Hsz : size (delete p readers) = length recent).
    { rewrite map_size_delete, Hbytes. simpl. lia. }
    assert (evict_if_full recent (delete p readers) max = mk_readers (delete p readers) recent max) as ->.
    { destruct recent; simpl; (destruct (Nat.ltb_spec (size (delete p readers)) max); [done|simpl in *; lia]). }
    simpl. split_and!; try done.
    + split; simpl; try done; [|lia|].
      * intros q. destruct (decide (q = p)) as [->|Hq].
        -- rewrite lookup_delete_eq. split; [by intros []|done].
        -- rewrite lookup_delete_ne by done. rewrite Hs, elem_of_cons. naive_solver.
      * intros q b Hq. apply lookup_delete_Some in Hq as [_ Hq]. by apply Hf.
    + unfold last_n. simpl. replace (S (length recent) - (max - 1))%nat with 1%nat by lia. done.
    + intros q Hq. apply lookup_delete_None. by right.
Qed.

(** One use of a file that is there: the reader comes back with its bytes, and the cache
    follows the recency stack. *)
Lemma reader_for_ok rel p bytes rc s (X : CacheError -> store -> Prop) :
  readers_ok rc s -> s !! p = Some (RegularFile bytes) ->
  runs rel s (reader_for p rc)
    (fun r s' => s' = s /\ readers_ok r.2 s /\ rc_max_readers r.2 = rc_max_readers rc /\
       (r.1 = Ok bytes /\
        rc_recent_paths r.2 =
          (if decide (p ∈ rc_recent_paths rc) then touch (rc_recent_paths rc) p
           else last_n (rc_max_readers rc - 1) (rc_recent_paths rc) ++ [p]) \/
        rel = false)) X.
Proof.
  intros Hok Hp. pose proof Hok as [Hm Hn Hs Hb Hf]. unfold reader_for.
  case_bool_decide as Hin.
  - apply runs_ret. destruct Hin as [b' Hb']. pose proof (Hf _ _ Hb') as E. rewrite Hp in E. injection E as <-.
    assert (Hmem : p ∈ rc_recent_paths rc) by (apply Hs; eauto). simpl. split_and!; [done| |done|].
    + split; simpl; try done.
      * by apply touch_nodup.
      * intros q. rewrite Hs. unfold touch. rewrite elem_of_app, list_elem_of_filter, list_elem_of_singleton.
        destruct (decide (q = p)) as [->|]; naive_solver.
      * rewrite length_app, length_filter_ne by done. simpl. lia.
    + left. split; [|by rewrite decide_True]. unfold reader_mut. simpl. by rewrite Hb'.
  - destruct (evict_ok rc s Hok) as (rc' & E & Hok' & Hmax & Hrec & Hno).
    assert (Hout : p ∉ rc_recent_paths rc) by (by rewrite <- Hs).
    assert (Hnone : rc_readers rc' !! p = None) by (apply Hno; by apply eq_None_not_Some).
    apply runs_bind. unfold open_reader. rewrite E. apply runs_bind, runs_attempt.
    apply (runs_read_file _ _ _ bytes); [done|..].
    + intros Hr e. apply runs_ret. apply runs_ret. simpl. split_and!; try done. by right.
    + apply runs_ret. apply runs_ret. simpl. destruct Hok' as [Hm' Hn' Hs' Hb' Hf'].
      assert (Hout' : p ∉ rc_recent_paths rc') by (rewrite <- Hs', Hnone; by intros []).
      split_and!; [done| |done|].
      * split; simpl; try done.
        -- apply NoDup_app. split_and!; [done| |by apply NoDup_singleton].
           intros q Hq ->%list_elem_of_singleton. done.
        -- intros q. rewrite elem_of_app, list_elem_of_singleton, <- Hs'. destruct (decide (q = p)) as [->|].
           ++ rewrite lookup_insert_eq. split; [by right|by eexists].
           ++ rewrite lookup_insert_ne by done. naive_solver.
        -- rewrite length_app, Hrec. unfold last_n. rewrite length_drop. simpl. lia.
        -- intros q b. destruct (decide (p = q)) as [<-|]; [rewrite lookup_insert_eq; congruence|].
           rewrite lookup_insert_ne by done. apply Hf'.
      * left. split; [|by rewrite decide_False by done; rewrite Hrec]. unfold reader_mut. simpl.
        by rewrite lookup_insert_eq.
Qed.

(** * Any sequence of uses *)

Fixpoint use_all (uses : list path) (rc : ShardReaderCache)
  : io (list (CacheResult (list Z)) * ShardReaderCache) :=
  match uses with
  | [] => mret ([], rc)
  | p :: rest =>
      '(reader, rc) ← reader_for p rc;
      '(readers, rc) ← use_all rest rc;
      mret (reader :: readers, rc)
  end.

Lemma recency_nodup uses : forall stack, NoDup stack -> NoDup (fold_left touch uses stack).
Proof. induction uses as [|p uses IH]; intros stack Hn; simpl; [done|]. by apply IH, touch_nodup. Qed.

Lemma use_all_ok rel uses : forall contents rc stack s,
  readers_ok rc s -> NoDup stack ->
  Forall2 (fun p bytes => s !! p = Some (RegularFile bytes)) uses contents ->
  (rel = true -> rc_recent_paths rc = last_n (rc_max_readers rc) stack) ->
  runs rel s (use_all uses rc)
    (fun r s' => s' = s /\ readers_ok r.2 s /\ rc_max_readers r.2 = rc_max_readers rc /\
       (rel = true -> r.1 = map Ok contents /\
          rc_recent_paths r.2 = last_n (rc_max_readers rc) (fold_left touch uses stack)))
    (fun _ _ => False).
Proof.
  induction uses as [|p uses IH]; intros contents rc stack s Hok Hnd Hfiles Hrec.
  - inversion Hfiles; subst. apply runs_ret. simpl. split_and!; [done..|]. intros Hr. split; [done|by apply Hrec].
  - inversion Hfiles as [|? bytes ? rest Hp Hrest]; subst. cbn [use_all]. apply runs_bind.
    eapply runs_weaken; [apply (reader_for_ok rel p bytes rc s (fun _ _ => False)); done| |done].
    intros [reader rc1] s1 (-> & Hok1 & Hmax & Hres). simpl in *. apply runs_bind.
    eapply runs_weaken; [apply (IH rest rc1 (touch stack p)); [done|by apply touch_nodup|done|]| |done].
    + intros Hr. destruct Hres as [[_ E]|Hf]; [|congruence]. rewrite E, Hmax, (Hrec Hr).
      pose proof (ro_max _ _ Hok) as H0. destruct (rc_max_readers rc) as [|n]; [lia|]. rewrite last_n_touch by done.
      by replace (S n - 1)%nat with n by lia.
    + intros [readers rc2] s2 (-> & Hok2 & Hmax2 & Hres2). simpl in *. apply runs_ret. simpl.
      split_and!; [done|done|by rewrite Hmax2|]. intros Hr. destruct Hres as [[-> _]|Hf]; [|congruence].
      destruct (Hres2 Hr) as [-> ->]. by rewrite Hmax.
Qed.

(** C24. The cache of shard readers is a least-recently-used cache of 64 file handles: after
    any sequence of uses its readers are those of the 64 most recently used paths, in the
    order of their last use, and every use gets the bytes of its file; even when opening
    files fails at arbitrary points it never holds more than 64 readers, and the queue of
    paths and the map of readers never disagree. *)
Theorem reader_cache_lru (d : disk) (uses : list path) (contents : list (list Z))
    (Hfiles : Forall2 (fun p bytes => d_store d !! p = Some (RegularFile bytes)) uses contents) :
  exists results rc d', use_all uses new_readers d = (Ok (results, rc), d') /\ d_store d' = d_store d /\
    (size (rc_readers rc) <= 64)%nat /\
    (forall p, is_Some (rc_readers rc !! p) <-> p ∈ rc_recent_paths rc) /\
    (reliable d -> results = map Ok contents /\ rc_recent_paths rc = last_n 64 (recency uses)).
Proof.
  assert (Hrun : forall rel, (rel = true -> reliable d) -> exists results rc d',
    use_all uses new_readers d = (Ok (results, rc), d') /\ d_store d' = d_store d /\ readers_ok rc (d_store d) /\
    rc_max_readers rc = 64%nat /\
    (rel = true -> results = map Ok contents /\ rc_recent_paths rc = last_n 64 (recency uses))).
  { intros rel Hrel. pose proof (use_all_ok rel uses contents new_readers [] (d_store d) (new_readers_ok _)
      (NoDup_nil_2) Hfiles ltac:(done) d eq_refl Hrel) as H.
    destruct (use_all uses new_readers d) as [[[results rc]|e] d']; [|by destruct H].
    destruct H as [(Hs & Hok & Hmax & Hres) _]. by exists results, rc, d'. }
  destruct (Hrun false) as (results & rc & d' & E & Hs & Hok & Hmax & _); [done|].
  exists results, rc, d'. split_and!; [done|done| |apply (ro_same _ _ Hok)|].
  - rewrite (readers_size _ _ Hok), <- Hmax. apply (ro_budget _ _ Hok).
  - intros Hr. destruct (Hrun true) as (results' & rc' & d'' & E' & _ & _ & _ & Hres); [done|].
    rewrite E in E'. injection E' as <- <- <-. by apply Hres.
Qed.

(** Three shards, the first used twice. *)
Lemma reader_cache_lru_witness :
  let a := [lit "a"] in let b := [lit "b"] in
  let d := mk_disk {[ a := RegularFile [1]; b := RegularFile [2] ]} [] 0 in
  Forall2 (fun p bytes => d_store d !! p = Some (RegularFile bytes)) [a; b; a] [[1]; [2]; [1]] /\
  exists results rc d', use_all [a; b; a] new_readers d = (Ok (results, rc), d') /\
    results = [Ok [1]; Ok [2]; Ok [1]] /\ rc_recent_paths rc = [b; a].
Proof.
  intros a b d.
  assert (Forall2 (fun p bytes => d_store d !! p = Some (RegularFile bytes)) [a; b; a] [[1]; [2]; [1]]) as Hf.
  { repeat constructor. }
  split; [exact Hf|].
  destruct (reader_cache_lru d [a; b; a] [[1]; [2]; [1]] Hf) as (results & rc & d' & E & _ & _ & _ & Hr).
  exists results, rc, d'. split; [exact E|]. destruct (Hr ltac:(constructor)) as [-> ->]. split; reflexivity.
Defined.
