(* ===== verification/StoreProofs.v ===== *)
(** What a cache directory written by [CacheBuilder] holds, and that [load_cache] and
    [read_sample_with_cache] read every sample of it back
    ([src/src/dataset_rt/storage.rs]). *)
From stdpp Require Import base tactics list numbers strings pretty gmap.
From S2P Require Import Prelude Collections Records Binary64 Config Seeds Native Metadata.
From S2P Require Import Manifest FileSystem RecordCodec IndexFile MetadataFile CacheStore.
Open Scope Z_scope.

(** * Shard names *)

(** The value of a string of decimal digits. *)
Definition digits_value (s : pystr) (acc : Z) : Z := fold_left (fun a c => 10 * a + (c - 48)) s acc.

Lemma digits_value_zeros n : forall s, digits_value (replicate n 48 ++ s) 0 = digits_value s 0.
Proof. induction n as [|n IH]; intros s; simpl; [done|]. apply IH. Qed.

Lemma digits_value_go (x : N) : forall s, digits_value (lit (pretty_N_go x s)) 0 = digits_value (lit s) (Z.of_N x).
Proof.
  induction (N.lt_wf_0 x) as [x _ IH]. intros s. destruct (decide (x = 0%N)) as [->|Hx].
  - by rewrite pretty_N_go_0.
  - rewrite pretty_N_go_step by lia. rewrite IH by (apply N.div_lt; lia).
    unfold lit; fold lit. unfold digits_value. simpl. f_equal.
    assert (Hd : Z.of_N (Ascii.N_of_ascii (pretty_N_char (x `mod` 10))) - 48 = Z.of_N (x `mod` 10)).
    { assert (Hm : (x `mod` 10 < 10)%N) by (by apply N.mod_lt). revert Hm. generalize (x `mod` 10)%N. intros m Hm.
      assert (m = 0 \/ m = 1 \/ m = 2 \/ m = 3 \/ m = 4 \/ m = 5 \/ m = 6 \/ m = 7 \/ m = 8 \/ m = 9)%N
        as Hcases by lia. by repeat destruct Hcases as [->|Hcases]; subst. }
    rewrite Hd, N2Z.inj_div, N2Z.inj_mod. dlia.
Qed.

Lemma digits_value_dec z : 0 <= z -> digits_value (dec z) 0 = z.
Proof.
  intros Hz. unfold dec, pretty, pretty_Z. destruct z as [|z|z]; [done| |lia].
  unfold pretty_positive, pretty, pretty_N. rewrite decide_False by done. by rewrite digits_value_go.
Qed.

Lemma shard_file_name_inj a b : 0 <= a -> 0 <= b -> shard_file_name a = shard_file_name b -> a = b.
Proof.
  intros Ha Hb E. unfold shard_file_name in E. apply (inj (fun l => l ++ lit ".bin")) in E.
  apply (f_equal (fun s => digits_value s 0)) in E. unfold pad6 in E. rewrite !digits_value_zeros in E.
  by rewrite !digits_value_dec in E.
Qed.

Lemma shard_path_inj p a b : shard_path p a = shard_path p b -> a = b.
Proof. unfold shard_path. intros E. apply (inj (app p)) in E. by injection E. Qed.

Lemma shard_path_below p name : below p (shard_path p name).
Proof. apply below_app. Qed.

Lemma removelast_snoc {A : Type} (l : list A) x : removelast (l ++ [x]) = l.
Proof. apply removelast_last. Qed.

Lemma shard_path_parent p name : removelast (shard_path p name) = p ++ [lit "shards"].
Proof.
  unfold shard_path. change [lit "shards"; name] with ([lit "shards"] ++ [name]).
  rewrite app_assoc. apply removelast_last.
Qed.

(** A file of the cache directory itself is no shard. *)
Lemma top_file_not_shard p top name : path_join p top <> shard_path p name.
Proof.
  unfold path_join, shard_path. intros E. apply (inj (app p)) in E. discriminate.
Qed.

Lemma path_join_inj p a b : path_join p a = path_join p b -> a = b.
Proof. unfold path_join. intros E. apply (inj (app p)) in E. by injection E. Qed.

Lemma parent_directory_shard (s : store) p name :
  s !! (p ++ [lit "shards"]) = Some Directory -> parent_directory s (shard_path p name) = true.
Proof.
  intros Hs. unfold parent_directory. destruct (shard_path p name) as [|x l] eqn:E.
  - unfold shard_path in E. by apply app_nil in E as [_ E].
  - rewrite <- E, shard_path_parent. destruct (p ++ [lit "shards"]) as [|y r] eqn:Ep; [done|]. by rewrite Hs.
Qed.

Lemma parent_directory_top (s : store) p top :
  s !! p = Some Directory -> parent_directory s (path_join p top) = true.
Proof.
  intros Hs. unfold parent_directory, path_join. destruct (p ++ [top]) as [|x l] eqn:E.
  - by apply app_nil in E as [_ E].
  - rewrite <- E, removelast_last. destruct p as [|y r] eqn:Ep; [done|]. by rewrite Hs.
Qed.

(** * Metadata of one sample *)

(** The values of a metadata map in key order. *)
Definition metadata_values (m : gmap pystr MetadataValue) : list MetadataValue := map snd (btree_entries m).

Lemma schema_names m : (schema_from m).*1 = (btree_entries m).*1.
Proof. unfold schema_from. change (map ?f ?l) with (f <$> l). rewrite <- list_fmap_compose. done. Qed.

Lemma schema_from_nodup m : NoDup (schema_from m).*1.
Proof. rewrite schema_names. apply btree_entries_nodup. Qed.

Lemma schema_from_length m : length (schema_from m) = size m.
Proof. unfold schema_from. rewrite length_map, btree_entries_perm. apply length_map_to_list. Qed.

Lemma metadata_values_fit m : row_fits (schema_from m) (metadata_values m).
Proof.
  unfold row_fits, schema_from, metadata_values. apply Forall2_fmap. apply Forall_Forall2_diag, Forall_forall. done.
Qed.

Lemma metadata_values_object m : zip (map fst (schema_from m)) (metadata_values m) = btree_entries m.
Proof.
  change (map fst (schema_from m)) with (schema_from m).*1. rewrite schema_names. unfold metadata_values.
  apply zip_fst_snd.
Qed.

Lemma metadata_values_map m : list_to_map (zip (map fst (schema_from m)) (metadata_values m)) = m.
Proof.
  rewrite metadata_values_object, <- collect_map_nodup by apply btree_entries_nodup. apply collect_btree_entries.
Qed.

Lemma metadata_values_elem m v : v ∈ metadata_values m -> exists k, m !! k = Some v.
Proof.
  unfold metadata_values. intros ([k v'] & -> & He)%list_elem_of_fmap. exists k.
  rewrite btree_entries_perm in He. by apply elem_of_map_to_list in He.
Qed.

(** The first sample fixes the schema, and every later sample with that schema passes. *)
Lemma validate_metadata_ok m schema :
  schema = [] \/ schema = schema_from m -> validate_metadata m schema = Ok (metadata_values m, schema_from m).
Proof.
  intros Hs. unfold validate_metadata.
  assert (schema_after schema m = schema_from m) as -> by (destruct Hs as [->| ->]; [done|]; unfold schema_after; by destruct (schema_from m)).
  rewrite schema_from_length, Nat.eqb_refl. simpl.
  assert (try_collect (expected_field m) (schema_from m) = Ok (metadata_values m)) as ->; [|done].
  apply try_collect_ok. unfold schema_from, metadata_values. apply Forall2_fmap, Forall_Forall2_diag, Forall_forall.
  intros [k v] He. rewrite btree_entries_perm in He. apply elem_of_map_to_list in He.
  unfold expected_field. simpl. rewrite He. by rewrite decide_True.
Qed.

(** * The directory of a cache under construction *)

Section Layout.
Context (p : path) (base : store).

(** Shard [k] of the directory holds the bytes [contents !! k]; the directory has no
    manifest yet, its ancestors exist, and nothing else changed. *)
Record layout (contents : list (list Z)) (s : store) : Prop := {
  ly_ancestors : forall k, below k p -> k <> [] -> s !! k = Some Directory;
  ly_shards : s !! (p ++ [lit "shards"]) = Some Directory;
  ly_contents : forall k bytes, contents !! k = Some bytes ->
    s !! shard_path p (shard_file_name (Z.of_nat k)) = Some (RegularFile bytes);
  ly_files : forall k, below p k -> s !! k = Some Directory -> k = p \/ k = p ++ [lit "shards"];
  ly_manifest : s !! path_join p (lit "manifest.json") = None;
  ly_frame : forall k, ~ below p k -> (below k p -> k = []) -> s !! k = base !! k }.

Lemma shard_path_fresh name : shard_path p name <> p /\ shard_path p name <> p ++ [lit "shards"].
Proof.
  unfold shard_path. split; intros E; apply (f_equal length) in E; rewrite !length_app in E; simpl in E; lia.
Qed.

Lemma shard_not_above name : ~ below (shard_path p name) p.
Proof. intros Hb. apply prefix_length in Hb. unfold shard_path in Hb. rewrite length_app in Hb. simpl in Hb. lia. Qed.

(** Writing shard [k], old or next. *)
Lemma layout_write contents s k bytes :
  layout contents s -> (k <= length contents)%nat ->
  layout (take k contents ++ [bytes] ++ drop (S k) contents)
    (<[shard_path p (shard_file_name (Z.of_nat k)) := RegularFile bytes]> s).
Proof.
  intros [Hr Hs Hc Hf Hm Hb] Hk. set (file := shard_path p (shard_file_name (Z.of_nat k))).
  destruct (shard_path_fresh (shard_file_name (Z.of_nat k))) as [H1 H2]. fold file in H1, H2. split.
  - intros q Hq Hne. rewrite lookup_insert_ne; [by apply Hr|]. intros <-. by apply (shard_not_above _ Hq).
  - by rewrite lookup_insert_ne.
  - intros j b Hj. destruct (decide (j = k)) as [->|Hne].
    + rewrite lookup_app_r in Hj by (rewrite length_take; lia). rewrite length_take, Nat.min_l, Nat.sub_diag in Hj by lia.
      injection Hj as <-. apply lookup_insert_eq.
    + rewrite lookup_insert_ne.
      2:{ intros E. apply shard_path_inj, shard_file_name_inj in E; lia. }
      apply Hc. destruct (decide (j < k)%nat).
      * rewrite lookup_app_l in Hj by (rewrite length_take; lia). by rewrite lookup_take_lt in Hj.
      * rewrite lookup_app_r in Hj by (rewrite length_take; lia). rewrite length_take, Nat.min_l in Hj by lia.
        simpl in Hj. destruct (j - k)%nat as [|i] eqn:Ei; [lia|]. simpl in Hj. rewrite lookup_drop in Hj.
        replace j with (S k + i)%nat by lia. done.
  - intros q Hq Hd. apply Hf; [done|]. destruct (decide (q = file)) as [->|]; [by rewrite lookup_insert_eq in Hd|].
    by rewrite lookup_insert_ne in Hd.
  - rewrite lookup_insert_ne; [done|]. intros E. by eapply top_file_not_shard.
  - intros q Hq Ha. rewrite lookup_insert_ne; [by apply Hb|]. intros <-. apply Hq, shard_path_below.
Qed.

Lemma layout_next contents s :
  layout contents s ->
  layout (contents ++ [[]]) (<[shard_path p (shard_file_name (Z.of_nat (length contents))) := RegularFile []]> s).
Proof.
  intros Hl. apply (layout_write _ _ (length contents) []) in Hl; [|lia].
  by rewrite firstn_all, drop_ge in Hl by lia.
Qed.

Lemma layout_last contents old bytes s :
  layout (contents ++ [old]) s ->
  layout (contents ++ [bytes]) (<[shard_path p (shard_file_name (Z.of_nat (length contents))) := RegularFile bytes]> s).
Proof.
  intros Hl. apply (layout_write _ _ (length contents) bytes) in Hl; [|rewrite length_app; lia].
  rewrite take_app_length, drop_ge in Hl by (rewrite length_app; simpl; lia). by rewrite app_nil_r in Hl.
Qed.

Lemma layout_middle contents old next bytes s :
  layout (contents ++ [old] ++ [next]) s ->
  layout (contents ++ [bytes] ++ [next])
    (<[shard_path p (shard_file_name (Z.of_nat (length contents))) := RegularFile bytes]> s).
Proof.
  intros Hl. apply (layout_write _ _ (length contents) bytes) in Hl; [|rewrite !length_app; lia].
  rewrite take_app_length in Hl. replace (drop _ _) with [next] in Hl; [done|].
  replace (S (length contents)) with (length (contents ++ [old])) by (rewrite length_app; simpl; lia).
  by rewrite app_assoc, drop_app_length.
Qed.

Lemma layout_shard_not_directory contents s name : layout contents s -> s !! shard_path p name <> Some Directory.
Proof.
  intros Hl Hd. destruct (shard_path_fresh name) as [H1 H2]. by destruct (ly_files _ _ Hl _ (shard_path_below p name) Hd).
Qed.

(** Writing a file of the directory itself that is not the manifest. *)
Lemma layout_top contents s top bytes :
  layout contents s -> top <> lit "manifest.json" -> top <> lit "shards" ->
  layout contents (<[path_join p top := RegularFile bytes]> s).
Proof.
  intros [Ha Hs Hc Hf Hm Hb] H1 H2.
  assert (Hup : forall k, below k p -> k <> path_join p top).
  { intros k Hk ->. apply prefix_length in Hk. unfold path_join in Hk. rewrite length_app in Hk. simpl in Hk. lia. }
  split.
  - intros k Hk Hn. rewrite lookup_insert_ne; [by apply Ha|]. intros E. by eapply Hup.
  - rewrite lookup_insert_ne; [done|]. intros E. by apply path_join_inj in E.
  - intros k b Hk. rewrite lookup_insert_ne; [by apply Hc|]. apply top_file_not_shard.
  - intros k Hk. destruct (decide (path_join p top = k)) as [<-|Hne]; [by rewrite lookup_insert_eq|].
    rewrite lookup_insert_ne by done. by apply Hf.
  - rewrite lookup_insert_ne; [done|]. intros E. by apply path_join_inj in E.
  - intros k Hk Hr. rewrite lookup_insert_ne; [by apply Hb|]. intros <-. apply Hk, below_app.
Qed.

Lemma layout_top_not_directory contents s top :
  layout contents s -> top <> lit "shards" -> s !! path_join p top <> Some Directory.
Proof.
  intros Hl Ht Hd. destruct (ly_files _ _ Hl _ (below_app p [top]) Hd) as [E|E].
  - unfold path_join in E. apply (f_equal length) in E. rewrite length_app in E. simpl in E. lia.
  - by apply path_join_inj in E.
Qed.

(** Outside of the directory at most its ancestors were created. *)
Definition confined (s : store) : Prop :=
  forall k, ~ below p k -> s !! k = base !! k \/ (below k p /\ s !! k = Some Directory).

(** What holds of the store whenever a write stops before its manifest. *)
Definition unpublished (s : store) : Prop := s !! path_join p (lit "manifest.json") = None /\ confined s.

(** The ancestors exist and nothing else changed outside of the directory. *)
Definition settled (s : store) : Prop :=
  (forall k, below k p -> k <> [] -> s !! k = Some Directory) /\
  (forall k, ~ below p k -> (below k p -> k = []) -> s !! k = base !! k).

Lemma settled_confined s : settled s -> confined s.
Proof.
  intros [Ha Hf] k Hk. destruct (decide (below k p /\ k <> [])) as [[Hb Hn]|Hb]; [right; auto|].
  left. apply Hf; [done|]. intros Hkp. destruct (decide (k = [])); [done|]. by destruct Hb.
Qed.

Lemma settled_top s top bytes : settled s -> settled (<[path_join p top := RegularFile bytes]> s).
Proof.
  intros [Ha Hf]. split.
  - intros k Hk Hn. rewrite lookup_insert_ne; [by apply Ha|]. intros <-. apply prefix_length in Hk.
    unfold path_join in Hk. rewrite length_app in Hk. simpl in Hk. lia.
  - intros k Hk Hr. rewrite lookup_insert_ne; [by apply Hf|]. intros <-. apply Hk, below_app.
Qed.

Lemma layout_settled contents s : layout contents s -> settled s.
Proof. intros Hl. split; [apply (ly_ancestors _ _ Hl)|apply (ly_frame _ _ Hl)]. Qed.

Lemma layout_unpublished contents s : layout contents s -> unpublished s.
Proof. intros Hl. split; [apply Hl|]. by eapply settled_confined, layout_settled. Qed.
End Layout.
#[export] Hint Resolve layout_unpublished : drt.

(** * The builder *)

Abbreviation sample := (list Z * gmap pystr MetadataValue)%type.

Section Build.
Context {J : ManifestFormat} {JL : ManifestFormatLaws J} {H : Hashing}.
Context {C : NativeCodecs} {memory : Z} {CL : NativeCodecsLaws C memory}.
Context {R : RecordJson} {RL : RecordJsonLaws R} {F : ArrowFiles} {FL : ArrowFilesLaws F}.
Context (rel : bool) (p : path) (base : store) (Hp : p <> []).
Context (src : pystr) (max_bytes : Z) (c : NativeCompression) (schema : schema_of_cache).

(** What makes a sample storable: its schema, values that JSON and Arrow can carry, a
    record the codec accepts, and room for it in memory. *)
Record accepted (x : sample) (enc : EncodedRecord) : Prop := {
  ac_schema : schema_from x.2 = schema;
  ac_storable : forall k v, x.2 !! k = Some v -> storable v = true;
  ac_strings : row_addressable (metadata_values x.2);
  ac_encodes : encode_stored_record x.1 schema (metadata_values x.2) c = Ok enc;
  ac_memory : encoded_uncompressed_len enc <= memory /\ byte_count (encoded_bytes enc) <= memory }.

Definition stored_len (enc : EncodedRecord) : Z := byte_count (encoded_bytes enc).

Lemma encoded_len_nonneg data sch row enc :
  encode_stored_record data sch row c = Ok enc -> 0 <= encoded_uncompressed_len enc.
Proof.
  unfold encode_stored_record. intros E. destruct (whole_record c).
  - crack E. ocase E. crack E. injection E as <-. simpl. apply byte_count_nonneg.
  - ocase E. crack E. injection E as <-. simpl. apply byte_count_nonneg.
Qed.

(** Shards by their bytes and their uncompressed lengths. *)
Abbreviation shards := (list (list Z * Z)).

(** A record found where its index entry says. *)
Definition located (T : shards) (enc : EncodedRecord) (e : IndexEntry) : Prop :=
  exists bytes u pre post, 0 <= ix_shard_id e /\ T !! Z.to_nat (ix_shard_id e) = Some (bytes, u) /\
    bytes = pre ++ encoded_bytes enc ++ post /\ ix_offset e = byte_count pre /\
    ix_byte_len e = stored_len enc /\ encoded_uncompressed_len enc <= u.

(** Shards that only grew. *)
Definition grows (T T' : shards) : Prop :=
  forall k bytes u, T !! k = Some (bytes, u) -> exists more u', T' !! k = Some (bytes ++ more, u') /\ u <= u'.

Lemma located_grows T T' enc e : grows T T' -> located T enc e -> located T' enc e.
Proof.
  intros Hg (bytes & u & pre & post & H0 & Hk & Hb & Ho & Hl & Hu).
  destruct (Hg _ _ _ Hk) as (more & u' & Hk' & Hu'). exists (bytes ++ more), u', pre, (post ++ more).
  split_and!; try done; [|lia]. by rewrite Hb, <- !app_assoc.
Qed.

Lemma grows_append T bytes u more v : 0 <= v -> grows (T ++ [(bytes, u)]) (T ++ [(bytes ++ more, u + v)]).
Proof.
  intros Hv k b w Hk. destruct (decide (k < length T)%nat).
  - rewrite lookup_app_l in Hk |- * by done. exists [], w. rewrite app_nil_r. split; [done|lia].
  - pose proof (lookup_lt_Some _ _ _ Hk) as Hlt. rewrite length_app in Hlt. simpl in Hlt.
    assert (k = length T) as -> by lia. rewrite list_lookup_middle in Hk by done. injection Hk as <- <-.
    exists more, (u + v). rewrite list_lookup_middle by done. split; [done|lia].
Qed.

Lemma grows_more T T' : grows T (T ++ T').
Proof.
  intros k bytes u Hk. exists [], u. rewrite app_nil_r. split; [by apply lookup_app_l_Some|lia].
Qed.

Definition shard_entry (k : nat) (x : list Z * Z) : ShardManifest :=
  mk_shard (shard_file_name (Z.of_nat k)) x.2 (byte_count x.1) c (digest_text x.1).

(** The builder after the samples [done_], encoded as [encs]: closed shards [T], and the
    bytes and uncompressed length of the open one. *)
Record building (done_ : list sample) (encs : list EncodedRecord) (index : list IndexEntry)
    (T : shards) (cur : list Z) (u : Z) (b : CacheBuilder) (s : store) : Prop := {
  bu_builder : b = mk_builder p src max_bytes (match done_ with [] => [] | _ => schema end)
    (map (fun x => metadata_values x.2) done_) index (imap shard_entry T) c
    (mk_open_shard (Z.of_nat (length T)) (shard_file_name (Z.of_nat (length T))) cur (byte_count cur) u cur);
  bu_accepted : Forall2 accepted done_ encs;
  bu_located : Forall2 (located (T ++ [(cur, u)])) encs index;
  bu_stored : Zsum (map (fun x => byte_count x.1) T) + byte_count cur = Zsum (map stored_len encs);
  bu_uncompressed : Zsum (map snd T) + u = Zsum (map encoded_uncompressed_len encs);
  bu_nonneg : Forall (fun x => 0 <= x.2) T /\ 0 <= u;
  bu_count : (length T + (match cur with [] => 0 | _ => 1 end) <= length encs)%nat;
  bu_layout : layout p base (map fst T ++ [[]]) s }.

(** The write stopped before its manifest, and only because a call failed. *)
Definition stopped (e : CacheError) (s : store) : Prop := rel = false /\ unpublished p base s.

(** ** Starting *)

(** A creation that failed on the way. *)
Lemma grown_stopped e s s' : rel = false -> base = s -> (forall k, below p k -> s !! k = None) ->
  grown (p ++ [lit "shards"]) s s' -> stopped e s'.
Proof.
  intros Hr Eb Hfree Hg. split; [done|]. split.
  - destruct (Hg (path_join p (lit "manifest.json"))) as [->|(Hb & _)]; [apply Hfree, below_app|].
    destruct Hb as [r Hr']. unfold path_join in Hr'. rewrite <- app_assoc in Hr'. apply (inj (app p)) in Hr'. discriminate.
  - intros k Hk. rewrite Eb. destruct (Hg k) as [->|([r Hb] & _ & _ & Hd)]; [by left|]. right. split; [|done].
    destruct r as [|x r _] using rev_ind.
    + destruct Hk. exists [lit "shards"]. by rewrite app_nil_r in Hb.
    + rewrite app_assoc in Hb. apply app_inj_tail in Hb as [-> _]. by exists r.
Qed.

Lemma builder_create_ok s :
  base = s -> (forall k, below p k -> s !! k = None) -> (forall k b, below k p -> s !! k <> Some (RegularFile b)) ->
  runs rel s (builder_create p src max_bytes c)
    (fun b s' => building [] [] [] [] [] 0 b s') stopped.
Proof.
  intros Eb Hfree Hfile. unfold builder_create. apply runs_bind, runs_exists.
  assert (Hself : below p p) by (exists []; by rewrite app_nil_r).
  rewrite (Hfree p) by done. rewrite bool_decide_false by (by intros []).
  apply runs_bind, runs_create_dir_all; [| |].
  2:{ intros Hr e s' Hg. by apply (grown_stopped e s s'). }
  { intros k b Hk Hb. destruct (decide (below p k)) as [Hpk|Hpk]; [by rewrite Hfree in Hb|].
    apply (Hfile k b); [|done]. destruct Hk as [r Hr]. destruct r as [|x r] using rev_ind.
    - destruct Hpk. exists [lit "shards"]. by rewrite app_nil_r in Hr.
    - rewrite app_assoc in Hr. apply app_inj_tail in Hr as [-> _]. by exists r. }
  intros s1 Hs1. apply runs_bind. unfold open_shard_create. apply runs_bind.
  assert (Hd : forall k, below k (p ++ [lit "shards"]) -> k <> [] -> s1 !! k = Some Directory).
  { intros k Hk Hn. rewrite Hs1. by rewrite decide_True. }
  assert (Hl : layout p base [] s1).
  { split.
    - intros k Hk Hn. apply Hd; [|done]. destruct Hk as [r ->]. exists (r ++ [lit "shards"]). by rewrite app_assoc.
    - apply Hd; [by exists []; rewrite app_nil_r|]. intros E. by apply app_nil in E as [_ E].
    - intros k bytes Hk. by rewrite lookup_nil in Hk.
    - intros k Hk Hdir. rewrite Hs1 in Hdir. case_decide as Hb; [|by rewrite Hfree in Hdir].
      destruct Hb as [[r Hr] _]. destruct Hk as [q ->]. rewrite <- app_assoc in Hr. apply (inj (app p)) in Hr.
      destruct q as [|x [|y q]]; [left; by rewrite app_nil_r|right; f_equal|discriminate].
      simpl in Hr. injection Hr as Hr. by rewrite Hr.
    - rewrite Hs1, decide_False; [apply Hfree, below_app|]. intros [[r Hr] _]. unfold path_join in Hr.
      rewrite <- app_assoc in Hr. apply (inj (app p)) in Hr. discriminate.
    - intros k Hk Ha. rewrite Hs1, Eb, decide_False; [done|]. intros [[r Hr] Hn]. apply Hn, Ha.
      destruct r as [|x r _] using rev_ind.
      { exfalso. apply Hk. exists [lit "shards"]. by rewrite app_nil_r in Hr. }
      rewrite app_assoc in Hr. apply app_inj_tail in Hr as [-> _]. by exists r. }
  apply runs_create_file; [by eapply parent_directory_shard, ly_shards|by eapply layout_shard_not_directory|..].
  { intros Hr e. split; [done|]. by eapply layout_unpublished. }
  apply runs_ret. apply runs_ret. split; try done; [constructor..|].
  by apply (layout_next p base []).
Qed.

(** ** Rotating and pushing *)

Lemma Zsum_byte_counts (T : shards) : 0 <= Zsum (map (fun x => byte_count x.1) T).
Proof. apply Zsum_nonneg, Forall_map, Forall_forall. intros. apply byte_count_nonneg. Qed.

Lemma rotate_ok n done_ encs index T cur u b s :
  building done_ encs index T cur u b s -> Z.of_nat (length encs) <= U64_MAX ->
  runs rel s (rotate_shard_if_needed n b)
    (fun b' s' => exists T' cur' u', building done_ encs index T' cur' u' b' s') stopped.
Proof.
  intros [Eb Ha Hl Hs Hu Hn Hc Hlay] Hlen. unfold rotate_shard_if_needed. rewrite Eb. simpl.
  assert (Hkeep : exists T' cur' u', building done_ encs index T' cur' u' b s) by (by exists T, cur, u).
  rewrite Eb in Hkeep. destruct (Z.eqb_spec (byte_count cur) 0) as [H0|H0]; [by apply runs_ret|].
  zcase; [by apply runs_ret|].
  assert (Hne : cur <> []) by (by intros ->). destruct cur as [|x cur']; [done|]. set (cur := x :: cur') in *.
  apply runs_bind, runs_result. unfold checked_add. zcase; [|lia]. simpl.
  apply runs_bind. unfold open_shard_create. apply runs_bind.
  pose proof (layout_next p base _ _ Hlay) as Hnext. rewrite length_app, length_map in Hnext. simpl length in Hnext.
  replace (Z.of_nat (length T + 1)) with (Z.of_nat (length T) + 1) in Hnext by lia.
  apply runs_create_file; [by eapply parent_directory_shard, ly_shards|by eapply layout_shard_not_directory|..].
  { intros Hr e. split; [done|]. by eapply layout_unpublished. }
  apply runs_ret. apply runs_bind. unfold open_shard_finish. simpl. apply runs_bind.
  rewrite <- app_assoc in Hnext.
  assert (Hwrite : forall bytes, layout p base ((map fst T ++ [bytes]) ++ [[]])
    (<[shard_path p (shard_file_name (Z.of_nat (length T))) := RegularFile bytes]>
     (<[shard_path p (shard_file_name (Z.of_nat (length T) + 1)) := RegularFile []]> s))).
  { intros bytes. rewrite <- app_assoc. pose proof (layout_middle p base (map fst T) [] [] bytes _ Hnext) as Hm.
    by rewrite length_map in Hm. }
  eapply (runs_append_file _ _ _ []).
  { rewrite lookup_insert_ne by (intros E; apply shard_path_inj, shard_file_name_inj in E; lia).
    apply (ly_contents _ _ _ _ Hlay). rewrite lookup_app_r by (by rewrite length_map). by rewrite length_map, Nat.sub_diag. }
  { intros Hr e partial. split; [done|]. eapply layout_unpublished, Hwrite. }
  simpl app. apply runs_ret. apply runs_ret. exists (T ++ [(cur, u)]), [], 0. split.
  - unfold with_shards. simpl. rewrite length_app, imap_app. simpl. rewrite Nat.add_0_r.
    replace (Z.of_nat (length T + 1)) with (Z.of_nat (length T) + 1) by lia. done.
  - done.
  - eapply Forall2_impl; [exact Hl|]. intros enc e. apply located_grows, grows_more.
  - rewrite map_app, Zsum_app. simpl. rewrite Zsum_cons, Zsum_nil. change (byte_count []) with 0. lia.
  - rewrite map_app, Zsum_app. simpl. rewrite Zsum_cons, Zsum_nil. lia.
  - split; [|lia]. apply Forall_app. split; [apply Hn|]. constructor; [apply Hn|constructor].
  - rewrite length_app. simpl. subst cur. lia.
  - rewrite map_app. apply Hwrite.
Qed.

Lemma push_ok done_ encs index T cur u b s x enc :
  building done_ encs index T cur u b s -> accepted x enc -> Z.of_nat (length encs) < U64_MAX ->
  Zsum (map stored_len (encs ++ [enc])) <= U64_MAX ->
  Zsum (map encoded_uncompressed_len (encs ++ [enc])) <= U64_MAX ->
  runs rel s (push_sample x.1 x.2 b)
    (fun r s' => exists index' T' cur' u', building (done_ ++ [x]) (encs ++ [enc]) index' T' cur' u' r.2 s' /\
       r.1 = mk_push_stats (encoded_uncompressed_len enc) (stored_len enc)) stopped.
Proof.
  intros Hb Hx Hlen Hst Hun. pose proof Hx as [Es Hjs Har He Hmem]. unfold push_sample.
  assert (Hv : validate_metadata x.2 (cb_schema b) = Ok (metadata_values x.2, schema)).
  { rewrite <- Es. apply validate_metadata_ok. rewrite (bu_builder _ _ _ _ _ _ _ _ Hb). simpl.
    destruct done_; [by left|by right]. }
  apply runs_bind, runs_result. rewrite Hv. cbv beta iota. apply runs_bind, runs_result.
  assert (cb_shard_compression b = c) as -> by (by rewrite (bu_builder _ _ _ _ _ _ _ _ Hb)).
  rewrite He. cbv beta iota zeta. apply runs_bind. eapply runs_weaken; [eapply rotate_ok; [exact Hb|lia]| |done].
  clear dependent T. clear dependent cur. clear dependent u. clear dependent b. clear s.
  intros b s (T & cur & u & [Eb Ha Hl Hs Hu [Hn Hu0] Hc Hlay]). apply runs_bind, runs_result.
  rewrite !map_app, !Zsum_app in Hst, Hun. simpl in Hst, Hun. rewrite Zsum_cons, Zsum_nil in Hst, Hun.
  pose proof (Zsum_byte_counts T) as HT. pose proof (byte_count_nonneg cur) as Hcur.
  assert (0 <= Zsum (map snd T)) by (by apply Zsum_nonneg, Forall_map).
  pose proof (encoded_len_nonneg _ _ _ _ He) as Hnn.
  unfold write_payload, checked_add. rewrite Eb. simpl. fold (stored_len enc).
  zcase; [|lia]. zcase; [|lia]. simpl. apply runs_ret. do 4 eexists. split; [|done]. split.
  - simpl. rewrite map_app, byte_count_app. simpl. f_equal. by destruct done_.
  - apply Forall2_app; [done|]. by constructor; [|constructor].
  - apply Forall2_app.
    + eapply Forall2_impl; [exact Hl|]. intros enc' e. by apply located_grows, grows_append.
    + constructor; [|constructor]. exists (cur ++ encoded_bytes enc), (u + encoded_uncompressed_len enc), cur, [].
      simpl. rewrite Nat2Z.id, list_lookup_middle by done. split_and!; try done; try lia. by rewrite app_nil_r.
  - rewrite byte_count_app, map_app, Zsum_app. simpl. rewrite Zsum_cons, Zsum_nil. fold (stored_len enc). lia.
  - rewrite map_app, Zsum_app. simpl. rewrite Zsum_cons, Zsum_nil. lia.
  - split; [done|lia].
  - rewrite length_app. simpl. destruct cur; simpl in *; destruct (encoded_bytes enc); lia.
  - done.
Qed.

Lemma push_all_ok rest : forall rest_encs done_ encs index T cur u b s,
  building done_ encs index T cur u b s -> Forall2 accepted rest rest_encs ->
  Z.of_nat (length (encs ++ rest_encs)) <= U64_MAX ->
  Zsum (map stored_len (encs ++ rest_encs)) <= U64_MAX ->
  Zsum (map encoded_uncompressed_len (encs ++ rest_encs)) <= U64_MAX ->
  runs rel s (push_all rest b)
    (fun b' s' => exists index' T' cur' u', building (done_ ++ rest) (encs ++ rest_encs) index' T' cur' u' b' s') stopped.
Proof.
  induction rest as [|[data m] rest IH]; intros rest_encs done_ encs index T cur u b s Hb Hacc Hn Hs Hu.
  - inversion Hacc; subst. rewrite !app_nil_r. apply runs_ret. by exists index, T, cur, u.
  - inversion Hacc as [|? enc ? rencs Hx Hrest]; subst. rewrite !(cons_middle enc encs rencs), !app_assoc in Hn, Hs, Hu.
    assert (Hnn : 0 <= Zsum (map stored_len rencs) /\ 0 <= Zsum (map encoded_uncompressed_len rencs)).
    { split; apply Zsum_nonneg, Forall_map, Forall_forall; intros e He; [apply byte_count_nonneg|].
      apply list_elem_of_lookup in He as [i Hi].
      destruct (Forall2_lookup_r _ _ _ i e Hrest Hi) as (y & _ & Hy). eapply encoded_len_nonneg, Hy. }
    cbn [push_all]. apply runs_bind. eapply runs_weaken; [eapply (push_ok _ _ _ _ _ _ _ _ (data, m) enc Hb Hx)| |done].
    + rewrite !length_app in Hn. simpl in Hn. lia.
    + rewrite map_app, Zsum_app in Hs. lia.
    + rewrite map_app, Zsum_app in Hu. lia.
    + intros [stats b1] s1 (index1 & T1 & cur1 & u1 & Hb1 & _). simpl in Hb1.
      eapply runs_weaken; [eapply IH; [exact Hb1|exact Hrest|done..]| |done].
      intros b2 s2 (index2 & T2 & cur2 & u2 & Hb2). exists index2, T2, cur2, u2. by rewrite <- !app_assoc in Hb2.
Qed.
End Build.

(** * A published directory *)

Section Published.
Context {J : ManifestFormat} {H : Hashing} {C : NativeCodecs} {R : RecordJson} {F : ArrowFiles}.
Context (memory : Z) (src : pystr) (c : NativeCompression) (schema : schema_of_cache).

Definition manifest_of (n : Z) (metadata_bytes : list Z) (index : list IndexEntry) (T : list (list Z * Z))
  : Manifest Value :=
  let f := mk_fields src n schema (digest_text metadata_bytes) (digest_text (index_bytes index))
             (imap (shard_entry c) T) ∅ in
  if whole_record c then V4 (cache_id_from_name src) f else V3 (cache_id_from_name src) f.

(** The files of a finished cache at [q], whose manifest file holds [text]. *)
Record published (q : path) (samples : list sample) (encs : list EncodedRecord) (index : list IndexEntry)
    (T : list (list Z * Z)) (metadata_bytes text : list Z) (s : store) : Prop := {
  pb_accepted : Forall2 (accepted (memory := memory) c schema) samples encs;
  pb_located : Forall2 (located T) encs index;
  pb_limits : Forall (fun x => byte_count x.1 <= U64_MAX) T /\ Z.of_nat (length T) <= U64_MAX;
  pb_shards : forall k bytes u, T !! k = Some (bytes, u) ->
    s !! shard_path q (shard_file_name (Z.of_nat k)) = Some (RegularFile bytes);
  pb_metadata : s !! path_join q (lit "metadata.arrow") = Some (RegularFile metadata_bytes);
  pb_rows : read_metadata_bytes metadata_bytes schema = Ok (map (fun x => metadata_values x.2) samples);
  pb_index : s !! path_join q (lit "index.bin") = Some (RegularFile (index_bytes index));
  pb_manifest : s !! path_join q (lit "manifest.json") = Some (RegularFile text) }.

(** It depends on the entries below its path only, and moves with them. *)
Lemma published_moves p q samples encs index T mb text (s s' : store) :
  (forall r, s' !! (q ++ r) = s !! (p ++ r)) ->
  published p samples encs index T mb text s -> published q samples encs index T mb text s'.
Proof.
  intros Hr [Ha Hl Hlim Hs Hm Hrows Hi Hma]. unfold shard_path, path_join in *.
  split; try done; unfold shard_path, path_join; intros; rewrite ?Hr; eauto.
Qed.
End Published.

Section Finish.
Context {J : ManifestFormat} {JL : ManifestFormatLaws J} {H : Hashing}.
Context {C : NativeCodecs} {memory : Z} {CL : NativeCodecsLaws C memory}.
Context {R : RecordJson} {RL : RecordJsonLaws R} {F : ArrowFiles} {FL : ArrowFilesLaws F}.
Context (rel : bool) (p : path) (base : store) (Hp : p <> []).
Context (src : pystr) (max_bytes : Z) (c : NativeCompression) (schema : schema_of_cache) (Hschema : schema <> []).

(** A file of the directory is created, then written and hashed. *)
Lemma runs_create_top contents s top (Q : unit -> store -> Prop) :
  layout p base contents s -> top <> lit "shards" ->
  Q tt (<[path_join p top := RegularFile []]> s) ->
  runs rel s (create_file (path_join p top)) Q (fun _ s => rel = false /\ confined p base s).
Proof.
  intros Hl Ht HQ. apply runs_create_file; [..|done].
  - apply parent_directory_top, (ly_ancestors _ _ _ _ Hl); [by exists []; rewrite app_nil_r|done].
  - by eapply layout_top_not_directory.
  - intros Hr e. split; [done|]. by eapply settled_confined, layout_settled.
Qed.

Lemma runs_append_hash contents s top bytes (Q : pystr -> store -> Prop) :
  layout p base contents s -> top <> lit "manifest.json" -> top <> lit "shards" ->
  Q (digest_text bytes) (<[path_join p top := RegularFile bytes]> s) ->
  runs rel (<[path_join p top := RegularFile []]> s)
    (_ ← append_file (path_join p top) bytes; hash_file (path_join p top)) Q
    (fun _ s => rel = false /\ confined p base s).
Proof.
  intros Hl H1 H2 HQ.
  assert (Hconf : forall b, confined p base (<[path_join p top := RegularFile b]> s)).
  { intros b. by eapply settled_confined, layout_settled, layout_top. }
  apply runs_bind. eapply (runs_append_file _ _ _ []); [apply lookup_insert_eq|..].
  - intros Hr e partial. split; [done|]. rewrite insert_insert_eq. apply Hconf.
  - rewrite insert_insert_eq. simpl app. apply runs_bind.
    eapply runs_read_file; [apply lookup_insert_eq|by intros Hr e|]. by apply runs_ret.
Qed.

Lemma runs_write_manifest s (m : Manifest Value) (Q : unit -> store -> Prop) :
  settled p base s -> s !! path_join p (lit "manifest.json") <> Some Directory ->
  (forall text, text = encode m \/ rel = false -> Q tt (<[path_join p (lit "manifest.json") := RegularFile text]> s)) ->
  runs rel s (write_manifest p m) Q (fun _ s => rel = false /\ confined p base s).
Proof.
  intros Hs Hd HQ. unfold write_manifest. set (file := path_join p (lit "manifest.json")) in *.
  set (n := (length (encode m) - still_buffered (encode m))%nat).
  assert (Hconf : forall b, confined p base (<[file := RegularFile b]> s)) by (intros b; by apply settled_confined, settled_top).
  apply runs_bind, runs_create_file; [|done|..].
  - apply parent_directory_top, Hs; [by exists []; rewrite app_nil_r|done].
  - intros Hr e. split; [done|]. by apply settled_confined.
  - apply runs_bind. eapply (runs_append_file _ _ _ []); [apply lookup_insert_eq|..].
    + intros Hr e partial. rewrite insert_insert_eq. by split.
    + rewrite insert_insert_eq. simpl app. apply runs_bind, runs_attempt.
      eapply runs_append_file; [apply lookup_insert_eq|..].
      * intros Hr e partial. rewrite insert_insert_eq. apply runs_ret, HQ. by right.
      * rewrite insert_insert_eq, take_drop. apply runs_ret, HQ. by left.
Qed.

(** The metadata file of accepted samples. *)
Lemma accepted_table samples encs :
  Forall2 (accepted (memory := memory) c schema) samples encs -> samples <> [] ->
  let rows := map (fun x => metadata_values x.2) samples in
  exists mb, metadata_file_bytes schema rows = Some (Ok mb) /\ read_metadata_bytes mb schema = Ok rows.
Proof.
  intros Ha Hne rows.
  assert (Hin : forall x, x ∈ samples -> exists enc, accepted (memory := memory) c schema x enc).
  { intros x [i Hi]%list_elem_of_lookup. destruct (Forall2_lookup_l _ _ _ i x Ha Hi) as (enc & _ & Hx). eauto. }
  apply metadata_file_total; [done|unfold rows; by destruct samples|..].
  - apply Forall_map, Forall_forall. intros x Hx. destruct (Hin x Hx) as [enc Hax].
    rewrite <- (ac_schema _ _ _ _ Hax). apply metadata_values_fit.
  - apply Forall_map, Forall_forall. intros x Hx. destruct (Hin x Hx) as [enc Hax]. apply Hax.
Qed.

Lemma builder_manifest_of samples encs index T cur u b s mb :
  building (memory := memory) p base src max_bytes c schema samples encs index T cur u b s -> samples <> [] ->
  builder_manifest b (cb_shards b ++ [mk_shard (shard_file_name (Z.of_nat (length T))) u (byte_count cur) c
    (digest_text cur)]) (digest_text mb) (digest_text (index_bytes index)) =
  manifest_of src c schema (Z.of_nat (length samples)) mb index (T ++ [(cur, u)]).
Proof.
  intros [Eb Ha Hl _ _ _ _ _] Hne. unfold builder_manifest, manifest_of. rewrite Eb. simpl.
  rewrite imap_app. simpl. rewrite Nat.add_0_r, <- (Forall2_length _ _ _ Hl), <- (Forall2_length _ _ _ Ha).
  by destruct samples.
Qed.

(** The files of a finished write. *)
Lemma published_files samples encs index T mb text s :
  Forall2 (accepted (memory := memory) c schema) samples encs -> Forall2 (located T) encs index ->
  Zsum (map (fun x => byte_count x.1) T) <= U64_MAX -> Z.of_nat (length T) <= U64_MAX ->
  read_metadata_bytes mb schema = Ok (map (fun x => metadata_values x.2) samples) ->
  layout p base (map fst T) s ->
  published memory c schema p samples encs index T mb text
    (<[path_join p (lit "manifest.json") := RegularFile text]>
      (<[path_join p (lit "index.bin") := RegularFile (index_bytes index)]>
        (<[path_join p (lit "metadata.arrow") := RegularFile mb]> s))).
Proof.
  intros Ha Hl Hst Hlen Hrows Hlay.
  assert (Hne : forall a b, a <> b -> path_join p a <> path_join p b) by (intros a b Hab E; by apply path_join_inj in E).
  split; try done.
  - split; [|done]. apply Forall_forall. intros x Hx. apply list_elem_of_split in Hx as (T1 & T2 & ->).
    rewrite map_app, Zsum_app in Hst. simpl in Hst. rewrite Zsum_cons in Hst.
    pose proof (Zsum_byte_counts T1). pose proof (Zsum_byte_counts T2). lia.
  - intros k bytes u Hk. rewrite !lookup_insert_ne by apply top_file_not_shard.
    apply (ly_contents _ _ _ _ Hlay). change (map fst T) with T.*1. by rewrite list_lookup_fmap, Hk.
  - rewrite !lookup_insert_ne by (by apply Hne). apply lookup_insert_eq.
  - rewrite lookup_insert_ne by (by apply Hne). apply lookup_insert_eq.
  - apply lookup_insert_eq.
Qed.

(** Finishing after accepted samples: everything is on disk, the manifest last. *)
Lemma builder_finish_ok samples encs index T cur u b s :
  building (memory := memory) p base src max_bytes c schema samples encs index T cur u b s -> samples <> [] ->
  Zsum (map stored_len encs) <= U64_MAX -> Z.of_nat (length encs) < U64_MAX ->
  runs rel s (builder_finish b)
    (fun m s' => exists mb text,
       m = manifest_of src c schema (Z.of_nat (length samples)) mb index (T ++ [(cur, u)]) /\
       published memory c schema p samples encs index (T ++ [(cur, u)]) mb text s' /\
       (text = encode m \/ rel = false) /\ settled p base s')
    (fun _ s => rel = false /\ confined p base s).
Proof.
  intros Hb Hne Hst Hlen. destruct (accepted_table samples encs (bu_accepted _ _ _ _ _ _ _ _ _ _ _ _ _ _ Hb) Hne) as (mb & Hmb & Hrows).
  pose proof (fun mb => builder_manifest_of _ _ _ _ _ _ _ _ mb Hb Hne) as Em.
  destruct Hb as [Eb Ha Hl Hs Hu [Hn Hu0] Hc Hlay]. unfold builder_finish.
  assert (Hi : length index = length samples)
    by (rewrite (Forall2_length _ _ _ Ha), (Forall2_length _ _ _ Hl); done).
  rewrite Eb in Em |- *. simpl cb_index. rewrite bool_decide_false by (intros ->; by destruct samples). simpl in Em |- *.
  apply runs_bind. unfold open_shard_finish. simpl.
  apply runs_bind. pose proof (fun bytes => layout_last p base (map fst T) [] bytes s Hlay) as Hlast.
  rewrite length_map in Hlast. eapply (runs_append_file _ _ _ []).
  { apply (ly_contents _ _ _ _ Hlay). rewrite lookup_app_r by (by rewrite length_map). by rewrite length_map, Nat.sub_diag. }
  { intros Hr e partial. split; [done|]. by eapply settled_confined, layout_settled, Hlast. }
  simpl app. apply runs_ret. set (s1 := <[_ := RegularFile cur]> s). specialize (Hlast cur). fold s1 in Hlast.
  apply runs_bind. unfold write_metadata_file. apply runs_bind. eapply runs_create_top; [exact Hlast|done|].
  replace (match samples with [] => [] | _ :: _ => schema end) with schema in Em |- * by (by destruct samples).
  rewrite Hmb. apply runs_bind, runs_result. eapply runs_append_hash; [exact Hlast|done..|].
  pose proof (layout_top p base _ _ (lit "metadata.arrow") mb Hlast ltac:(done) ltac:(done)) as Hl2.
  apply runs_bind. unfold write_index_file. apply runs_bind. eapply runs_create_top; [exact Hl2|done|].
  eapply runs_append_hash; [exact Hl2|done..|]. simpl cb_shards. rewrite Em.
  pose proof (layout_top p base _ _ (lit "index.bin") (index_bytes index) Hl2 ltac:(done) ltac:(done)) as Hl3.
  apply runs_bind, runs_write_manifest; [by eapply layout_settled|by eapply layout_top_not_directory|].
  intros text Htext. apply runs_ret. exists mb, text. split_and!; [done| |done|by eapply settled_top, layout_settled].
  apply published_files; try done.
  - rewrite map_app, Zsum_app. simpl. rewrite Zsum_cons, Zsum_nil. lia.
  - rewrite length_app. simpl. destruct cur; lia.
  - by rewrite map_app.
Qed.
End Finish.
