(* ===== verification/StoreReads.v ===== *)
(** Opening and reading a published cache directory ([load_cache] and
    [read_sample_with_cache] of [src/src/dataset_rt/storage.rs]), and the round trip from
    the builder through the disk to the reader. *)
From stdpp Require Import base tactics list numbers strings pretty gmap.
From S2P Require Import Prelude Collections Records Binary64 Config Seeds Native Metadata.
From S2P Require Import Manifest FileSystem RecordCodec IndexFile MetadataFile CacheStore ReaderCache StoreProofs.
Open Scope Z_scope.

Section Load.
Context {J : ManifestFormat} {JL : ManifestFormatLaws J} {H : Hashing}.
Context {C : NativeCodecs} {memory : Z} {CL : NativeCodecsLaws C memory}.
Context {R : RecordJson} {RL : RecordJsonLaws R} {F : ArrowFiles} {FL : ArrowFilesLaws F}.
Context (rel : bool) (q : path) (src : pystr) (c : NativeCompression) (schema : schema_of_cache).
Context (samples : list sample) (encs : list EncodedRecord) (index : list IndexEntry)
  (T : list (list Z * Z)) (mb : list Z) (s : store).

Abbreviation manifest := (manifest_of src c schema (Z.of_nat (length samples)) mb index T).

Context (Hpub : published memory c schema q samples encs index T mb (encode manifest) s).
Context (Hcount : 24 * Z.of_nat (length samples) <= U64_MAX).

(** Reading changes nothing, and only a failing call makes it fail. *)
Definition unread (e : CacheError) (s' : store) : Prop := rel = false /\ s' = s.

Lemma cache_id_u64 (name : pystr) : is_u64 (cache_id_from_name name).
Proof.
  unfold cache_id_from_name, I64_MAX. change (2 ^ 63 - 1) with (Z.ones 63). rewrite Z.land_ones by lia.
  unfold is_u64. rewrite U64_MAX_eq. pose proof (Z.mod_pos_bound (from_be_bytes (digest_prefix (sha256 (as_bytes name)))) (2 ^ 63) ltac:(lia)). lia.
Qed.

Lemma manifest_of_wf : manifest_wf manifest.
Proof.
  unfold manifest_of.
  assert (Hs : forall b, whole_record c = b -> forallb (fun s => Bool.eqb (whole_record (shard_compression_of s)) b)
    (imap (shard_entry c) T) = true).
  { intros b <-. apply Is_true_true, forallb_True, Forall_forall. intros x Hx. apply list_elem_of_lookup in Hx as [k Hk].
    rewrite list_lookup_imap in Hk. apply fmap_Some in Hk as (y & _ & ->). simpl. by destruct (whole_record c). }
  destruct (whole_record c) eqn:E; split; try done; try (by apply Hs); try (intros; apply lookup_empty);
    apply cache_id_u64.
Qed.

Lemma manifest_fields : fields manifest =
  mk_fields src (Z.of_nat (length samples)) schema (digest_text mb) (digest_text (index_bytes index))
    (imap (shard_entry c) T) ∅.
Proof. unfold manifest_of. by destruct (whole_record c). Qed.

Lemma manifest_scope : manifest_whole_record manifest = whole_record c.
Proof. unfold manifest_of. by destruct (whole_record c). Qed.

Lemma manifest_identity position : resolve_cache_id manifest position = cache_id_from_name src.
Proof. unfold manifest_of. by destruct (whole_record c). Qed.

Lemma runs_read_manifest (Q : Manifest Value -> store -> Prop) :
  Q manifest s -> runs rel s (read_manifest q) Q unread.
Proof.
  intros HQ. unfold read_manifest. apply runs_bind, runs_exists. rewrite (pb_manifest _ _ _ _ _ _ _ _ _ _ _ Hpub).
  rewrite bool_decide_true by (by eexists). simpl. apply runs_bind.
  eapply runs_read_file; [apply (pb_manifest _ _ _ _ _ _ _ _ _ _ _ Hpub)|done|].
  apply runs_result. by rewrite decode_encode by apply manifest_of_wf.
Qed.

Lemma runs_verify_checksum file bytes expected (Q : unit -> store -> Prop) :
  s !! file = Some (RegularFile bytes) -> expected = digest_text bytes -> Q tt s ->
  runs rel s (verify_file_checksum file expected) Q unread.
Proof.
  intros Hf -> HQ. unfold verify_file_checksum, hash_file. apply runs_bind, runs_bind.
  eapply runs_read_file; [done|done|]. apply runs_ret, runs_result. by rewrite bool_decide_true.
Qed.

Lemma runs_verify_shards validate (shards : list ShardManifest) (Q : unit -> store -> Prop) :
  Forall (fun sh => exists bytes, s !! shard_path q (shard_name sh) = Some (RegularFile bytes) /\
            shard_byte_len sh = byte_count bytes /\ shard_sha256 sh = digest_text bytes) shards ->
  Q tt s -> runs rel s (verify_shards q shards validate) Q unread.
Proof.
  intros Hs HQ. induction Hs as [|sh shards (bytes & Hf & Hl & Hd) _ IH]; [by apply runs_ret|].
  cbn [verify_shards]. apply runs_bind. eapply runs_metadata_len; [done|done|].
  apply runs_bind, runs_result. rewrite Hl. fold (byte_count bytes). rewrite Z.eqb_refl. simpl.
  apply runs_bind. destruct validate; [by eapply runs_verify_checksum|by apply runs_ret].
Qed.

Lemma shards_verified :
  Forall (fun sh => exists bytes, s !! shard_path q (shard_name sh) = Some (RegularFile bytes) /\
            shard_byte_len sh = byte_count bytes /\ shard_sha256 sh = digest_text bytes) (imap (shard_entry c) T).
Proof.
  apply Forall_forall. intros sh Hsh. apply list_elem_of_lookup in Hsh as [k Hk].
  rewrite list_lookup_imap in Hk. apply fmap_Some in Hk as ([bytes u] & Hk & ->). exists bytes. simpl.
  split_and!; [|done|done]. by eapply (pb_shards _ _ _ _ _ _ _ _ _ _ _ Hpub).
Qed.

Lemma lengths : length encs = length samples /\ length index = length samples.
Proof.
  rewrite (Forall2_length _ _ _ (pb_accepted _ _ _ _ _ _ _ _ _ _ _ Hpub)).
  by rewrite (Forall2_length _ _ _ (pb_located _ _ _ _ _ _ _ _ _ _ _ Hpub)).
Qed.

Lemma entries_u64 : Forall entry_u64 index.
Proof.
  apply Forall_forall. intros e He. apply list_elem_of_lookup in He as [i Hi].
  destruct (Forall2_lookup_r _ _ _ i e (pb_located _ _ _ _ _ _ _ _ _ _ _ Hpub) Hi)
    as (enc & _ & bytes & u & pre & post & H0 & Hk & Hb & Ho & Hl & _).
  destruct (pb_limits _ _ _ _ _ _ _ _ _ _ _ Hpub) as [Hlim HT].
  pose proof (proj1 (Forall_forall _ _) Hlim _ (list_elem_of_lookup_2 _ _ _ Hk)) as Hbytes. simpl in Hbytes.
  rewrite Hb, !byte_count_app in Hbytes. apply lookup_lt_Some in Hk. unfold stored_len in Hl.
  pose proof (byte_count_nonneg pre). pose proof (byte_count_nonneg post). pose proof (byte_count_nonneg (encoded_bytes enc)).
  unfold entry_u64, is_u64. lia.
Qed.

Lemma check_entries_ok : check_entries (imap (shard_entry c) T) (map Ok index) = Ok tt.
Proof.
  pose proof (pb_located _ _ _ _ _ _ _ _ _ _ _ Hpub) as Hl. clear -Hl.
  induction Hl as [|enc e encs index (bytes & u & _ & _ & _ & Hk & _) _ IH]; [done|].
  simpl. rewrite list_lookup_imap, Hk. simpl. done.
Qed.

(** The cache that [load_cache] opens. *)
Definition opened (validate : bool) : OpenCache :=
  mk_open_cache (cache_id_from_name src) manifest
    (if validate then Some (map (fun x => metadata_values x.2) samples) else None)
    (index_bytes index) q validate.

Lemma load_cache_ok validate position :
  runs rel s (load_cache q validate position) (fun oc s' => s' = s /\ oc = opened validate) unread.
Proof.
  pose proof lengths as [_ Hlen]. unfold load_cache. apply runs_bind, runs_read_manifest.
  rewrite manifest_identity, manifest_fields. simpl.
  pose proof (pb_metadata _ _ _ _ _ _ _ _ _ _ _ Hpub) as Hm. pose proof (pb_index _ _ _ _ _ _ _ _ _ _ _ Hpub) as Hi.
  assert (Hrest : runs rel s
    (_ ← verify_shards q (imap (shard_entry c) T) validate;
     index_file ← read_file (path_join q (lit "index.bin"));
     index0 ← io_result (mapped_index index_file);
     rows ← (if validate
             then bytes ← read_file (path_join q (lit "metadata.arrow"));
                  rows ← io_result (read_metadata_bytes bytes schema); mret (Some rows)
             else _ ← metadata_len (path_join q (lit "metadata.arrow")); mret None);
     _ ← io_result (validate_loaded_shapes (fields manifest) rows index0);
     mret (mk_open_cache (cache_id_from_name src) manifest rows index0 q validate))
    (fun oc s' => s' = s /\ oc = opened validate) unread).
  { apply runs_bind, runs_verify_shards; [apply shards_verified|]. apply runs_bind.
    eapply runs_read_file; [done|done|]. apply runs_bind, runs_result. rewrite mapped_index_written.
    assert (Hshape : validate_loaded_shapes (fields manifest)
      (if validate then Some (map (fun x => metadata_values x.2) samples) else None) (index_bytes index) = Ok tt).
    { destruct (mapped_index_bytes index entries_u64) as (m & E & Hil & Hit).
      rewrite mapped_index_written in E. injection E as <-.
      unfold validate_loaded_shapes. rewrite manifest_fields. simpl. rewrite Hil, Hlen, Z.eqb_refl, Hit.
      destruct validate; [rewrite length_map, Z.eqb_refl|]; simpl; apply check_entries_ok. }
    apply runs_bind. destruct validate.
    - apply runs_bind. eapply runs_read_file; [done|done|]. apply runs_bind, runs_result.
      rewrite (pb_rows _ _ _ _ _ _ _ _ _ _ _ Hpub). apply runs_ret, runs_bind, runs_result.
      rewrite Hshape. by apply runs_ret.
    - apply runs_bind. eapply runs_metadata_len; [done|done|]. apply runs_ret, runs_bind, runs_result.
      rewrite Hshape. by apply runs_ret. }
  rewrite manifest_fields in Hrest. apply runs_bind. destruct validate; [|by apply runs_ret].
  apply runs_bind. eapply runs_verify_checksum; [done|done|]. by eapply runs_verify_checksum.
Qed.

(** ** Samples *)

Lemma row_eqb_refl (row : list MetadataValue) : Forall (fun v => storable v = true) row -> row_eqb row row = true.
Proof.
  induction 1 as [|v row Hv _ IH]; [done|]. simpl. rewrite IH, andb_true_r. destruct v as [b|z|f|t]; simpl in *.
  - by destruct b.
  - apply Z.eqb_refl.
  - apply andb_true_iff in Hv as [Hf _]. destruct f; [apply Z.eqb_refl|done|done].
  - by rewrite bool_decide_true.
Qed.

Lemma sample_located (i : nat) x : samples !! i = Some x ->
  exists enc e bytes u pre post, encs !! i = Some enc /\ index !! i = Some e /\
    accepted (memory := memory) c schema x enc /\ 0 <= ix_shard_id e /\
    T !! Z.to_nat (ix_shard_id e) = Some (bytes, u) /\ bytes = pre ++ encoded_bytes enc ++ post /\
    ix_offset e = byte_count pre /\ ix_byte_len e = stored_len enc /\ encoded_uncompressed_len enc <= u.
Proof.
  intros Hx. destruct (Forall2_lookup_l _ _ _ i x (pb_accepted _ _ _ _ _ _ _ _ _ _ _ Hpub) Hx) as (enc & He & Ha).
  destruct (Forall2_lookup_l _ _ _ i enc (pb_located _ _ _ _ _ _ _ _ _ _ _ Hpub) He)
    as (e & Hi & bytes & u & pre & post & Hloc). by exists enc, e, bytes, u, pre, post.
Qed.

(** The record of a sample decodes to the sample. *)
Lemma read_record_ok validate (i : nat) x : samples !! i = Some x ->
  exists e bytes u stop, locate_record (opened validate) (Z.of_nat i) =
      Ok (e, shard_entry c (Z.to_nat (ix_shard_id e)) (bytes, u), stop) /\
    s !! shard_path q (shard_file_name (Z.of_nat (Z.to_nat (ix_shard_id e)))) = Some (RegularFile bytes) /\
    read_record (opened validate) e (shard_entry c (Z.to_nat (ix_shard_id e)) (bytes, u)) stop bytes =
      Ok (x.1, metadata_values x.2).
Proof.
  intros Hx. pose proof lengths as [_ Hlen]. pose proof entries_u64 as Hu.
  destruct (sample_located i x Hx) as (enc & e & bytes & u & pre & post & _ & Hi & Ha & H0 & HT & Eb & Ho & Hl & Hun).
  destruct (pb_limits _ _ _ _ _ _ _ _ _ _ _ Hpub) as [Hlim _].
  pose proof (proj1 (Forall_forall _ _) Hlim _ (list_elem_of_lookup_2 _ _ _ HT)) as Hbytes. simpl in Hbytes.
  assert (Hcount_e : byte_count bytes = byte_count pre + (stored_len enc + byte_count post))
    by (by rewrite Eb, !byte_count_app).
  pose proof (byte_count_nonneg pre). pose proof (byte_count_nonneg post).
  pose proof (byte_count_nonneg (encoded_bytes enc)). unfold stored_len in *.
  exists e, bytes, u, (byte_count pre + byte_count (encoded_bytes enc)). split_and!.
  - unfold locate_record, opened. simpl. rewrite (index_get_written index i e Hu) by (done || lia). simpl.
    rewrite manifest_fields. simpl. rewrite list_lookup_imap, HT. simpl. rewrite Ho, Hl. unfold checked_add.
    by zcase; [|lia].
  - by eapply (pb_shards _ _ _ _ _ _ _ _ _ _ _ Hpub).
  - unfold read_record. simpl. destruct Ha as [Es Hst Har He [Hm1 Hm2]]. zcase; [lia|].
    rewrite reserve_granted by lia. rewrite Ho, Eb, get_range_middle by done. simpl.
    rewrite manifest_scope, manifest_fields. simpl. rewrite <- Es in He |- *.
    apply (decode_encode_record (memory := memory)); try done.
    + apply schema_from_nodup.
    + apply metadata_values_fit.
    + apply Forall_forall. intros v Hv. apply metadata_values_elem in Hv as [k Hk]. by eapply Hst.
Qed.

Lemma read_sample_ok validate (i : nat) x rc (X : CacheError -> store -> Prop) :
  samples !! i = Some x -> readers_ok rc s ->
  runs rel s (read_sample_with_cache (opened validate) (Z.of_nat i) rc)
    (fun r s' => s' = s /\ readers_ok r.2 s /\ (r.1 = Ok (x.1, metadata_values x.2) \/ rel = false)) X.
Proof.
  intros Hx Hrc. destruct (read_record_ok validate i x Hx) as (e & bytes & u & stop & Hloc & Hfile & Hread).
  unfold read_sample_with_cache. rewrite Hloc. simpl. apply runs_bind.
  eapply runs_weaken; [eapply (reader_for_ok rel _ bytes rc s X); done| |done].
  intros [reader rc'] s' (-> & Hok & _ & Hres). simpl in *.
  destruct Hres as [[-> _]|Hrel].
  2:{ destruct (reader ≫= _) as [y|err]; [|apply runs_ret; simpl; auto].
      destruct validate; [|apply runs_ret; simpl; auto]. apply runs_bind. simpl. apply runs_ret, runs_ret. simpl. auto. }
  simpl. rewrite Hread. destruct validate.
  - apply runs_bind. simpl. apply runs_ret, runs_ret. simpl. split_and!; [done|done|]. left.
    unfold check_embedded. simpl. rewrite Nat2Z.id. change (map ?f ?l) with (f <$> l).
    rewrite list_lookup_fmap, Hx. simpl. unfold validate_redundant_metadata. rewrite row_eqb_refl; [done|].
    destruct (sample_located i x Hx) as (enc & _ & _ & _ & _ & _ & _ & _ & Ha & _).
    apply Forall_forall. intros v Hv. apply metadata_values_elem in Hv as [k Hk]. by eapply (ac_storable _ _ _ _ Ha).
  - apply runs_ret. simpl. auto.
Qed.

(** A position past the end is refused, whatever the readers. *)
Lemma read_sample_out validate position rc (d : disk) :
  Z.of_nat (length samples) <= position ->
  read_sample_with_cache (opened validate) position rc d =
  (Ok (Err (InvalidCache (lit "sample index " ++ dec position ++ lit " is out of range")), rc), d).
Proof.
  intros Hpos. pose proof lengths as [_ Hlen]. unfold read_sample_with_cache, locate_record, opened. simpl.
  by rewrite index_get_out by (rewrite ?index_bytes_length; lia).
Qed.
End Load.

(** * From the source to the reader *)

Section Roundtrip.
Context {J : ManifestFormat} {JL : ManifestFormatLaws J} {H : Hashing}.
Context {C : NativeCodecs} {memory : Z} {CL : NativeCodecsLaws C memory}.
Context {R : RecordJson} {RL : RecordJsonLaws R} {F : ArrowFiles} {FL : ArrowFilesLaws F}.

(** A nonempty source of accepted samples with one nonempty schema, whose sizes fit the
    machine. *)
Record source_ok (c : NativeCompression) (schema : schema_of_cache) (samples : list sample)
    (encs : list EncodedRecord) : Prop := {
  sk_samples : samples <> [];
  sk_schema : schema <> [];
  sk_accepted : Forall2 (accepted (memory := memory) c schema) samples encs;
  sk_stored : Zsum (map stored_len encs) <= U64_MAX;
  sk_uncompressed : Zsum (map encoded_uncompressed_len encs) <= U64_MAX;
  sk_count : 24 * Z.of_nat (length samples) <= U64_MAX }.

(** Nothing is at or below the path, and its ancestors can be directories. *)
Definition free_path (p : path) (s : store) : Prop :=
  p <> [] /\ (forall k, below p k -> s !! k = None) /\ (forall k b, below k p -> s !! k <> Some (RegularFile b)).

(** The whole write of an accepted source, with or without faults. *)
Lemma write_samples_ok rel p src max_bytes c schema samples encs (s : store) :
  source_ok c schema samples encs -> free_path p s ->
  runs rel s (write_samples p src max_bytes c samples)
    (fun m s' => exists index T mb text,
       m = manifest_of src c schema (Z.of_nat (length samples)) mb index T /\
       published memory c schema p samples encs index T mb text s' /\
       (text = encode m \/ rel = false) /\ settled p s s')
    (fun _ s' => rel = false /\ confined p s s').
Proof.
  intros [Hne Hsch Hacc Hst Hun Hcount] (Hp & Hfree & Hfile). unfold write_samples.
  pose proof (Forall2_length _ _ _ Hacc) as Hlen. pose proof U64_MAX_eq as HU.
  assert (Hx : forall e s', stopped rel p s e s' -> rel = false /\ confined p s s') by (by intros e s' [? [_ ?]]).
  apply runs_bind. eapply runs_weaken.
  { by apply (builder_create_ok (memory := memory) rel p s Hp src max_bytes c schema s eq_refl). }
  2: exact Hx.
  intros b s1 Hb. apply runs_bind. eapply runs_weaken.
  { apply (push_all_ok rel p s src max_bytes c schema samples encs [] [] [] [] [] 0 b s1 Hb Hacc); simpl; lia. }
  2: exact Hx.
  intros b' s2 (index & T & cur & u & Hb'). eapply runs_weaken.
  { apply (builder_finish_ok rel p s Hp src max_bytes c schema Hsch samples encs index T cur u b' s2 Hb' Hne); [done|lia]. }
  2: done.
  intros m s3 (mb & text & Hm & Hpub & Ht & Hset). by exists index, (T ++ [(cur, u)]), mb, text.
Qed.
End Roundtrip.
