(* ===== verification/CacheRoundtrip.v ===== *)
(** The round trip of cache directories ([src/src/dataset_rt/storage.rs]): a source that
    was written reads back, except for floats that JSON cannot carry; with a concrete
    instance of the libraries behind it. *)
From stdpp Require Import base tactics list numbers strings pretty gmap.
From S2P Require Import Prelude Collections Records Binary64 Config Seeds Native Metadata.
From S2P Require Import Manifest FileSystem RecordCodec IndexFile MetadataFile CacheStore ReaderCache StoreProofs StoreReads.
Open Scope Z_scope.

(** * Concrete libraries *)

(** Codecs that store their input, an allocator that grants a megabyte. *)
Definition demo_codecs : NativeCodecs := {|
  reserve := fun n => if n <=? 2 ^ 20 then None else Some (lit "capacity overflow");
  lz4_flex_bound := fun n => n;
  lz4_flex_compress := fun data _ => Finished (Ok data);
  lz4_flex_decompress := fun block _ => Finished (Ok block);
  lz4_bound := fun n => Ok n;
  lz4_compress := fun _ data _ =>
    if byte_count data <? 2 ^ 31 then Finished (Ok (le_bytes 4 (byte_count data) ++ data))
    else Finished (Err (lit "input too long"));
  brotli_bound := fun n => n;
  brotli_compress := fun _ data _ => Finished (Ok data);
  brotli_decompress_stream := fun body _ => Finished (mk_brotli_end ResultSuccess 0 body) |}.

Lemma demo_codecs_laws : NativeCodecsLaws demo_codecs (2 ^ 20).
Proof.
  split; simpl.
  - intros n Hn. destruct (Z.leb_spec n (2 ^ 20)); [done|lia].
  - intros data room block [= ->]. done.
  - intros mode data room out. destruct (Z.ltb_spec (byte_count data) (2 ^ 31)); [|done].
    intros E. apply (f_equal (fun x => match x with Finished (Ok y) => y | _ => [] end)) in E. subst out.
    split; [lia|]. by exists data.
  - intros level data room body [= ->]. done.
Qed.

#[export] Instance json_countable : Countable json.
Proof.
  apply (inj_countable'
    (fun j => match j with JNull => inl None | JBool b => inl (Some b) | JInteger z => inr (inl z)
              | JReal f => inr (inr (inl f)) | JText s => inr (inr (inr s)) end)
    (fun x => match x with inl None => JNull | inl (Some b) => JBool b | inr (inl z) => JInteger z
              | inr (inr (inl f)) => JReal f | inr (inr (inr s)) => JText s end)).
  by intros [].
Defined.

(** The text of an object is the number of its entries; every float has an exact text. *)
Definition demo_record_json : RecordJson := {|
  print_record := fun entries => [Zpos (countable.encode entries)];
  parse_record := fun bytes =>
    match bytes with
    | [Zpos x] => match countable.decode x with Some entries => Ok entries | None => Err (lit "expected value") end
    | _ => Err (lit "expected value")
    end;
  exact_text := fun _ => true |}.

Lemma demo_record_json_laws : RecordJsonLaws demo_record_json.
Proof. split. intros entries _. simpl. by rewrite countable.decode_encode. Qed.

(** A digest that is the text itself, and a writer whose buffer is never full. *)
Definition demo_hashing : Hashing := {|
  sha256 := fun b => b; hex_encode := fun b => b; still_buffered := fun b => length b |}.

Lemma demo_hashing_laws : HashingLaws demo_hashing.
Proof. by split. Qed.

(** * The round trip *)

Section Theorems.
Context {J : ManifestFormat} {JL : ManifestFormatLaws J} {H : Hashing}.
Context {C : NativeCodecs} {memory : Z} {CL : NativeCodecsLaws C memory}.
Context {R : RecordJson} {RL : RecordJsonLaws R} {F : ArrowFiles} {FL : ArrowFilesLaws F}.

(** The cache at [q] opens with and without validation, with the identity of its source,
    its schema, one index row per sample and the rows of its table; sample [i] reads back through any state of the readers,
    and every other position is refused. *)
Definition reads_back (schema : schema_of_cache) (src : pystr) (samples : list sample) (q : path) (s : store) : Prop :=
  forall d validate position, reliable d -> d_store d = s -> exists oc d1,
    load_cache q validate position d = (Ok oc, d1) /\ d_store d1 = s /\ reliable d1 /\
    oc_cache_id oc = cache_id_from_name src /\ index_len (oc_index oc) = Z.of_nat (length samples) /\
    mf_metadata_schema (fields (oc_manifest oc)) = schema /\
    (forall d2, reliable d2 -> d_store d2 = s -> exists d3,
       metadata_rows_of oc d2 = (Ok (Ok (map (fun x => metadata_values x.2) samples)), d3) /\
       reliable d3 /\ d_store d3 = s) /\
    (forall (i : nat) data metadata, samples !! i = Some (data, metadata) ->
     forall rc d2, reliable d2 -> d_store d2 = s -> readers_ok rc s ->
       exists row rc' d3, read_sample_with_cache oc (Z.of_nat i) rc d2 = (Ok (Ok (data, row), rc'), d3) /\
         readers_ok rc' s /\ list_to_map (zip (map fst schema) row) = metadata) /\
    (forall i rc d2, Z.of_nat (length samples) <= i -> exists e,
       read_sample_with_cache oc i rc d2 = (Ok (Err e, rc), d2)).

Lemma opened_rows c schema src samples encs index T mb q s validate d :
  published memory c schema q samples encs index T mb
    (encode (manifest_of src c schema (Z.of_nat (length samples)) mb index T)) s ->
  reliable d -> d_store d = s -> exists d1,
    metadata_rows_of (opened q src c schema samples index T mb validate) d =
      (Ok (Ok (map (fun x => metadata_values x.2) samples)), d1) /\ reliable d1 /\ d_store d1 = s.
Proof.
  intros Hpub Hd Hs. destruct validate; [by exists d|]. unfold metadata_rows_of, opened. simpl.
  rewrite manifest_fields. simpl.
  assert (Hr : runs true s (read_file (path_join q (lit "metadata.arrow"))) (fun b s' => b = mb /\ s' = s) (fun _ _ => False)).
  { eapply runs_read_file; [apply (pb_metadata _ _ _ _ _ _ _ _ _ _ _ Hpub)|done|done]. }
  specialize (Hr d Hs ltac:(done)). unfold attempt, mbind, io_bind.
  destruct (read_file _ d) as [[b|e] d1]; [|by destruct Hr]. destruct Hr as [[-> Hs1] Hr1]. exists d1.
  unfold io_result. rewrite (pb_rows _ _ _ _ _ _ _ _ _ _ _ Hpub). split_and!; auto.
Qed.

Lemma published_reads_back c schema src samples encs index T mb q s :
  24 * Z.of_nat (length samples) <= U64_MAX ->
  published memory c schema q samples encs index T mb
    (encode (manifest_of src c schema (Z.of_nat (length samples)) mb index T)) s ->
  reads_back schema src samples q s.
Proof.
  intros Hcount Hpub d validate position Hd Hs.
  pose proof (load_cache_ok true q src c schema samples encs index T mb s Hpub validate position d Hs ltac:(done)) as Hl.
  destruct (load_cache q validate position d) as [[oc|e] d1]; [|by destruct Hl as [[? _] _]].
  destruct Hl as [[Hs1 ->] Hr1]. eexists _, d1. split_and!; [done|done|by apply Hr1|done| | | | |].
  - simpl. pose proof (lengths q src c schema samples encs index T mb s Hpub) as [_ Hlen].
    unfold index_len, INDEX_ROW_BYTES. rewrite index_bytes_length, Hlen. dlia.
  - simpl. by rewrite (manifest_fields src c schema samples index T mb).
  - intros d2 Hd2 Hs2. by apply (opened_rows c schema src samples encs).
  - intros i data metadata Hi rc d2 Hd2 Hs2 Hrc.
    pose proof (read_sample_ok true q src c schema samples encs index T mb s Hpub Hcount validate i
      (data, metadata) rc (fun _ _ => False) Hi Hrc d2 Hs2 ltac:(done)) as Hr.
    destruct (read_sample_with_cache _ _ _ d2) as [[[res rc']|e] d3]; [|by destruct Hr].
    destruct Hr as [(_ & Hok & [Hres|?]) _]; [|done]. simpl in *. subst res.
    exists (metadata_values metadata), rc', d3. split_and!; [done|done|].
    destruct (sample_located q src c schema samples encs index T mb s Hpub i _ Hi)
      as (enc & _ & _ & _ & _ & _ & _ & _ & Ha & _).
    rewrite <- (ac_schema _ _ _ _ Ha). apply metadata_values_map.
  - intros i rc d2 Hi. eexists. by apply (read_sample_out q src c schema samples encs index T mb s Hpub).
Qed.

(** What the write of an accepted source leaves, wherever its directory is moved. *)
Lemma write_samples_reads p src max_bytes c schema samples encs d :
  source_ok (memory := memory) c schema samples encs -> free_path p (d_store d) -> reliable d ->
  exists m d1, write_samples p src max_bytes c samples d = (Ok m, d1) /\ reliable d1 /\ settled p (d_store d) (d_store d1) /\
    forall q s, (forall r, s !! (q ++ r) = d_store d1 !! (p ++ r)) -> reads_back schema src samples q s.
Proof.
  intros Hsource Hfree Hd.
  pose proof (write_samples_ok true p src max_bytes c schema samples encs (d_store d) Hsource Hfree d eq_refl
    ltac:(done)) as Hw.
  destruct (write_samples p src max_bytes c samples d) as [[m|e] d1]; [|by destruct Hw as [[? _] _]].
  destruct Hw as [(index & T & mb & text & Em & Hpub & [Et|?] & Hset) Hrel]; [|done]. exists m, d1.
  split_and!; [done|by apply Hrel|done|]. intros q s Hmove. subst text m.
  apply (published_moves _ _ _ p q _ _ _ _ _ _ _ s Hmove) in Hpub.
  eapply published_reads_back; [exact (sk_count _ _ _ _ Hsource)|exact Hpub].
Qed.

(** C13. A cache reads back exactly what its source gave: on a disk where no call fails,
    writing any nonempty source of storable samples succeeds, whatever the shard size and
    the codec, and wherever the directory is moved afterwards, opening it succeeds with and
    without validation, gives the identity derived from the source's name and one index row
    per sample, reads sample [i] back with its payload and its metadata through any state of
    the reader cache, and refuses every other position. *)
Theorem cache_roundtrip (p : path) (src : pystr) (max_bytes : Z) (c : NativeCompression)
    (schema : schema_of_cache) (samples : list sample) (encs : list EncodedRecord) (d : disk)
    (Hsource : source_ok (memory := memory) c schema samples encs) (Hfree : free_path p (d_store d)) (Hd : reliable d) :
  exists m d1, write_samples p src max_bytes c samples d = (Ok m, d1) /\
    forall q s, (forall r, s !! (q ++ r) = d_store d1 !! (p ++ r)) -> reads_back schema src samples q s.
Proof.
  destruct (write_samples_reads p src max_bytes c schema samples encs d Hsource Hfree Hd) as (m & d1 & E & _ & _ & Hr).
  by exists m, d1.
Qed.

(** A stored record that fails to decode at its JSON text, whatever bound its shard gives. *)
Definition record_lost (schema : schema_of_cache) (c : NativeCompression) (enc : EncodedRecord) : Prop :=
  forall max_uncompressed_len, encoded_uncompressed_len enc <= max_uncompressed_len ->
  exists e, decode_stored_record (encoded_bytes enc) (whole_record c) schema c max_uncompressed_len = Err (JsonError e).

(** C39. Metadata with a float that is not finite is lost: with every codec, a record of
    such metadata that the writer encoded and stored never decodes again, because the float
    became [null] in its JSON text. *)
Theorem nonfinite_metadata_lost (data : list Z) (metadata : gmap pystr MetadataValue) (c : NativeCompression)
    (enc : EncodedRecord) (name : pystr) (f : pyfloat)
    (Henc : encode_stored_record data (schema_from metadata) (metadata_values metadata) c = Ok enc)
    (Hname : metadata !! name = Some (MFloat f)) (Hf : float_isfinite f = false)
    (Hexact : forall k v, metadata !! k = Some v -> exact_json (value_to_json v) = true)
    (Hmem : encoded_uncompressed_len enc <= memory) :
  record_lost (schema_from metadata) c enc.
Proof.
  intros max_uncompressed_len Hmax. eapply (decode_nonfinite (memory := memory)); [apply schema_from_nodup|exact Henc| |exact Hf| |done|done].
  - apply elem_of_map_to_list in Hname. rewrite <- btree_entries_perm in Hname.
    unfold metadata_values. apply list_elem_of_fmap. by exists (name, MFloat f).
  - apply Forall_forall. intros v Hv. apply metadata_values_elem in Hv as [k Hk]. by eapply Hexact.
Qed.
End Theorems.

#[local] Existing Instance demo_format.
#[local] Existing Instance demo_format_laws.
#[local] Existing Instance demo_codecs.
#[local] Existing Instance demo_codecs_laws.
#[local] Existing Instance demo_record_json.
#[local] Existing Instance demo_record_json_laws.
#[local] Existing Instance demo_arrow.
#[local] Existing Instance demo_arrow_laws.
#[local] Existing Instance demo_hashing.

(** * A concrete source *)

(** Three labelled payloads in shards of twenty bytes. *)
Definition demo_samples : list sample :=
  [([1; 2; 3], {[ lit "label" := MInt 7 ]}); ([], {[ lit "label" := MInt (-1) ]}); ([9], {[ lit "label" := MInt 0 ]})].
Definition demo_schema : schema_of_cache := [(lit "label", KindInt)].
Definition demo_directory : path := [lit "caches"; lit "tmp"; lit "a"].
Definition demo_disk : disk := mk_disk ∅ [] 4096.

Definition demo_encs (c : NativeCompression) : list EncodedRecord :=
  match try_collect (fun x => encode_stored_record x.1 demo_schema (metadata_values x.2) c) demo_samples with
  | Ok encs => encs | Err _ => [] end.

(** Each condition of a concrete sample by computation. *)
Ltac demo_accepted :=
  split;
  [ vm_compute; reflexivity
  | intros k v Hk; cbn [snd] in Hk; apply lookup_singleton_Some in Hk as [_ <-]; reflexivity
  | match goal with |- row_addressable ?r =>
      let r' := eval vm_compute in r in replace r with r' by (vm_compute; reflexivity) end;
    split; [constructor; [exact I|constructor]|vm_compute; discriminate]
  | vm_compute; reflexivity
  | split; vm_compute; discriminate ].

Lemma demo_source_ok : source_ok (memory := 2 ^ 20) (NativeLz4Fast 1) demo_schema demo_samples (demo_encs (NativeLz4Fast 1)).
Proof.
  split; [done|done| |vm_compute; discriminate|vm_compute; discriminate|vm_compute; discriminate].
  let e := eval vm_compute in (demo_encs (NativeLz4Fast 1)) in
  replace (demo_encs (NativeLz4Fast 1)) with e by (vm_compute; reflexivity).
  constructor; [demo_accepted|]. constructor; [demo_accepted|]. constructor; [demo_accepted|]. constructor.
Qed.

Lemma cache_roundtrip_witness :
  source_ok (memory := 2 ^ 20) (NativeLz4Fast 1) demo_schema demo_samples (demo_encs (NativeLz4Fast 1)) /\
  free_path demo_directory (d_store demo_disk) /\ reliable demo_disk /\
  exists m d1 oc d3 row rc' d5,
    write_samples demo_directory (lit "a") 20 (NativeLz4Fast 1) demo_samples demo_disk = (Ok m, d1) /\
    load_cache demo_directory true 0 (mk_disk (d_store d1) [] 0) = (Ok oc, d3) /\
    read_sample_with_cache oc 2 new_readers (mk_disk (d_store d1) [] 0) = (Ok (Ok ([9], row), rc'), d5) /\
    list_to_map (zip (map fst demo_schema) row) =@{gmap pystr MetadataValue} {[ lit "label" := MInt 0 ]}.
Proof.
  assert (free_path demo_directory (d_store demo_disk)) as Hfree.
  { split; [done|]. split; [intros k _; apply lookup_empty|]. intros k b _ E. simpl in E. by rewrite lookup_empty in E. }
  assert (reliable demo_disk) as Hrel by constructor.
  split; [exact demo_source_ok|]. split; [exact Hfree|]. split; [exact Hrel|].
  destruct (cache_roundtrip (CL := demo_codecs_laws) demo_directory (lit "a") 20 (NativeLz4Fast 1) demo_schema demo_samples
    (demo_encs (NativeLz4Fast 1)) demo_disk demo_source_ok Hfree Hrel) as (m & d1 & Ew & Hread).
  destruct (Hread demo_directory (d_store d1) ltac:(reflexivity) (mk_disk (d_store d1) [] 0) true 0 ltac:(constructor) eq_refl)
    as (oc & d3 & El & _ & _ & _ & _ & _ & _ & Hs & _).
  destruct (Hs 2%nat [9] {[ lit "label" := MInt 0 ]} eq_refl new_readers (mk_disk (d_store d1) [] 0)
    ltac:(constructor) eq_refl (new_readers_ok _)) as (row & rc' & d5 & Er & _ & Hmap).
  exists m, d1, oc, d3, row, rc', d5. split; [exact Ew|]. split; [exact El|]. split; [exact Er|exact Hmap].
Defined.

(** A source whose only float is a NaN is written, and cannot be read. *)
Definition nan_metadata : gmap pystr MetadataValue := {[ lit "score" := MFloat NotANumber ]}.

Lemma nonfinite_metadata_lost_witness :
  exists enc e, encode_stored_record [1] (schema_from nan_metadata) (metadata_values nan_metadata) NativeNone = Ok enc /\
    decode_stored_record (encoded_bytes enc) true (schema_from nan_metadata) NativeNone 100 = Err (JsonError e).
Proof.
  destruct (encode_stored_record [1] (schema_from nan_metadata) (metadata_values nan_metadata) NativeNone)
    as [enc|] eqn:Henc; [|vm_compute in Henc; discriminate Henc].
  assert (encoded_uncompressed_len enc <= 100) as Hl.
  { apply (f_equal (fun r => match r with Ok enc => encoded_uncompressed_len enc | Err _ => 0 end)) in Henc.
    rewrite <- Henc. vm_compute. discriminate. }
  destruct (nonfinite_metadata_lost (CL := demo_codecs_laws) [1] nan_metadata NativeNone enc (lit "score") NotANumber Henc)
    with 100 as [e He].
  - apply lookup_singleton_eq.
  - reflexivity.
  - intros k v Hk. unfold nan_metadata in Hk. apply lookup_singleton_Some in Hk as [_ <-]. reflexivity.
  - lia.
  - exact Hl.
  - exists enc, e. split; [reflexivity|exact He].
Defined.

(** The flush that ends the manifest is not checked: when it fails the write still
    reports success, and the directory cannot be opened. *)
Definition full_disk : disk :=
  mk_disk ∅ (replicate 15 None ++ [Some (mk_fault (lit "No space left on device (os error 28)") [] (fun _ => true))]) 4096.

Lemma manifest_flush_unreported :
  match write_samples demo_directory (lit "a") 20 (NativeLz4Fast 1) demo_samples full_disk with
  | (Ok _, d) => match load_cache demo_directory false 0 (mk_disk (d_store d) [] 0) with
                 | (Err (JsonError _), _) => true | _ => false end
  | _ => false
  end = true.
Proof. vm_compute. reflexivity. Qed.
