(* ===== verification/NativeInput.v ===== *)
(** What the native writer takes from Python ([src/src/dataset_rt/writer.rs]): source
    names, the samples a source yields, the writer's configuration, and Python exceptions
    as native errors. *)
From stdpp Require Import base tactics list numbers strings gmap.
From S2P Require Import Prelude Collections Records Binary64 Config Seeds PyStr Writer Native Metadata Interface Dataset FileSystem.
Open Scope Z_scope.

(** * Objects a source yields *)

(** Buffers ([bytes], [bytearray], [memoryview]), values, and the containers whose
    elements the writer or [bytearray()] looks at. *)
Inductive pyobj :=
| OBuffer (bytes : list Z)
| OValue (v : pyval)
| OList (elements : list pyval)
| ODict (entries : list (pyval * pyval))
| OTuple (elements : list pyobj).

(** One round of the loop over a source: the signal check raises, or [next()] answers. *)
Inductive pull :=
| Signal (e : py_exc)
| Pull (r : outcome pyobj).

(** A source: what reading [name] gives, what the signal check before it raises, and
    what [iter()] gives, with the rounds until the iterator is exhausted. *)
Record source := mk_py_source {
  src_name : outcome pyval;
  src_signal : option py_exc;
  src_iter : outcome (list pull) }.

(** [WriterInput]. *)
Record WriterInput := mk_writer_input {
  wi_data : list Z;
  wi_metadata : gmap pystr MetadataValue }.

(** [str] objects that [to_str] can borrow: no lone surrogates. *)
Definition valid_utf8 (s : pystr) : bool := match utf8_length s with Some _ => true | None => false end.

Section Input.
(** The text of a Python exception, the exception of a failed conversion to a string,
    and the one of a string with lone surrogates. *)
Context (pyerr_text : py_exc -> pystr) (not_a_string : pyval -> py_exc) (not_utf8 : pystr -> py_exc).

(** [py_error]: user interrupts keep their meaning. *)
Definition py_error (e : py_exc) : CacheError :=
  match e with
  | KeyboardInterrupt _ => CacheKeyboardInterrupt (pyerr_text e)
  | SystemExit _ => CacheSystemExit (pyerr_text e)
  | _ => PythonError (pyerr_text e)
  end.

Definition of_python {A : Type} (r : outcome A) : CacheResult A :=
  match r with Ret a => Ok a | Raise e => Err (py_error e) end.

(** [extract::<String>()]. *)
Definition extract_string (v : pyval) : outcome pystr :=
  match v with
  | PStr s => if valid_utf8 s then Ret s else Raise (not_utf8 s)
  | _ => Raise (not_a_string v)
  end.

(** * Payloads *)

(** One element of the iterable [bytearray()] is given. *)
Definition byte_of (v : pyval) : option Z :=
  match v with
  | PInt z => if (0 <=? z) && (z <? 256) then Some z else None
  | PBool b => Some (Z.b2z b)
  | _ => None
  end.

Fixpoint bytes_of (l : list pyval) : option (list Z) :=
  match l with
  | [] => Some []
  | v :: r => b ← byte_of v; bs ← bytes_of r; Some (b :: bs)
  end.

(** [bytearray(n)] of a count: so many zero bytes. *)
Definition zero_bytes (n : Z) : option (list Z) :=
  if (0 <=? n) && (n <? 2 ^ 63) then Some (replicate (Z.to_nat n) 0) else None.

(** [PyByteArray::from], which is the call [bytearray(value)]. *)
Definition bytearray_from (o : pyobj) : option (list Z) :=
  match o with
  | OBuffer bytes => Some bytes
  | OValue (PInt n) => zero_bytes n
  | OValue (PBool b) => zero_bytes (Z.b2z b)
  | OValue _ => None
  | OList elements => bytes_of elements
  | ODict entries => bytes_of entries.*1
  | OTuple elements => vs ← mapM (fun o => match o with OValue v => Some v | _ => None end) elements; bytes_of vs
  end.

Definition extract_data (o : pyobj) : CacheResult (list Z) :=
  ok_or (bytearray_from o) (InvalidInput (lit "data must be bytes-like")).

(** * Metadata *)

Definition is_i64_int (z : Z) : bool := (- 2 ^ 63 <=? z) && (z <? 2 ^ 63).

(** [extract_metadata_value]: the first conversion that succeeds. *)
Definition extract_metadata_value (v : pyval) : CacheResult MetadataValue :=
  let refused := Err (InvalidInput (lit "metadata values must be bool, int, float, or str")) in
  match v with
  | PBool b => Ok (MBool b)
  | PInt z =>
      if is_i64_int z then Ok (MInt z)
      else match float_of_int z with Ret f => Ok (MFloat f) | Raise _ => refused end
  | PFloat f => Ok (MFloat f)
  | PStr s => if valid_utf8 s then Ok (MString s) else refused
  | _ => refused
  end.

Definition extract_key (k : pyval) : CacheResult pystr :=
  match k with
  | PStr s => if valid_utf8 s then Ok s else Err (py_error (not_utf8 s))
  | _ => Err (InvalidInput (lit "metadata keys must be strings"))
  end.

Fixpoint extract_entries (entries : list (pyval * pyval)) (metadata : gmap pystr MetadataValue)
  : CacheResult (gmap pystr MetadataValue) :=
  match entries with
  | [] => Ok metadata
  | (k, v) :: rest =>
      key ← extract_key k;
      value ← extract_metadata_value v;
      extract_entries rest (<[key := value]> metadata)
  end.

Definition extract_metadata (o : pyobj) : CacheResult (gmap pystr MetadataValue) :=
  match o with
  | ODict entries => extract_entries entries ∅
  | _ => Err (InvalidInput (lit "metadata must be a dict"))
  end.

Definition extract_cache_input (o : pyobj) : CacheResult WriterInput :=
  match o with
  | OTuple [data; metadata] =>
      data ← extract_data data;
      metadata ← extract_metadata metadata;
      Ok (mk_writer_input data metadata)
  | OTuple _ => Err (InvalidInput (lit "CacheInput must contain data and metadata"))
  | _ => Err (InvalidInput (lit "CacheSource must yield CacheInput tuples"))
  end.

(** * Source names *)

(** [std::path::Component] on Unix. *)
Inductive component := RootDir | CurDir | ParentDir | Normal (segment : pystr).

(** [Path::new(name).components()]: empty segments and [.] disappear, except for a
    leading [.]. *)
Definition segment_component (leading : bool) (segment : pystr) : list component :=
  if bool_decide (segment = []) then []
  else if bool_decide (segment = lit ".") then (if leading then [CurDir] else [])
  else if bool_decide (segment = lit "..") then [ParentDir]
  else [Normal segment].

Definition components (name : pystr) : list component :=
  match split_char 47 name with
  | [] => []
  | first :: rest =>
      (if bool_decide (head name = Some 47) then [RootDir] else segment_component true first) ++
      concat (map (segment_component false) rest)
  end.

Definition native_validate_source_name (name : pystr) : CacheResult unit :=
  if bool_decide (name = []) then Err (InvalidInput (lit "CacheSource.name must not be empty"))
  else match components name with
       | [Normal _] => Ok tt
       | _ => Err (InvalidInput (lit "CacheSource.name must be a plain path segment"))
       end.

Definition extract_source_name (s : source) : CacheResult pystr :=
  value ← of_python (src_name s);
  name ← of_python (extract_string value);
  _ ← native_validate_source_name name;
  Ok name.

(** The directory entry a validated name stands for. *)
Definition directory_entry (name : pystr) : pystr :=
  match components name with [Normal segment] => segment | _ => name end.

Definition tmp : pystr := lit "tmp".

Definition cache_path_for_source (base : path) (name : pystr) : path := base ++ [directory_entry name].
Definition temp_cache_path_for_source (base : path) (name : pystr) : path := base ++ [tmp; directory_entry name].

(** [path_to_string(cache_path)]: the base as written, and the name as given. *)
Definition cache_path_text (base_text name : pystr) : pystr :=
  if bool_decide (last base_text = Some 47) then base_text ++ name else base_text ++ lit "/" ++ name.
(** * Configuration *)

(** [WriterConfig] of [writer.rs], without its pool, progress bar and profiler. *)
Record NativeWriterConfig := mk_native_config {
  nw_max_shard_bytes : Z;
  nw_prefetch_size : Z;
  nw_num_workers : Z;
  nw_shard_compression : NativeCompression;
  nw_validate_cache : bool;
  nw_reuse_existing : bool }.

(** [MaxShardBytes::new], [PrefetchSize::new] and [NumWorkers::new]. *)
Definition positive_size (message : pystr) (n : Z) : CacheResult Z :=
  if n =? 0 then Err (InvalidInput message) else Ok n.

(** A refused policy: an integer that does not fit [i32] is a Python error. *)
Definition policy_error (message : pystr) : CacheError :=
  let conversion := lit "out of range integral type conversion attempted" in
  if bool_decide (message = conversion) then py_error (OtherException (lit "OverflowError") conversion)
  else InvalidInput message.

Definition extract_writer_config (c : WriterConfig) (num_workers : Z) (reuse_existing : bool)
  : CacheResult NativeWriterConfig :=
  max_shard_bytes ← of_python (extract_u64 (max_shard_bytes c));
  prefetch ← of_python (extract_u64 (writer_prefetch_size c));
  max_shard_bytes ← positive_size (lit "max_shard_bytes must be greater than zero") max_shard_bytes;
  prefetch ← positive_size (lit "prefetch_size must be greater than zero") prefetch;
  compression ← match extract_shard_compression (shard_compression c) with
                | Ok n => Ok n
                | Err m => Err (policy_error m)
                end;
  Ok (mk_native_config max_shard_bytes prefetch num_workers compression (writer_validate_cache c) reuse_existing).
End Input.

(** The writer converts what it is documented to refuse: a count given as data
    becomes that many zero bytes, a list of small integers becomes its bytes, and
    integer metadata outside of 64 bits becomes a float, whose kind then fixes the
    column; buffers, and integers that fit, are taken as they are. *)
Theorem extraction_coerces :
  (forall bytes, extract_data (OBuffer bytes) = Ok bytes) /\
  (forall n, 0 <= n < 2 ^ 63 -> extract_data (OValue (PInt n)) = Ok (replicate (Z.to_nat n) 0)) /\
  (forall bytes, Forall (fun b => 0 <= b < 256) bytes -> extract_data (OList (map PInt bytes)) = Ok bytes) /\
  (forall z, is_i64_int z = true -> extract_metadata_value (PInt z) = Ok (MInt z)) /\
  (forall z f, is_i64_int z = false -> float_of_int z = Ret f -> extract_metadata_value (PInt z) = Ok (MFloat f)).
Proof.
  split_and!.
  - done.
  - intros n Hn. unfold extract_data. simpl. unfold zero_bytes. destruct (Z.leb_spec 0 n), (Z.ltb_spec n (2 ^ 63)); try lia. done.
  - intros bytes Hb. unfold extract_data. simpl. induction Hb as [|b bytes Hb _ IH]; [done|]. simpl.
    destruct (Z.leb_spec 0 b), (Z.ltb_spec b 256); try lia. simpl. by destruct (bytes_of (map PInt bytes)); simplify_eq/=.
  - intros z Hz. simpl. by rewrite Hz.
  - intros z f Hz Hf. simpl. by rewrite Hz, Hf.
Qed.
