(* ===== verification/NativeWriter.v ===== *)
(** The native writer ([src/src/dataset_rt/writer.rs] and [writer/pipeline.rs]): one
    source written through the sample pipeline into a temporary directory and published
    by a rename, and a list of sources written through one pipeline of events. Timers,
    progress bars and the profiler are those of [Observability]. *)
From stdpp Require Import base tactics list numbers strings gmap.
From S2P Require Import Prelude Collections Records Binary64 Config Seeds PyStr Writer Native Metadata Manifest.
From S2P Require Import FileSystem RecordCodec OrderedPipeline IndexFile MetadataFile CacheStore NativeInput.
Open Scope Z_scope.

(** [(status, source name, path or message)]. *)
Abbreviation CacheWriteRecord := (pystr * pystr * pystr)%type.

Definition success_write_result (name text : pystr) : CacheWriteRecord := (lit "success", name, text).
Definition error_write_message (name message : pystr) : CacheWriteRecord := (lit "error", name, message).
Definition error_write_result (name : pystr) (e : CacheError) : CacheWriteRecord :=
  error_write_message name (display e).
Definition source_label (index : nat) : pystr := lit "source[" ++ dec (Z.of_nat index) ++ lit "]".

(** Errors that stop the whole write instead of one source. *)
Definition is_interrupt (e : CacheError) : bool :=
  match e with CacheKeyboardInterrupt _ | CacheSystemExit _ => true | _ => false end.

Definition sample_overflow : CacheError := InvalidInput (lit "sample sequence overflowed u64").
Definition pipeline_overflow : CacheError := InvalidInput (lit "pipeline sequence overflowed u64").

(** [if let Err(error) = m { cleanup?; return Err(error) }]. *)
Definition on_error {A : Type} (m : io A) (cleanup : io unit) : io A :=
  r ← attempt m;
  match r with
  | Ok a => mret a
  | Err e => _ ← cleanup; io_result (Err e)
  end.

(** * Paths *)

Definition prepare_cache_paths (cache_path temp_path : path) : io unit :=
  present ← exists_path cache_path;
  if (present : bool)
  then io_result (Err (InvalidInput (lit "cache path already exists: " ++ display_path cache_path)))
  else
    stale ← exists_path temp_path;
    if (stale : bool) then remove_dir_all temp_path else mret tt.

Definition cleanup_temp_cache (temp_path : path) : io unit :=
  present ← exists_path temp_path;
  if (present : bool) then remove_dir_all temp_path else mret tt.

Definition publish_cache (temp_path cache_path : path) : io unit := rename_directory temp_path cache_path.

Section Writer.
Context {J : ManifestFormat} {H : Hashing} {C : NativeCodecs} {R : RecordJson} {F : ArrowFiles}.
Context (pyerr_text : py_exc -> pystr) (not_a_string : pyval -> py_exc) (not_utf8 : pystr -> py_exc).
(** The base directory and the text it was given as. *)
Context (base : path) (base_text : pystr) (cfg : NativeWriterConfig).

Definition parallelism : nat := Z.to_nat (Z.min (nw_prefetch_size cfg) (nw_num_workers cfg)).

(** * One source *)

(** The committer of [commit_ready_samples]. *)
Definition commit_sample (x : WriterInput) (b : CacheBuilder) : io CacheBuilder :=
  '(_, b) ← push_sample (wi_data x) (wi_metadata x) b; mret b.

(** One item of a source. *)
Definition pulled_input (r : outcome pyobj) : CacheResult WriterInput :=
  item ← of_python pyerr_text r; extract_cache_input pyerr_text not_utf8 item.

(** [ingest_python_samples]. *)
Fixpoint ingest_python_samples (sequence : Z) (pulls : list pull) (pl : pipeline) : io (pipeline (E := WriterInput)) :=
  match pulls with
  | [] => mret pl
  | Signal e :: _ => io_result (Err (py_error pyerr_text e))
  | Pull r :: rest =>
      x ← io_result (pulled_input r);
      pl ← submit commit_sample sample_overflow sequence x pl;
      next ← io_result (ok_or (checked_add sequence 1) sample_overflow);
      ingest_python_samples next rest pl
  end.

Definition write_with_pipeline (pulls : list pull) (b : CacheBuilder) (schedule : list wait) : io unit :=
  _ ← io_result (ensure (negb (parallelism =? 0)%nat) (InvalidInput (lit "channel capacity must be positive")));
  pl ← ingest_python_samples 0 pulls (new_pipeline b parallelism schedule);
  b ← finish_pipeline commit_sample sample_overflow pl;
  _ ← builder_finish b;
  mret tt.

(** [write_named_source]: an [iter()] that raises leaves the temporary directory. *)
Definition write_named_source (s : source) (name : pystr) (schedule : list wait) : io path :=
  let cache_path := cache_path_for_source base name in
  reused ← (if nw_reuse_existing cfg then exists_path cache_path else mret false);
  if (reused : bool)
  then _ ← (if nw_validate_cache cfg then _ ← load_cache cache_path true 0; mret tt else mret tt);
       mret cache_path
  else
    let temp_path := temp_cache_path_for_source base name in
    _ ← prepare_cache_paths cache_path temp_path;
    b ← on_error (builder_create temp_path name (nw_max_shard_bytes cfg) (nw_shard_compression cfg))
          (cleanup_temp_cache temp_path);
    pulls ← io_result (of_python pyerr_text (src_iter s));
    _ ← on_error (write_with_pipeline pulls b schedule) (cleanup_temp_cache temp_path);
    _ ← on_error (publish_cache temp_path cache_path) (cleanup_temp_cache temp_path);
    mret cache_path.

(** [write_one_source_result]. *)
Definition write_one_source_result (s : source) (index : nat) (schedule : list wait) : io CacheWriteRecord :=
  match extract_source_name pyerr_text not_a_string not_utf8 s with
  | Err e => if is_interrupt e then io_result (Err e) else mret (error_write_result (source_label index) e)
  | Ok name =>
      r ← attempt (write_named_source s name schedule);
      match r with
      | Ok _ => mret (success_write_result name (cache_path_text base_text name))
      | Err e => if is_interrupt e then io_result (Err e) else mret (error_write_result name e)
      end
  end.

(** * The source a list writer is working on *)

Record SourceWriteStart := mk_start {
  st_source_index : nat;
  st_source_name : pystr;
  st_cache_path : path;
  st_temp_path : path }.

Record ActiveSourceWrite := mk_active_write {
  aw_start : SourceWriteStart;
  aw_builder : option CacheBuilder;
  aw_failure : option pystr }.

(** [ActiveSourceWrite::cleanup_temp_cache]: a failed cleanup is added to the failure. *)
Definition active_cleanup (a : ActiveSourceWrite) : io ActiveSourceWrite :=
  r ← attempt (cleanup_temp_cache (st_temp_path (aw_start a)));
  mret match r with
       | Ok _ => a
       | Err e =>
           mk_active_write (aw_start a) (aw_builder a)
             (Some match aw_failure a with
                   | Some message => message ++ lit "; cleanup failed: " ++ display e
                   | None => display e
                   end)
       end.

Definition mark_failed (e : CacheError) (a : ActiveSourceWrite) : io ActiveSourceWrite :=
  let failure := match aw_failure a with Some m => m | None => display e end in
  active_cleanup (mk_active_write (aw_start a) None (Some failure)).

Definition active_new (start : SourceWriteStart) : io ActiveSourceWrite :=
  r ← attempt (builder_create (st_temp_path start) (st_source_name start) (nw_max_shard_bytes cfg)
                 (nw_shard_compression cfg));
  match r with
  | Ok b => mret (mk_active_write start (Some b) None)
  | Err e => active_cleanup (mk_active_write start None (Some (display e)))
  end.

Definition active_push_sample (x : WriterInput) (a : ActiveSourceWrite) : io ActiveSourceWrite :=
  match aw_failure a, aw_builder a with
  | Some _, _ => mret a
  | None, None => mark_failed WorkerFailed a
  | None, Some b =>
      r ← attempt (commit_sample x b);
      match r with
      | Ok b => mret (mk_active_write (aw_start a) (Some b) None)
      | Err e => mark_failed e a
      end
  end.

Definition error_result (a : ActiveSourceWrite) : io CacheWriteRecord :=
  a ← active_cleanup (mk_active_write (aw_start a) None (aw_failure a));
  mret (error_write_message (st_source_name (aw_start a))
          match aw_failure a with Some m => m | None => display WorkerFailed end).

Definition active_finish (a : ActiveSourceWrite) : io CacheWriteRecord :=
  let start := aw_start a in
  let failed (e : CacheError) := (a ← mark_failed e (mk_active_write start None None); error_result a) in
  match aw_failure a, aw_builder a with
  | Some _, _ => error_result a
  | None, None => failed WorkerFailed
  | None, Some b =>
      r ← attempt (builder_finish b);
      match r with
      | Err e => failed e
      | Ok _ =>
          p ← attempt (publish_cache (st_temp_path start) (st_cache_path start));
          match p with
          | Err e => failed e
          | Ok _ => mret (success_write_result (st_source_name start) (cache_path_text base_text (st_source_name start)))
          end
      end
  end.

(** * The committer *)

Inductive PipelineEvent :=
| SourceResult (index : nat) (record : CacheWriteRecord)
| BeginSource (start : SourceWriteStart)
| Sample (x : WriterInput)
| EndSource
| AbortSource (message : pystr).

Record PipelineCommitter := mk_committer {
  pc_results : list (option CacheWriteRecord);
  pc_active : option ActiveSourceWrite }.

Definition record_result (index : nat) (record : CacheWriteRecord) (c : PipelineCommitter) : CacheResult PipelineCommitter :=
  match pc_results c !! index with
  | Some None => Ok (mk_committer (<[index := Some record]> (pc_results c)) (pc_active c))
  | _ => Err WorkerFailed
  end.

Definition commit_event (e : PipelineEvent) (c : PipelineCommitter) : io PipelineCommitter :=
  match e, pc_active c with
  | SourceResult index record, _ => io_result (record_result index record c)
  | BeginSource start, None => a ← active_new start; mret (mk_committer (pc_results c) (Some a))
  | Sample x, Some a => a ← active_push_sample x a; mret (mk_committer (pc_results c) (Some a))
  | EndSource, Some a =>
      record ← active_finish a;
      io_result (record_result (st_source_index (aw_start a)) record (mk_committer (pc_results c) None))
  | AbortSource message, Some a =>
      a ← mark_failed (InvalidInput message) a;
      record ← error_result a;
      io_result (record_result (st_source_index (aw_start a)) record (mk_committer (pc_results c) None))
  | _, _ => io_result (Err WorkerFailed)
  end.

Definition cleanup_unfinished_source (c : PipelineCommitter) : io unit :=
  match pc_active c with
  | Some a => _ ← mark_failed WorkerFailed a; mret tt
  | None => mret tt
  end.

(** * Ingestion *)

Abbreviation list_pipeline := (pipeline (E := PipelineEvent) (S := PipelineCommitter)).

(** What ingestion leaves: its result, the next sequence and the pipeline. A wait that
    fails leaves the pipeline as it was. *)
Record ingress := mk_ingress { in_next_sequence : Z; in_pipeline : list_pipeline }.

Definition disturbed (pl : list_pipeline) : list_pipeline :=
  mk_pipeline (pl_state pl) (pl_pending pl) (pl_next_sequence pl) (pl_in_flight pl) (pl_parallelism pl)
    (tail (pl_schedule pl)).

Definition send_event (e : PipelineEvent) (i : ingress) : io (CacheResult unit * ingress) :=
  match checked_add (in_next_sequence i) 1 with
  | None => mret (Err pipeline_overflow, i)
  | Some next =>
      r ← attempt (submit commit_event pipeline_overflow (in_next_sequence i) e (in_pipeline i));
      mret match r with
           | Ok pl => (Ok tt, mk_ingress next pl)
           | Err error => (Err error, mk_ingress (in_next_sequence i) (disturbed (in_pipeline i)))
           end
  end.

(** The samples of one source: each is sent, an error ends them. *)
Fixpoint ingest_source_samples (pulls : list pull) (i : ingress) : io (CacheResult unit * ingress) :=
  match pulls with
  | [] => mret (Ok tt, i)
  | Signal e :: _ => mret (Err (py_error pyerr_text e), i)
  | Pull r :: rest =>
      match pulled_input r with
      | Err e => mret (Err e, i)
      | Ok x =>
          '(sent, i) ← send_event (Sample x) i;
          match sent with
          | Ok _ => ingest_source_samples rest i
          | Err e => mret (Err e, i)
          end
      end
  end.

(** [existing_cache_result]. *)
Definition existing_cache_result (name : pystr) : io CacheWriteRecord :=
  let success := success_write_result name (cache_path_text base_text name) in
  if negb (nw_validate_cache cfg) then mret success
  else r ← attempt (load_cache (cache_path_for_source base name) true 0);
       mret match r with Ok _ => success | Err e => error_write_result name e end.

(** A source whose error is not an interrupt is aborted; the others go on. *)
Definition end_or_abort (r : CacheResult unit) (i : ingress) : io (CacheResult unit * ingress) :=
  match r with
  | Ok _ => send_event EndSource i
  | Err e => if is_interrupt e then mret (Err e, i) else send_event (AbortSource (display e)) i
  end.

Definition ingest_one_source (s : source) (index : nat) (i : ingress) : io (CacheResult unit * ingress) :=
  match extract_source_name pyerr_text not_a_string not_utf8 s with
  | Err e => if is_interrupt e then mret (Err e, i)
             else send_event (SourceResult index (error_write_result (source_label index) e)) i
  | Ok name =>
      let cache_path := cache_path_for_source base name in
      let temp_path := temp_cache_path_for_source base name in
      reused ← (if nw_reuse_existing cfg then exists_path cache_path else mret false);
      if (reused : bool)
      then record ← existing_cache_result name; send_event (SourceResult index record) i
      else
        prepared ← attempt (prepare_cache_paths cache_path temp_path);
        match prepared with
        | Err e => send_event (SourceResult index (error_write_result name e)) i
        | Ok _ =>
            '(sent, i) ← send_event (BeginSource (mk_start index name cache_path temp_path)) i;
            match sent with
            | Err e => mret (Err e, i)
            | Ok _ =>
                match of_python pyerr_text (src_iter s) with
                | Err e => end_or_abort (Err e) i
                | Ok pulls => '(r, i) ← ingest_source_samples pulls i; end_or_abort r i
                end
            end
        end
  end.

Fixpoint ingest_source_list (sources : list source) (index : nat) (i : ingress) : io (CacheResult unit * ingress) :=
  match sources with
  | [] => mret (Ok tt, i)
  | s :: rest =>
      match src_signal s with
      | Some e => mret (Err (py_error pyerr_text e), i)
      | None =>
          '(r, i) ← ingest_one_source s index i;
          match r with
          | Ok _ => ingest_source_list rest (S index) i
          | Err e => mret (Err e, i)
          end
      end
  end.

(** [ensure_unique_source_paths]. *)
Fixpoint ensure_unique_source_paths (seen : list path) (sources : list source) : CacheResult unit :=
  match sources with
  | [] => Ok tt
  | s :: rest =>
      match extract_source_name pyerr_text not_a_string not_utf8 s with
      | Err _ => ensure_unique_source_paths seen rest
      | Ok name =>
          let cache_path := cache_path_for_source base name in
          if bool_decide (cache_path ∈ seen)
          then Err (InvalidInput (lit "duplicate generated cache path: " ++ cache_path_text base_text name))
          else ensure_unique_source_paths (cache_path :: seen) rest
      end
  end.

(** [finish_incomplete]: drain while it works, then clean the unfinished source. *)
Fixpoint drain_incomplete (fuel : nat) (pl : list_pipeline) : io list_pipeline :=
  match pl_in_flight pl, fuel with
  | [], _ | _, O => mret pl
  | _, S fuel =>
      r ← attempt (complete_one commit_event pipeline_overflow pl);
      match r with
      | Ok pl => drain_incomplete fuel pl
      | Err _ => mret (disturbed pl)
      end
  end.

Definition finish_incomplete (pl : list_pipeline) : io unit :=
  pl ← drain_incomplete (length (pl_in_flight pl)) pl;
  cleanup_unfinished_source (pl_state pl).

(** [finish], and the [Drop] that cleans up when it fails. *)
Fixpoint drain_or_drop (fuel : nat) (pl : list_pipeline) : io list_pipeline :=
  match pl_in_flight pl, fuel with
  | [], _ | _, O => mret pl
  | _, S fuel =>
      r ← attempt (complete_one commit_event pipeline_overflow pl);
      match r with
      | Ok pl => drain_or_drop fuel pl
      | Err e => _ ← cleanup_unfinished_source (pl_state pl); io_result (Err e)
      end
  end.

Definition finish_list (pl : list_pipeline) : io (list (option CacheWriteRecord)) :=
  pl ← drain_or_drop (length (pl_in_flight pl)) pl;
  if bool_decide (pl_pending pl = ∅) then mret (pc_results (pl_state pl))
  else _ ← cleanup_unfinished_source (pl_state pl); io_result (Err WorkerFailed).

(** [complete_write_results]. *)
Definition complete_write_results (results : list (option CacheWriteRecord)) : CacheResult (list CacheWriteRecord) :=
  try_collect (fun r => ok_or r WorkerFailed) results.

Definition write_source_list (sources : list source) (schedule : list wait) : io (list CacheWriteRecord) :=
  _ ← io_result (ensure_unique_source_paths [] sources);
  _ ← io_result (ensure (negb (parallelism =? 0)%nat) (InvalidInput (lit "channel capacity must be positive")));
  let committer := mk_committer (replicate (length sources) None) None in
  '(r, i) ← ingest_source_list sources 0 (mk_ingress 0 (new_pipeline committer parallelism schedule));
  match r with
  | Err e => _ ← finish_incomplete (in_pipeline i); io_result (Err e)
  | Ok _ => results ← finish_list (in_pipeline i); io_result (complete_write_results results)
  end.

(** [write_cache]. *)
Inductive cache_sources := OneSource (s : source) | SourceList (l : list source).

Definition write_cache (sources : cache_sources) (schedule : list wait) : io (list CacheWriteRecord) :=
  match sources with
  | SourceList l => write_source_list l schedule
  | OneSource s => record ← write_one_source_result s 0 schedule; mret [record]
  end.
End Writer.
