(* ===== verification/WriterSafety.v ===== *)
(** Atomic publication by the native writer: whatever the sources yield, whichever calls
    fail and however the jobs finish, a write changes nothing outside of its [tmp]
    directory except for whole caches, each put in place by one rename. *)
From stdpp Require Import base tactics list numbers strings gmap.
From S2P Require Import Prelude Collections Records Binary64 Config Seeds PyStr Writer Native Metadata Manifest.
From S2P Require Import FileSystem RecordCodec OrderedPipeline IndexFile MetadataFile CacheStore NativeInput NativeWriter.
Open Scope Z_scope.
Implicit Types (s : store).

(** One step of a sequence, with what holds after it. *)
Ltac keep_with P := eapply (keeps_bind _ _ _ _ P).
Ltac keep := eapply (keeps_bind _).

(** * The builder stays below its directory *)

Section Builder.
Context {J : ManifestFormat} {H : Hashing} {C : NativeCodecs} {R : RecordJson} {F : ArrowFiles}.
Context (T p : path) (HT : below T p).

Abbreviation stays := (keeps (touches T)).

(** The builder writes to [p]. *)
Definition builds (b : CacheBuilder) (_ : store) : Prop := cb_path b = p.

Lemma below_shard name : below T (shard_path p name).
Proof. eapply below_trans; [exact HT|]. apply below_app. Qed.
Lemma below_top name : below T (path_join p name).
Proof. eapply below_trans; [exact HT|]. apply below_app. Qed.
Hint Resolve below_shard below_top : core.

Lemma open_shard_create_stays s id : stays s (fun _ _ => True) (open_shard_create p id).
Proof. unfold open_shard_create. keep; [by apply touches_create_file|]. intros. by apply (keeps_ret _). Qed.

Lemma open_shard_finish_stays s c o : stays s (fun _ _ => True) (open_shard_finish p c o).
Proof. unfold open_shard_finish. keep; [by apply touches_append_file|]. intros. by apply (keeps_ret _). Qed.

Lemma hash_file_stays s q : stays s (fun _ _ => True) (hash_file q).
Proof. unfold hash_file. keep; [apply (keeps_read_file _)|]. intros. by apply (keeps_ret _). Qed.

Lemma builder_create_stays s name max_bytes c : stays s builds (builder_create p name max_bytes c).
Proof.
  unfold builder_create. keep; [apply (keeps_exists _)|]. intros [] s1 _ _; [by apply (keeps_result _)|].
  keep; [apply touches_create_dir_all; eapply below_trans; [exact HT|apply below_app]|]. intros _ s2 _ _.
  keep; [apply open_shard_create_stays|]. intros. by apply (keeps_ret _).
Qed.

Lemma rotate_stays s n b : builds b s -> stays s builds (rotate_shard_if_needed n b).
Proof.
  intros Hb. unfold rotate_shard_if_needed. destruct (_ =? _); [by apply (keeps_ret _)|].
  destruct (_ <=? _); [by apply (keeps_ret _)|]. rewrite Hb. keep_with (fun (_ : Z) (_ : store) => True); [by apply (keeps_result _)|].
  intros id s1 _ _. keep; [apply open_shard_create_stays|]. intros o s2 _ _.
  keep; [apply open_shard_finish_stays|]. intros. by apply (keeps_ret _).
Qed.

Lemma commit_sample_stays s x b : builds b s -> stays s builds (commit_sample x b).
Proof.
  intros Hb. unfold commit_sample, push_sample.
  keep_with (fun (r : PushSampleStats * CacheBuilder) (s : store) => builds r.2 s).
  - keep_with (fun (_ : list MetadataValue * schema_of_cache) (_ : store) => True); [by apply (keeps_result _)|].
    intros [row schema] s1 _ _. keep_with (fun (_ : EncodedRecord) (_ : store) => True); [by apply (keeps_result _)|].
    intros enc s2 _ _. keep; [by apply rotate_stays|]. intros b2 s3 _ Hb2.
    keep_with (fun (_ : IndexEntry * OpenShard) (_ : store) => True); [by apply (keeps_result _)|]. intros [] s4 _ _. by apply (keeps_ret _).
  - intros [st b2] s1 _ Hb2. by apply (keeps_ret _).
Qed.

(** A directory with a manifest. *)
Definition complete (s : store) (c : path) : Prop :=
  s !! c = Some Directory /\ exists bytes, s !! path_join c (lit "manifest.json") = Some (RegularFile bytes).

Lemma attempt_append_stays s k bytes (P : store -> Prop) :
  below T k -> P s -> (forall b, P (<[k := RegularFile b]> s)) -> stays s (fun _ => P) (attempt (append_file k bytes)).
Proof.
  intros Hk Hs Hi. apply runs_attempt, runs_perform.
  - intros _ f. destruct (s !! k) as [[]|]; (split; [|done||auto]); try done. by apply touches_insert.
  - destruct (s !! k) as [[]|]; (split; [|done||auto]); try done. by apply touches_insert.
Qed.

Lemma verify_checksum_stays s q expected : stays s (fun _ _ => True) (verify_file_checksum q expected).
Proof. unfold verify_file_checksum. keep; [apply hash_file_stays|]. intros. by apply (keeps_result _). Qed.

Lemma write_manifest_stays s m : p <> [] -> stays s (fun _ s' => complete s' p) (write_manifest p m).
Proof.
  intros Hp. unfold write_manifest. keep; [by apply touches_create_file|]. intros _ s1 _ [Hd ->].
  assert (Hpd : s !! p = Some Directory).
  { by apply parent_directory_app in Hd. }
  assert (Hk : forall s b, s !! p = Some Directory -> complete (<[path_join p (lit "manifest.json") := RegularFile b]> s) p).
  { intros s2 b Hs2. split; [|exists b; apply lookup_insert_eq]. rewrite lookup_insert_ne; [done|].
    intros E. apply (f_equal length) in E. unfold path_join in E. rewrite length_app in E. simpl in E. lia. }
  keep; [by apply touches_append_file|]. intros _ s2 _ [b2 ->].
  keep; [apply (attempt_append_stays _ _ _ (fun s => complete s p)); [done|by repeat apply Hk|]|].
  - intros b. rewrite insert_insert_eq. by repeat apply Hk.
  - intros. by apply (keeps_ret _).
Qed.

Lemma write_metadata_file_stays s schema rows : stays s (fun _ _ => True) (write_metadata_file p schema rows).
Proof.
  unfold write_metadata_file. keep; [by apply touches_create_file|]. intros _ s1 _ _.
  keep_with (fun (_ : list Z) (_ : store) => True); [by apply (keeps_result _)|]. intros bytes s2 _ _.
  keep; [by apply touches_append_file|]. intros _ s3 _ _. apply hash_file_stays.
Qed.

Lemma write_index_file_stays s index : stays s (fun _ _ => True) (write_index_file p index).
Proof.
  unfold write_index_file. keep; [by apply touches_create_file|]. intros _ s1 _ _.
  keep; [by apply touches_append_file|]. intros _ s2 _ _. apply hash_file_stays.
Qed.

Lemma builder_finish_stays s b : p <> [] -> builds b s -> stays s (fun _ s' => complete s' p) (builder_finish b).
Proof.
  intros Hp Hb. unfold builder_finish. case_bool_decide; [by apply (keeps_result _)|]. unfold builds in Hb. rewrite !Hb.
  keep; [apply open_shard_finish_stays|]. intros o s1 _ _. keep; [apply write_metadata_file_stays|]. intros m s2 _ _.
  keep; [apply write_index_file_stays|]. intros i s3 _ _. keep; [by apply write_manifest_stays|]. intros u s4 _ Hc.
  by apply (keeps_ret _).
Qed.

Lemma cleanup_stays s : stays s (fun _ _ => True) (cleanup_temp_cache p).
Proof.
  unfold cleanup_temp_cache. keep; [apply (keeps_exists _)|]. intros [] s1 _ _; [by apply touches_remove_dir_all|].
  by apply (keeps_ret _).
Qed.

Lemma on_error_stays s {A : Type} (m : io A) (P : A -> store -> Prop) :
  stays s P m -> stays s P (on_error m (cleanup_temp_cache p)).
Proof.
  intros Hm. unfold on_error. keep; [by eapply (keeps_attempt _)|]. intros [a|e] s1 _ Hp; [by apply (keeps_ret _)|].
  keep; [apply cleanup_stays|]. intros. by apply (keeps_result _).
Qed.

(** Reading changes nothing. *)
Lemma verify_shards_stays q shards validate : forall s, stays s (fun _ _ => True) (verify_shards q shards validate).
Proof.
  induction shards as [|x shards IH]; intros s; cbn [verify_shards]; [by apply (keeps_ret _)|].
  keep; [apply (keeps_metadata_len _)|]. intros n s1 _ _.
  keep_with (fun (_ : unit) (_ : store) => True); [by apply (keeps_result _)|]. intros _ s2 _ _.
  keep_with (fun (_ : unit) (_ : store) => True); [|intros; apply IH].
  destruct validate; [|by apply (keeps_ret _)]. apply verify_checksum_stays.
Qed.

Lemma load_cache_stays s q validate position : stays s (fun _ _ => True) (load_cache q validate position).
Proof.
  unfold load_cache, read_manifest. keep_with (fun (_ : Manifest Value) (_ : store) => True).
  { keep; [apply (keeps_exists _)|]. intros [] s1 _ _; [|by apply (keeps_result _)].
    keep; [apply (keeps_read_file _)|]. intros. by apply (keeps_result _). }
  intros m s1 _ _. keep_with (fun (_ : unit) (_ : store) => True).
  { destruct validate; [|by apply (keeps_ret _)]. keep; [apply verify_checksum_stays|]. intros. apply verify_checksum_stays. }
  intros _ s2 _ _. keep; [apply verify_shards_stays|]. intros _ s3 _ _. keep; [apply (keeps_read_file _)|]. intros f s4 _ _.
  keep_with (fun (_ : MappedIndex) (_ : store) => True); [by apply (keeps_result _)|]. intros i s5 _ _.
  keep_with (fun (_ : option (list (list MetadataValue))) (_ : store) => True).
  { destruct validate; [keep; [apply (keeps_read_file _)|]; intros b s6 _ _|keep; [apply (keeps_metadata_len _)|]; intros; by apply (keeps_ret _)].
    keep_with (fun (_ : list (list MetadataValue)) (_ : store) => True); [by apply (keeps_result _)|]. intros. by apply (keeps_ret _). }
  intros rows s7 _ _. keep_with (fun (_ : unit) (_ : store) => True); [by apply (keeps_result _)|]. intros. by apply (keeps_ret _).
Qed.
End Builder.

(** * Publication *)

Section Publication.
Context (base : path).
Abbreviation T := (base ++ [tmp]).

(** Outside of [T] the store grew by directories on the way to it and by complete
    caches, and complete caches are as they were. *)
Record advance (s s' : store) : Prop := {
  av_new : forall k, ~ below T k ->
    s' !! k = s !! k \/ (below k T /\ s !! k = None /\ s' !! k = Some Directory) \/
    (exists n, n <> tmp /\ below (base ++ [n]) k /\ complete s' (base ++ [n]));
  av_kept : forall n k, n <> tmp -> complete s (base ++ [n]) -> below (base ++ [n]) k -> s' !! k = s !! k }.

Lemma sibling_apart n k : n <> tmp -> below (base ++ [n]) k -> ~ below T k /\ ~ below k T.
Proof.
  intros Hn [r ->]. rewrite <- app_assoc. split; intros [q E]; rewrite <- !app_assoc in E; apply (inj (app base)) in E;
    injection E; intros; by apply Hn.
Qed.

Lemma complete_top s n : below (base ++ [n]) (path_join (base ++ [n]) (lit "manifest.json")).
Proof. apply below_app. Qed.

Lemma complete_kept s s' n : (forall k, below (base ++ [n]) k -> s' !! k = s !! k) ->
  complete s (base ++ [n]) -> complete s' (base ++ [n]).
Proof.
  intros Hk [Hd [b Hb]]. split; [|exists b]; rewrite Hk; auto; [|apply below_app]. exists []. by rewrite app_nil_r.
Qed.

#[export] Instance advance_preorder : PreOrder advance.
Proof.
  split; [intros s; split; auto|]. intros s1 s2 s3 [N1 K1] [N2 K2]. split.
  - intros k Hk. destruct (N2 k Hk) as [E2|[(Hb & E2 & E2')|H2]]; [| |by right; right].
    + destruct (N1 k Hk) as [E1|[(Hb & E1 & E1')|(n & Hn & Hb & Hc)]]; rewrite E2; [by left|by right; left|].
      right. right. exists n. split_and!; [done|done|]. apply (complete_kept s2); [|done]. intros j Hj. by apply (K2 n).
    + destruct (N1 k Hk) as [E1|[(_ & E1 & E1')|(n & Hn & Hbn & _)]]; [|congruence|by apply (sibling_apart n k) in Hbn as []].
      right. left. split_and!; congruence.
  - intros n k Hn Hc Hb. rewrite (K2 n k Hn), (K1 n k Hn); try done. apply (complete_kept s1); [|done]. intros. by apply (K1 n).
Qed.

Lemma touches_advance s s' : touches T s s' -> advance s s'.
Proof.
  intros Ht. split.
  - intros k Hk. destruct (Ht k Hk) as [?|?]; auto.
  - intros n k Hn _ Hb. destruct (sibling_apart n k Hn Hb) as [Ha Hb']. by destruct (Ht k Ha) as [?|[? _]].
Qed.

Lemma advance_complete s s' n : n <> tmp -> advance s s' -> complete s (base ++ [n]) -> complete s' (base ++ [n]).
Proof. intros Hn [_ K] Hc. apply (complete_kept s); [|done]. intros k Hk. by apply (K n). Qed.

Lemma publish_advances s p n : n <> tmp -> below T p -> complete s p ->
  keeps advance s (fun _ s' => complete s' (base ++ [n])) (publish_cache p (base ++ [n])).
Proof.
  intros Hn Hp Hc. apply (keeps_perform advance); [done|]. intros u s' (-> & _ & _ & Hfree)%rename_effect.
  assert (Hsib : forall m k, below (base ++ [m]) k -> m <> tmp -> ~ below p k).
  { intros m k Hk Hm Hpk. destruct (sibling_apart m k Hm Hk) as [Hx _]. apply Hx. by apply (below_trans _ p). }
  assert (Hc' : complete (renamed p (base ++ [n]) s) (base ++ [n])).
  { destruct Hc as [Hd [b Hb]]. split; [|exists b; unfold path_join; by rewrite lookup_renamed].
    pose proof (lookup_renamed p (base ++ [n]) s []) as E. rewrite !app_nil_r in E. by rewrite E. }
  split; [|done]. split.
  - intros k Hk. destruct (decide (below (base ++ [n]) k)); [right; right; by exists n|left].
    apply lookup_renamed_outside; [|done]. intros ?. apply Hk. by eapply below_trans.
  - intros m k Hm [Hd [b Hb]] Hk. apply lookup_renamed_outside; [by apply (Hsib m)|].
    intros Hnk. assert (m = n) as ->.
    { destruct Hk as [r1 ->], Hnk as [r2 E]. rewrite <- !app_assoc in E. apply (inj (app base)) in E. by injection E. }
    destruct Hfree as [Hf|Hf]; [congruence|]. erewrite has_children_true in Hf; [done|exact Hb|apply below_app|].
    intros E. apply (f_equal length) in E. unfold path_join in E. rewrite !length_app in E. simpl in E. lia.
Qed.

(** The directory of the temporary caches itself is never a target. *)
Lemma publish_tmp_fails s P : keeps advance s P (publish_cache (base ++ [tmp; tmp]) (base ++ [tmp])).
Proof.
  apply (keeps_perform advance); [done|]. intros u s' (_ & Hd & Hpar & Hfree)%rename_effect. exfalso.
  assert (Ht : s !! T = Some Directory).
  { apply (parent_directory_app s T tmp); [by intros [_ E]%app_nil|]. by rewrite <- app_assoc. }
  destruct Hfree as [Hf|Hf]; [congruence|]. erewrite has_children_true in Hf; [done|exact Hd| |].
  - exists [tmp]. by rewrite <- app_assoc.
  - intros E. apply (inj (app base)) in E. discriminate.
Qed.
End Publication.

(** * One source *)

Section Source.
Context {J : ManifestFormat} {H : Hashing} {C : NativeCodecs} {R : RecordJson} {F : ArrowFiles}.
Context (pyerr_text : py_exc -> pystr) (not_a_string : pyval -> py_exc) (not_utf8 : pystr -> py_exc).
Context (base : path) (base_text : pystr) (cfg : NativeWriterConfig).
Abbreviation T := (base ++ [tmp]).
Abbreviation stays := (keeps (touches T)).

Lemma temp_below name : below T (temp_cache_path_for_source base name).
Proof. exists [directory_entry name]. unfold temp_cache_path_for_source. by rewrite <- app_assoc. Qed.

Lemma temp_nonempty name : temp_cache_path_for_source base name <> [].
Proof. unfold temp_cache_path_for_source. by intros [_ E]%app_nil. Qed.
Hint Resolve temp_below temp_nonempty : core.

Lemma advances s {A : Type} (P : A -> store -> Prop) m : stays s P m -> keeps (advance base) s P m.
Proof. apply keeps_of. intros s'. apply touches_advance. Qed.

Lemma prepare_stays s c name : stays s (fun _ _ => True) (prepare_cache_paths c (temp_cache_path_for_source base name)).
Proof.
  unfold prepare_cache_paths. keep; [apply (keeps_exists _)|]. intros [] s1 _ _; [by apply (keeps_result _)|].
  keep; [apply (keeps_exists _)|]. intros [] s2 _ _; [by apply touches_remove_dir_all|by apply (keeps_ret _)].
Qed.

Section Pipelined.
Context (p : path) (Hp : below T p) (Hne : p <> []).

Lemma ingest_stays pulls : forall sequence pl s,
  holds (builds p) (fun _ _ => True) pl s ->
  stays s (holds (builds p) (fun _ _ => True)) (ingest_python_samples pyerr_text not_utf8 sequence pulls pl).
Proof.
  induction pulls as [|[e|r] pulls IH]; intros sequence pl s Hs; cbn [ingest_python_samples];
    [by apply (keeps_ret _)|by apply (keeps_result _)|].
  keep_with (fun (_ : WriterInput) => holds (builds p) (fun _ _ => True) pl); [by apply (keeps_result _)|]. intros x s1 _ H1.
  keep; [eapply (submit_keeps _ _ _ (builds p) (fun _ _ => True)); [done|intros; by apply commit_sample_stays|done|done]|].
  intros pl2 s2 _ H2. keep_with (fun (_ : Z) => holds (builds p) (fun _ _ => True) pl2); [by apply (keeps_result _)|].
  intros n s3 _ H3. by apply IH.
Qed.

Lemma write_with_pipeline_stays pulls b schedule s : builds p b s ->
  stays s (fun _ s' => complete s' p) (write_with_pipeline pyerr_text not_utf8 cfg pulls b schedule).
Proof.
  intros Hb. unfold write_with_pipeline. keep_with (fun (_ : unit) (s : store) => builds p b s); [by apply (keeps_result _)|].
  intros _ s1 _ Hb1. keep; [apply ingest_stays; by apply new_pipeline_holds|]. intros pl s2 _ Hpl.
  keep; [eapply (finish_pipeline_keeps _ _ _ (builds p) (fun _ _ => True)); [done|intros; by apply commit_sample_stays|done]|].
  intros b3 s3 _ Hb3. keep; [by apply (builder_finish_stays _ p)|]. intros m s4 _ Hc. by apply (keeps_ret _).
Qed.
End Pipelined.

(** What a successful write of a source leaves at its cache path: a complete cache, or
    what was reused. *)
Definition present_cache (s0 : store) (name : pystr) (s : store) : Prop :=
  (directory_entry name <> tmp /\ complete s (cache_path_for_source base name)) \/
  (nw_reuse_existing cfg = true /\ (is_Some (s0 !! cache_path_for_source base name) \/ directory_entry name = tmp)).

Lemma publish_source_advances s name : complete s (temp_cache_path_for_source base name) ->
  keeps (advance base) s (fun _ s' => directory_entry name <> tmp /\ complete s' (cache_path_for_source base name))
    (publish_cache (temp_cache_path_for_source base name) (cache_path_for_source base name)).
Proof.
  intros Hc. destruct (decide (directory_entry name = tmp)) as [E|E].
  - unfold temp_cache_path_for_source, cache_path_for_source. rewrite E. apply publish_tmp_fails.
  - eapply (keeps_weaken _); [by apply publish_advances|]. auto.
Qed.

Lemma on_error_advances s {A : Type} (m : io A) (P : A -> store -> Prop) name :
  keeps (advance base) s P m -> keeps (advance base) s P (on_error m (cleanup_temp_cache (temp_cache_path_for_source base name))).
Proof.
  intros Hm. unfold on_error. keep; [by eapply (keeps_attempt _)|]. intros [a|e] s1 _ Hp; [by apply (keeps_ret _)|].
  keep; [apply advances, cleanup_stays; auto|]. intros. by apply (keeps_result _).
Qed.

Lemma write_named_source_advances src name schedule s :
  keeps (advance base) s (fun r s' => r = cache_path_for_source base name /\ present_cache s name s')
    (write_named_source pyerr_text not_utf8 base cfg src name schedule).
Proof.
  unfold write_named_source.
  keep_with (fun (b : bool) s' => s' = s /\ (b = true -> nw_reuse_existing cfg = true /\ is_Some (s !! cache_path_for_source base name))).
  { destruct (nw_reuse_existing cfg); [|by apply (keeps_ret _)]. eapply (keeps_weaken _); [apply (keeps_exists _)|].
    intros b s' _ [-> ->]. split; [done|]. by intros ?%bool_decide_eq_true. }
  intros [] s1 _ [-> Hr].
  - keep_with (fun (_ : unit) (_ : store) => True); [|intros; apply (keeps_ret _); split; [done|right; naive_solver]].
    destruct (nw_validate_cache cfg); [|by apply (keeps_ret _)].
    keep; [eapply advances, load_cache_stays|]. intros. by apply (keeps_ret _).
  - keep; [apply advances, prepare_stays|]. intros _ s2 _ _.
    keep; [eapply on_error_advances, advances, (builder_create_stays _ (temp_cache_path_for_source base name)); auto|].
    intros b s3 _ Hb. keep_with (fun (_ : list pull) s => builds (temp_cache_path_for_source base name) b s); [by apply (keeps_result _)|].
    intros pulls s4 _ Hb4. keep; [eapply on_error_advances, advances, write_with_pipeline_stays; eauto|].
    intros u s5 _ Hc. keep; [eapply on_error_advances, publish_source_advances; exact Hc|].
    intros u6 s6 _ Hc6. apply (keeps_ret _). split; [done|by left].
Qed.

(** * A list of sources *)

Definition start_ok (start : SourceWriteStart) : Prop :=
  st_temp_path start = temp_cache_path_for_source base (st_source_name start) /\
  st_cache_path start = cache_path_for_source base (st_source_name start).

Definition active_ok (a : ActiveSourceWrite) : Prop :=
  start_ok (aw_start a) /\ (forall b, aw_builder a = Some b -> cb_path b = st_temp_path (aw_start a)).

Lemma start_below start : start_ok start -> below T (st_temp_path start) /\ st_temp_path start <> [].
Proof. intros [-> _]. auto. Qed.

Lemma active_cleanup_stays a s : active_ok a ->
  stays s (fun a' _ => aw_start a' = aw_start a /\ aw_builder a' = aw_builder a) (active_cleanup a).
Proof.
  intros [Hs _]. apply start_below in Hs as [Hb _]. unfold active_cleanup. keep; [by eapply (keeps_attempt _), cleanup_stays|].
  intros [u|e] s1 _ _; by apply (keeps_ret _).
Qed.

Lemma mark_failed_stays e a s : active_ok a ->
  stays s (fun a' _ => aw_start a' = aw_start a /\ active_ok a') (mark_failed e a).
Proof.
  intros Ha. unfold mark_failed. eapply (keeps_weaken _); [apply active_cleanup_stays; split; [apply Ha|done]|].
  simpl. intros a' s' _ [E1 E2]. split; [done|]. split; [rewrite E1; apply Ha|]. intros b. by rewrite E2.
Qed.

Lemma active_new_stays start s : start_ok start -> stays s (fun a _ => active_ok a) (active_new cfg start).
Proof.
  intros Hs. pose proof (start_below start Hs) as [Hb _]. unfold active_new.
  keep; [by eapply (keeps_attempt _), builder_create_stays|]. intros [b|e] s1 _ Hr.
  - apply (keeps_ret _). split; [done|]. simpl. intros b' [= <-]. exact Hr.
  - eapply (keeps_weaken _); [by apply active_cleanup_stays|]. simpl. intros a s2 _ [E1 E2].
    split; [by rewrite E1|]. intros b. by rewrite E2.
Qed.

Lemma active_push_stays x a s : active_ok a -> stays s (fun a' _ => active_ok a') (active_push_sample x a).
Proof.
  intros Ha. unfold active_push_sample. destruct (aw_failure a); [by apply (keeps_ret _)|].
  destruct (aw_builder a) as [b|] eqn:Eb; [|eapply (keeps_weaken _); [by apply mark_failed_stays|naive_solver]].
  destruct Ha as [Hs Hb]. pose proof (start_below _ Hs) as [Hbl _].
  keep; [eapply (keeps_attempt _), (commit_sample_stays _ _ Hbl); by apply Hb|]. intros [b'|e] s1 _ Hr.
  - apply (keeps_ret _). split; [done|]. simpl. intros b2 [= <-]. exact Hr.
  - eapply (keeps_weaken _); [by apply mark_failed_stays|naive_solver].
Qed.

Lemma error_result_stays a s : active_ok a -> stays s (fun r _ => r.1.1 = lit "error") (error_result a).
Proof.
  intros Ha. unfold error_result. keep; [apply active_cleanup_stays; split; [apply Ha|done]|]. intros. by apply (keeps_ret _).
Qed.

(** A record that reports success. *)
Definition record_ok (s0 : store) (r : CacheWriteRecord) (s : store) : Prop :=
  r.1.1 = lit "success" ->
  exists name, r = success_write_result name (cache_path_text base_text name) /\ present_cache s0 name s.

Lemma record_error s0 r s : r.1.1 = lit "error" -> record_ok s0 r s.
Proof. intros E Hs. rewrite E in Hs. discriminate. Qed.

Lemma record_moves s0 r s s' : advance base s s' -> record_ok s0 r s -> record_ok s0 r s'.
Proof.
  intros Ha Hr Hs. destruct (Hr Hs) as (name & E & [[Hn Hc]|Hu]); exists name; (split; [done|]); [left|by right].
  split; [done|]. by eapply advance_complete.
Qed.

Lemma active_finish_advances s0 a s : active_ok a ->
  keeps (advance base) s (record_ok s0) (active_finish base_text a).
Proof.
  intros Ha. unfold active_finish.
  assert (Hf : forall e s, keeps (advance base) s (record_ok s0)
    (mark_failed e (mk_active_write (aw_start a) None None) ≫= fun a => error_result a)).
  { intros e s1. keep; [apply advances, mark_failed_stays; split; [apply Ha|done]|].
    intros a' s2 _ [_ Ha']. eapply (keeps_weaken _); [by apply advances, error_result_stays|]. intros. by apply record_error. }
  destruct (aw_failure a).
  { eapply (keeps_weaken _); [by apply advances, error_result_stays|]. intros. by apply record_error. }
  destruct (aw_builder a) as [b|] eqn:Eb; [|apply Hf]. destruct Ha as [Hs Hb]. pose proof (start_below _ Hs) as [Hbl Hne].
  destruct Hs as [Et Ec].
  keep; [eapply (keeps_attempt _), advances, (builder_finish_stays _ _ Hbl); [done|by apply Hb]|].
  intros [m|e] s1 _ Hc; [|apply Hf]. rewrite Et in Hc. rewrite Et, Ec.
  keep; [by eapply (keeps_attempt _), publish_source_advances|]. intros [u|e] s2 _ Hp; [|apply Hf].
  apply (keeps_ret _). intros _. exists (st_source_name (aw_start a)). split; [done|by left].
Qed.

(** ** The committer *)

Context (s0 : store).

Definition committer_ok (c : PipelineCommitter) (s : store) : Prop :=
  advance base s0 s /\ (forall i r, pc_results c !! i = Some (Some r) -> record_ok s0 r s) /\
  (forall a, pc_active c = Some a -> active_ok a).

Definition event_ok (e : PipelineEvent) (s : store) : Prop :=
  match e with
  | SourceResult _ r => record_ok s0 r s
  | BeginSource start => start_ok start
  | _ => True
  end.

Lemma event_moves e s s' : advance base s s' -> event_ok e s -> event_ok e s'.
Proof. intros Ha. destruct e; simpl; try done. by apply record_moves. Qed.

Lemma committer_moves c s s' : advance base s s' -> committer_ok c s -> committer_ok c s'.
Proof.
  intros Hm (Ha & Hr & Hc). split_and!; [by trans s| |done]. intros i r Hi. eapply record_moves; eauto.
Qed.

Lemma record_result_keeps i r c s : record_ok s0 r s -> committer_ok c s ->
  keeps (advance base) s committer_ok (io_result (record_result i r c)).
Proof.
  intros Hr (Ha & Hres & Hc). apply (keeps_result _). intros c'. unfold record_result.
  destruct (pc_results c !! i) as [[]|] eqn:Ei; try discriminate. intros [= <-]. split_and!; [done| |done].
  intros j x. simpl. destruct (decide (i = j)) as [<-|Hij].
  - rewrite list_lookup_insert_eq by (by eapply lookup_lt_Some). by intros [= <-].
  - rewrite list_lookup_insert_ne by done. by apply Hres.
Qed.

Lemma commit_event_keeps e c s : event_ok e s -> committer_ok c s ->
  keeps (advance base) s committer_ok (commit_event base_text cfg e c).
Proof.
  intros He Hc. pose proof Hc as (Ha & Hr & Hact).
  assert (Hset : forall a s', advance base s s' -> (forall x, a = Some x -> active_ok x) -> committer_ok (mk_committer (pc_results c) a) s').
  { intros a s' Hm Hx. apply (committer_moves c s s' Hm) in Hc as (? & ? & _). by split_and!. }
  unfold commit_event. destruct e as [i r|start|x| |message], (pc_active c) as [a|] eqn:Ea;
    try (by apply (keeps_result _)); try (by apply record_result_keeps); try specialize (Hact a eq_refl).
  - keep; [by apply advances, active_new_stays|]. intros a s1 Hm Hn. apply (keeps_ret _), Hset; [done|]. by intros x [= <-].
  - keep; [by apply advances, active_push_stays|]. intros a' s1 Hm Hn. apply (keeps_ret _), Hset; [done|]. by intros y [= <-].
  - keep; [by apply active_finish_advances|]. intros r s1 Hm Hn. apply record_result_keeps; [done|by apply Hset].
  - keep; [by apply advances, mark_failed_stays|]. intros a' s1 Hm [_ Hn].
    keep; [by apply advances, error_result_stays|]. intros r s2 Hm2 Hr2.
    apply record_result_keeps; [by apply record_error|]. apply Hset; [by trans s1|done].
Qed.

(** ** Ingestion *)

Abbreviation good := (holds committer_ok event_ok).

Lemma good_later pl s s' : advance base s s' -> good pl s -> good pl s'.
Proof.
  intros Hm Hg. destruct (holds_moves _ _ _ event_moves pl (pl_state pl) s s' Hm
    (committer_moves _ _ _ Hm (hl_state _ _ _ _ Hg)) Hg) as [H1 H2 H3]. by split.
Qed.

Lemma disturbed_good pl s s' : advance base s s' -> good pl s -> good (disturbed pl) s'.
Proof. intros Hm Hg. by destruct (good_later pl s s' Hm Hg). Qed.

Lemma send_event_keeps e i s : event_ok e s -> good (in_pipeline i) s ->
  keeps (advance base) s (fun r s' => good (in_pipeline r.2) s') (send_event base_text cfg e i).
Proof.
  intros He Hg. unfold send_event. destruct (checked_add _ _); [|by apply (keeps_ret _)].
  keep; [eapply (keeps_attempt _), (submit_keeps _ _ _ _ _ event_moves commit_event_keeps); done|].
  intros [pl|err] s1 Hm Hr; apply (keeps_ret _); [done|]. by apply (disturbed_good _ s).
Qed.

Lemma ingest_samples_keeps pulls : forall i s, good (in_pipeline i) s ->
  keeps (advance base) s (fun r s' => good (in_pipeline r.2) s')
    (ingest_source_samples pyerr_text not_utf8 base_text cfg pulls i).
Proof.
  induction pulls as [|[e|r] pulls IH]; intros i s Hg; cbn [ingest_source_samples]; try by apply (keeps_ret _).
  destruct (pulled_input _ _ r); [|by apply (keeps_ret _)].
  keep; [by apply send_event_keeps|]. intros [[u|e] i'] s1 _ Hi; [by apply IH|by apply (keeps_ret _)].
Qed.

Lemma end_or_abort_keeps r i s : good (in_pipeline i) s ->
  keeps (advance base) s (fun r s' => good (in_pipeline r.2) s') (end_or_abort base_text cfg r i).
Proof.
  intros Hg. unfold end_or_abort. destruct r as [u|e]; [by apply send_event_keeps|].
  destruct (is_interrupt e); [by apply (keeps_ret _)|by apply send_event_keeps].
Qed.

(** What exists at a cache path while the list is written was there or is complete. *)
Lemma present_now name s : nw_reuse_existing cfg = true -> advance base s0 s -> is_Some (s !! cache_path_for_source base name) ->
  present_cache s0 name s.
Proof.
  intros Hu [N _] Hp. unfold present_cache, cache_path_for_source in *.
  destruct (decide (directory_entry name = tmp)) as [E|E]; [right; auto|].
  assert (Hself : below (base ++ [directory_entry name]) (base ++ [directory_entry name])) by (exists []; by rewrite app_nil_r).
  destruct (sibling_apart base _ _ E Hself) as [H1 H2].
  destruct (N _ H1) as [En|[[? _]|(n & Hn & [r Hb] & Hc)]]; [right; rewrite <- En; auto|done|].
  left. split; [done|]. rewrite <- app_assoc in Hb. apply (inj (app base)) in Hb. injection Hb as -> _. done.
Qed.

Lemma existing_result_keeps name s : nw_reuse_existing cfg = true -> advance base s0 s ->
  is_Some (s !! cache_path_for_source base name) ->
  keeps (advance base) s (record_ok s0) (existing_cache_result base base_text cfg name).
Proof.
  intros Hu Ha Hp. assert (Hok : record_ok s0 (success_write_result name (cache_path_text base_text name)) s).
  { intros _. exists name. split; [done|]. by apply present_now. }
  unfold existing_cache_result. destruct (nw_validate_cache cfg); [|by apply (keeps_ret _)]. simpl negb. cbv iota.
  keep; [eapply (keeps_attempt _), advances, load_cache_stays|]. intros [c|e] s1 Hm _; apply (keeps_ret _);
    [by eapply record_moves|by apply record_error].
Qed.

Lemma ingest_one_keeps src index i s : good (in_pipeline i) s ->
  keeps (advance base) s (fun r s' => good (in_pipeline r.2) s')
    (ingest_one_source pyerr_text not_a_string not_utf8 base base_text cfg src index i).
Proof.
  intros Hg. unfold ingest_one_source. destruct (extract_source_name _ _ _ _) as [name|e].
  2:{ destruct (is_interrupt e); [by apply (keeps_ret _)|]. apply send_event_keeps; [|done]. by apply record_error. }
  keep_with (fun (b : bool) s' => s' = s /\ (b = true -> nw_reuse_existing cfg = true /\ is_Some (s !! cache_path_for_source base name))).
  { destruct (nw_reuse_existing cfg); [|by apply (keeps_ret _)]. eapply (keeps_weaken _); [apply (keeps_exists _)|].
    intros b s' _ [-> ->]. split; [done|]. by intros ?%bool_decide_eq_true. }
  intros [] s1 _ [-> Hr].
  - destruct Hr as [Hu Hp]; [done|]. pose proof (hl_state _ _ _ _ Hg) as (Ha & _).
    keep; [by apply existing_result_keeps|]. intros r s1 Hm Hrec. apply send_event_keeps; [done|].
    by apply (good_later _ s).
  - keep; [eapply (keeps_attempt _), advances, prepare_stays|]. intros p s1 Hm _.
    pose proof (good_later _ _ _ Hm Hg) as Hg1.
    destruct p as [u|e]; [|apply send_event_keeps; [by apply record_error|done]].
    keep; [by apply send_event_keeps|]. intros [[v|e] i2] s2 _ Hi2; [|by apply (keeps_ret _)].
    destruct (of_python _ _) as [pulls|e]; [|by apply end_or_abort_keeps].
    keep; [by apply ingest_samples_keeps|]. intros [r i3] s3 _ Hi3. by apply end_or_abort_keeps.
Qed.

Lemma ingest_list_keeps sources : forall index i s, good (in_pipeline i) s ->
  keeps (advance base) s (fun r s' => good (in_pipeline r.2) s')
    (ingest_source_list pyerr_text not_a_string not_utf8 base base_text cfg sources index i).
Proof.
  induction sources as [|src sources IH]; intros index i s Hg; cbn [ingest_source_list]; [by apply (keeps_ret _)|].
  destruct (src_signal src); [by apply (keeps_ret _)|]. keep; [by apply ingest_one_keeps|].
  intros [[u|e] i1] s1 _ H1; [by apply IH|by apply (keeps_ret _)].
Qed.

(** ** The end of a list *)

Lemma cleanup_unfinished_keeps c s : committer_ok c s -> keeps (advance base) s (fun _ _ => True) (cleanup_unfinished_source c).
Proof.
  intros (_ & _ & Hact). unfold cleanup_unfinished_source. destruct (pc_active c) as [a|]; [|by apply (keeps_ret _)].
  keep; [by apply advances, mark_failed_stays, Hact|]. intros. by apply (keeps_ret _).
Qed.

Lemma drain_incomplete_keeps fuel : forall pl s, good pl s ->
  keeps (advance base) s good (drain_incomplete base_text cfg fuel pl).
Proof.
  induction fuel as [|fuel IH]; intros pl s Hg; cbn [drain_incomplete]; destruct (pl_in_flight pl); try by apply (keeps_ret _).
  keep; [eapply (keeps_attempt _), (complete_one_keeps _ _ _ _ _ event_moves commit_event_keeps); done|].
  intros [pl1|e] s1 Hm H1; [by apply IH|]. apply (keeps_ret _). by apply (disturbed_good _ s).
Qed.

Lemma drain_or_drop_keeps fuel : forall pl s, good pl s ->
  keeps (advance base) s good (drain_or_drop base_text cfg fuel pl).
Proof.
  induction fuel as [|fuel IH]; intros pl s Hg; cbn [drain_or_drop]; destruct (pl_in_flight pl); try by apply (keeps_ret _).
  keep; [eapply (keeps_attempt _), (complete_one_keeps _ _ _ _ _ event_moves commit_event_keeps); done|].
  intros [pl1|e] s1 Hm H1; [by apply IH|]. keep; [|intros; by apply (keeps_result _)].
  apply cleanup_unfinished_keeps. eapply committer_moves; [done|apply Hg].
Qed.

Lemma finish_list_keeps pl s : good pl s ->
  keeps (advance base) s (fun results s' => forall i r, results !! i = Some (Some r) -> record_ok s0 r s') (finish_list base_text cfg pl).
Proof.
  intros Hg. unfold finish_list. keep; [by apply drain_or_drop_keeps|]. intros pl1 s1 _ [Hc _ _].
  case_bool_decide; [by apply (keeps_ret _), Hc|]. keep; [by apply cleanup_unfinished_keeps|]. intros. by apply (keeps_result _).
Qed.

Definition records_ok (records : list CacheWriteRecord) (s : store) : Prop := Forall (fun r => record_ok s0 r s) records.

Lemma complete_results_ok results records s : (forall i r, results !! i = Some (Some r) -> record_ok s0 r s) ->
  complete_write_results results = Ok records -> records_ok records s.
Proof.
  intros Hr Hc. apply try_collect_ok in Hc. apply Forall_lookup. intros i r Hi.
  destruct (Forall2_lookup_r _ _ _ _ _ Hc Hi) as ([x|] & Hx & E); [|discriminate]. apply Ok_inj in E as <-. by apply (Hr i).
Qed.

Lemma write_list_keeps sources schedule :
  keeps (advance base) s0 records_ok
    (write_source_list pyerr_text not_a_string not_utf8 base base_text cfg sources schedule).
Proof.
  unfold write_source_list. keep_with (fun (_ : unit) s => s = s0); [by apply (keeps_result _)|]. intros _ s1 _ ->.
  keep_with (fun (_ : unit) s => s = s0); [by apply (keeps_result _)|]. intros _ s1 _ ->.
  keep; [apply ingest_list_keeps; apply new_pipeline_holds; split_and!; [done| |done]|].
  { simpl. intros i r Hi. apply lookup_replicate in Hi as [? _]. discriminate. }
  intros [[u|e] i] s1 _ Hi.
  - keep; [by apply finish_list_keeps|]. intros results s2 _ Hr. apply (keeps_result _). intros records. by apply complete_results_ok.
  - unfold finish_incomplete. keep_with (fun (_ : unit) (_ : store) => True); [|intros; by apply (keeps_result _)].
    keep; [by apply drain_incomplete_keeps|]. intros pl s2 _ [Hc _ _]. by apply cleanup_unfinished_keeps.
Qed.

Lemma write_one_keeps src schedule :
  keeps (advance base) s0 records_ok
    (write_cache pyerr_text not_a_string not_utf8 base base_text cfg (OneSource src) schedule).
Proof.
  simpl. unfold write_one_source_result. keep_with (record_ok s0).
  2:{ intros r s1 _ Hr. apply (keeps_ret _). by repeat constructor. }
  destruct (extract_source_name _ _ _ _) as [name|e].
  - keep; [eapply (keeps_attempt _), write_named_source_advances|]. intros [p|e] s1 _ Hr.
    + apply (keeps_ret _). intros _. exists name. by destruct Hr.
    + destruct (is_interrupt e); [by apply (keeps_result _)|]. apply (keeps_ret _). by apply record_error.
  - destruct (is_interrupt e); [by apply (keeps_result _)|]. apply (keeps_ret _). by apply record_error.
Qed.
End Source.

