(* ===== verification/WriterRoundtrip.v ===== *)
(** A written source reads back: through the sample pipeline with any schedule, the
    temporary directory and the rename that publishes it. *)
From stdpp Require Import base tactics list numbers strings gmap.
From S2P Require Import Prelude Collections Records Binary64 Config Seeds PyStr Writer Native Metadata Manifest.
From S2P Require Import FileSystem RecordCodec OrderedPipeline IndexFile MetadataFile CacheStore ReaderCache StoreProofs StoreReads.
From S2P Require Import CacheRoundtrip NativeInput NativeWriter.
Open Scope Z_scope.

Lemma io_bind_ok {A B : Type} (m : io A) (k : A -> io B) d b d' : (m ≫= k) d = (Ok b, d') ->
  exists a d1, m d = (Ok a, d1) /\ k a d1 = (Ok b, d').
Proof. unfold mbind, io_bind. destruct (m d) as [[a|e] d1]; [eauto|discriminate]. Qed.

Lemma io_bind_to {A B : Type} (m : io A) (k : A -> io B) d a d1 : m d = (Ok a, d1) -> (m ≫= k) d = k a d1.
Proof. intros E. unfold mbind, io_bind. by rewrite E. Qed.

Lemma on_error_ok {A : Type} (m : io A) cleanup d a d1 : m d = (Ok a, d1) -> on_error m cleanup d = (Ok a, d1).
Proof.
  intros E. unfold on_error. rewrite (io_bind_to _ _ _ (Ok a) d1); [done|]. unfold attempt. by rewrite E.
Qed.

Section Published.
Context {J : ManifestFormat} {JL : ManifestFormatLaws J} {H : Hashing}.
Context {C : NativeCodecs} {memory : Z} {CL : NativeCodecsLaws C memory}.
Context {R : RecordJson} {RL : RecordJsonLaws R} {F : ArrowFiles} {FL : ArrowFilesLaws F}.
Context (pyerr_text : py_exc -> pystr) (not_a_string : pyval -> py_exc) (not_utf8 : pystr -> py_exc).
Context (base : path) (base_text : pystr) (cfg : NativeWriterConfig).

(** The samples a list of yielded objects stands for. *)
Definition input_sample (x : WriterInput) : sample := (wi_data x, wi_metadata x).
Definition items_yield (items : list pyobj) (samples : list sample) : Prop :=
  exists inputs, try_collect (extract_cache_input pyerr_text not_utf8) items = Ok inputs /\ samples = map input_sample inputs.

Definition yields (items : list pyobj) : list pull := map (fun o => Pull (Ret o)) items.

(** Without errors, ingestion submits the inputs one after the other. *)
Lemma ingest_submits items : forall inputs sequence pl d,
  try_collect (extract_cache_input pyerr_text not_utf8) items = Ok inputs ->
  ingest_python_samples pyerr_text not_utf8 sequence (yields items) pl d =
  submit_all commit_sample sample_overflow sequence inputs pl d.
Proof.
  induction items as [|o items IH]; intros inputs sequence pl d; cbn [try_collect yields map].
  - by intros <-%Ok_inj.
  - intros (x & Hx & Hr)%cache_bind_ok. apply cache_bind_ok in Hr as (rest & Hrest & <-%Ok_inj).
    cbn [ingest_python_samples submit_all]. rewrite (io_bind_to _ _ _ x d).
    2:{ unfold io_result, pulled_input. simpl. by rewrite Hx. }
    apply io_bind_ext. intros pl' d'. apply io_bind_ext. intros n d2. by apply IH.
Qed.

Lemma commit_all_pushes inputs : forall b d, commit_all commit_sample inputs b d = push_all (map input_sample inputs) b d.
Proof.
  induction inputs as [|x inputs IH]; intros b d; [done|]. cbn [commit_all push_all map input_sample].
  unfold commit_sample. rewrite io_bind_assoc. apply io_bind_ext. intros [st b'] d'.
  unfold mbind, io_bind. simpl. apply IH.
Qed.

(** Whatever the schedule, the pipeline writes what pushing the samples in order writes,
    errors included. *)
Lemma pipeline_pushes items samples b schedule d : items_yield items samples ->
  (0 < parallelism cfg)%nat -> undisturbed schedule -> Z.of_nat (length samples) <= U64_MAX ->
  write_with_pipeline pyerr_text not_utf8 cfg (yields items) b schedule d =
  (b ← push_all samples b; _ ← builder_finish b; mret tt) d.
Proof.
  intros (inputs & Hi & ->) Hp Hq Hlen. rewrite length_map in Hlen. unfold write_with_pipeline.
  rewrite (io_bind_to _ _ _ tt d) by (unfold io_result, ensure; destruct (parallelism cfg); [lia|done]).
  rewrite (io_bind_run _ _ _ d (ingest_submits _ _ _ _ _ Hi)).
  rewrite <- io_bind_assoc, (io_bind_run _ _ _ d (pipeline_sequential _ _ _ _ _ _ _ Hp Hq Hlen)).
  apply (io_bind_run _ _ _ d). apply commit_all_pushes.
Qed.

Context (name : pystr) (Hentry : directory_entry name <> tmp).
Abbreviation cache := (cache_path_for_source base name).
Abbreviation temp := (temp_cache_path_for_source base name).

Lemma apart : ~ below temp cache /\ ~ below cache temp /\ forall k, below k temp -> ~ below cache k.
Proof.
  unfold cache_path_for_source, temp_cache_path_for_source.
  assert (Hx : ~ below (base ++ [directory_entry name]) (base ++ [tmp; directory_entry name])).
  { intros [r E]. rewrite <- app_assoc in E. apply (inj (app base)) in E. by injection E. }
  split_and!; [|done|intros k Hk ?; apply Hx; by eapply below_trans].
  intros [r E]. rewrite <- app_assoc in E. apply (inj (app base)) in E. by injection E.
Qed.

(** The rename of a settled temporary directory to a free path. *)
Lemma publish_settled s0 d : settled temp s0 (d_store d) -> s0 !! cache = None -> reliable d ->
  exists d1, publish_cache temp cache d = (Ok tt, d1) /\ d_store d1 = renamed temp cache (d_store d) /\ reliable d1.
Proof.
  intros [Ha Hf] Hc Hd. destruct apart as (Hb1 & Hb2 & Hb3).
  assert (Hself : below temp temp) by (exists []; by rewrite app_nil_r).
  assert (Hbt : base ++ [tmp] <> []) by (by intros [_ E]%app_nil).
  assert (Hr : runs true (d_store d) (publish_cache temp cache)
    (fun _ s => s = renamed temp cache (d_store d)) (fun _ _ => False)).
  { apply runs_rename; try done.
    - apply Ha; [done|]. unfold temp_cache_path_for_source. by intros [_ E]%app_nil.
    - rewrite Hf; [done|done|]. intros Hk. destruct (Hb3 _ Hk). exists []. by rewrite app_nil_r.
    - unfold temp_cache_path_for_source. change [tmp; directory_entry name] with ([tmp] ++ [directory_entry name]). rewrite app_assoc.
      apply parent_directory_app; [done|]. apply Ha; [|done]. exists [directory_entry name]. by rewrite <- app_assoc.
    - unfold cache_path_for_source. destruct (decide (base = [])) as [->|Hne]; [done|].
      apply parent_directory_app; [done|]. apply Ha; [|done]. by exists [tmp; directory_entry name]. }
  specialize (Hr d eq_refl ltac:(done)). destruct (publish_cache temp cache d) as [[[]|e] d1]; [|by destruct Hr].
  destruct Hr as [Hs Hr]. exists d1. auto.
Qed.

(** The whole write of one source. *)
Lemma write_named_source_ok src items samples schema encs schedule d :
  src_iter src = Ret (yields items) -> items_yield items samples ->
  source_ok (memory := memory) (nw_shard_compression cfg) schema samples encs ->
  (0 < parallelism cfg)%nat -> undisturbed schedule ->
  d_store d !! cache = None -> free_path temp (d_store d) -> reliable d ->
  exists d', write_named_source pyerr_text not_utf8 base cfg src name schedule d = (Ok cache, d') /\
    reads_back schema name samples cache (d_store d') /\ (forall k, below temp k -> d_store d' !! k = None) /\ reliable d'.
Proof.
  intros Hiter Hitems Hsrc Hpar Hq Hc Hfree Hd. destruct apart as (Hb1 & Hb2 & Hb3).
  destruct (write_samples_reads temp name (nw_max_shard_bytes cfg) (nw_shard_compression cfg) schema samples encs d
    Hsrc Hfree Hd) as (m & d1 & Hw & Hd1 & Hset & Hreads).
  unfold write_samples in Hw. apply io_bind_ok in Hw as (b & d2 & Hcreate & Hw).
  assert (Hpush : (b ← push_all samples b; _ ← builder_finish b; mret tt) d2 = (Ok tt, d1)).
  { apply io_bind_ok in Hw as (b' & d3 & Hpush & Hfin). by rewrite (io_bind_to _ _ _ _ _ Hpush), (io_bind_to _ _ _ _ _ Hfin). }
  rewrite <- (pipeline_pushes items samples b schedule d2 Hitems Hpar Hq) in Hpush
    by (pose proof (sk_count _ _ _ _ Hsrc); lia).
  destruct (publish_settled _ d1 Hset Hc Hd1) as (d4 & Hpub & Hs4 & Hd4).
  exists d4. split_and!; [|rewrite Hs4; apply Hreads, lookup_renamed| |done].
  - assert (Hno : forall p, d_store d !! p = None -> exists_path p d = (Ok false, d)).
    { intros p Hp. unfold exists_path. rewrite Hp. by rewrite bool_decide_false by (by intros []). }
    unfold write_named_source. rewrite (io_bind_to _ _ _ false d) by (destruct (nw_reuse_existing cfg); auto).
    rewrite (io_bind_to _ _ _ tt d).
    2:{ unfold prepare_cache_paths. rewrite (io_bind_to _ _ _ _ _ (Hno _ Hc)).
        rewrite (io_bind_to _ _ _ false d); [done|]. apply Hno, Hfree. exists []. by rewrite app_nil_r. }
    rewrite (io_bind_to _ _ _ b d2) by (by apply on_error_ok).
    rewrite (io_bind_to _ _ _ (yields items) d2) by (unfold io_result; by rewrite Hiter).
    rewrite (io_bind_to _ _ _ tt d1) by (by apply on_error_ok).
    by rewrite (io_bind_to _ _ _ tt d4) by (by apply on_error_ok).
  - intros k Hk. rewrite Hs4. apply lookup_renamed_source; [done|]. intros Hck. destruct Hk as [r ->], Hck as [r' E].
    unfold temp_cache_path_for_source, cache_path_for_source in E. rewrite <- !app_assoc in E. apply (inj (app base)) in E. by injection E.
Qed.
End Published.

(** A written source reads back: whatever the order in which the pipeline's jobs
    finish, a source of storable samples is reported as written, its directory holds a
    cache that opens and gives back every sample in order, and nothing is left at its
    temporary path. *)
Lemma written_source_reads_back {J : ManifestFormat} {JL : ManifestFormatLaws J} {H : Hashing}
    {C : NativeCodecs} {memory : Z} {CL : NativeCodecsLaws C memory}
    {R : RecordJson} {RL : RecordJsonLaws R} {F : ArrowFiles} {FL : ArrowFilesLaws F}
    pyerr_text not_a_string not_utf8 base base_text cfg src name items samples schema encs schedule (d : disk)
    (Hname : extract_source_name pyerr_text not_a_string not_utf8 src = Ok name) (Hentry : directory_entry name <> tmp)
    (Hiter : src_iter src = Ret (yields items)) (Hitems : items_yield pyerr_text not_utf8 items samples)
    (Hsource : source_ok (memory := memory) (nw_shard_compression cfg) schema samples encs)
    (Hpar : (0 < parallelism cfg)%nat) (Hschedule : undisturbed schedule)
    (Hcache : d_store d !! cache_path_for_source base name = None)
    (Htemp : free_path (temp_cache_path_for_source base name) (d_store d)) (Hd : reliable d) :
  exists d', write_cache pyerr_text not_a_string not_utf8 base base_text cfg (OneSource src) schedule d =
      (Ok [(lit "success", name, cache_path_text base_text name)], d') /\
    reads_back schema name samples (cache_path_for_source base name) (d_store d') /\
    (forall k, below (temp_cache_path_for_source base name) k -> d_store d' !! k = None).
Proof.
  destruct (write_named_source_ok (CL := CL) pyerr_text not_utf8 base cfg name Hentry src items samples schema encs schedule d
    Hiter Hitems Hsource Hpar Hschedule Hcache Htemp Hd) as (d' & Hw & Hr & Ht & _).
  exists d'. split_and!; [|done|done]. simpl. unfold write_one_source_result. rewrite Hname.
  unfold mbind, io_bind, attempt. by rewrite Hw.
Qed.

#[local] Existing Instance demo_format.
#[local] Existing Instance demo_format_laws.
#[local] Existing Instance demo_codecs.
#[local] Existing Instance demo_codecs_laws.
#[local] Existing Instance demo_record_json.
#[local] Existing Instance demo_record_json_laws.
#[local] Existing Instance demo_arrow.
#[local] Existing Instance demo_arrow_laws.
#[local] Existing Instance demo_hashing.

(** The demonstration samples as a Python source: a [bytes], an empty [bytearray] and a
    one-byte [memoryview]. *)
Definition demo_item (x : sample) : pyobj :=
  OTuple [OBuffer x.1;
          ODict (map (fun e => (PStr e.1, match e.2 with MInt z => PInt z | _ => PNone end)) (map_to_list x.2))].
Definition demo_source : source :=
  mk_py_source (Ret (PStr (lit "a"))) None (Ret (yields (map demo_item demo_samples))).
Definition demo_writer_config : NativeWriterConfig := mk_native_config 20 4 2 (NativeLz4Fast 1) false false.
Definition demo_text (e : py_exc) : pystr := type_name e.
Definition demo_not_a_string (v : pyval) : py_exc := TypeError (lit "not a string").
Definition demo_not_utf8 (s : pystr) : py_exc := ValueError (lit "surrogates not allowed").

Lemma demo_items_yield : items_yield demo_text demo_not_utf8 (map demo_item demo_samples) demo_samples.
Proof. exists (map (fun x : sample => mk_writer_input x.1 x.2) demo_samples). split; vm_compute; reflexivity. Qed.
