(* ===== verification/SourceList.v ===== *)
(** Writing a list of sources gives every source its record: the committer of the event
    pipeline never sees an event it does not expect, whatever the sources yield and
    whichever calls fail. *)
From stdpp Require Import base tactics list numbers strings gmap.
From S2P Require Import Prelude Collections Records Binary64 Config Seeds PyStr Writer Native Metadata Manifest.
From S2P Require Import FileSystem RecordCodec OrderedPipeline IndexFile MetadataFile CacheStore NativeInput NativeWriter.
From S2P Require Import CacheRoundtrip WriterRoundtrip.
Open Scope Z_scope.

(** A computation that returns on every disk, with what holds of its result. *)
Definition returns {A : Type} (m : io A) (P : A -> Prop) : Prop := forall d, exists a d', m d = (Ok a, d') /\ P a.

Lemma returns_ret {A : Type} (a : A) (P : A -> Prop) : P a -> returns (mret a) P.
Proof. intros Hp d. by exists a, d. Qed.

Lemma returns_bind {A B : Type} (m : io A) (k : A -> io B) (P : A -> Prop) (Q : B -> Prop) :
  returns m P -> (forall a, P a -> returns (k a) Q) -> returns (m ≫= k) Q.
Proof.
  intros Hm Hk d. destruct (Hm d) as (a & d1 & E & Hp). destruct (Hk a Hp d1) as (b & d2 & E2 & Hq).
  exists b, d2. split; [|done]. unfold mbind, io_bind. by rewrite E.
Qed.

Lemma returns_weaken {A : Type} (m : io A) (P Q : A -> Prop) : returns m P -> (forall a, P a -> Q a) -> returns m Q.
Proof. intros Hm Hq d. destruct (Hm d) as (a & d1 & E & Hp). eauto 6. Qed.

Lemma returns_attempt {A : Type} (m : io A) : returns (attempt m) (fun _ => True).
Proof. intros d. unfold attempt. destruct (m d) as [r d']. eauto. Qed.

Lemma returns_attempt_ok {A : Type} (m : io A) P :
  returns m P -> returns (attempt m) (fun r => exists a, r = Ok a /\ P a).
Proof. intros Hm d. unfold attempt. destruct (Hm d) as (a & d1 & -> & Hp). eauto 6. Qed.

Lemma returns_ext {A : Type} (m m' : io A) (P : A -> Prop) : (forall d, m d = m' d) -> returns m' P -> returns m P.
Proof. intros E Hm d. rewrite E. apply Hm. Qed.

Ltac returns_with P := eapply (returns_bind _ _ P).

Section Protocol.
Context {J : ManifestFormat} {H : Hashing} {C : NativeCodecs} {R : RecordJson} {F : ArrowFiles}.
Context (pyerr_text : py_exc -> pystr) (not_a_string : pyval -> py_exc) (not_utf8 : pystr -> py_exc).
Context (base : path) (base_text : pystr) (cfg : NativeWriterConfig).

(** The names of the records to come. *)
Context (names : list pystr).

(** * What the committer expects *)

(** How many sources have their record, and whether the next one is being written. *)
Abbreviation list_state := (nat * bool)%type.

Definition step (g : list_state) (e : PipelineEvent) : option list_state :=
  match g, e with
  | (k, false), SourceResult index record =>
      if decide (index = k /\ names !! k = Some record.1.2) then Some (S k, false) else None
  | (k, false), BeginSource start =>
      if decide (st_source_index start = k /\ names !! k = Some (st_source_name start)) then Some (k, true) else None
  | (k, true), Sample _ => Some (k, true)
  | (k, true), EndSource | (k, true), AbortSource _ => Some (S k, false)
  | _, _ => None
  end.

Fixpoint steps (g : list_state) (es : list PipelineEvent) : option list_state :=
  match es with
  | [] => Some g
  | e :: rest => g ← step g e; steps g rest
  end.

Lemma steps_app es1 : forall g es2, steps g (es1 ++ es2) = g ← steps g es1; steps g es2.
Proof. induction es1 as [|e es1 IH]; intros g es2; simpl; [done|]. destruct (step g e); simpl; auto. Qed.

(** The committer has the records of the sources before [g], and works on the next one
    when [g] says so. *)
Record matches (c : PipelineCommitter) (g : list_state) : Prop := {
  mt_results : exists records, pc_results c = map Some records ++ replicate (length names - g.1) None /\
    map (fun r : CacheWriteRecord => r.1.2) records = take g.1 names /\ (g.1 <= length names)%nat;
  mt_active : if g.2 then exists a, pc_active c = Some a /\ st_source_index (aw_start a) = g.1 /\
                names !! g.1 = Some (st_source_name (aw_start a))
              else pc_active c = None }.

(** ** The source being written always reports *)

Lemma active_cleanup_returns a : returns (active_cleanup a) (fun a' => aw_start a' = aw_start a).
Proof. unfold active_cleanup. eapply returns_bind; [apply returns_attempt|]. intros [u|e] _; by apply returns_ret. Qed.

Lemma mark_failed_returns e a : returns (mark_failed e a) (fun a' => aw_start a' = aw_start a).
Proof. unfold mark_failed. eapply returns_weaken; [apply active_cleanup_returns|]. done. Qed.

Lemma active_new_returns start : returns (active_new cfg start) (fun a => aw_start a = start).
Proof.
  unfold active_new. eapply returns_bind; [apply returns_attempt|]. intros [b|e] _; [by apply returns_ret|].
  eapply returns_weaken; [apply active_cleanup_returns|]. done.
Qed.

Lemma active_push_returns x a : returns (active_push_sample x a) (fun a' => aw_start a' = aw_start a).
Proof.
  unfold active_push_sample. destruct (aw_failure a); [by apply returns_ret|].
  destruct (aw_builder a); [|apply mark_failed_returns].
  eapply returns_bind; [apply returns_attempt|]. intros [b|e] _; [by apply returns_ret|apply mark_failed_returns].
Qed.

Lemma error_result_returns a : returns (error_result a) (fun r => r.1.2 = st_source_name (aw_start a)).
Proof.
  unfold error_result. eapply returns_bind; [apply active_cleanup_returns|]. intros a' Ha. apply returns_ret. simpl in *. by rewrite Ha.
Qed.

Lemma active_finish_returns a : returns (active_finish base_text a) (fun r => r.1.2 = st_source_name (aw_start a)).
Proof.
  unfold active_finish.
  assert (Hf : forall e, returns (mark_failed e (mk_active_write (aw_start a) None None) ≫= fun a => error_result a)
    (fun r => r.1.2 = st_source_name (aw_start a))).
  { intros e. eapply returns_bind; [apply mark_failed_returns|]. intros a' Ha.
    eapply returns_weaken; [apply error_result_returns|]. intros r ->. simpl in Ha. by rewrite Ha. }
  destruct (aw_failure a); [apply error_result_returns|]. destruct (aw_builder a); [|apply Hf].
  eapply returns_bind; [apply returns_attempt|]. intros [m|e] _; [|apply Hf].
  eapply returns_bind; [apply returns_attempt|]. intros [u|e] _; [|apply Hf]. by apply returns_ret.
Qed.

(** ** Expected events are committed *)

Lemma record_result_matches c k record : pc_active c = None -> names !! k = Some record.1.2 ->
  (exists records, pc_results c = map Some records ++ replicate (length names - k) None /\
     map (fun r : CacheWriteRecord => r.1.2) records = take k names /\ (k <= length names)%nat) ->
  returns (io_result (record_result k record c)) (fun c' => matches c' (S k, false)).
Proof.
  intros Hact Hn (records & Hr & Hm & Hk) d. pose proof (lookup_lt_Some _ _ _ Hn) as Hlt.
  assert (Hlen : length records = k).
  { apply (f_equal length) in Hm. rewrite length_map, length_take in Hm. lia. }
  assert (Er : pc_results c = map Some records ++ None :: replicate (length names - S k) None).
  { rewrite Hr. f_equal. by replace (length names - k)%nat with (S (length names - S k)) by lia. }
  unfold io_result, record_result. rewrite Er, list_lookup_middle by (by rewrite length_map).
  eexists _, d. split; [done|]. split; simpl; [|done]. exists (records ++ [record]). split_and!; [| |lia].
  - rewrite map_app. simpl. rewrite <- app_assoc. simpl. rewrite <- Hlen at 1.
    rewrite <- (length_map Some records). by rewrite insert_app_r_alt, Nat.sub_diag by lia.
  - rewrite map_app, Hm. simpl. by rewrite (take_S_r names k _ Hn).
Qed.

Lemma commit_event_matches e c g g' : matches c g -> step g e = Some g' ->
  returns (commit_event base_text cfg e c) (fun c' => matches c' g').
Proof.
  destruct g as [k busy]. intros [Hr Ha] Hs. simpl in Hr, Ha.
  assert (Hfin : forall record, names !! k = Some record.1.2 ->
    returns (io_result (record_result k record (mk_committer (pc_results c) None))) (fun c' => matches c' (S k, false))).
  { intros record Hn. by apply record_result_matches. }
  unfold commit_event. destruct busy.
  - destruct Ha as (a & -> & Hi & Hn). destruct e; simplify_eq/=.
    + eapply returns_bind; [apply active_push_returns|]. intros a' Ha'. simpl in Ha'. apply returns_ret.
      split; simpl; [done|]. exists a'. by rewrite Ha'.
    + eapply returns_bind; [apply active_finish_returns|]. intros r Hrn. simpl in Hrn. apply Hfin. by rewrite Hrn.
    + eapply returns_bind; [apply mark_failed_returns|]. intros a' Ha'. simpl in Ha'.
      eapply returns_bind; [apply error_result_returns|]. intros r Hrn. simpl in Hrn. rewrite Ha' in Hrn |- *. apply Hfin. by rewrite Hrn.
  - destruct e as [index record|start| | |]; simplify_eq/=.
    + case_decide as Hd; [|done]. simplify_eq. destruct Hd as [-> Hn]. by apply record_result_matches.
    + case_decide as Hd; [|done]. simplify_eq. destruct Hd as [Hi Hn]. rewrite Ha.
      eapply returns_bind; [apply active_new_returns|]. intros a Has. simpl in Has. apply returns_ret.
      split; simpl; [done|]. exists a. by rewrite Has.
Qed.

Lemma commit_all_matches es : forall c g g', matches c g -> steps g es = Some g' ->
  returns (commit_all (commit_event base_text cfg) es c) (fun c' => matches c' g').
Proof.
  induction es as [|e es IH]; intros c g g' Hm Hs; cbn [commit_all steps] in *; [simplify_eq; by apply returns_ret|].
  destruct (step g e) as [g1|] eqn:E; simplify_eq/=. eapply returns_bind; [by eapply commit_event_matches|].
  intros c' Hc'. exact (IH c' g1 g' Hc' Hs).
Qed.

(** * Ingestion sends what the committer expects *)

(** Events that are not committed yet lead the committer to [g]. *)
Definition tracks (i : ingress) (g : list_state) : Prop :=
  exists remaining g0, ordered remaining (in_pipeline i) /\ blocked (in_pipeline i) /\
    in_next_sequence i = pl_next_sequence (in_pipeline i) + Z.of_nat (length remaining) /\
    matches (pl_state (in_pipeline i)) g0 /\ steps g0 remaining = Some g.

Lemma with_own_state {E S : Type} (pl : pipeline (E := E) (S := S)) : with_state (pl_state pl) pl = pl.
Proof. by destruct pl. Qed.

Lemma send_event_tracks e i g g' : tracks i g -> step g e = Some g' -> in_next_sequence i < U64_MAX ->
  returns (send_event base_text cfg e i)
    (fun r => r.1 = Ok tt /\ tracks r.2 g' /\ in_next_sequence r.2 = in_next_sequence i + 1).
Proof.
  intros (remaining & g0 & Ho & Hbl & Hn & Hm & Hs) He Hmax. unfold send_event, checked_add.
  destruct (Z.leb_spec (in_next_sequence i + 1) U64_MAX); [|lia].
  destruct (make_room_ok (commit_event base_text cfg) pipeline_overflow remaining _ Ho Hbl)
    as (ready & rest & pl' & -> & Ho' & Hbl' & Hroom & Hnx & Hrun).
  rewrite steps_app in Hs. destruct (steps g0 ready) as [g1|] eqn:E1; [|discriminate]. simpl in Hs.
  assert (Hsub : returns (submit (commit_event base_text cfg) pipeline_overflow (in_next_sequence i) e (in_pipeline i))
    (fun pl => tracks (mk_ingress (in_next_sequence i + 1) pl) g')).
  { unfold submit. specialize (Hrun (pl_state (in_pipeline i))). rewrite with_own_state in Hrun.
    eapply returns_ext; [intros d; by rewrite (io_bind_run _ _ _ d (Hrun d)), io_bind_assoc|].
    eapply returns_bind; [by eapply commit_all_matches|]. intros c Hc. apply returns_ret. simpl.
    exists (rest ++ [e]), g1. rewrite length_app in Hn |- *. simpl in Hn |- *. split_and!; [|done|lia|done|].
    - pose proof (ordered_submit rest pl' e (in_next_sequence i) Ho' Hroom) as Hos.
      destruct Hos as [? ? ? ? ? ? ? ?]; [lia|lia|]. by split.
    - rewrite steps_app, Hs. simpl. by rewrite He. }
  eapply returns_bind; [apply returns_attempt_ok, Hsub|]. intros r (pl & -> & Ht). by apply returns_ret.
Qed.

(** ** Sources that do not interrupt the write *)

Definition calm {A : Type} (r : CacheResult A) : bool :=
  match r with Ok _ => true | Err e => negb (is_interrupt e) end.

Definition calm_pull (p : pull) : bool :=
  match p with
  | Signal e => negb (is_interrupt (py_error pyerr_text e))
  | Pull r => calm (pulled_input pyerr_text not_utf8 r)
  end.

Definition calm_source (s : source) : bool :=
  bool_decide (src_signal s = None) && calm (extract_source_name pyerr_text not_a_string not_utf8 s) &&
  calm (of_python pyerr_text (src_iter s)) &&
  match src_iter s with Ret pulls => forallb calm_pull pulls | Raise _ => true end.

(** At most so many events. *)
Definition event_bound (s : source) : Z :=
  2 + match src_iter s with Ret pulls => Z.of_nat (length pulls) | Raise _ => 0 end.

Definition record_name (index : nat) (s : source) : pystr :=
  match extract_source_name pyerr_text not_a_string not_utf8 s with Ok name => name | Err _ => source_label index end.

(** The result of a part of ingestion: [n] more events at most, and [g] is reached. *)
Definition sent (i : ingress) (n : Z) (g : list_state) (r : CacheResult unit * ingress) : Prop :=
  tracks r.2 g /\ in_next_sequence r.2 <= in_next_sequence i + n.

Lemma ingest_samples_tracks k pulls : forall i, tracks i (k, true) -> forallb calm_pull pulls = true ->
  in_next_sequence i + Z.of_nat (length pulls) <= U64_MAX ->
  returns (ingest_source_samples pyerr_text not_utf8 base_text cfg pulls i)
    (fun r => calm r.1 = true /\ sent i (Z.of_nat (length pulls)) (k, true) r).
Proof.
  induction pulls as [|[e|r] pulls IH]; intros i Ht Hc Hb; cbn [ingest_source_samples forallb length] in *.
  - apply returns_ret. split; [done|]. split; simpl; [done|lia].
  - apply andb_prop in Hc as [Hc _]. apply returns_ret. split; [done|]. split; simpl; [done|lia].
  - apply andb_prop in Hc as [Hc Hcs]. simpl in Hc. destruct (pulled_input pyerr_text not_utf8 r) as [x|e].
    2:{ apply returns_ret. split; [done|]. split; simpl; [done|lia]. }
    eapply returns_bind; [eapply (send_event_tracks (Sample x)); [done|done|lia]|].
    intros [sent i'] (Hs & Ht' & Hn). simpl in *. subst sent.
    eapply returns_weaken; [apply (IH i' Ht' Hcs); lia|]. intros a (Hca & Hta & Hna). split; [done|]. split; [done|lia].
Qed.

Lemma end_or_abort_tracks k r i : tracks i (k, true) -> calm r = true -> in_next_sequence i < U64_MAX ->
  returns (end_or_abort base_text cfg r i) (fun x => x.1 = Ok tt /\ sent i 1 (S k, false) x).
Proof.
  intros Ht Hc Hb. unfold end_or_abort. destruct r as [u|e].
  - eapply returns_weaken; [by eapply (send_event_tracks EndSource)|]. intros [? ?] (? & ? & ?). split; [done|]. split; simpl in *; [done|lia].
  - simpl in Hc. apply negb_true_iff in Hc. rewrite Hc.
    eapply returns_weaken; [by eapply (send_event_tracks (AbortSource _))|]. intros [? ?] (? & ? & ?). split; [done|]. split; simpl in *; [done|lia].
Qed.

Lemma exists_returns p : returns (exists_path p) (fun _ => True).
Proof. intros d. unfold exists_path. eauto. Qed.

Lemma existing_result_returns name : returns (existing_cache_result base base_text cfg name) (fun r => r.1.2 = name).
Proof.
  unfold existing_cache_result. destruct (nw_validate_cache cfg); simpl; [|by apply returns_ret].
  eapply returns_bind; [apply returns_attempt|]. intros [c|e] _; by apply returns_ret.
Qed.

Lemma send_result_tracks i k record : tracks i (k, false) -> names !! k = Some record.1.2 -> in_next_sequence i < U64_MAX ->
  returns (send_event base_text cfg (SourceResult k record) i) (fun x => x.1 = Ok tt /\ sent i 2 (S k, false) x).
Proof.
  intros Ht Hn Hb. eapply returns_weaken; [eapply (send_event_tracks (SourceResult k record)); [done| |done]|].
  - simpl. by rewrite decide_True.
  - intros [? ?] (? & ? & ?). split; [done|]. split; simpl in *; [done|lia].
Qed.

Lemma ingest_one_tracks src k i : tracks i (k, false) -> names !! k = Some (record_name k src) -> calm_source src = true ->
  in_next_sequence i + event_bound src <= U64_MAX ->
  returns (ingest_one_source pyerr_text not_a_string not_utf8 base base_text cfg src k i)
    (fun r => r.1 = Ok tt /\ sent i (event_bound src) (S k, false) r).
Proof.
  unfold calm_source, event_bound. rewrite !andb_true_iff. intros Ht Hn (((_ & Hcn) & Hci) & Hcp) Hb.
  assert (Hpos : 0 <= match src_iter src with Ret pulls => Z.of_nat (length pulls) | Raise _ => 0 end) by (destruct (src_iter src); lia).
  assert (Hmore : forall r, r.1 = Ok tt /\ sent i 2 (S k, false) r -> r.1 = Ok tt /\ sent i (event_bound src) (S k, false) r).
  { intros r [H1 [H2 H3]]. split; [done|]. split; [done|]. unfold event_bound. lia. }
  unfold ingest_one_source, record_name in *. destruct (extract_source_name _ _ _ _) as [name|e].
  2:{ simpl in Hcn. apply negb_true_iff in Hcn. rewrite Hcn. eapply returns_weaken; [apply send_result_tracks; [done|done|lia]|exact Hmore]. }
  returns_with (fun _ : bool => True); [destruct (nw_reuse_existing cfg); [apply exists_returns|by apply returns_ret]|]. intros [] _.
  - eapply returns_bind; [apply existing_result_returns|]. intros r Hr. simpl in Hr.
    eapply returns_weaken; [apply send_result_tracks; [done|by rewrite Hr|lia]|exact Hmore].
  - eapply returns_bind; [apply returns_attempt|]. intros [u|e] _.
    2:{ eapply returns_weaken; [apply send_result_tracks; [done|done|lia]|exact Hmore]. }
    eapply returns_bind; [eapply (send_event_tracks (BeginSource _)); [exact Ht|simpl; by rewrite decide_True|lia]|].
    intros [b i1] (Hs & Ht1 & Hn1). simpl in *. subst b. destruct (src_iter src) as [pulls|e] eqn:Ei; simpl in *.
    + eapply returns_bind; [apply (ingest_samples_tracks k pulls i1 Ht1 Hcp); lia|]. intros [r i2] (Hc2 & Ht2 & Hn2). simpl in *.
      eapply returns_weaken; [apply (end_or_abort_tracks k r i2 Ht2 Hc2); lia|]. intros x [H1 [H2 H3]]. split; [done|]. split; [done|lia].
    + eapply returns_weaken; [apply (end_or_abort_tracks k (Err (py_error pyerr_text e)) i1 Ht1 Hci); lia|].
      intros x [H1 [H2 H3]]. split; [done|]. split; [done|lia].
Qed.

Lemma ingest_list_tracks sources : forall k i, tracks i (k, false) ->
  (forall j src, sources !! j = Some src -> names !! (k + j)%nat = Some (record_name (k + j) src)) ->
  forallb calm_source sources = true -> in_next_sequence i + Zsum (map event_bound sources) <= U64_MAX ->
  returns (ingest_source_list pyerr_text not_a_string not_utf8 base base_text cfg sources k i)
    (fun r => r.1 = Ok tt /\ tracks r.2 ((k + length sources)%nat, false)).
Proof.
  induction sources as [|src sources IH]; intros k i Ht Hn Hc Hb; cbn [ingest_source_list forallb length map] in *; rewrite ?Zsum_cons in Hb.
  - apply returns_ret. simpl. by rewrite Nat.add_0_r.
  - apply andb_prop in Hc as [Hc Hcs]. pose proof (Hn 0%nat src eq_refl) as Hn0. rewrite Nat.add_0_r in Hn0.
    assert (Hz : 0 <= Zsum (map event_bound sources)).
    { clear. induction sources as [|s l IH]; simpl; rewrite ?Zsum_nil, ?Zsum_cons; [lia|]. unfold event_bound at 1. destruct (src_iter s); lia. }
    pose proof Hc as Hc'. unfold calm_source in Hc'. rewrite !andb_true_iff, bool_decide_eq_true in Hc'.
    destruct Hc' as [[[-> _] _] _].
    eapply returns_bind; [apply (ingest_one_tracks src k i Ht Hn0 Hc); lia|]. intros [r i1] (Hr & Ht1 & Hn1). simpl in *. subst r.
    eapply returns_weaken; [apply (IH (S k) i1 Ht1); [|done|lia]|].
    + intros j s Hj. replace (S k + j)%nat with (k + S j)%nat by lia. by apply Hn.
    + intros x [H1 H2]. split; [done|]. by replace (k + S (length sources))%nat with (S k + length sources)%nat by lia.
Qed.

(** ** Draining *)

Lemma drain_or_drop_matches fuel : forall remaining pl g0 g, ordered remaining pl -> blocked pl ->
  fuel = length (pl_in_flight pl) -> matches (pl_state pl) g0 -> steps g0 remaining = Some g ->
  returns (drain_or_drop base_text cfg fuel pl) (fun pl' => pl_pending pl' = ∅ /\ matches (pl_state pl') g).
Proof.
  induction fuel as [|fuel IH]; intros remaining pl g0 g Ho Hbl Hf Hm Hs; cbn [drain_or_drop];
    destruct (pl_in_flight pl) as [|job jobs] eqn:Ej; try discriminate.
  - destruct (drained remaining pl Ho Hbl Ej) as [-> Hp]. apply returns_ret. simpl in Hs. injection Hs as ->. done.
  - destruct (complete_one_ok (commit_event base_text cfg) pipeline_overflow remaining pl Ho)
      as (ready & rest & pl' & -> & Ho' & Hbl' & (Hlen & _) & Hrun); [by rewrite Ej|].
    rewrite steps_app in Hs. destruct (steps g0 ready) as [g1|] eqn:E1; [|discriminate]. simpl in Hs.
    assert (Hone : returns (complete_one (commit_event base_text cfg) pipeline_overflow pl)
      (fun x => exists c, x = with_state c pl' /\ matches c g1)).
    { specialize (Hrun (pl_state pl)). rewrite with_own_state in Hrun. eapply returns_ext; [exact Hrun|].
      eapply returns_bind; [by eapply commit_all_matches|]. intros c Hc. apply returns_ret. eauto. }
    eapply returns_bind; [apply returns_attempt_ok, Hone|]. intros x (y & -> & c & -> & Hc). rewrite Ej in Hlen. simpl in Hlen, Hf.
    apply (IH rest (with_state c pl') g1 g); [by apply ordered_with_state|done|simpl; lia|done|done].
Qed.
End Protocol.

(** * The theorem *)

Section Records.
Context {J : ManifestFormat} {H : Hashing} {C : NativeCodecs} {R : RecordJson} {F : ArrowFiles}.
Context (pyerr_text : py_exc -> pystr) (not_a_string : pyval -> py_exc) (not_utf8 : pystr -> py_exc).
Context (base : path) (base_text : pystr) (cfg : NativeWriterConfig).

Lemma finish_list_records names i : tracks names i (length names, false) ->
  returns (finish_list base_text cfg (in_pipeline i))
    (fun results => exists records, results = map Some records /\ map (fun r : CacheWriteRecord => r.1.2) records = names).
Proof.
  intros (remaining & g0 & Ho & Hbl & _ & Hm & Hs). unfold finish_list.
  eapply returns_bind; [by eapply (drain_or_drop_matches base_text cfg names)|].
  intros pl [Hp [(records & Hr & Hn & _) _]]. rewrite bool_decide_true by done. apply returns_ret. exists records.
  rewrite Hr. simpl. rewrite Nat.sub_diag, app_nil_r. split; [done|]. simpl in Hn. by rewrite firstn_all in Hn.
Qed.

Lemma complete_results_all records : complete_write_results (map Some records) = Ok records.
Proof. unfold complete_write_results. apply try_collect_ok. induction records; constructor; [done|auto]. Qed.

(** C10. Every source of a list gets its record, in order: whatever the sources yield or
    raise (short of an interrupt), whichever file system calls fail, and in whichever
    order the jobs of the pipeline finish, a list of sources with distinct directories
    comes back as one record per source, under the source's name or, when it has no
    usable name, under its position. *)
Theorem source_list_records (sources : list source) (schedule : list wait) (d : disk)
    (Hunique : ensure_unique_source_paths pyerr_text not_a_string not_utf8 base base_text [] sources = Ok tt)
    (Hcalm : forallb (calm_source pyerr_text not_a_string not_utf8) sources = true)
    (Hevents : Zsum (map event_bound sources) <= U64_MAX)
    (Hpar : (0 < parallelism cfg)%nat) (Hschedule : undisturbed schedule) :
  exists records d',
    write_cache pyerr_text not_a_string not_utf8 base base_text cfg (SourceList sources) schedule d = (Ok records, d') /\
    map (fun r : CacheWriteRecord => r.1.2) records = imap (record_name pyerr_text not_a_string not_utf8) sources.
Proof.
  set (names := imap (record_name pyerr_text not_a_string not_utf8) sources).
  assert (Hlen : length names = length sources) by apply length_imap.
  set (start := mk_ingress 0 (new_pipeline (mk_committer (replicate (length sources) None) None) (parallelism cfg) schedule)).
  assert (Hstart : tracks names start (0%nat, false)).
  { exists [], (0%nat, false). split_and!; [|done|done| |done].
    - split; simpl; try done; try lia; [by intros q e ?%elem_of_nil|constructor].
    - split; simpl; [|done]. exists []. rewrite Nat.sub_0_r, Hlen. split_and!; [done|done|lia]. }
  pose proof (ingest_list_tracks pyerr_text not_a_string not_utf8 base base_text cfg names sources 0 start Hstart) as Hin.
  destruct (Hin ltac:(intros j s Hj; simpl; unfold names; by rewrite list_lookup_imap, Hj) Hcalm ltac:(simpl; lia) d)
    as ([r i] & d1 & Ei & Hr & Ht). simpl in Hr, Ht. subst r. rewrite <- Hlen in Ht.
  destruct (finish_list_records names i Ht d1) as (results & d2 & Ef & records & -> & Hn).
  exists records, d2. split; [|done]. simpl. unfold write_source_list. rewrite Hunique. unfold mbind, io_bind. simpl.
  unfold ensure. destruct (parallelism cfg) as [|par] eqn:Epar; [lia|]. simpl. fold start. rewrite Ei. simpl.
  rewrite Ef. unfold io_result. by rewrite complete_results_all.
Qed.
End Records.

#[local] Existing Instance demo_format.
#[local] Existing Instance demo_codecs.
#[local] Existing Instance demo_record_json.
#[local] Existing Instance demo_arrow.
#[local] Existing Instance demo_hashing.

(** A good source, one without a name, and one that raises after its first sample; the
    first removal of a directory fails. *)
Definition nameless_source : source := mk_py_source (Ret (PInt 3)) None (Ret []).
Definition raising_source : source :=
  mk_py_source (Ret (PStr (lit "b"))) None
    (Ret (yields (map demo_item (take 1 demo_samples)) ++ [Pull (Raise (ValueError (lit "broken")))])).
Definition faulty_disk : disk :=
  mk_disk ∅ (replicate 25 None ++ [Some (mk_fault (lit "Input/output error (os error 5)") [] (fun _ => true))]) 4096.
Definition demo_schedule : list wait := [JobFinishes 1; JobFinishes 0; JobFinishes 1].

Lemma source_list_records_witness :
  exists records d', write_cache demo_text demo_not_a_string demo_not_utf8 [lit "caches"] (lit "/caches") demo_writer_config
      (SourceList [demo_source; nameless_source; raising_source]) demo_schedule faulty_disk = (Ok records, d') /\
    map (fun r : CacheWriteRecord => r.1.2) records = [lit "a"; lit "source[1]"; lit "b"].
Proof.
  destruct (source_list_records demo_text demo_not_a_string demo_not_utf8 [lit "caches"] (lit "/caches") demo_writer_config
    [demo_source; nameless_source; raising_source] demo_schedule faulty_disk) as (records & d' & Hw & Hn).
  - vm_compute. reflexivity.
  - vm_compute. reflexivity.
  - vm_compute. discriminate.
  - apply Nat.ltb_lt. reflexivity.
  - repeat constructor.
  - exists records, d'. split; [exact Hw|]. rewrite Hn. vm_compute. reflexivity.
Defined.

(** The name of the directory of temporary caches is not reserved: with [reuse_existing]
    a source of that name is reported as written once another source has made the
    directory, although nothing of it was read and the directory holds no manifest. *)
Definition tmp_source : source := mk_py_source (Ret (PStr tmp)) None (Ret (yields (map demo_item demo_samples))).
Definition reusing_config : NativeWriterConfig := mk_native_config 20 4 2 (NativeLz4Fast 1) false true.

Lemma reserved_name_reported :
  let '(r, d) := write_cache demo_text demo_not_a_string demo_not_utf8 [lit "caches"] (lit "/caches") reusing_config
      (SourceList [demo_source; tmp_source]) demo_schedule demo_disk in
  r = Ok [(lit "success", lit "a", lit "/caches/a"); (lit "success", lit "tmp", lit "/caches/tmp")] /\
  d_store d !! [lit "caches"; lit "tmp"; lit "manifest.json"] = None.
Proof. vm_compute. split; reflexivity. Qed.

(** A single source whose iterator cannot be made leaves its temporary directory behind;
    as one of a list it is cleaned up. *)
Definition stubborn_source : source :=
  mk_py_source (Ret (PStr (lit "b"))) None (Raise (TypeError (lit "not iterable"))).

Lemma iterator_failure_leaves_temporary :
  let write sources := write_cache demo_text demo_not_a_string demo_not_utf8 [lit "caches"] (lit "/caches")
                         demo_writer_config sources demo_schedule demo_disk in
  is_Some (d_store (write (OneSource stubborn_source)).2 !! [lit "caches"; tmp; lit "b"; lit "shards"]) /\
  d_store (write (SourceList [stubborn_source])).2 !! [lit "caches"; tmp; lit "b"] = None.
Proof. vm_compute. split; [by eexists|reflexivity]. Qed.
