(* ===== verification/StorageReader.v ===== *)
(** The storage behind the Python layer: the native reader that opens and reads cache
    directories of a store is an instance of the interface the dataset is built on, and
    what was written through the native writer is what a dataset loaded from it gives. *)
From stdpp Require Import base tactics list numbers strings gmap.
From S2P Require Import Prelude Collections Records Binary64 Config Seeds PyStr Writer Native Metadata Interface Dataset Loader.
From S2P Require Import Runtime Manifest FileSystem RecordCodec OrderedPipeline IndexFile MetadataFile CacheStore ReaderCache.
From S2P Require Import StoreProofs StoreReads CacheRoundtrip NativeInput NativeWriter WriterRoundtrip.
Open Scope Z_scope.

Section Storage.
Context {J : ManifestFormat} {H : Hashing} {C : NativeCodecs} {R : RecordJson} {F : ArrowFiles}.

(** The store as a disk on which no call fails. *)
Definition quiet_disk (s : store) : disk := mk_disk s [] 0.

(** Opening a directory: the cache and the rows of its table. *)
Definition open_directory (p : path) (validate : bool) (position : Z) : io LoadedCache :=
  oc ← load_cache p validate position;
  rows ← metadata_rows_of oc;
  rows ← io_result rows;
  mret (mk_cache (oc_cache_id oc) (mf_metadata_schema (fields (oc_manifest oc))) rows p).

(** Reading one sample: its payload and its metadata by name. *)
Definition read_directory (c : LoadedCache) (i : Z) : io (list Z * gmap pystr MetadataValue) :=
  oc ← load_cache (cache_directory c) false 0;
  '(sample, _) ← read_sample_with_cache oc i new_readers;
  sample ← io_result sample;
  mret (sample.1, list_to_map (zip (map fst (cache_schema c)) sample.2)).

(** The native reader over a store; the random generators are those of [N]. *)
Definition storage_reader (N : NativeReader) (s : store) : NativeReader := {|
  uniform := uniform (NativeReader := N);
  weighted := weighted (NativeReader := N);
  distribution_error := distribution_error (NativeReader := N);
  open_cache := fun p validate position => (open_directory p validate position (quiet_disk s)).1;
  read_payload := fun c i => (read_directory c i (quiet_disk s)).1;
  resolve := resolve (NativeReader := N) |}.

Lemma storage_reader_laws N s : NativeReaderLaws N -> NativeReaderLaws (storage_reader N s).
Proof. intros [Hg Hd]. by split. Qed.

(** * A cache that reads back *)

Section Cache.
Context (schema : schema_of_cache) (src : pystr) (samples : list sample) (q : path) (s : store).
Context (Hback : reads_back schema src samples q s).

Definition loaded : LoadedCache :=
  mk_cache (cache_id_from_name src) schema (map (fun x => metadata_values x.2) samples) q.

Lemma storage_opens N validate position : open_cache (NativeReader := storage_reader N s) q validate position = Ok loaded.
Proof.
  destruct (Hback (quiet_disk s) validate position ltac:(constructor) eq_refl)
    as (oc & d1 & El & Hs1 & Hd1 & Hid & _ & Hsch & Hrows & _).
  destruct (Hrows d1 Hd1 Hs1) as (d2 & Er & _). simpl. unfold open_directory, mbind, io_bind. rewrite El, Er. simpl.
  by rewrite Hid, Hsch.
Qed.

Lemma storage_reads N (i : nat) data metadata : samples !! i = Some (data, metadata) ->
  read_payload (NativeReader := storage_reader N s) loaded (Z.of_nat i) = Ok (data, metadata).
Proof.
  intros Hi. destruct (Hback (quiet_disk s) false 0 ltac:(constructor) eq_refl)
    as (oc & d1 & El & Hs1 & Hd1 & _ & _ & _ & _ & Hread & _).
  destruct (Hread i data metadata Hi new_readers d1 Hd1 Hs1 (new_readers_ok _)) as (row & rc & d2 & Er & _ & Hm).
  simpl. unfold read_directory, mbind, io_bind. simpl. rewrite El, Er. simpl. by rewrite Hm.
Qed.

Lemma loaded_count : sample_count loaded = Z.of_nat (length samples).
Proof. unfold sample_count. simpl. by rewrite length_map. Qed.
End Cache.

(** * A dataset of such caches *)

(** A directory with the source that was written there. *)
Record written := mk_written { wr_path : path; wr_name : pystr; wr_samples : list sample }.

Section Datasets.
Context (N : NativeReader) (s : store) (schema : schema_of_cache) (sources : list written).
Context (Hback : Forall (fun w => reads_back schema (wr_name w) (wr_samples w) (wr_path w) s) sources).
Abbreviation reader := (storage_reader N s).
Abbreviation loaded_of := (fun w => loaded schema (wr_name w) (wr_samples w) (wr_path w)).

Lemma load_caches_written validate : forall position,
  load_caches (N := reader) validate position (map wr_path sources) = Ok (map loaded_of sources).
Proof.
  induction Hback as [|w ws Hw _ IH]; intros position; [done|]. cbn [map load_caches].
  rewrite (storage_opens _ _ _ _ _ Hw), IH; [done|]. by apply Forall_cons in Hback as [_ ?].
Qed.

Lemma lookup_distinct caches : forall position lookup, NoDup (map cache_identity caches) ->
  (forall c, c ∈ caches -> lookup !! cache_identity c = None) -> exists l, cache_lookup_from position lookup caches = Ok l.
Proof.
  induction caches as [|c caches IH]; intros position lookup Hn Hl; [by eexists|]. cbn [cache_lookup_from map] in *.
  apply NoDup_cons in Hn as [Hc Hn]. rewrite (Hl c) by left. apply IH; [done|]. intros c' Hc'.
  rewrite lookup_insert_ne; [apply Hl; by right|]. intros E. apply Hc. rewrite E. by apply list_elem_of_fmap_2.
Qed.

Lemma offsets_fit counts : forall next, 0 <= next -> Forall (Z.le 0) counts -> next + Zsum counts <= U64_MAX ->
  exists l, cache_offsets_from next counts = Ok l.
Proof.
  induction counts as [|n counts IH]; intros next Hn Hp Hs; [by eexists|]. cbn [cache_offsets_from].
  apply Forall_cons in Hp as [Hp Hps]. rewrite Zsum_cons in Hs.
  assert (0 <= Zsum counts) by (clear -Hps; induction Hps; rewrite ?Zsum_nil, ?Zsum_cons; lia).
  unfold checked_add. destruct (Z.leb_spec (next + n) U64_MAX); [|lia].
  destruct (IH (next + n)) as [l ->]; [lia|done|lia|by eexists].
Qed.

Lemma common_schema_written w ws : sources = w :: ws -> common_schema (map loaded_of sources) = Ok schema.
Proof.
  intros ->. cbn [map common_schema]. assert (forallb (same_schema (loaded_of w)) (map loaded_of ws) = true) as ->; [|done].
  apply Is_true_true, forallb_True, Forall_map, Forall_forall. intros x _. unfold same_schema. simpl. by rewrite bool_decide_true.
Qed.

Lemma counts_written : map sample_count (map loaded_of sources) = map (fun w => Z.of_nat (length (wr_samples w))) sources.
Proof. rewrite map_map. apply map_ext. intros w. apply loaded_count. Qed.

Lemma load_native_written seed prefetch shuffle validate :
  sources <> [] -> prefetch <> 0 -> NoDup (map (fun w => cache_id_from_name (wr_name w)) sources) ->
  let total := Zsum (map (fun w => Z.of_nat (length (wr_samples w))) sources) in
  0 < total <= U64_MAX ->
  exists lookup offsets, cache_lookup (map loaded_of sources) = Ok lookup /\
    load_native (N := reader) (map wr_path sources) seed prefetch shuffle validate =
    Ok (mk_native (map loaded_of sources) lookup offsets schema None (mk_state total seed shuffle None total 0 0)).
Proof.
  intros Hne Hp Hn total Ht. assert (exists w ws, sources = w :: ws) as (w & ws & Es) by (destruct sources; [done|eauto]).
  destruct (lookup_distinct (map loaded_of sources) 0 ∅) as [lookup Hl]; [by rewrite map_map|intros; apply lookup_empty|].
  destruct (offsets_fit (map sample_count (map loaded_of sources)) 0) as [offsets Ho];
    [lia|apply Forall_map, Forall_forall; intros c _; unfold sample_count; lia|rewrite counts_written; fold total; lia|].
  exists lookup, offsets. split; [done|]. unfold load_native.
  destruct (map wr_path sources) as [|p ps] eqn:Ep; [by rewrite Es in Ep|]. rewrite <- Ep.
  destruct (Z.eqb_spec prefetch 0); [done|]. rewrite load_caches_written. unfold cache_lookup. rewrite Hl.
  rewrite (common_schema_written _ _ Es), Ho. unfold load_state, total_samples. rewrite counts_written. fold total.
  destruct (Z.eqb_spec total 0); [lia|]. unfold new_epoch_len. destruct (Z.eqb_spec total 0); [lia|done].
Qed.

(** Loading the directories succeeds, and every sample is found under its identity. *)
Lemma dataset_written workers (c : ReaderConfig) :
  sources <> [] -> is_u64 (reader_seed_value c) -> is_u64 (reader_prefetch_size c) -> reader_prefetch_size c <> 0 ->
  NoDup (map (fun w => cache_id_from_name (wr_name w)) sources) ->
  0 < Zsum (map (fun w => Z.of_nat (length (wr_samples w))) sources) <= U64_MAX ->
  exists d, cached_dataset_load (N := reader) workers (map wr_path sources) c = Ret d /\
    dataset_len d = Zsum (map (fun w => Z.of_nat (length (wr_samples w))) sources) /\
    forall k w (i : nat) data metadata, sources !! k = Some w -> wr_samples w !! i = Some (data, metadata) ->
      Z.of_nat i <= U64_MAX ->
      get_item (N := reader) (PInt (cache_id_from_name (wr_name w))) (PInt (Z.of_nat i)) d =
      Ret (mk_sample data metadata (cache_id_from_name (wr_name w)) (Z.of_nat i)).
Proof.
  intros Hne Hseed Hpre Hp0 Hn Ht.
  destruct (load_native_written (reader_seed_value c) (reader_prefetch_size c) (reader_shuffle c) (reader_validate_cache c)
    Hne Hp0 Hn Ht) as (lookup & offsets & Hl & Hload).
  unfold cached_dataset_load, native_cached_dataset.
  rewrite !extract_u64_ok by done. simpl. rewrite Hload. simpl. eexists. split; [done|]. split; [done|].
  intros k w i data metadata Hk Hi Hb. unfold get_item. change (Z.shiftl 1 64 - 1) with U64_MAX.
  destruct (cache_id_u64 (wr_samples w) (wr_name w)) as [H1 H2]. do 4 (zcase; [|lia]). simpl.
  assert (Hkc : map loaded_of sources !! k = Some (loaded_of w)) by (change (map ?f ?l) with (f <$> l); by rewrite list_lookup_fmap, Hk).
  set (n := mk_native _ _ _ _ _ _) in *. change (cache_id_from_name (wr_name w)) with (cache_identity (loaded_of w)).
  rewrite (load_sample_by_identity_ok n Hl k (loaded_of w) (Z.of_nat i) Hkc).
  2:{ rewrite loaded_count. apply lookup_lt_Some in Hi. lia. }
  unfold sample_of. 
  pose proof (Forall_lookup_1 _ _ _ _ Hback Hk) as Hw. by rewrite (storage_reads _ _ _ _ _ Hw N i data metadata Hi).
Qed.
End Datasets.
End Storage.

(** C2. What a source yields is what its dataset gives: a source of storable samples
    written through the native pipeline, in whichever order its jobs finish, and loaded
    with any reader configuration from the directory it was published to, is a dataset
    of as many samples, in which item [i] under the identity of the source is its
    [i]-th sample with its payload and metadata. *)
Theorem written_dataset_reads_back {J : ManifestFormat} {JL : ManifestFormatLaws J} {H : Hashing}
    {C : NativeCodecs} {memory : Z} {CL : NativeCodecsLaws C memory}
    {R : RecordJson} {RL : RecordJsonLaws R} {F : ArrowFiles} {FL : ArrowFilesLaws F} (N : NativeReader)
    pyerr_text not_a_string not_utf8 base base_text cfg src name items samples schema encs schedule (d : disk)
    (runtime : DatasetRuntime) (reader : ReaderConfig)
    (Hname : extract_source_name pyerr_text not_a_string not_utf8 src = Ok name) (Hentry : directory_entry name <> tmp)
    (Hiter : src_iter src = Ret (yields items)) (Hitems : items_yield pyerr_text not_utf8 items samples)
    (Hsource : source_ok (memory := memory) (nw_shard_compression cfg) schema samples encs)
    (Hpar : (0 < parallelism cfg)%nat) (Hschedule : undisturbed schedule)
    (Hcache : d_store d !! cache_path_for_source base name = None)
    (Htemp : free_path (temp_cache_path_for_source base name) (d_store d)) (Hd : reliable d)
    (Hseed : is_u64 (reader_seed_value reader)) (Hprefetch : 0 < reader_prefetch_size reader <= U64_MAX) :
  exists d' ds,
    write_cache pyerr_text not_a_string not_utf8 base base_text cfg (OneSource src) schedule d =
      (Ok [(lit "success", name, cache_path_text base_text name)], d') /\
    cached_dataset (N := storage_reader N (d_store d')) runtime [cache_path_for_source base name] reader = Ret ds /\
    dataset_len ds = Z.of_nat (length samples) /\
    forall (i : nat) data metadata, samples !! i = Some (data, metadata) ->
      get_item (N := storage_reader N (d_store d')) (PInt (cache_id_from_name name)) (PInt (Z.of_nat i)) ds =
      Ret (mk_sample data metadata (cache_id_from_name name) (Z.of_nat i)).
Proof.
  destruct (written_source_reads_back (CL := CL) pyerr_text not_a_string not_utf8 base base_text cfg src name items samples
    schema encs schedule d Hname Hentry Hiter Hitems Hsource Hpar Hschedule Hcache Htemp Hd) as (d' & Hw & Hr & _).
  pose proof (sk_count _ _ _ _ Hsource) as Hcount. pose proof (sk_samples _ _ _ _ Hsource) as Hne.
  assert (0 < length samples)%nat by (destruct samples; simpl; [done|lia]).
  set (w := mk_written (cache_path_for_source base name) name samples).
  destruct (dataset_written N (d_store d') schema [w] ltac:(by repeat constructor) (runtime_num_workers runtime) reader)
    as (ds & Hload & Hlen & Hget); try done.
  - split; lia.
  - lia.
  - apply NoDup_singleton.
  - simpl. rewrite Zsum_cons, Zsum_nil. simpl. lia.
  - exists d', ds. split_and!; [done|done| |].
    + rewrite Hlen. simpl. rewrite Zsum_cons, Zsum_nil. simpl. lia.
    + intros i data metadata Hi. apply (Hget 0%nat w i data metadata eq_refl Hi). apply lookup_lt_Some in Hi. lia.
Qed.

#[local] Existing Instance demo_format.
#[local] Existing Instance demo_format_laws.
#[local] Existing Instance demo_codecs.
#[local] Existing Instance demo_codecs_laws.
#[local] Existing Instance demo_record_json.
#[local] Existing Instance demo_record_json_laws.
#[local] Existing Instance demo_arrow.
#[local] Existing Instance demo_arrow_laws.
#[local] Existing Instance demo_hashing.

Lemma written_dataset_reads_back_witness :
  exists d' ds, write_cache demo_text demo_not_a_string demo_not_utf8 [lit "caches"] (lit "/caches") demo_writer_config
      (OneSource demo_source) [JobFinishes 1; JobFinishes 0; JobFinishes 7] demo_disk =
      (Ok [(lit "success", lit "a", lit "/caches/a")], d') /\
    cached_dataset (N := storage_reader demo_native (d_store d')) (mk_runtime 2) [[lit "caches"; lit "a"]] demo_reader = Ret ds /\
    get_item (N := storage_reader demo_native (d_store d')) (PInt (cache_id_from_name (lit "a"))) (PInt 2) ds =
      Ret (mk_sample [9] {[ lit "label" := MInt 0 ]} (cache_id_from_name (lit "a")) 2).
Proof.
  destruct (written_dataset_reads_back (CL := demo_codecs_laws) demo_native demo_text demo_not_a_string demo_not_utf8
    [lit "caches"] (lit "/caches") demo_writer_config demo_source (lit "a") (map demo_item demo_samples) demo_samples demo_schema
    (demo_encs (NativeLz4Fast 1)) [JobFinishes 1; JobFinishes 0; JobFinishes 7] demo_disk (mk_runtime 2) demo_reader)
    as (d' & ds & Hw & Hl & _ & Hg).
  - reflexivity.
  - vm_compute. discriminate.
  - reflexivity.
  - exact demo_items_yield.
  - exact demo_source_ok.
  - apply Nat.ltb_lt. reflexivity.
  - repeat constructor.
  - apply lookup_empty.
  - split; [done|]. split; [intros k _; apply lookup_empty|]. intros k b _ E. simpl in E. by rewrite lookup_empty in E.
  - constructor.
  - split; vm_compute; discriminate.
  - split; vm_compute; [reflexivity|discriminate].
  - exists d', ds. split; [exact Hw|]. split; [exact Hl|]. exact (Hg 2%nat [9] {[ lit "label" := MInt 0 ]} eq_refl).
Defined.
