(* ===== verification/Migration.v ===== *)
(** The upgrade of a dataset's manifests ([src/src/dataset_rt/storage/migration.rs] and
    [update_manifests] of [src/src/dataset_rt/dataset.rs]): preflight of every target,
    then one atomic replacement after the other, with a failure or a signal at any
    system call. Every state of the filesystem is recorded, so that a process killed
    at any moment is covered. *)
From stdpp Require Import base tactics list numbers strings gmap.
From S2P Require Import Prelude Collections Records Config Seeds Native Metadata Interface Dataset Manifest.
Open Scope Z_scope.

(** * The world of a migration *)

(** The boundaries at which the hook runs, and the calls that can fail. *)
Inductive Step := Inspect | Write | Flush | Rename | DirectorySync.

Inductive syscall :=
| ReadTarget | RereadTarget | Permissions | SetPermissions | CreateNew | WriteJson | FlushWriter
| SyncFile | RenameFile | SyncParent | RemoveTemporary.

Abbreviation files := (gmap path (list Z)).

(** Files by path, the process-wide counter of temporary names, the [replaced] flag of
    the target at hand, a signal seen by the hook, and the states of the files so far. *)
Record world := mk_world {
  w_files : files;
  w_next : Z;
  w_replaced : bool;
  w_signal : option py_exc;
  w_seen : list files }.

(** [LoadedCache]: the part a migration uses. *)
Record loaded_manifest {J : ManifestFormat} := mk_loaded {
  lm_path : path;
  lm_cache_id : Z;
  lm_manifest : Manifest Value }.
Arguments loaded_manifest : clear implicits.
Arguments loaded_manifest {J}.

Record UpdateEntry := mk_update_entry { ue_path : path; ue_cache_id : Z; ue_status : pystr }.

Record UpdateError := mk_update_failure {
  uf_path : option path; uf_message : pystr; uf_entries : list UpdateEntry }.

Record Target := mk_target {
  t_path : path; t_cache_id : Z; t_digest : list Z; t_needs_update : bool }.

(** What surrounds a migration: failing calls, pending signals, resolution of symbolic
    links, what an unfinished write leaves, the hash and the process id. *)
Record menv := mk_menv {
  me_fails : syscall -> path -> option CacheError;
  me_signals : Step -> path -> option py_exc;
  me_canonicalize : path -> result path CacheError;
  me_unfinished : path -> list Z;
  me_sha256 : list Z -> list Z;
  me_pid : Z }.

Definition mig (A : Type) : Type := world -> result A CacheError * world.

#[export] Instance mig_ret : MRet mig := fun A a w => (Ok a, w).
#[export] Instance mig_bind : MBind mig := fun A B f m w =>
  match m w with (Ok a, w) => f a w | (Err e, w) => (Err e, w) end.

Definition lift {A : Type} (r : result A CacheError) : mig A := fun w => (r, w).
Definition throw {A : Type} (e : CacheError) : mig A := fun w => (Err e, w).

(** The files become [f]. *)
Definition set_files (f : files) : mig unit := fun w =>
  (Ok tt, mk_world f (w_next w) (w_replaced w) (w_signal w) (f :: w_seen w)).
Definition set_replaced (b : bool) : mig unit := fun w =>
  (Ok tt, mk_world (w_files w) (w_next w) b (w_signal w) (w_seen w)).
Definition get_files : mig files := fun w => (Ok (w_files w), w).

(** [fetch_add(1, Relaxed)] of the 64-bit counter. *)
Definition fetch_add_next : mig Z := fun w =>
  (Ok (w_next w), mk_world (w_files w) ((w_next w + 1) mod 2 ^ 64) (w_replaced w) (w_signal w) (w_seen w)).

Definition is_v2 {V : Type} (m : Manifest V) : bool := match m with V2 _ => true | _ => false end.

(** [path.parent()]. *)
Definition parent (p : path) : option path :=
  match p with [] => None | _ => Some (removelast p) end.

Section Migration.
Context {J : ManifestFormat} (env : menv).

(** A call that fails when the environment says so. *)
Definition call (s : syscall) (p : path) : mig unit :=
  match me_fails env s p with Some e => throw e | None => mret tt end.

(** The hook of [PyCachedDataset::update_manifests]: [check_signals]. *)
Definition hook (s : Step) (p : path) : mig unit := fun w =>
  match me_signals env s p with
  | None => (Ok tt, w)
  | Some e => (Err WorkerFailed, mk_world (w_files w) (w_next w) (w_replaced w) (Some e) (w_seen w))
  end.

Definition read (s : syscall) (p : path) : mig (list Z) :=
  _ ← call s p;
  f ← get_files;
  match f !! p with
  | Some bytes => mret bytes
  | None => throw (IoError (lit "No such file or directory (os error 2)"))
  end.

(** [sync_manifest_directory(manifest)]. *)
Definition sync_manifest_directory (manifest : path) : mig unit :=
  match parent manifest with
  | None => throw (InvalidInput (lit "manifest has no parent directory"))
  | Some p => call SyncParent p
  end.

(** [create_temporary(manifest)]: the next name that does not exist yet. *)
Definition temporary_name (sequence : Z) : pystr :=
  lit ".dataset-rt-manifest-" ++ dec (me_pid env) ++ lit "-" ++ dec sequence ++ lit ".tmp".

Fixpoint create_new (fuel : nat) (directory : path) : mig path :=
  match fuel with
  | O => throw WorkerFailed
  | S fuel =>
      sequence ← fetch_add_next;
      let temporary := path_join directory (temporary_name sequence) in
      f ← get_files;
      match f !! temporary with
      | Some _ => create_new fuel directory
      | None =>
          _ ← call CreateNew temporary;
          _ ← set_files (<[temporary := []]> f);
          mret temporary
      end
  end.

Definition create_temporary (manifest : path) : mig path :=
  match parent manifest with
  | None => throw (InvalidInput (lit "manifest has no parent directory"))
  | Some p => f ← get_files; create_new (S (size f)) p
  end.

(** [Drop for TemporaryManifest]: a failure is ignored. *)
Definition drop_temporary (temporary : path) (w : world) : world :=
  match me_fails env RemoveTemporary temporary with
  | Some _ => w
  | None => (set_files (delete temporary (w_files w)) w).2
  end.

Definition with_temporary {A : Type} (temporary : path) (m : mig A) : mig A := fun w =>
  let '(r, w) := m w in (r, drop_temporary temporary w).

(** Overwrite a file, and rename it over another one. *)
Definition overwrite (p : path) (bytes : list Z) : mig unit :=
  f ← get_files; set_files (<[p := bytes]> f).

Definition rename (source target : path) : mig unit :=
  _ ← call RenameFile target;
  f ← get_files;
  match f !! source with
  | None => throw (IoError (lit "No such file or directory (os error 2)"))
  | Some bytes => set_files (<[target := bytes]> (delete source f))
  end.

(** Write, flush, sync and rename the new manifest; [temporary] is already created. *)
Definition publish_manifest (target : path) (temporary : path) (manifest : Manifest Value) : mig pystr :=
  _ ← call Permissions target;
  _ ← call SetPermissions temporary;
  _ ← hook Write target;
  _ ← overwrite temporary (me_unfinished env target);
  _ ← call WriteJson temporary;
  _ ← hook Flush target;
  _ ← call FlushWriter temporary;
  _ ← overwrite temporary (encode manifest);
  _ ← call SyncFile temporary;
  _ ← hook Rename target;
  _ ← rename temporary target;
  _ ← set_replaced true;
  _ ← hook DirectorySync target;
  _ ← sync_manifest_directory target;
  mret (lit "updated").

(** The closure of [update_target], and [update_target]. *)
Definition update_body (t : Target) : mig pystr :=
  _ ← hook Inspect (t_path t);
  bytes ← read RereadTarget (t_path t);
  if bool_decide (me_sha256 env bytes = t_digest t) then
    if t_needs_update t then
      manifest ← lift (decode bytes);
      temporary ← create_temporary (t_path t);
      with_temporary temporary (publish_manifest (t_path t) temporary (into_v3 (t_cache_id t) manifest))
    else
      _ ← sync_manifest_directory (t_path t);
      mret (lit "unchanged")
  else throw (InvalidCache (lit "manifest changed during migration")).

Definition update_target (t : Target) (w : world) : result pystr (CacheError * bool) * world :=
  match (_ ← set_replaced false; update_body t) w with
  | (Ok status, w) => (Ok status, w)
  | (Err e, w) => (Err (e, w_replaced w), w)
  end.

(** [inspect_target]: the sets of paths and identities seen so far come back with the
    target. *)
Definition inspect_target (c : loaded_manifest) (paths : list path) (ids : list Z)
  : mig (Target * list path * list Z) :=
  p ← lift (me_canonicalize env (path_join (lm_path c) (lit "manifest.json")));
  let id := lm_cache_id c in
  if bool_decide (p ∈ paths) || bool_decide (id ∈ ids)
  then throw (InvalidInput (lit "duplicate migration target or cache_id"))
  else
    bytes ← read ReadTarget p;
    current ← lift (decode bytes);
    if match current with V2 _ => false | V3 other _ | V4 other _ => negb (other =? id) end
    then throw (InvalidCache (lit "manifest cache_id changed since dataset construction"))
    else if negb (is_v2 (lm_manifest c)) && is_v2 current
    then throw (InvalidCache (lit "manifest was downgraded since dataset construction"))
    else
      let expected := if is_v2 current then lm_manifest c else into_v3 id (lm_manifest c) in
      if bool_decide (fields_json (fields expected) = fields_json (fields current))
      then mret (mk_target p id (me_sha256 env bytes) (is_v2 current), p :: paths, id :: ids)
      else throw (InvalidCache (lit "manifest changed since dataset construction")).

Fixpoint preflight_from (caches : list loaded_manifest) (paths : list path) (ids : list Z) (w : world)
  : result (list Target) UpdateError * world :=
  match caches with
  | [] => (Ok [], w)
  | c :: rest =>
      match (_ ← hook Inspect (lm_path c); inspect_target c paths ids) w with
      | (Err e, w) =>
          (Err (mk_update_failure (Some (path_join (lm_path c) (lit "manifest.json"))) (display e) []), w)
      | (Ok (t, paths, ids), w) =>
          match preflight_from rest paths ids w with
          | (Ok ts, w) => (Ok (t :: ts), w)
          | (Err e, w) => (Err e, w)
          end
      end
  end.

Definition preflight_manifests (caches : list loaded_manifest) (w : world)
  : result (list Target) UpdateError * world := preflight_from caches [] [] w.

(** The loop of [update_with_hook]. *)
Definition entry_of (t : Target) (status : pystr) : UpdateEntry :=
  mk_update_entry (t_path t) (t_cache_id t) status.

Fixpoint update_all (targets : list Target) (entries : list UpdateEntry) (w : world)
  : result (list UpdateEntry) UpdateError * world :=
  match targets with
  | [] => (Ok entries, w)
  | t :: rest =>
      match update_target t w with
      | (Ok status, w) => update_all rest (entries ++ [entry_of t status]) w
      | (Err (e, replaced), w) =>
          (Err (mk_update_failure (Some (t_path t)) (display e)
                  (if replaced then entries ++ [entry_of t (lit "durability_unknown")] else entries)), w)
      end
  end.

Definition update_with_hook (caches : list loaded_manifest) (version : Z) (w : world)
  : result (list UpdateEntry) UpdateError * world :=
  if version =? 3 then
    match preflight_manifests caches w with
    | (Err e, w) => (Err e, w)
    | (Ok targets, w) => update_all targets [] w
    end
  else (Err (mk_update_failure None
               (lit "unsupported manifest migration target " ++ dec version ++ lit "; expected 3") []), w).

(** [PyCachedDataset::update_manifests]: a signal is raised after the run. *)
Definition migration_entries (entries : list UpdateEntry) : list (path * Z * pystr) :=
  map (fun e => (ue_path e, ue_cache_id e, ue_status e)) entries.

Definition native_update_manifests (caches : list loaded_manifest) (version : Z) (w : world)
  : outcome native_manifests * world :=
  let '(r, w) := update_with_hook caches version w in
  (match w_signal w with
   | Some e => Raise e
   | None =>
       match r with
       | Ok entries => Ret (mk_native_manifests true (migration_entries entries) None [])
       | Err e => Ret (mk_native_manifests false (migration_entries (uf_entries e)) (uf_path e) (uf_message e))
       end
   end, w).

(** A whole call from Python: the files it starts from, no signal pending. *)
Definition migrate (caches : list loaded_manifest) (version : pyval) (w : world)
  : outcome (result ManifestUpdateReport ManifestUpdateError) * world :=
  let '(r, w') := native_update_manifests caches 3 w in
  if bool_decide (version = PInt 3) then (update_manifests r version, w')
  else (update_manifests r version, w).
End Migration.

(** * A program logic for one target *)

(** From a world satisfying [P], a normal end satisfies [Q] and a failure [X]. *)
Definition spec {A : Type} (P : world -> Prop) (m : mig A) (Q : A -> world -> Prop) (X : world -> Prop) : Prop :=
  forall w, P w -> match m w with (Ok a, w') => Q a w' | (Err _, w') => X w' end.

Lemma spec_bind {A B : Type} P (m : mig A) R (k : A -> mig B) Q X :
  spec P m R X -> (forall a, spec (R a) (k a) Q X) -> spec P (m ≫= k) Q X.
Proof.
  intros Hm Hk w Hw. unfold mbind, mig_bind. specialize (Hm w Hw).
  destruct (m w) as [[a|e] w']; [by apply Hk|done].
Qed.

Lemma spec_weaken {A : Type} P (m : mig A) (Q Q' : A -> world -> Prop) (X X' : world -> Prop) :
  spec P m Q X -> (forall a w, Q a w -> Q' a w) -> (forall w, X w -> X' w) -> spec P m Q' X'.
Proof. intros Hm HQ HX w Hw. specialize (Hm w Hw). destruct (m w) as [[a|e] w']; auto. Qed.

Lemma spec_ret {A : Type} (P : world -> Prop) (a : A) (Q : A -> world -> Prop) X :
  (forall w, P w -> Q a w) -> spec P (mret a) Q X.
Proof. intros H w Hw. by apply H. Qed.

Lemma spec_throw {A : Type} (P : world -> Prop) e (Q : A -> world -> Prop) (X : world -> Prop) :
  (forall w, P w -> X w) -> spec P (throw e) Q X.
Proof. intros H w Hw. by apply H. Qed.

(** The files are [g], the flag is [r], and every state so far satisfied [I]. *)
Definition phase (I : files -> Prop) (g : files) (r : bool) (w : world) : Prop :=
  w_files w = g /\ w_replaced w = r /\ Forall I (w_seen w).

Section Calls.
Context (env : menv) (I : files -> Prop) (g : files) (r : bool).

Lemma spec_call s p (X : world -> Prop) :
  (forall w, phase I g r w -> X w) -> spec (phase I g r) (call env s p) (fun _ => phase I g r) X.
Proof. intros HX w Hw. unfold call. destruct (me_fails env s p); simpl; auto. Qed.

Lemma spec_hook s p (X : world -> Prop) :
  (forall w, phase I g r w -> X w) -> spec (phase I g r) (hook env s p) (fun _ => phase I g r) X.
Proof. intros HX w Hw. unfold hook. destruct (me_signals env s p); simpl; auto. Qed.

Lemma spec_get_files X :
  spec (phase I g r) get_files (fun f w => f = g /\ phase I g r w) X.
Proof. intros w Hw. split; [apply Hw|done]. Qed.

Lemma spec_set_files f X : I f -> spec (phase I g r) (set_files f) (fun _ => phase I f r) X.
Proof. intros Hf w (_ & Hr & Hs). repeat split; [done|]. by constructor. Qed.

Lemma spec_set_replaced b X : spec (phase I g r) (set_replaced b) (fun _ => phase I g b) X.
Proof. intros w (Hf & _ & Hs). by repeat split. Qed.

Lemma spec_overwrite p bytes X :
  I (<[p := bytes]> g) ->
  spec (phase I g r) (overwrite p bytes) (fun _ => phase I (<[p := bytes]> g) r) X.
Proof.
  intros HI. eapply spec_bind; [apply spec_get_files|]. intros f w [-> Hw]. by apply spec_set_files.
Qed.

Lemma spec_sync p (X : world -> Prop) :
  (forall w, phase I g r w -> X w) ->
  spec (phase I g r) (sync_manifest_directory env p) (fun _ => phase I g r) X.
Proof.
  intros HX. unfold sync_manifest_directory. destruct (parent p); [by apply spec_call|by apply spec_throw].
Qed.

Lemma spec_read s p (X : world -> Prop) :
  (forall w, phase I g r w -> X w) ->
  spec (phase I g r) (read env s p) (fun bytes w => g !! p = Some bytes /\ phase I g r w) X.
Proof.
  intros HX. eapply spec_bind; [by apply spec_call|]. intros ?.
  eapply spec_bind; [apply spec_get_files|]. intros f w [-> Hw].
  destruct (g !! p) as [b|]; simpl; auto.
Qed.
End Calls.

(** A file of this operation's own: a new name next to a target. *)
Definition temporary_of (env : menv) (target tmp : path) : Prop :=
  exists n, tmp = path_join (removelast target) (temporary_name env n).

(** [G] is [F], or [F] and one temporary file. *)
Definition up_to_temporary (env : menv) (F G : files) : Prop :=
  G = F \/ exists target tmp bytes, temporary_of env target tmp /\ F !! tmp = None /\ G = <[tmp := bytes]> F.

Section OneTarget.
Context {J : ManifestFormat} (env : menv) (I : files -> Prop).

Lemma spec_create_new F target fuel :
  (forall tmp bytes, temporary_of env target tmp -> F !! tmp = None -> I (<[tmp := bytes]> F)) ->
  spec (phase I F false) (create_new env fuel (removelast target))
    (fun tmp w => (temporary_of env target tmp /\ F !! tmp = None) /\ phase I (<[tmp := []]> F) false w)
    (phase I F false).
Proof.
  intros HI. induction fuel as [|fuel IH]; [by apply spec_throw|].
  cbn [create_new]. eapply (spec_bind _ _ (fun _ => phase I F false)).
  { intros w Hw. apply Hw. }
  intros n. eapply spec_bind; [apply spec_get_files|]. intros f w [-> Hw].
  destruct (F !! path_join _ _) as [b|] eqn:E; [by apply IH|].
  assert (temporary_of env target (path_join (removelast target) (temporary_name env n))) as Ht by by exists n.
  revert w Hw. eapply spec_bind; [by apply spec_call|]. intros ?.
  eapply spec_bind; [apply spec_set_files; by apply HI|]. intros ?. by apply spec_ret.
Qed.

(** The publication of [new] over [target] through the temporary file [tmp]. *)
Lemma spec_publish F target tmp (m : Manifest Value) :
  target <> tmp -> F !! tmp = None ->
  (forall bytes, I (<[tmp := bytes]> F)) -> I (<[target := encode m]> F) ->
  spec (phase I (<[tmp := []]> F) false) (publish_manifest env target tmp m)
    (fun status w => status = lit "updated" /\ phase I (<[target := encode m]> F) true w)
    (fun w => (exists bytes, phase I (<[tmp := bytes]> F) false w) \/ phase I (<[target := encode m]> F) true w).
Proof.
  intros Hne Htmp Hheld Hnew. unfold publish_manifest.
  assert (forall bytes w, phase I (<[tmp := bytes]> F) false w ->
    (exists bytes, phase I (<[tmp := bytes]> F) false w) \/ phase I (<[target := encode m]> F) true w) as HX
    by eauto.
  assert (forall b b', <[tmp := b']> (<[tmp := b]> F) = <[tmp := b']> F) as Hover
    by (intros; by rewrite insert_insert_eq).
  assert (delete tmp (<[tmp := encode m]> F) = F) as Hmoved by by rewrite delete_insert_id.
  do 2 (eapply spec_bind; [apply spec_call; by apply HX|intros ?]).
  eapply spec_bind; [apply spec_hook; by apply HX|intros ?].
  eapply spec_bind; [apply spec_overwrite; rewrite Hover; apply Hheld|intros ?]. rewrite Hover.
  eapply spec_bind; [apply spec_call; by apply HX|intros ?].
  eapply spec_bind; [apply spec_hook; by apply HX|intros ?].
  eapply spec_bind; [apply spec_call; by apply HX|intros ?].
  eapply spec_bind; [apply spec_overwrite; rewrite Hover; apply Hheld|intros ?]. rewrite Hover.
  eapply spec_bind; [apply spec_call; by apply HX|intros ?].
  eapply spec_bind; [apply spec_hook; by apply HX|intros ?].
  eapply (spec_bind _ _ (fun _ => phase I (<[target := encode m]> F) false)).
  { eapply spec_bind; [apply spec_call; by apply HX|intros ?].
    eapply spec_bind; [apply spec_get_files|]. intros f w [-> Hw]. rewrite lookup_insert_eq.
    revert w Hw. rewrite Hmoved. by apply spec_set_files. }
  intros ?. eapply spec_bind; [apply spec_set_replaced|intros ?].
  eapply spec_bind; [apply spec_hook; auto|intros ?].
  eapply spec_bind; [apply spec_sync; auto|intros ?]. by apply spec_ret.
Qed.

(** The same with the removal of the temporary file, which may fail. *)
Lemma spec_with_temporary F target tmp (m : Manifest Value) :
  target <> tmp -> F !! tmp = None ->
  (forall bytes, I (<[tmp := bytes]> F)) -> I F -> I (<[target := encode m]> F) ->
  spec (phase I (<[tmp := []]> F) false) (with_temporary env tmp (publish_manifest env target tmp m))
    (fun status w => status = lit "updated" /\ w_files w = <[target := encode m]> F /\ Forall I (w_seen w))
    (fun w => Forall I (w_seen w) /\
              if w_replaced w then w_files w = <[target := encode m]> F
              else w_files w = F \/ exists bytes, w_files w = <[tmp := bytes]> F).
Proof.
  intros Hne Htmp Hheld HF Hnew w Hw. pose proof (spec_publish F target tmp m Hne Htmp Hheld Hnew w Hw) as Hpub.
  assert (delete tmp (<[target := encode m]> F) = <[target := encode m]> F) as Hd
    by (apply delete_id; by rewrite lookup_insert_ne).
  unfold with_temporary. destruct (publish_manifest _ _ _ _ w) as [[status|e] w']; unfold drop_temporary;
    destruct (me_fails env RemoveTemporary tmp); simpl.
  - by destruct Hpub as (-> & -> & _ & ?).
  - destruct Hpub as (-> & -> & _ & ?). rewrite Hd. split; [done|split; [done|by constructor]].
  - destruct Hpub as [(b' & -> & -> & ?)|(-> & -> & ?)]; split; try done. right. by exists b'.
  - destruct Hpub as [(b' & -> & -> & ?)|(-> & -> & ?)].
    + rewrite delete_insert_id by done. split; [by constructor|by left].
    + rewrite Hd. split; [by constructor|done].
Qed.

(** What one target becomes. *)
Definition upgraded_files (F : files) (p : path) (id : Z) (m : Manifest Value) : files :=
  if is_v2 m then <[p := encode (into_v3 id m)]> F else F.

(** One target: unchanged, or replaced whole; a failure before the replacement leaves at
    most a temporary file. *)
Lemma spec_update_body F t bytes m :
  F !! t_path t = Some bytes -> decode bytes = Ok m -> t_needs_update t = is_v2 m ->
  (forall G, up_to_temporary env F G -> I G) -> I (upgraded_files F (t_path t) (t_cache_id t) m) ->
  spec (phase I F false) (update_body env t)
    (fun status w => status = (if is_v2 m then lit "updated" else lit "unchanged") /\
                     w_files w = upgraded_files F (t_path t) (t_cache_id t) m /\ Forall I (w_seen w))
    (fun w => Forall I (w_seen w) /\
              if w_replaced w then is_v2 m = true /\ w_files w = upgraded_files F (t_path t) (t_cache_id t) m
              else up_to_temporary env F (w_files w)).
Proof.
  intros Hb Hm Hneeds HI Hnew.
  assert (forall w, phase I F false w -> Forall I (w_seen w) /\
     if w_replaced w then is_v2 m = true /\ w_files w = upgraded_files F (t_path t) (t_cache_id t) m
     else up_to_temporary env F (w_files w)) as HX.
  { intros w (Hf & -> & Hs). split; [done|]. by left. }
  unfold update_body, upgraded_files in *. eapply spec_bind; [apply spec_hook; exact HX|intros ?].
  eapply spec_bind; [apply spec_read; exact HX|].
  intros b w [Hb' Hw]. simplify_eq. revert w Hw. case_bool_decide; [|apply spec_throw; exact HX].
  rewrite Hneeds. destruct (is_v2 m) eqn:Hv.
  - eapply (spec_bind _ _ (fun m' w => m' = m /\ phase I F false w)).
    { intros w Hw. simpl. by rewrite Hm. }
    intros m' w [-> Hw]. revert w Hw.
    eapply (spec_bind _ _ (fun tmp w => (temporary_of env (t_path t) tmp /\ F !! tmp = None) /\
                                      phase I (<[tmp := []]> F) false w)).
    { unfold create_temporary. destruct (parent (t_path t)) as [q|] eqn:Hp; [|apply spec_throw; exact HX].
      assert (q = removelast (t_path t)) as -> by (revert Hp; destruct (t_path t); intros [= <-]; done).
      eapply spec_bind; [apply spec_get_files|]. intros f w [_ Hw]. revert w Hw.
      eapply spec_weaken; [apply spec_create_new|done|exact HX].
      intros tmp b' Ht Hn. apply HI. right. by exists (t_path t), tmp, b'. }
    intros tmp w [[Ht Hn] Hw]. revert w Hw.
    assert (t_path t <> tmp) as Hne by congruence.
    eapply spec_weaken; [apply (spec_with_temporary F (t_path t) tmp); try done| |].
    + intros b'. apply HI. right. by exists (t_path t), tmp, b'.
    + apply HI. by left.
    + by intros status w (-> & -> & ?).
    + intros w [Hs Hr]. split; [done|]. destruct (w_replaced w); [done|].
      destruct Hr as [->|[b' ->]]; [by left|]. right. by exists (t_path t), tmp, b'.
  - eapply spec_bind; [apply spec_sync; exact HX|intros ?]. apply spec_ret. intros w (Hf & _ & Hs). done.
Qed.
End OneTarget.

(** * The migration as a sequence of whole upgrades *)

Section Reference.
Context {J : ManifestFormat} (env : menv).

(** The manifest file of a cache and what it holds. *)
Definition manifest_path (c : loaded_manifest) : result path CacheError :=
  me_canonicalize env (path_join (lm_path c) (lit "manifest.json")).

Definition current_manifest (F : files) (c : loaded_manifest) : option (path * Manifest Value) :=
  match manifest_path c with
  | Err _ => None
  | Ok p => match F !! p with
            | None => None
            | Some bytes => match decode bytes with Ok m => Some (p, m) | Err _ => None end
            end
  end.

(** One whole upgrade, and those of a list of caches. *)
Definition upgrade_cache (F : files) (c : loaded_manifest) : files :=
  match current_manifest F c with
  | Some (p, m) => upgraded_files F p (lm_cache_id c) m
  | None => F
  end.

Definition upgrade_caches (F : files) (caches : list loaded_manifest) : files := foldl upgrade_cache F caches.

(** The entry of a completed cache. *)
Definition completed_entry (F : files) (c : loaded_manifest) : UpdateEntry :=
  match current_manifest F c with
  | Some (p, m) =>
      mk_update_entry p (lm_cache_id c) (if is_v2 m then lit "updated" else lit "unchanged")
  | None => mk_update_entry [] (lm_cache_id c) []
  end.

Definition with_status (e : UpdateEntry) (status : pystr) : UpdateEntry :=
  mk_update_entry (ue_path e) (ue_cache_id e) status.

(** The target a preflight makes of a cache. *)
Definition target_for (F : files) (c : loaded_manifest) (t : Target) : Prop :=
  exists m, current_manifest F c = Some (t_path t, m) /\ t_cache_id t = lm_cache_id c /\
            t_needs_update t = is_v2 m.

Lemma current_manifest_inv F c p m : current_manifest F c = Some (p, m) ->
  manifest_path c = Ok p /\ exists bytes, F !! p = Some bytes /\ decode bytes = Ok m.
Proof.
  unfold current_manifest. destruct (manifest_path c) as [q|]; [|done].
  destruct (F !! q) as [b|] eqn:Hb; [|done]. destruct (decode b) eqn:Hd; [|done].
  intros [= -> ->]. split; [done|]. by exists b.
Qed.

Lemma current_manifest_ext F G c :
  (forall p, manifest_path c = Ok p -> G !! p = F !! p) -> current_manifest G c = current_manifest F c.
Proof. intros H. unfold current_manifest. destruct (manifest_path c) as [p|]; [|done]. by rewrite H. Qed.

Lemma upgraded_files_other F p id (m : Manifest Value) q :
  q <> p -> upgraded_files F p id m !! q = F !! q.
Proof. intros H. unfold upgraded_files. destruct (is_v2 m); [|done]. by rewrite lookup_insert_ne. Qed.

(** ** Preflight *)

Lemma spec_inspect I F r c paths ids :
  spec (phase I F r) (inspect_target env c paths ids)
    (fun '(t, paths', ids') w => phase I F r w /\ target_for F c t /\ (t_path t ∉ paths) /\
                                 paths' = t_path t :: paths)
    (phase I F r).
Proof.
  unfold inspect_target.
  eapply (spec_bind _ _ (fun p w => manifest_path c = Ok p /\ phase I F r w)).
  { intros w Hw. unfold lift. fold (manifest_path c). by destruct (manifest_path c). }
  intros p w [Hp Hw]. revert w Hw.
  destruct (bool_decide (p ∈ paths)) eqn:Hin; [by apply spec_throw|]. apply bool_decide_eq_false in Hin.
  destruct (bool_decide (lm_cache_id c ∈ ids)); [by apply spec_throw|]. cbn [orb].
  eapply spec_bind; [by apply spec_read|]. intros b w [Hb Hw]. revert w Hw.
  eapply (spec_bind _ _ (fun m w => decode b = Ok m /\ phase I F r w)).
  { intros w Hw. unfold lift. by destruct (decode b). }
  intros m w [Hm Hw]. revert w Hw.
  destruct (match m with V2 _ => false | _ => _ end); [by apply spec_throw|].
  destruct (negb _ && _); [by apply spec_throw|]. case_bool_decide; [|by apply spec_throw].
  apply spec_ret. intros w Hw. split; [done|]. split; [|done].
  exists m. unfold current_manifest. by rewrite Hp, Hb, Hm.
Qed.

Lemma preflight_targets I F r caches : forall paths ids w, phase I F r w ->
  match preflight_from env caches paths ids w with
  | (Ok ts, w') => phase I F r w' /\ Forall2 (target_for F) caches ts /\ NoDup (map t_path ts) /\
                   (forall p, p ∈ map t_path ts -> p ∉ paths)
  | (Err e, w') => phase I F r w' /\ uf_entries e = []
  end.
Proof.
  induction caches as [|c caches IH]; intros paths ids w Hw; simpl.
  - split; [done|]. split; [constructor|]. split; [constructor|]. intros p Hp. by apply elem_of_nil in Hp.
  - assert (spec (phase I F r) (_ ← hook env Inspect (lm_path c); inspect_target env c paths ids)
      (fun '(t, paths', ids') w => phase I F r w /\ target_for F c t /\ (t_path t ∉ paths) /\
                                   paths' = t_path t :: paths) (phase I F r)) as Hi.
    { eapply spec_bind; [by apply spec_hook|]. intros ?. apply spec_inspect. }
    specialize (Hi w Hw).
    match type of Hi with match ?run with _ => _ end => destruct run as [[[[t paths'] ids']|e] w1] end; [|done].
    destruct Hi as (Hw1 & Ht & Hn & ->). specialize (IH (t_path t :: paths) ids' w1 Hw1).
    destruct (preflight_from _ _ _ _ w1) as [[ts|e] w2]; [|done].
    destruct IH as (Hw2 & Hts & Hnd & Hd). split; [done|]. split; [by constructor|]. simpl. split.
    + apply NoDup_cons. split; [|done]. intros Hin. apply (Hd _ Hin). by left.
    + intros p Hp. apply elem_of_cons in Hp as [->|Hp]; [done|]. intros Hin. apply (Hd _ Hp). by right.
Qed.
End Reference.

(** ** The loop *)

Section Loop.
Context {J : ManifestFormat} (env : menv) (F0 : files) (caches : list loaded_manifest).

(** A whole number of upgrades, and perhaps a temporary file. *)
Definition between_upgrades (G : files) : Prop :=
  exists j, (j <= length caches)%nat /\ up_to_temporary env (upgrade_caches env F0 (take j caches)) G.

(** What a failed run reports, after [k] upgrades. *)
Definition failure_report (k : nat) (G : files) (entries : list UpdateEntry) : Prop :=
  (up_to_temporary env (upgrade_caches env F0 (take k caches)) G /\
   entries = map (completed_entry env F0) (take k caches)) \/
  (G = upgrade_caches env F0 (take k caches) /\
   exists j c, k = S j /\ caches !! j = Some c /\
     entries = map (completed_entry env F0) (take j caches) ++
               [with_status (completed_entry env F0 c) (lit "durability_unknown")]).

Definition run_report (r : result (list UpdateEntry) UpdateError) (w : world) : Prop :=
  Forall between_upgrades (w_seen w) /\
  match r with
  | Ok entries => entries = map (completed_entry env F0) caches /\ w_files w = upgrade_caches env F0 caches
  | Err e => exists k, (k <= length caches)%nat /\ failure_report k (w_files w) (uf_entries e)
  end.

(** Replacing one manifest leaves those of the other targets alone. *)
Lemma others_unchanged F p id m rest ts d :
  Forall2 (target_for env F) rest ts -> p ∉ map t_path ts -> d ∈ rest ->
  current_manifest env (upgraded_files F p id m) d = current_manifest env F d.
Proof.
  intros Hts Hp Hd. apply current_manifest_ext. intros q Hq. apply upgraded_files_other. intros ->.
  apply Hp. apply list_elem_of_lookup in Hd as [i Hi].
  destruct (Forall2_lookup_l _ _ _ _ _ Hts Hi) as (u & Hu & md & Hmd & _).
  apply current_manifest_inv in Hmd as [Hqd _]. rewrite Hqd in Hq. injection Hq as <-.
  apply list_elem_of_fmap. exists u. split; [done|]. by eapply list_elem_of_lookup_2.
Qed.

Lemma targets_unchanged F p id m rest ts :
  Forall2 (target_for env F) rest ts -> p ∉ map t_path ts ->
  Forall2 (target_for env (upgraded_files F p id m)) rest ts.
Proof.
  intros Hts Hp. apply Forall2_same_length_lookup_2; [by eapply Forall2_length|].
  intros i d u Hd Hu. destruct (Forall2_lookup_lr _ _ _ _ _ _ Hts Hd Hu) as (md & ? & ? & ?).
  exists md. rewrite (others_unchanged F p id m rest ts) by (done || by eapply list_elem_of_lookup_2). done.
Qed.

Lemma update_all_spec ts : forall done rest w,
  caches = done ++ rest -> w_files w = upgrade_caches env F0 done ->
  Forall2 (target_for env (w_files w)) rest ts -> NoDup (map t_path ts) ->
  Forall (fun c => current_manifest env (w_files w) c = current_manifest env F0 c) rest ->
  Forall between_upgrades (w_seen w) ->
  let '(r, w') := update_all env ts (map (completed_entry env F0) done) w in run_report r w'.
Proof.
  induction ts as [|t ts IH]; intros done rest w Hc Hf Hts Hnd Hsame Hseen.
  { apply Forall2_nil_inv_r in Hts as ->. rewrite app_nil_r in Hc. simpl. split; [done|]. by rewrite Hc, Hf. }
  apply Forall2_cons_inv_r in Hts as (c & rest' & (m & Hcur & Hid & Hneeds) & Hts & ->).
  apply Forall_cons in Hsame as [Hsamec Hsame]. apply NoDup_cons in Hnd as [Hnew Hnd].
  pose proof (current_manifest_inv env _ _ _ _ Hcur) as (Hp & b & Hb & Hm).
  set (F := w_files w) in *. set (F' := upgraded_files F (t_path t) (t_cache_id t) m).
  assert (take (length done) caches = done) as Hk by by rewrite Hc, take_app_length.
  assert (upgrade_caches env F0 (done ++ [c]) = F') as Hstep.
  { unfold upgrade_caches. rewrite foldl_snoc. fold (upgrade_caches env F0 done). rewrite <- Hf.
    unfold upgrade_cache, F'. by rewrite Hcur, Hid. }
  assert (take (S (length done)) caches = done ++ [c]) as Hk'.
  { rewrite Hc, cons_middle, app_assoc. replace (S (length done)) with (length (done ++ [c])) by (rewrite length_app; simpl; lia).
    by rewrite take_app_length. }
  assert (length done < length caches)%nat as Hlen by (rewrite Hc, length_app; simpl; lia).
  assert (completed_entry env F0 c = entry_of t (if is_v2 m then lit "updated" else lit "unchanged")) as Hentry.
  { unfold completed_entry, entry_of. by rewrite <- Hsamec, Hcur, Hid. }
  assert (forall G, up_to_temporary env F G -> between_upgrades G) as HI.
  { intros G HG. exists (length done). split; [lia|]. by rewrite Hk, <- Hf. }
  assert (between_upgrades F') as HI'.
  { exists (S (length done)). split; [lia|]. rewrite Hk', Hstep. by left. }
  pose proof (spec_update_body env between_upgrades F t b m Hb Hm Hneeds HI HI'
    (set_replaced false w).2 ltac:(by repeat split)) as Hbody.
  simpl. unfold update_target, mbind, mig_bind. cbn [set_replaced snd] in *.
  destruct (update_body env t _) as [[status|e] w1]; simpl.
  - destruct Hbody as (-> & Hf1 & Hs1). rewrite <- Hentry.
    replace (map (completed_entry env F0) done ++ [completed_entry env F0 c]) with
      (map (completed_entry env F0) (done ++ [c])) by by rewrite map_app.
    assert (forall d, d ∈ rest' -> current_manifest env F' d = current_manifest env F d) as Hothers
      by (intros d Hd; by eapply others_unchanged).
    apply IH with (rest := rest'); try done.
    + by rewrite Hc, cons_middle, app_assoc.
    + by rewrite Hf1, Hstep.
    + rewrite Hf1. by apply targets_unchanged.
    + rewrite Hf1. rewrite Forall_forall in Hsame |- *. intros d Hd. rewrite Hothers by done. by apply Hsame.
  - destruct Hbody as (Hs1 & Hr1). split; [done|]. destruct (w_replaced w1).
    + destruct Hr1 as [_ Hf1]. exists (S (length done)). split; [lia|]. right. rewrite Hk', Hstep. split; [done|].
      exists (length done), c. split; [done|]. split; [by rewrite Hc, list_lookup_middle|].
      rewrite Hk, Hentry. done.
    + exists (length done). split; [lia|]. left. rewrite Hk, <- Hf. done.
Qed.
End Loop.

(** * The whole call *)

(** A process that starts a migration, with any state of the name counter. *)
Definition start (F : files) (next : Z) : world := mk_world F next false None [].

(** The Python view of an entry. *)
Definition python_entry (e : UpdateEntry) : ManifestUpdateEntry :=
  mk_entry (ue_path e) (ue_cache_id e)
    (if decide (ue_status e = lit "updated") then Updated
     else if decide (ue_status e = lit "unchanged") then Unchanged else DurabilityUnknown).

Section Whole.
Context {J : ManifestFormat} (env : menv) (F0 : files) (caches : list loaded_manifest).

Lemma targets_current (ts : list Target) :
  Forall2 (target_for env F0) caches ts -> Forall (fun c => is_Some (current_manifest env F0 c)) caches.
Proof.
  intros H. apply Forall_lookup. intros i c Hc.
  destruct (Forall2_lookup_l _ _ _ _ _ H Hc) as (t & _ & m & Hm & _). by eexists.
Qed.

(** A run and its report, from any files. *)
Lemma update_with_hook_spec next :
  let '(r, w) := update_with_hook env caches 3 (start F0 next) in
  run_report env F0 caches r w /\
  (Forall (fun c => is_Some (current_manifest env F0 c)) caches \/
   w_files w = F0 /\ exists e, r = Err e /\ uf_entries e = []).
Proof.
  assert (between_upgrades env F0 caches F0) as H0.
  { exists O. split; [lia|]. by left. }
  unfold update_with_hook. cbn [Z.eqb Pos.eqb]. unfold preflight_manifests.
  pose proof (preflight_targets env (between_upgrades env F0 caches) F0 false caches [] [] (start F0 next)
    ltac:(by repeat split)) as Hpre.
  destruct (preflight_from _ _ _ _ _) as [[ts|e] w].
  - destruct Hpre as ((Hf & _ & Hs) & Hts & Hnd & _).
    pose proof (update_all_spec env F0 caches ts [] caches w eq_refl Hf) as Hall.
    rewrite Hf in Hall. specialize (Hall Hts Hnd ltac:(by apply Forall_true) Hs).
    cbn [map] in Hall. destruct (update_all env ts [] w) as [r w']. split; [done|].
    left. by eapply targets_current.
  - destruct Hpre as ((Hf & _ & Hs) & He). split; [split; [done|]|].
    + exists O. split; [lia|]. left. rewrite Hf. split; [by left|done].
    + right. split; [done|]. by exists e.
Qed.

Lemma completed_known c : is_Some (current_manifest env F0 c) ->
  manifest_entry (ue_path (completed_entry env F0 c), ue_cache_id (completed_entry env F0 c),
                  ue_status (completed_entry env F0 c)) = Ret (python_entry (completed_entry env F0 c)).
Proof.
  intros [[p m] Hm]. unfold completed_entry, manifest_entry, python_entry. rewrite Hm. simpl.
  by destruct (is_v2 m); repeat case_decide.
Qed.

Lemma completed_convert cs :
  Forall (fun c => is_Some (current_manifest env F0 c)) cs ->
  traverse manifest_entry (migration_entries (map (completed_entry env F0) cs)) =
  Ret (map python_entry (map (completed_entry env F0) cs)).
Proof.
  intros H. unfold migration_entries. induction H as [|c cs Hc _ IH]; [done|].
  cbn [map traverse]. rewrite completed_known by done. cbn. by rewrite IH.
Qed.
End Whole.

Lemma report_between {J : ManifestFormat} env F0 caches r w :
  run_report env F0 caches r w -> between_upgrades env F0 caches (w_files w).
Proof.
  intros [_ Hr]. destruct r as [entries|e].
  - destruct Hr as [_ ->]. exists (length caches). split; [lia|]. rewrite firstn_all. by left.
  - destruct Hr as (k & Hk & [[Hf _]|[Hf _]]); exists k; (split; [done|]); [done|]. rewrite Hf. by left.
Qed.

(** The entries of a failed run convert. *)
Lemma failure_convert {J : ManifestFormat} env F0 caches k G entries :
  Forall (fun c => is_Some (current_manifest env F0 c)) caches ->
  failure_report env F0 caches k G entries ->
  traverse manifest_entry (migration_entries entries) = Ret (map python_entry entries).
Proof.
  intros Hall [[_ ->]|(_ & j & c & -> & Hc & ->)].
  - apply completed_convert. by apply Forall_take.
  - assert (Forall (fun c => is_Some (current_manifest env F0 c)) (take j caches)) as Hj by by apply Forall_take.
    apply (Forall_lookup_1 _ _ _ _ Hall) in Hc. clear Hall.
    induction Hj as [|d ds Hd _ IH]; [done|]. unfold migration_entries in *.
    cbn [map app traverse] in *. rewrite completed_known by done. cbn [mbind outcome_bind]. by rewrite IH.
Qed.

(** C14. Upgrading the manifests of a dataset is a sequence of whole replacements,
    whatever fails and whenever the process dies: in every state of the filesystem the
    manifests are those after upgrading the first [j] caches, and at most one further
    file exists, this operation's own temporary next to a target. A report of success
    lists every cache in order with the status its manifest really had, a report of
    failure lists exactly the caches that were completed, the last one as
    [durability_unknown] when it was replaced and not yet known to be on disk, and an
    exception is a pending signal. *)
Theorem migration_atomic {J : ManifestFormat} (env : menv) (F0 : files) (caches : list loaded_manifest) (next : Z) :
  let '(r, w) := migrate env caches (PInt 3) (start F0 next) in
  Forall (between_upgrades env F0 caches) (w_files w :: w_seen w) /\
  match r with
  | Raise e => w_signal w = Some e
  | Ret (Ok report) =>
      w_files w = upgrade_caches env F0 caches /\
      report_entries report = map python_entry (map (completed_entry env F0) caches)
  | Ret (Err error) =>
      exists k entries, (k <= length caches)%nat /\ failure_report env F0 caches k (w_files w) entries /\
                        error_entries error = map python_entry entries
  end.
Proof.
  unfold migrate, native_update_manifests. cbn [bool_decide].
  pose proof (update_with_hook_spec env F0 caches next) as H.
  destruct (update_with_hook env caches 3 (start F0 next)) as [r w]. destruct H as [Hrun Hcur].
  rewrite bool_decide_true by done.
  split; [constructor; [by eapply report_between|apply Hrun]|].
  unfold update_manifests. rewrite bool_decide_true by done.
  destruct (w_signal w) as [e|]; [done|]. destruct Hrun as [_ Hr].
  destruct r as [entries|e]; cbn [mbind outcome_bind nm_records nm_success].
  - destruct Hr as [-> Hf]. destruct Hcur as [Hcur|(_ & ? & ? & _)]; [|done].
    rewrite completed_convert by done. done.
  - destruct Hr as (k & Hk & Hrep). destruct Hcur as [Hcur|(Hf & e' & [= <-] & He)].
    + erewrite failure_convert by done. cbn. exists k, (uf_entries e). done.
    + rewrite He. cbn. exists k, (uf_entries e). by rewrite He in *.
Qed.

(** * Resuming an interrupted migration *)

(** The same environment without failures and signals. *)
Definition quiet (env : menv) : menv :=
  mk_menv (fun _ _ => None) (fun _ _ => None) (me_canonicalize env) (me_unfinished env) (me_sha256 env) (me_pid env).


Lemma temporary_name_inj env : Inj (=) (=) (temporary_name env).
Proof.
  intros a b H. unfold temporary_name in H. apply app_inv_head in H. apply app_inv_head in H.
  apply app_inv_head in H. apply app_inv_tail in H. by apply (inj dec).
Qed.

(** ** The name of the temporary file is always found *)

Definition candidate (env : menv) (directory : path) (next : Z) (i : nat) : path :=
  path_join directory (temporary_name env ((next + Z.of_nat i) mod 2 ^ 64)).

Lemma candidate_inj env directory next i j :
  0 <= next -> Z.of_nat i < 2 ^ 64 -> Z.of_nat j < 2 ^ 64 ->
  candidate env directory next i = candidate env directory next j -> i = j.
Proof.
  intros Hn Hi Hj H. unfold candidate, path_join in H. apply app_inj_tail in H as [_ H].
  apply temporary_name_inj in H. apply Z.cong_iff_ex in H as [q Hq]. lia.
Qed.

Lemma free_candidate (env : menv) (directory : path) (next : Z) (F : files) :
  0 <= next -> Z.of_nat (S (size F)) <= 2 ^ 64 ->
  exists i, (i < S (size F))%nat /\ F !! candidate env directory next i = None.
Proof.
  intros Hn Hsize. set (cs := map (candidate env directory next) (seq 0 (S (size F)))).
  destruct (decide (Exists (fun p => F !! p = None) cs)) as [H|H].
  { apply Exists_exists in H as (p & Hp & HF). unfold cs in Hp. apply list_elem_of_fmap in Hp as (i & -> & Hi).
    apply elem_of_seq in Hi. exists i. split; [lia|done]. }
  assert (NoDup cs) as Hnd.
  { unfold cs. apply NoDup_fmap_2_strong; [|apply NoDup_seq].
    intros i j Hi Hj Heq. apply elem_of_seq in Hi, Hj. eapply (candidate_inj env directory next); [done|lia|lia|done]. }
  assert ((list_to_set cs : gset path) ⊆ dom F) as Hsub.
  { intros p Hp. apply elem_of_list_to_set in Hp. apply elem_of_dom.
    destruct (F !! p) as [b|] eqn:E; [by eexists|]. destruct H. apply Exists_exists. by exists p. }
  apply subseteq_size in Hsub. rewrite size_list_to_set, size_dom in Hsub by done.
  unfold cs in Hsub. rewrite length_map, length_seq in Hsub. lia.
Qed.

Lemma create_new_quiet env directory fuel : forall w i,
  0 <= w_next w < 2 ^ 64 -> (i < fuel)%nat -> w_files w !! candidate env directory (w_next w) i = None ->
  exists tmp w', create_new (quiet env) fuel directory w = (Ok tmp, w') /\ 0 <= w_next w' < 2 ^ 64.
Proof.
  induction fuel as [|fuel IH]; intros w i Hn Hi Hfree; [lia|].
  cbn [create_new]. unfold mbind, mig_bind, fetch_add_next, get_files. cbn [w_files].
  assert (0 <= (w_next w + 1) mod 2 ^ 64 < 2 ^ 64) by (apply Z.mod_pos_bound; lia).
  destruct (w_files w !! path_join directory (temporary_name (quiet env) (w_next w))) as [b|] eqn:E;
    [|eexists _, _; split; [reflexivity|exact H]].
  destruct i as [|i].
  - exfalso. unfold candidate in Hfree. rewrite Z.add_0_r, Z.mod_small in Hfree by lia.
    unfold temporary_name in Hfree, E. cbn [quiet me_pid] in E. by rewrite E in Hfree.
  - apply (IH _ i); cbn [w_next w_files]; [done|lia|].
    unfold candidate in *. rewrite Zplus_mod_idemp_l.
    by replace (w_next w + 1 + Z.of_nat i) with (w_next w + Z.of_nat (S i)) by lia.
Qed.

(** ** Without faults every target is upgraded *)

Section Quiet.
Context {J : ManifestFormat} (env : menv).

Lemma publish_quiet target tmp (m : Manifest Value) w :
  target <> [] ->
  exists w', publish_manifest (quiet env) target tmp m w = (Ok (lit "updated"), w') /\ w_next w' = w_next w.
Proof.
  intros Ht. unfold publish_manifest, overwrite, rename, sync_manifest_directory.
  unfold mbind, mig_bind, get_files, set_files, set_replaced, call, hook. cbn -[lookup insert delete encode lit].
  rewrite lookup_insert_eq. cbn -[lookup insert delete encode lit].
  destruct target; [done|]. eexists. split; [reflexivity|done].
Qed.

Lemma update_body_quiet t bytes m w :
  t_path t <> [] -> w_files w !! t_path t = Some bytes -> decode bytes = Ok m ->
  me_sha256 env bytes = t_digest t -> Z.of_nat (S (size (w_files w))) <= 2 ^ 64 -> 0 <= w_next w < 2 ^ 64 ->
  exists status w', update_body (quiet env) t w = (Ok status, w') /\ 0 <= w_next w' < 2 ^ 64.
Proof.
  intros Hp Hb Hm Hd Hsize Hn. unfold update_body, read.
  unfold mbind, mig_bind, get_files, call, hook. cbn -[create_temporary with_temporary publish_manifest decode lit]. rewrite Hb. cbn -[create_temporary with_temporary publish_manifest decode lit].
  rewrite bool_decide_true by done. destruct (t_needs_update t).
  - unfold lift. rewrite Hm. unfold create_temporary.
    destruct (parent (t_path t)) as [q|] eqn:Hq; [|by destruct (t_path t)].
    destruct (free_candidate env q (w_next w) (w_files w)) as (i & Hi & Hfree); [lia|done|].
    destruct (create_new_quiet env q (S (size (w_files w))) w i Hn Hi Hfree) as (tmp & w1 & Hc & Hn1).
    unfold mbind, mig_bind, get_files. rewrite Hc. unfold with_temporary.
    destruct (publish_quiet (t_path t) tmp (into_v3 (t_cache_id t) m) w1 Hp) as (w2 & -> & Hn2).
    eexists _, _. split; [reflexivity|]. cbn. by rewrite Hn2.
  - unfold sync_manifest_directory. destruct (t_path t); [done|]. eexists _, _. by split; [reflexivity|].
Qed.

(** A target with the digest of the file it is for. *)
Definition fresh_target (F : files) (c : loaded_manifest) (t : Target) : Prop :=
  target_for env F c t /\ t_path t <> [] /\
  forall bytes, F !! t_path t = Some bytes -> me_sha256 env bytes = t_digest t.

Lemma upgraded_size F p id (m : Manifest Value) bytes :
  F !! p = Some bytes -> size (upgraded_files F p id m) = size F.
Proof.
  intros Hb. unfold upgraded_files. destruct (is_v2 m); [|done].
  by rewrite map_size_insert_Some by by eexists.
Qed.

Lemma update_all_quiet ts : forall caches entries w,
  Forall2 (fresh_target (w_files w)) caches ts -> NoDup (map t_path ts) ->
  Z.of_nat (S (size (w_files w))) <= 2 ^ 64 -> 0 <= w_next w < 2 ^ 64 ->
  exists entries' w', update_all (quiet env) ts entries w = (Ok entries', w').
Proof.
  induction ts as [|t ts IH]; intros caches entries w Hts Hnd Hsize Hn; [by eexists _, _|].
  apply Forall2_cons_inv_r in Hts as (c & rest & ((m & Hcur & Hid & Hneeds) & Hp & Hdig) & Hts & ->).
  apply NoDup_cons in Hnd as [Hnew Hnd].
  pose proof (current_manifest_inv env _ _ _ _ Hcur) as (_ & b & Hb & Hm).
  pose proof (update_body_quiet t b m (set_replaced false w).2 Hp Hb Hm (Hdig b Hb) Hsize Hn)
    as (status & w1 & Hrun & Hn1).
  pose proof (spec_update_body (quiet env) (fun _ => True) (w_files w) t b m Hb Hm Hneeds
    ltac:(done) I (set_replaced false w).2 ltac:(repeat split; by apply Forall_true)) as Hspec.
  rewrite Hrun in Hspec. destruct Hspec as (_ & Hf1 & _).
  cbn [update_all]. unfold update_target, mbind, mig_bind. cbn [set_replaced snd] in *. rewrite Hrun.
  apply (IH rest); [|done| |done].
  - rewrite Hf1. apply Forall2_same_length_lookup_2; [by eapply Forall2_length|].
    intros i d u Hd Hu. destruct (Forall2_lookup_lr _ _ _ _ _ _ Hts Hd Hu) as (Ht & Hq & Hq').
    split; [|split; [done|]].
    + assert (Forall2 (target_for env (w_files w)) rest ts) as Hts'
        by (eapply Forall2_impl; [exact Hts|]; by intros ? ? []).
      by apply (Forall2_lookup_lr _ _ _ _ _ _ (targets_unchanged env _ _ _ m _ _ Hts' Hnew) Hd Hu).
    + intros b'. rewrite upgraded_files_other; [apply Hq'|]. intros Heq. apply Hnew. rewrite <- Heq.
      apply list_elem_of_fmap. exists u. split; [done|]. by eapply list_elem_of_lookup_2.
  - by rewrite Hf1, (upgraded_size _ _ _ _ _ Hb).
Qed.
End Quiet.

(** ** Loaded caches and their files *)

Section Resume.
Context {J : ManifestFormat} {L : ManifestFormatLaws J} (env : menv).

(** The file of a cache holds the manifest the cache was loaded with, or its upgrade. *)
Definition agrees (F : files) (c : loaded_manifest) : Prop :=
  exists p m, current_manifest env F c = Some (p, m) /\ p <> [] /\
    (m = lm_manifest c \/ m = into_v3 (lm_cache_id c) (lm_manifest c)).

(** Identities are 64-bit values, a persistent identity is the cache's own, and neither
    identities nor manifest files are shared. *)
Record distinct_caches (caches : list loaded_manifest) : Prop := {
  dc_ids : Forall (fun c => is_u64 (lm_cache_id c) /\
                            resolve_cache_id (lm_manifest c) (lm_cache_id c) = lm_cache_id c) caches;
  dc_nodup_ids : NoDup (map lm_cache_id caches);
  dc_nodup_paths : NoDup (map (manifest_path env) caches) }.

Lemma into_v3_is_v2 id (m : Manifest Value) : is_v2 (into_v3 id m) = false.
Proof. by destruct m. Qed.

Lemma into_v3_modern id (m : Manifest Value) : is_v2 m = false -> into_v3 id m = m.
Proof. by destruct m. Qed.

Lemma inspect_quiet F c paths ids w p m bytes :
  w_files w = F -> current_manifest env F c = Some (p, m) -> F !! p = Some bytes ->
  (m = lm_manifest c \/ m = into_v3 (lm_cache_id c) (lm_manifest c)) ->
  resolve_cache_id (lm_manifest c) (lm_cache_id c) = lm_cache_id c ->
  (p ∉ paths) -> (lm_cache_id c ∉ ids) ->
  inspect_target (quiet env) c paths ids w =
    (Ok (mk_target p (lm_cache_id c) (me_sha256 env bytes) (is_v2 m), p :: paths, lm_cache_id c :: ids), w).
Proof.
  intros <- Hcur Hb Hm Hid Hp Hi. apply current_manifest_inv in Hcur as (Hpath & b & Hb' & Hdec).
  rewrite Hb in Hb'. injection Hb' as <-.
  unfold inspect_target, read, mbind, mig_bind, lift, get_files, call.
  change (me_canonicalize (quiet env)) with (me_canonicalize env).
  fold (manifest_path env c). rewrite Hpath. rewrite !bool_decide_false by done. cbn -[decode lit fields_json].
  rewrite Hb. cbn -[decode lit fields_json]. rewrite Hdec.
  assert ((match m with V2 _ => false | V3 o _ | V4 o _ => negb (o =? lm_cache_id c) end) = false) as ->.
  { destruct Hm as [->| ->]; destruct (lm_manifest c) as [f|z f|z f]; simpl in *; try done; apply negb_false_iff; lia. }
  assert (negb (is_v2 (lm_manifest c)) && is_v2 m = false) as ->.
  { destruct Hm as [->| ->]; [by destruct (is_v2 _)|]. rewrite into_v3_is_v2. apply andb_false_r. }
  rewrite bool_decide_true; [done|]. destruct Hm as [->| ->].
  - destruct (is_v2 (lm_manifest c)) eqn:Hv; [done|]. by rewrite into_v3_modern.
  - by rewrite into_v3_is_v2.
Qed.

Lemma preflight_quiet F caches : forall paths ids w,
  distinct_caches caches -> Forall (agrees F) caches -> w_files w = F ->
  (forall c, c ∈ caches -> (lm_cache_id c ∉ ids) /\ forall p, manifest_path env c = Ok p -> p ∉ paths) ->
  exists ts, preflight_from (quiet env) caches paths ids w = (Ok ts, w) /\ Forall2 (fresh_target env F) caches ts.
Proof.
  induction caches as [|c caches IH]; intros paths ids w Hdc Hag Hf Hout; [by exists []; split; [|constructor]|].
  destruct Hdc as [Hids Hni Hnp]. apply Forall_cons in Hids as [[_ Hid] Hids].
  apply Forall_cons in Hag as [(p & m & Hcur & Hp & Hm) Hag].
  simpl in Hni, Hnp. apply NoDup_cons in Hni as [Hni1 Hni], Hnp as [Hnp1 Hnp].
  destruct (current_manifest_inv env _ _ _ _ Hcur) as (Hpath & b & Hb & _).
  destruct (Hout c ltac:(by left)) as [Hoi Hop].
  cbn [preflight_from]. unfold mbind, mig_bind, hook. cbn [quiet me_signals].
  rewrite (inspect_quiet F c paths ids w p m b) by auto.
  destruct (IH (p :: paths) (lm_cache_id c :: ids) w) as (ts & -> & Hts); [done|done|done| |].
  - intros d Hd. destruct (Hout d ltac:(by right)) as [Hdi Hdp]. split.
    + apply not_elem_of_cons. split; [|done]. intros He. apply Hni1. rewrite <- He. apply list_elem_of_fmap. by exists d.
    + intros q Hq. apply not_elem_of_cons. split; [|by apply Hdp]. intros ->.
      apply Hnp1. rewrite Hpath, <- Hq. apply list_elem_of_fmap. by exists d.
  - eexists. split; [reflexivity|]. constructor; [|done]. split; [by exists m|]. split; [done|].
    simpl. intros b' Hb'. by simplify_eq.
Qed.

(** ** Agreement is kept *)

Lemma upgrade_cache_current F c : is_u64 (lm_cache_id c) -> agrees F c ->
  exists p, p <> [] /\
    current_manifest env (upgrade_cache env F c) c = Some (p, into_v3 (lm_cache_id c) (lm_manifest c)).
Proof.
  intros Hu (p & m & Hcur & Hp & Hm). exists p. split; [done|].
  destruct (current_manifest_inv env _ _ _ _ Hcur) as (Hpath & b & Hb & Hdec).
  assert (into_v3 (lm_cache_id c) (lm_manifest c) = into_v3 (lm_cache_id c) m) as ->.
  { destruct Hm as [->| ->]; [done|]. by rewrite (into_v3_modern _ (into_v3 _ _)) by apply into_v3_is_v2. }
  unfold upgrade_cache. rewrite Hcur. unfold upgraded_files, current_manifest. rewrite Hpath.
  destruct (is_v2 m) eqn:Hv.
  - rewrite lookup_insert_eq, decode_encode; [done|]. apply into_v3_wf; [by eapply decode_wf|done].
  - by rewrite Hb, Hdec, into_v3_modern.
Qed.

Lemma upgrade_cache_other F c d : manifest_path env d <> manifest_path env c ->
  current_manifest env (upgrade_cache env F c) d = current_manifest env F d.
Proof.
  intros Hne. apply current_manifest_ext. intros q Hq. unfold upgrade_cache.
  destruct (current_manifest env F c) as [[p m]|] eqn:Hcur; [|done].
  apply current_manifest_inv in Hcur as [Hp _]. apply upgraded_files_other. congruence.
Qed.

Lemma paths_differ caches i j c d : NoDup (map (manifest_path env) caches) ->
  caches !! i = Some c -> caches !! j = Some d -> i <> j -> manifest_path env c <> manifest_path env d.
Proof.
  intros Hnd Hi Hj Hne He. apply Hne. eapply NoDup_lookup; [exact Hnd| |];
    rewrite list_lookup_fmap; [by rewrite Hi|]. rewrite Hj. simpl. by rewrite He.
Qed.

(** Files of caches that are not upgraded, and of those that are. *)
Lemma upgrade_caches_other F cs : forall d,
  (forall c, c ∈ cs -> manifest_path env d <> manifest_path env c) ->
  current_manifest env (upgrade_caches env F cs) d = current_manifest env F d.
Proof.
  revert F. induction cs as [|c cs IH]; intros F d Hd; [done|]. simpl.
  rewrite IH by (intros; apply Hd; by right). apply upgrade_cache_other, Hd. by left.
Qed.

Lemma upgrade_take_current F caches k :
  distinct_caches caches -> Forall (agrees F) caches -> (k <= length caches)%nat ->
  forall i c, caches !! i = Some c ->
  ((i < k)%nat -> exists p, p <> [] /\
     current_manifest env (upgrade_caches env F (take k caches)) c =
       Some (p, into_v3 (lm_cache_id c) (lm_manifest c))) /\
  ((k <= i)%nat -> current_manifest env (upgrade_caches env F (take k caches)) c = current_manifest env F c).
Proof.
  intros [Hids _ Hnp] Hag. induction k as [|k IH]; intros Hk i c Hi; [by split; [lia|]|].
  destruct (lookup_lt_is_Some_2 caches k ltac:(lia)) as [d Hd].
  rewrite (take_S_r _ _ _ Hd). unfold upgrade_caches. rewrite foldl_snoc.
  fold (upgrade_caches env F (take k caches)). split; intros Hik.
  - destruct (decide (i = k)) as [->|Hne].
    + rewrite Hi in Hd. injection Hd as <-. apply upgrade_cache_current.
      * by apply (Forall_lookup_1 _ _ _ _ Hids Hi).
      * destruct (IH ltac:(lia) k c Hi) as [_ Hsame]. unfold agrees. rewrite Hsame by lia.
        by apply (Forall_lookup_1 _ _ _ _ Hag Hi).
    + rewrite upgrade_cache_other by (by eapply paths_differ). apply (IH ltac:(lia) i c Hi). lia.
  - rewrite upgrade_cache_other by (eapply paths_differ; [done..|lia]). apply (IH ltac:(lia) i c Hi). lia.
Qed.

Lemma upgrade_take_agrees F caches k :
  distinct_caches caches -> Forall (agrees F) caches -> (k <= length caches)%nat ->
  Forall (agrees (upgrade_caches env F (take k caches))) caches.
Proof.
  intros Hdc Hag Hk. apply Forall_lookup. intros i c Hi.
  destruct (upgrade_take_current F caches k Hdc Hag Hk i c Hi) as [Hlt Hge].
  destruct (decide (i < k)%nat) as [Hik|Hik].
  - destruct (Hlt Hik) as (p & Hp & Hc). exists p, (into_v3 (lm_cache_id c) (lm_manifest c)). auto.
  - unfold agrees. rewrite Hge by lia. by apply (Forall_lookup_1 _ _ _ _ Hag Hi).
Qed.

Lemma temporary_agrees F G caches :
  up_to_temporary env F G -> Forall (agrees F) caches -> Forall (agrees G) caches.
Proof.
  intros [->|(target & tmp & b & _ & Hfree & ->)] Hag; [done|].
  eapply Forall_impl; [exact Hag|]. intros c (p & m & Hcur & Hp & Hm). exists p, m.
  rewrite (current_manifest_ext env F); [done|]. intros q Hq.
  apply current_manifest_inv in Hcur as (Hpath & b' & Hb' & _).
  rewrite lookup_insert_ne; [done|]. intros ->. rewrite Hpath in Hq. injection Hq as ->. congruence.
Qed.

Lemma upgrade_caches_size F cs : size (upgrade_caches env F cs) = size F.
Proof.
  revert F. induction cs as [|c cs IH]; intros F; [done|]. simpl. rewrite IH. unfold upgrade_cache.
  destruct (current_manifest env F c) as [[p m]|] eqn:Hcur; [|done].
  apply current_manifest_inv in Hcur as (_ & b & Hb & _). by eapply upgraded_size.
Qed.

Lemma temporary_size F G : up_to_temporary env F G -> (size G <= S (size F))%nat.
Proof.
  intros [->|(target & tmp & b & _ & Hfree & ->)]; [lia|]. by rewrite map_size_insert_None.
Qed.

(** A run without faults from files that agree completes every cache. *)
Lemma quiet_run G caches next :
  distinct_caches caches -> Forall (agrees G) caches -> Z.of_nat (S (size G)) <= 2 ^ 64 -> is_u64 next ->
  exists w, update_with_hook (quiet env) caches 3 (start G next) = (Ok (map (completed_entry env G) caches), w) /\
            w_files w = upgrade_caches env G caches.
Proof.
  intros Hdc Hag Hsize Hnext. apply is_u64_iff in Hnext.
  destruct (preflight_quiet G caches [] [] (start G next) Hdc Hag eq_refl) as (ts & Hpre & Hts).
  { intros c _. split; [apply not_elem_of_nil|]. intros p _. apply not_elem_of_nil. }
  pose proof (preflight_targets (quiet env) (fun _ => True) G false caches [] [] (start G next)
    ltac:(by repeat split)) as Hspec.
  rewrite Hpre in Hspec. destruct Hspec as (_ & _ & Hnd & _).
  destruct (update_all_quiet env ts caches [] (start G next) Hts Hnd Hsize Hnext) as (entries & w & Hrun).
  pose proof (update_with_hook_spec (quiet env) G caches next) as Hrep.
  unfold update_with_hook, preflight_manifests in *. cbn [Z.eqb Pos.eqb] in *. rewrite Hpre, Hrun in *.
  destruct Hrep as [[_ [-> Hf]] _]. by exists w.
Qed.

(** After all caches are upgraded nothing is left to do. *)
Lemma upgraded_unchanged G cs :
  Forall (fun c => exists p, current_manifest env G c = Some (p, into_v3 (lm_cache_id c) (lm_manifest c))) cs ->
  upgrade_caches env G cs = G /\ Forall (fun e => ue_status e = lit "unchanged") (map (completed_entry env G) cs).
Proof.
  induction 1 as [|c cs [p Hc] _ [IH1 IH2]]; [by split|]. split.
  - simpl. unfold upgrade_cache. rewrite Hc. unfold upgraded_files. by rewrite into_v3_is_v2.
  - constructor; [|done]. unfold completed_entry. rewrite Hc. by rewrite into_v3_is_v2.
Qed.
End Resume.

(** C15. An interrupted migration can be resumed. Start from files that hold what the
    caches were loaded with (or their upgrades), run a migration in which anything may
    fail, and stop it at any moment: from the files found there a further run without
    faults succeeds, reports every cache, and leaves every manifest as the upgrade of the
    one its cache was loaded with; running once more reports every manifest unchanged and
    changes no file. *)
Theorem migration_resumes {J : ManifestFormat} {L : ManifestFormatLaws J} (env : menv) (F0 : files)
    (caches : list loaded_manifest) (next next' next'' : Z) (G : files)
    (Hdc : distinct_caches env caches) (Hloaded : Forall (agrees env F0) caches)
    (Hsize : Z.of_nat (size F0) + 2 <= 2 ^ 64) (Hnext' : is_u64 next') (Hnext'' : is_u64 next'')
    (HG : let w := (update_with_hook env caches 3 (start F0 next)).2 in G ∈ w_files w :: w_seen w) :
  exists w2, update_with_hook (quiet env) caches 3 (start G next') =
               (Ok (map (completed_entry env G) caches), w2) /\
    Forall (fun c => exists p, current_manifest env (w_files w2) c =
                       Some (p, into_v3 (lm_cache_id c) (lm_manifest c))) caches /\
    exists entries w3, update_with_hook (quiet env) caches 3 (start (w_files w2) next'') = (Ok entries, w3) /\
      Forall (fun e => ue_status e = lit "unchanged") entries /\ length entries = length caches /\
      w_files w3 = w_files w2.
Proof.
  assert (between_upgrades env F0 caches G) as (j & Hj & HGj).
  { pose proof (update_with_hook_spec env F0 caches next) as Hrun. simpl in HG.
    destruct (update_with_hook env caches 3 (start F0 next)) as [r w]. destruct Hrun as [Hrun _].
    apply elem_of_cons in HG as [->|HG]; [by eapply report_between|].
    destruct Hrun as [Hs _]. rewrite Forall_forall in Hs. by apply Hs. }
  assert (Forall (agrees env G) caches) as Hag.
  { eapply temporary_agrees; [exact HGj|]. by apply upgrade_take_agrees. }
  pose proof (temporary_size env _ _ HGj) as HsG. rewrite upgrade_caches_size in HsG.
  destruct (quiet_run env G caches next' Hdc Hag ltac:(lia) Hnext') as (w2 & Hw2 & Hf2).
  exists w2. split; [done|]. rewrite Hf2.
  assert (Forall (fun c => exists p, current_manifest env (upgrade_caches env G caches) c =
    Some (p, into_v3 (lm_cache_id c) (lm_manifest c))) caches) as Hup.
  { apply Forall_lookup. intros i c Hi. pose proof (lookup_lt_Some _ _ _ Hi).
    destruct (upgrade_take_current env G caches (length caches) Hdc Hag ltac:(lia) i c Hi) as [Hlt _].
    rewrite firstn_all in Hlt. destruct Hlt as (p & _ & Hp); [done|]. by exists p. }
  split; [done|]. destruct (upgraded_unchanged env _ _ Hup) as [Hsame Hst].
  destruct (quiet_run env (upgrade_caches env G caches) caches next'' Hdc) as (w3 & Hw3 & Hf3); [| |done|].
  - rewrite <- (firstn_all caches) at 1. by apply upgrade_take_agrees.
  - rewrite upgrade_caches_size. lia.
  - eexists _, w3. split; [exact Hw3|]. split; [done|]. rewrite length_map. split; [done|]. by rewrite Hf3, Hsame.
Qed.

(** ** A concrete migration *)

(** Two legacy caches; syncing the directory of the first manifest fails after its
    replacement. *)
Definition demo_menv : menv :=
  mk_menv (fun s p => if bool_decide (p = [lit "a"]) then
                        match s with SyncParent => Some (IoError (lit "disk")) | _ => None end
                      else None)
    (fun _ _ => None) Ok (fun _ => [0]) (fun b => b) 7.

Definition demo_caches : list (@loaded_manifest demo_format) :=
  [mk_loaded demo_format [lit "a"] 0 (V2 demo_fields); mk_loaded demo_format [lit "b"] 1 (V2 demo_fields)].

Definition demo_files : files :=
  {[ [lit "a"; lit "manifest.json"] := encode (J := demo_format) (V2 demo_fields);
     [lit "b"; lit "manifest.json"] := encode (J := demo_format) (V2 demo_fields) ]}.

Definition demo_interrupted : files := w_files (update_with_hook demo_menv demo_caches 3 (start demo_files 0)).2.

Lemma demo_distinct : distinct_caches demo_menv demo_caches.
Proof.
  split.
  - repeat constructor; vm_compute; discriminate.
  - apply (bool_decide_unpack _). vm_compute. done.
  - repeat constructor; rewrite ?elem_of_cons, ?elem_of_nil; [|tauto].
    intros [H|[]]. vm_compute in H. discriminate H.
Qed.

Lemma demo_agrees : Forall (agrees demo_menv demo_files) demo_caches.
Proof. repeat constructor; eexists _, _; (split; [vm_compute; reflexivity|]); (split; [done|by left]). Qed.

Lemma migration_resumes_witness :
  w_replaced (update_with_hook demo_menv demo_caches 3 (start demo_files 0)).2 = true /\
  exists w2, update_with_hook (quiet demo_menv) demo_caches 3 (start demo_interrupted 5) =
               (Ok (map (completed_entry demo_menv demo_interrupted) demo_caches), w2).
Proof.
  split; [vm_compute; reflexivity|].
  destruct (migration_resumes (L := demo_format_laws) demo_menv demo_files demo_caches 0 5 9 demo_interrupted
    demo_distinct demo_agrees) as (w2 & Hw2 & _).
  - vm_compute. discriminate.
  - vm_compute. split; discriminate.
  - vm_compute. split; discriminate.
  - left.
  - exists w2. exact Hw2.
Defined.
