(* ===== verification/TypeCheck.v ===== *)
(** The type checker of [src/scripts/check_precise_types.py]: it rejects the broad
    types [object] and [Any] in executable references and in quoted annotations,
    with the exemptions the script names. Python's parser is a parameter. *)
From stdpp Require Import base tactics list numbers strings sets sorting.
From S2P Require Import Prelude Collections.
Open Scope Z_scope.

(** * Syntax trees *)

(** Identity, line and column of a node. *)
Record location := mk_loc { node_id : Z; lineno : Z; col_offset : Z }.

(** The nodes the checker distinguishes; every other node is its children, in field
    order. The children of a function before its return annotation are its arguments,
    body and decorators, after it its type parameters. *)
Inductive ast :=
| Name (l : location) (id : pystr)
| Attribute (l : location) (value : ast) (attr : pystr)
| Subscript (l : location) (value slice : ast)
| StrConstant (l : location) (value : pystr)
| Arg (l : location) (arg : pystr) (annotation : option ast)
| AnnAssign (l : location) (target annotation : ast) (value : option ast)
| FunctionDef (l : location) (asynchronous : bool) (name : pystr) (before : list ast) (returns : option ast)
    (after : list ast)
| Call (l : location) (func : ast) (args keywords : list ast)
| OtherNode (l : location) (children : list ast).

Definition location_of (t : ast) : location :=
  match t with
  | Name l _ | Attribute l _ _ | Subscript l _ _ | StrConstant l _ | Arg l _ _ | AnnAssign l _ _ _
  | FunctionDef l _ _ _ _ _ | Call l _ _ _ | OtherNode l _ => l
  end.

(** An optional child. *)
Definition opt_nodes (o : option ast) : list ast := match o with None => [] | Some x => [x] end.

(** [ast.iter_child_nodes]. *)
Definition child_nodes (t : ast) : list ast :=
  match t with
  | Name _ _ | StrConstant _ _ => []
  | Attribute _ value _ => [value]
  | Subscript _ value slice => [value; slice]
  | Arg _ _ annotation => opt_nodes annotation
  | AnnAssign _ target annotation value => target :: annotation :: opt_nodes value
  | FunctionDef _ _ _ before returns after => before ++ opt_nodes returns ++ after
  | Call _ func args keywords => func :: args ++ keywords
  | OtherNode _ children => children
  end.

(** The number of nodes. *)
Fixpoint tree_size (t : ast) : nat :=
  let sum := foldr (fun x n => (tree_size x + n)%nat) O in
  let opt := fun o => match o with None => O | Some x => tree_size x end in
  S (match t with
     | Name _ _ | StrConstant _ _ => O
     | Attribute _ value _ => tree_size value
     | Subscript _ value slice => tree_size value + tree_size slice
     | Arg _ _ annotation => opt annotation
     | AnnAssign _ target annotation value => tree_size target + tree_size annotation + opt value
     | FunctionDef _ _ _ before returns after => sum before + opt returns + sum after
     | Call _ func args keywords => tree_size func + sum args + sum keywords
     | OtherNode _ children => sum children
     end)%nat.

Definition forest_size (l : list ast) : nat := foldr (fun x n => (tree_size x + n)%nat) O l.

(** The queue of [ast.walk]: breadth first; one unit of fuel per node. *)
Fixpoint walk_queue (fuel : nat) (todo : list ast) : list ast :=
  match fuel, todo with
  | S fuel, node :: rest => node :: walk_queue fuel (rest ++ child_nodes node)
  | _, _ => []
  end.
Definition walk (t : ast) : list ast := walk_queue (tree_size t) [t].

(** * References *)

Record Violation := mk_violation { line : Z; column : Z; name : pystr }.

#[export] Instance Violation_eq_dec : EqDecision Violation.
Proof. solve_decision. Defined.

Definition broad (n : pystr) : bool := bool_decide (n = lit "object") || bool_decide (n = lit "Any").

(** The violation a node is by itself. *)
Definition reference (node : ast) : option Violation :=
  match node with
  | Name l id => if broad id then Some (mk_violation (lineno l) (col_offset l + 1) id) else None
  | Attribute l _ attr => if broad attr then Some (mk_violation (lineno l) (col_offset l + 1) attr) else None
  | _ => None
  end.

Definition references (t : ast) : list Violation := omap reference (walk t).

(** [Literal[...]], however qualified. *)
Definition is_literal (t : ast) : bool :=
  match t with
  | Subscript _ (Name _ id) _ => bool_decide (id = lit "Literal")
  | Subscript _ (Attribute _ _ attr) _ => bool_decide (attr = lit "Literal")
  | _ => false
  end.

(** * The checker *)

(** Results computed with fuel, [None] when it is used up, collected in order. *)
Fixpoint gather {A B} (f : A -> option (list B)) (l : list A) : option (list B) :=
  match l with
  | [] => Some []
  | x :: r => a ← f x; b ← gather f r; Some (a ++ b)
  end.

(** [name in {...}] of an annotated assignment's marker. *)
Definition is_alias_marker (t : ast) : bool :=
  match t with
  | Name _ id => bool_decide (id = lit "TypeAlias")
  | Attribute _ _ attr => bool_decide (attr = lit "TypeAlias")
  | _ => false
  end.

(** The expressions of one node whose strings represent types. *)
Definition node_annotations (node : ast) : list ast :=
  match node with
  | Arg _ _ annotation => opt_nodes annotation
  | AnnAssign _ _ annotation value => annotation :: (if is_alias_marker annotation then opt_nodes value else [])
  | FunctionDef _ _ _ _ returns _ => opt_nodes returns
  | Call _ (Name _ id) (annotation :: _) _ => if bool_decide (id = lit "cast") then [annotation] else []
  | Call _ (Attribute _ _ attr) (annotation :: _) _ => if bool_decide (attr = lit "cast") then [annotation] else []
  | _ => []
  end.

Definition collect_annotations (t : ast) : list ast := concat (map node_annotations (walk t)).

(** The annotations in which [object] is allowed: what [__reduce__] returns, and the
    keyword arguments Torch validates. *)
Definition exempt_annotation (node : ast) : list ast :=
  match node with
  | FunctionDef _ false name _ returns _ => if bool_decide (name = lit "__reduce__") then opt_nodes returns else []
  | Arg _ arg annotation => if bool_decide (arg = lit "dataloader_kwargs") then opt_nodes annotation else []
  | AnnAssign _ (Name _ id) annotation _ => if bool_decide (id = lit "extra_kwargs") then [annotation] else []
  | _ => []
  end.

Definition exempt_annotations (t : ast) : list ast := concat (map exempt_annotation (walk t)).

Definition is_object (v : Violation) : Prop := name v = lit "object".
#[export] Instance is_object_dec v : Decision (is_object v).
Proof. unfold is_object. apply _. Defined.

Definition allowed (t : ast) : list Violation :=
  concat (map (fun a => filter is_object (references a)) (exempt_annotations t)).
Definition allowed_ids (t : ast) : list Z := map (fun a => node_id (location_of a)) (exempt_annotations t).

(** The key of the final sort. *)
Definition violation_leb (a b : Violation) : bool :=
  (line a <? line b) || ((line a =? line b) &&
    ((column a <? column b) || ((column a =? column b) && str_leb (name a) (name b)))).

Section Checker.
Context (parse_eval : pystr -> option ast).

(** [quoted_references]; one unit of fuel per call. *)
Fixpoint quoted_references (fuel : nat) (t : ast) : option (list pystr) :=
  match fuel with
  | O => None
  | S fuel =>
      if is_literal t then Some []
      else match t with
      | StrConstant _ value =>
          match parse_eval value with
          | None => Some []
          | Some expression =>
              rest ← quoted_references fuel expression; Some (map name (references expression) ++ rest)
          end
      | _ => gather (quoted_references fuel) (child_nodes t)
      end
  end.

(** The violations of one annotation's strings. *)
Definition quoted_violations (fuel : nat) (ids : list Z) (annotation : ast) : option (list Violation) :=
  names ← quoted_references fuel annotation;
  let l := location_of annotation in
  Some (map (mk_violation (lineno l) (col_offset l + 1))
          (filter (fun n => ~ (n = lit "object" /\ node_id l ∈ ids)) names)).

(** [check_source] of a parsed file. *)
Definition check_source (fuel : nat) (t : ast) : option (list Violation) :=
  quoted ← gather (quoted_violations fuel (allowed_ids t)) (collect_annotations t);
  Some (sort_by violation_leb (filter (fun v => v ∉ allowed t) (remove_dups (references t ++ quoted)))).

(** [main]: every file in order; the exit status. [parse] may raise [SyntaxError]. *)
Fixpoint main (fuel : nat) (parse : pystr -> outcome ast) (files : list pystr) : option (outcome Z) :=
  match files with
  | [] => Some (Ret 0)
  | source :: rest =>
      match parse source with
      | Raise e => Some (Raise e)
      | Ret t =>
          violations ← check_source fuel t;
          status ← main fuel parse rest;
          Some (s ← status; Ret (if bool_decide (violations = []) then s else 1))
      end
  end.
End Checker.

(** * The walk visits every node once *)

(** [x] is [t] or below it. *)
Inductive subnode (t : ast) : ast -> Prop :=
| subnode_self : subnode t t
| subnode_child c x : c ∈ child_nodes t -> subnode c x -> subnode t x.

Lemma forest_size_app l k : forest_size (l ++ k) = (forest_size l + forest_size k)%nat.
Proof. induction l; simpl; lia. Qed.

Lemma tree_size_children t : tree_size t = S (forest_size (child_nodes t)).
Proof.
  destruct t as [| | | |? ? []|? ? ? []|? ? ? ? [] ?| |]; cbn [tree_size child_nodes];
    change (foldr (fun x n => (tree_size x + n)%nat) O) with forest_size;
    cbn [opt_nodes app]; rewrite ?forest_size_app; cbn [forest_size foldr]; rewrite ?forest_size_app;
    change (foldr (fun x n => (tree_size x + n)%nat) O) with forest_size; lia.
Qed.

Lemma child_smaller t c : c ∈ child_nodes t -> (tree_size c < tree_size t)%nat.
Proof.
  intros Hc. rewrite (tree_size_children t). induction (child_nodes t) as [|x l IH]; [by apply elem_of_nil in Hc|].
  simpl. apply elem_of_cons in Hc as [->|Hc]; [lia|]. apply IH in Hc. lia.
Qed.

Lemma walk_queue_elem fuel x : forall todo, (forest_size todo <= fuel)%nat ->
  x ∈ walk_queue fuel todo <-> exists t, t ∈ todo /\ subnode t x.
Proof.
  induction fuel as [|fuel IH]; intros [|t todo] Hf; cbn [walk_queue].
  - split; [by intros ?%elem_of_nil|by intros (t & ?%elem_of_nil & _)].
  - exfalso. simpl in Hf. rewrite tree_size_children in Hf. lia.
  - split; [by intros ?%elem_of_nil|by intros (t & ?%elem_of_nil & _)].
  - simpl in Hf. rewrite tree_size_children in Hf. rewrite elem_of_cons, IH by (rewrite forest_size_app; lia).
    setoid_rewrite elem_of_app. split.
    + intros [->|(y & [Hy|Hy] & Hs)]; [exists t; split; [left|constructor]|exists y; split; [by right|done]|].
      exists t. split; [left|by econstructor].
    + intros (y & [->|Hy]%elem_of_cons & Hs); [|by eauto]. destruct Hs as [|z x Hz Hs]; eauto.
Qed.

Lemma elem_of_walk t x : x ∈ walk t <-> subnode t x.
Proof.
  unfold walk. rewrite walk_queue_elem by (simpl; lia). split.
  - by intros (y & ->%list_elem_of_singleton & Hs).
  - intros Hs. exists t. split; [left|done].
Qed.

Lemma elem_of_references t v : v ∈ references t <-> exists x, subnode t x /\ reference x = Some v.
Proof. unfold references. rewrite list_elem_of_omap. by setoid_rewrite elem_of_walk. Qed.

(** * Quoted references *)

Section Quoted.
Context (parse_eval : pystr -> option ast).

(** A string of [t] outside every [Literal] names [n], directly or in a string of the
    expression it holds. *)
Inductive quotes : ast -> pystr -> Prop :=
| quotes_name l v e n : parse_eval v = Some e -> n ∈ map name (references e) -> quotes (StrConstant l v) n
| quotes_deeper l v e n : parse_eval v = Some e -> quotes e n -> quotes (StrConstant l v) n
| quotes_child t c n : is_literal t = false -> c ∈ child_nodes t -> quotes c n -> quotes t n.

(** A string constant is shorter than the expression that denotes it. *)
Definition parse_shrinks : Prop := forall v e l w,
  parse_eval v = Some e -> subnode e (StrConstant l w) -> (length w < length v)%nat.

Lemma gather_ok {A B} (f : nat -> A -> option (list B)) (P : A -> B -> Prop) l :
  (forall x, x ∈ l -> exists k, forall fuel, (k <= fuel)%nat -> exists r, f fuel x = Some r /\ forall y, y ∈ r <-> P x y) ->
  exists k, forall fuel, (k <= fuel)%nat ->
    exists r, gather (f fuel) l = Some r /\ forall y, y ∈ r <-> exists x, x ∈ l /\ P x y.
Proof.
  induction l as [|x l IH]; intros H.
  - exists O. intros fuel _. exists []. split; [done|]. intros y. split; [by intros ?%elem_of_nil|].
    by intros (x & ?%elem_of_nil & _).
  - destruct (H x ltac:(left)) as [k1 H1]. destruct IH as [k2 H2]; [intros y Hy; apply H; by right|].
    exists (k1 + k2)%nat. intros fuel Hf. destruct (H1 fuel ltac:(lia)) as (r1 & E1 & Hr1).
    destruct (H2 fuel ltac:(lia)) as (r2 & E2 & Hr2). exists (r1 ++ r2). simpl. rewrite E1. simpl. rewrite E2. simpl.
    split; [done|]. intros y. rewrite elem_of_app, Hr1, Hr2. setoid_rewrite elem_of_cons. split.
    + intros [Hp|(z & Hz & Hp)]; eauto.
    + intros (z & [->|Hz] & Hp); eauto.
Qed.

Lemma quoted_string l v fuel : quoted_references parse_eval (S fuel) (StrConstant l v) =
  match parse_eval v with
  | None => Some []
  | Some e => rest ← quoted_references parse_eval fuel e; Some (map name (references e) ++ rest)
  end.
Proof. done. Qed.

Lemma quoted_other t fuel : is_literal t = false -> (forall l v, t <> StrConstant l v) ->
  quoted_references parse_eval (S fuel) t = gather (quoted_references parse_eval fuel) (child_nodes t).
Proof. intros Hl Hs. cbn [quoted_references]. rewrite Hl. destruct t; try done. by destruct (Hs l value). Qed.

(** Enough fuel gives the names, for any depth of quotation. *)
Lemma quoted_references_ok : parse_shrinks -> forall bound t,
  (forall l w, subnode t (StrConstant l w) -> (length w < bound)%nat) ->
  exists k, forall fuel, (k <= fuel)%nat ->
    exists names, quoted_references parse_eval fuel t = Some names /\ forall n, n ∈ names <-> quotes t n.
Proof.
  intros Hparse bound. induction bound as [bound IHb] using lt_wf_ind.
  intros t. induction t as [t IHt] using (induction_ltof1 _ tree_size). intros Hb.
  destruct (is_literal t) eqn:El.
  { exists 1%nat. intros [|fuel] Hf; [lia|]. exists []. cbn [quoted_references]. rewrite El. split; [done|].
    intros n. split; [by intros ?%elem_of_nil|]. inversion 1; subst; [discriminate El|discriminate El|congruence]. }
  assert ((exists l v, t = StrConstant l v) \/ (forall l v, t <> StrConstant l v)) as [(l & v & ->)|Hn]
    by (destruct t; (by eauto) || by right).
  - destruct (parse_eval v) as [e|] eqn:Ep.
    + destruct (IHb (length v)) with (t := e) as [k Hk]; [apply (Hb l); constructor|by eauto|].
      exists (S k). intros [|fuel] Hf; [lia|]. rewrite quoted_string, Ep.
      destruct (Hk fuel ltac:(lia)) as (rest & -> & Hr). eexists. split; [done|]. intros n. rewrite elem_of_app, Hr. split.
      * intros [Hn|Hn]; [by eapply quotes_name|by eapply quotes_deeper].
      * inversion 1; subst; simplify_eq; [by left|by right|]. by match goal with H : _ ∈ child_nodes _ |- _ => apply elem_of_nil in H end.
    + exists 1%nat. intros [|fuel] Hf; [lia|]. rewrite quoted_string, Ep. exists []. split; [done|].
      intros n. split; [by intros ?%elem_of_nil|]. inversion 1; subst; simplify_eq.
      by match goal with H : _ ∈ child_nodes _ |- _ => apply elem_of_nil in H end.
  - destruct (gather_ok (quoted_references parse_eval) quotes (child_nodes t)) as [k Hk].
    { intros c Hc. apply IHt; [by apply child_smaller|]. intros l w Hs. apply (Hb l). by econstructor. }
    exists (S k). intros [|fuel] Hf; [lia|]. rewrite quoted_other by done.
    destruct (Hk fuel ltac:(lia)) as (r & -> & Hr). exists r. split; [done|]. intros n. rewrite Hr. split.
    + intros (c & Hc & Hq). by eapply quotes_child.
    + inversion 1; subst; [by edestruct Hn|by edestruct Hn|]. eauto.
Qed.
End Quoted.

(** * What is reported *)

Lemma string_bound t : exists bound, forall l w, subnode t (StrConstant l w) -> (length w < bound)%nat.
Proof.
  setoid_rewrite <- elem_of_walk. induction (walk t) as [|x xs [b IH]].
  - exists O. by intros l w ?%elem_of_nil.
  - exists (b + match x with StrConstant _ w => S (length w) | _ => O end)%nat.
    intros l w [<-|Hin]%elem_of_cons; [lia|]. apply IH in Hin. lia.
Qed.

Lemma violation_leb_order : (forall a b, leq violation_leb a b \/ leq violation_leb b a) /\
  (forall a b c, leq violation_leb a b -> leq violation_leb b c -> leq violation_leb a c).
Proof.
  unfold leq, violation_leb. split.
  - intros a b. destruct (str_leb_total (name a) (name b)) as [E|E];
      destruct (Z.ltb_spec (line a) (line b)), (Z.ltb_spec (line b) (line a)), (Z.eqb_spec (line a) (line b)),
        (Z.eqb_spec (line b) (line a)), (Z.ltb_spec (column a) (column b)), (Z.ltb_spec (column b) (column a)),
        (Z.eqb_spec (column a) (column b)), (Z.eqb_spec (column b) (column a)); simpl; auto; lia.
  - intros a b c.
    rewrite !orb_true_iff, !andb_true_iff, !orb_true_iff, !andb_true_iff, !Z.ltb_lt, !Z.eqb_eq.
    pose proof (str_leb_trans (name a) (name b) (name c)).
    intros [?|[? [?|[? Hs1]]]] [?|[? [?|[? Hs2]]]]; try (left; lia); right; (split; [lia|]); try (left; lia); right; auto with lia.
Qed.

Section Report.
Context (parse_eval : pystr -> option ast) (t : ast).

(** An expression of the file whose strings are types, and one where [object] is
    allowed. *)
Definition annotates (a : ast) : Prop := exists x, subnode t x /\ a ∈ node_annotations x.
Definition exempts (a : ast) : Prop := exists x, subnode t x /\ a ∈ exempt_annotation x.

(** A reference to [object] inside an exempt annotation. *)
Definition tolerated (v : Violation) : Prop :=
  name v = lit "object" /\ exists a x, exempts a /\ subnode a x /\ reference x = Some v.

(** What the policy forbids. *)
Definition forbidden (v : Violation) : Prop :=
  ~ tolerated v /\
  ((exists x, subnode t x /\ reference x = Some v) \/
   exists a, annotates a /\ line v = lineno (location_of a) /\ column v = col_offset (location_of a) + 1 /\
     quotes parse_eval a (name v) /\ ~ (name v = lit "object" /\ exempts a)).

(** Nodes are identified by their identity. *)
Definition unique_ids : Prop := forall x y, subnode t x -> subnode t y ->
  node_id (location_of x) = node_id (location_of y) -> x = y.

Lemma elem_of_collect a : a ∈ collect_annotations t <-> annotates a.
Proof. unfold collect_annotations, annotates. rewrite elem_of_concat_map. by setoid_rewrite elem_of_walk. Qed.

Lemma elem_of_exempt a : a ∈ exempt_annotations t <-> exempts a.
Proof. unfold exempt_annotations, exempts. rewrite elem_of_concat_map. by setoid_rewrite elem_of_walk. Qed.

Lemma elem_of_allowed v : v ∈ allowed t <-> tolerated v.
Proof.
  unfold allowed, tolerated. rewrite elem_of_concat_map. split.
  - intros (a & Ha%elem_of_exempt & (Hv & (x & Hx & Hr)%elem_of_references)%list_elem_of_filter). split; [done|]. eauto.
  - intros (Hv & a & x & Ha & Hx & Hr). exists a. split; [by apply elem_of_exempt|].
    apply list_elem_of_filter. split; [done|]. apply elem_of_references. eauto.
Qed.

Lemma node_annotation_child x a : a ∈ node_annotations x -> subnode x a.
Proof.
  intros Ha. assert (a ∈ child_nodes x) as Hc; [|by eapply subnode_child; [|constructor]].
  destruct x as [| | | | |l tg an v| |l [] args kw|]; simpl in *; try by apply elem_of_nil in Ha.
  all: try (destruct args as [|y args]; [by apply elem_of_nil in Ha|]).
  all: try (destruct (is_alias_marker an)).
  all: repeat case_bool_decide; set_solver.
Qed.

Lemma exempt_child x a : a ∈ exempt_annotation x -> subnode x a.
Proof.
  intros Ha. assert (a ∈ child_nodes x) as Hc; [|by eapply subnode_child; [|constructor]].
  destruct x as [| | | | |l [] an v|l [] n b r af| |]; simpl in *; repeat case_bool_decide; set_solver.
Qed.

Lemma subnode_trans x y z : subnode x y -> subnode y z -> subnode x z.
Proof. induction 1; intros Hz; [done|]. econstructor; eauto. Qed.

Lemma allowed_id a : unique_ids -> annotates a -> node_id (location_of a) ∈ allowed_ids t <-> exempts a.
Proof.
  intros Hu (x & Hx & Ha). unfold allowed_ids. rewrite elem_of_map. setoid_rewrite elem_of_exempt. split.
  - intros (b & E & Hb). assert (a = b) as ->; [|done]. pose proof Hb as (y & Hy & Hb').
    apply Hu; [exact (subnode_trans _ _ _ Hx (node_annotation_child _ _ Ha))|
      exact (subnode_trans _ _ _ Hy (exempt_child _ _ Hb'))|done].
  - intros Ha'. exists a. done.
Qed.
End Report.


(** ** A concrete file *)

(** [def f(x: "list[object]") -> Any], where the string parses. *)
Definition demo_expression : ast :=
  OtherNode (mk_loc 10 1 0) [Subscript (mk_loc 11 1 0) (Name (mk_loc 12 1 0) (lit "list")) (Name (mk_loc 13 1 5) (lit "object"))].
Definition demo_parse (v : pystr) : option ast :=
  if bool_decide (v = lit "list[object]") then Some demo_expression else None.
Definition demo_module : ast :=
  OtherNode (mk_loc 0 0 0)
    [FunctionDef (mk_loc 1 3 0) false (lit "f") [Arg (mk_loc 2 3 6) (lit "x") (Some (StrConstant (mk_loc 3 3 9) (lit "list[object]")))]
       (Some (Name (mk_loc 4 3 29) (lit "Any"))) []].

Lemma demo_parse_shrinks : parse_shrinks demo_parse.
Proof.
  intros v e l w He Hs. unfold demo_parse in He. case_bool_decide; [|done]. injection He as <-.
  apply elem_of_walk in Hs. change (walk demo_expression) with
    [demo_expression; Subscript (mk_loc 11 1 0) (Name (mk_loc 12 1 0) (lit "list")) (Name (mk_loc 13 1 5) (lit "object"));
     Name (mk_loc 12 1 0) (lit "list"); Name (mk_loc 13 1 5) (lit "object")] in Hs.
  repeat (apply elem_of_cons in Hs as [Hs|Hs]; [discriminate Hs|]). by apply elem_of_nil in Hs.
Qed.

Lemma demo_unique_ids : unique_ids demo_module.
Proof.
  intros x y Hx Hy. apply elem_of_walk in Hx, Hy.
  assert (Hw : NoDup (map (fun x => node_id (location_of x)) (walk demo_module)))
    by (apply (bool_decide_unpack _); vm_compute; exact I).
  revert Hw Hx Hy. generalize (walk demo_module). intros l. induction l as [|z l IH]; intros Hw Hx Hy E;
    [by apply elem_of_nil in Hx|]. apply NoDup_cons in Hw as [Hz Hw].
  apply elem_of_cons in Hx as [->|Hx], Hy as [->|Hy]; [done|..|by apply IH]; exfalso; apply Hz, elem_of_map; eauto.
Qed.

