(* ===== verification/ApiDocs.v ===== *)
(** The API documentation generator of [src/scripts/sync_api_docs.py]: exported names,
    the definitions behind the facade, the rendering of classes, aliases and
    signatures, and the update of the generated section. Python's parser and
    unparser, source segments and file contents are parameters. *)
From stdpp Require Import base tactics list numbers strings.
From S2P Require Import Prelude Collections PyStr.
Open Scope Z_scope.

(** * Syntax *)

Inductive expr :=
| EName (id : pystr)
| EStr (value : pystr)
| ECall (func : expr) (args : list expr) (keywords : list (option pystr * expr))
| EList (elts : list expr)
| EOther (k : Z).

Record arguments := mk_arguments {
  posonlyargs : list (pystr * option expr);
  plain_args : list (pystr * option expr);
  kwonlyargs : list (pystr * option expr);
  kw_defaults : list (option expr);
  defaults : list expr }.

Inductive stmt :=
| SImportFrom (line : Z) (module : option pystr) (names : list (pystr * option pystr))
| SAssign (line : Z) (targets : list expr) (value : expr)
| SAnnAssign (line : Z) (target annotation : expr) (value : option expr)
| SClass (line : Z) (name : pystr) (body : list stmt)
| SFunction (line : Z) (name : pystr) (args : arguments) (returns : option expr) (decorators : list expr)
    (body : list stmt)
| SExpr (line : Z) (value : expr)
| SOther (line : Z).

Definition stmt_line (s : stmt) : Z :=
  match s with
  | SImportFrom l _ _ | SAssign l _ _ | SAnnAssign l _ _ _ | SClass l _ _ | SFunction l _ _ _ _ _ | SExpr l _
  | SOther l => l
  end.

Definition BEGIN_MARKER : pystr := lit "<!-- BEGIN GENERATED: Public Python API -->".
Definition END_MARKER : pystr := lit "<!-- END GENERATED: Public Python API -->".
Definition SPECIAL_METHODS : list pystr := map lit ["__init__"; "__iter__"; "__len__"]%string.

(** [raise SystemExit(message)]. *)
Definition exit_with {A} (message : pystr) : outcome A := Raise (SystemExit (PStr message)).

(** * Docstrings *)

(** [s.expandtabs()] at column [col]. *)
Fixpoint expand_tabs (col : Z) (s : pystr) : pystr :=
  match s with
  | [] => []
  | c :: r =>
      if c =? 9 then replicate (Z.to_nat (8 - col mod 8)) 32 ++ expand_tabs (col + (8 - col mod 8)) r
      else c :: expand_tabs (if (c =? 10) || (c =? 13) then 0 else col + 1) r
  end.

(** [s.lstrip(" ")]. *)
Fixpoint strip_spaces (s : pystr) : pystr :=
  match s with
  | c :: r => if c =? 32 then strip_spaces r else s
  | [] => []
  end.

(** The least indentation of the lines that are not blank. *)
Definition margin (lines : list pystr) : option nat :=
  foldr (fun l m =>
    match strip_spaces l with
    | [] => m
    | content => let indent := (length l - length content)%nat in
                 Some (match m with None => indent | Some m => Nat.min indent m end)
    end) None lines.

Fixpoint drop_blank (lines : list pystr) : list pystr :=
  match lines with
  | [] :: r => drop_blank r
  | _ => lines
  end.

(** [inspect.cleandoc]. *)
Definition cleandoc (doc : pystr) : pystr :=
  match split_char 10 (expand_tabs 0 doc) with
  | [] => []
  | first :: rest =>
      let rest := match margin rest with None => rest | Some m => map (drop m) rest end in
      join [10] (drop_blank (rev (drop_blank (rev (strip_spaces first :: rest)))))
  end.

(** [ast.get_docstring]: the cleaned leading string of a body. *)
Definition get_docstring (body : list stmt) : option pystr :=
  match body with
  | SExpr _ (EStr s) :: _ => Some (cleandoc s)
  | _ => None
  end.

Definition format_docstring (name : pystr) (body : list stmt) : outcome pystr :=
  match get_docstring body with
  | None => exit_with (lit "object is missing docstring: " ++ name)
  | Some doc => Ret (cleandoc doc)
  end.

(** The string statement after position [index]. *)
Definition following_docstring (body : list stmt) (index : nat) : option pystr :=
  match body !! S index with
  | Some (SExpr _ (EStr s)) => Some (cleandoc s)
  | _ => None
  end.

(** * Exported names *)

Definition literal_string_list (node : expr) : outcome (list pystr) :=
  match node with
  | EList elts => traverse (fun e => match e with
                                     | EStr s => Ret s
                                     | _ => exit_with (lit "__all__ entries must be string literals")
                                     end) elts
  | _ => exit_with (lit "__all__ must be a list literal")
  end.

Definition is_name (n : pystr) (e : expr) : bool := match e with EName id => bool_decide (id = n) | _ => false end.

Fixpoint public_names (body : list stmt) : outcome (list pystr) :=
  match body with
  | [] => exit_with (lit "__all__ not found")
  | SAssign _ targets value :: rest =>
      if existsb (is_name (lit "__all__")) targets then literal_string_list value else public_names rest
  | _ :: rest => public_names rest
  end.

Definition public_node_name (s : stmt) : option pystr :=
  match s with
  | SClass _ name _ => Some name
  | SAnnAssign _ (EName id) _ _ => Some id
  | _ => None
  end.

(** The last definition of a name wins. *)
Definition public_api_objects (body : list stmt) : list (pystr * stmt) :=
  dict_of (omap (fun s => n ← public_node_name s; Some (n, s)) body).

(** * Rendering *)

Definition is_documented_method (name : pystr) : bool :=
  negb (match name with 95 :: _ => true | _ => false end) || bool_decide (name ∈ SPECIAL_METHODS).

Definition is_property (decorators : list expr) : bool := existsb (is_name (lit "property")) decorators.

Definition class_methods (body : list stmt) : list stmt :=
  List.filter (fun s => match s with SFunction _ name _ _ _ _ => is_documented_method name | _ => false end) body.

(** [zip(a, b, strict=True)]. *)
Fixpoint zip_strict {A B} (a : list A) (b : list B) : outcome (list (A * B)) :=
  match a, b with
  | [], [] => Ret []
  | x :: a, y :: b => r ← zip_strict a b; Ret ((x, y) :: r)
  | [], _ => Raise (ValueError (lit "zip() argument 2 is longer than argument 1"))
  | _, [] => Raise (ValueError (lit "zip() argument 2 is shorter than argument 1"))
  end.

Definition NEWLINE : pystr := [10].

Record ApiDefinition := mk_definition { definition_source : pystr; definition_node : stmt }.

Section Rendering.
Context (unparse : expr -> pystr) (source_segment : pystr -> expr -> option pystr)
  (parse : pystr -> outcome (list stmt)).

Definition render_arg (arg : pystr * option expr) (default : option expr) : pystr :=
  let rendered := match arg.2 with
                  | None => arg.1
                  | Some annotation => arg.1 ++ lit ": " ++ unparse annotation
                  end in
  match default with None => rendered | Some d => rendered ++ lit " = " ++ unparse d end.

(** The arguments without a leading [self]. *)
Definition drop_self (args : list (pystr * option expr)) : list (pystr * option expr) :=
  match args with
  | (n, a) :: rest => if bool_decide (n = lit "self") then rest else args
  | [] => []
  end.

Definition render_args (a : arguments) : outcome pystr :=
  let args := drop_self (posonlyargs a ++ plain_args a) in
  let defaults := replicate (length args - length (defaults a)) None ++ map Some (defaults a) in
  pairs ← zip_strict args defaults;
  let rendered := map (fun '(arg, default) => render_arg arg default) pairs in
  keyword ← match kwonlyargs a with
            | [] => Ret []
            | kw => kwpairs ← zip_strict kw (kw_defaults a);
                    Ret (lit "*" :: map (fun '(arg, default) => render_arg arg default) kwpairs)
            end;
  Ret (join (lit ", ") (rendered ++ keyword)).

Definition method_signature (name : pystr) (a : arguments) (returns : option expr) : outcome pystr :=
  rendered ← render_args a;
  let arrow := match returns with
               | Some r => if bool_decide (name = lit "__init__") then [] else lit " -> " ++ unparse r
               | None => []
               end in
  Ret (name ++ lit "(" ++ rendered ++ lit ")" ++ arrow).

(** The [description] keyword of a [Field] call: the first literal one. *)
Definition field_description (value : option expr) : option pystr :=
  match value with
  | Some (ECall (EName f) _ keywords) =>
      if bool_decide (f = lit "Field")
      then head (omap (fun '(k, v) => if bool_decide (k = Some (lit "description"))
                                      then match v with EStr s => Some (cleandoc s) | _ => None end
                                      else None) keywords)
      else None
  | _ => None
  end.

(** [a or b] on optional strings: an empty string is false. *)
Definition or_else (a b : option pystr) : option pystr :=
  match a with Some (_ :: _) => a | _ => b end.

Definition is_hidden_field (id : pystr) : bool :=
  bool_decide (id = lit "model_config") || match id with 95 :: _ => true | _ => false end.

(** The fields of the statements from [index] on. *)
Fixpoint class_fields_from (class_name : pystr) (body : list stmt) (index : nat) (rest : list stmt)
  : outcome (list (pystr * pystr)) :=
  match rest with
  | [] => Ret []
  | SAnnAssign _ (EName id) annotation value :: rest =>
      if is_hidden_field id then class_fields_from class_name body (S index) rest
      else match or_else (field_description value) (following_docstring body index) with
      | None => exit_with (lit "field is missing docstring: " ++ class_name ++ lit "." ++ id)
      | Some doc =>
          fields ← class_fields_from class_name body (S index) rest;
          Ret ((id ++ lit ": " ++ unparse annotation, doc) :: fields)
      end
  | _ :: rest => class_fields_from class_name body (S index) rest
  end.
Definition class_fields (name : pystr) (body : list stmt) : outcome (list (pystr * pystr)) :=
  class_fields_from name body 0 body.

(** The section of one method. *)
Definition render_method (class_name : pystr) (s : stmt) : outcome (list pystr) :=
  match s with
  | SFunction _ name args returns decorators body =>
      title ← (if is_property decorators then Ret name else method_signature name args returns);
      doc ← format_docstring name body;
      Ret [[]; lit "#### `" ++ class_name ++ lit "." ++ title ++ lit "`"; []; doc]
  | _ => Ret []
  end.

Definition render_class (name class_name : pystr) (body : list stmt) : outcome (list pystr) :=
  doc ← format_docstring class_name body;
  fields ← class_fields class_name body;
  methods ← traverse (render_method name) (class_methods body);
  Ret ([lit "### `" ++ name ++ lit "`"; []; doc] ++
       match fields with
       | [] => []
       | _ => [[]; lit "Fields:"] ++ map (fun '(f, d) => lit "- `" ++ f ++ lit "`: " ++ d) fields
       end ++ concat methods).

(** The documentation after the statement of [source] on the same line. *)
Definition node_docstring (source name : pystr) (node : stmt) : outcome pystr :=
  body ← parse source;
  match list_find (fun s => stmt_line s = stmt_line node) body with
  | Some (index, _) =>
      match following_docstring body index with
      | Some doc => Ret doc
      | None => exit_with (lit "type alias is missing docstring: " ++ name)
      end
  | None => exit_with (lit "type alias is missing docstring: " ++ name)
  end.

Definition render_type_alias (source name : pystr) (node : stmt) (value : option expr) : outcome (list pystr) :=
  match value with
  | None => exit_with (lit "type alias value not found: " ++ name)
  | Some v =>
      match source_segment source v with
      | None => exit_with (lit "type alias source not found: " ++ name)
      | Some annotation =>
          doc ← node_docstring source name node;
          Ret [lit "### `" ++ name ++ lit "`"; [];
               lit "```python" ++ NEWLINE ++ name ++ lit " = " ++ annotation ++ NEWLINE ++ lit "```"; []; doc]
      end
  end.

Definition render_public_object (source name : pystr) (node : stmt) : outcome (list pystr) :=
  match node with
  | SClass _ class_name body => render_class name class_name body
  | SAnnAssign _ _ _ value => render_type_alias source name node value
  | _ => exit_with (lit "unsupported public API node: " ++ name)
  end.

(** * The facade *)

Abbreviation definitions := (list (pystr * ApiDefinition)).

(** [module.startswith("dataset_rt.")]. *)
Definition is_implementation (module : pystr) : bool :=
  match strip_prefix (lit "dataset_rt.") module with Some _ => true | None => false end.

(** The aliases of one import that name an object of its module. *)
Definition import_names (objects : definitions) (names : list (pystr * option pystr)) (defs : definitions) : definitions :=
  fold_left (fun d '(name, asname) =>
    match dict_get name objects with
    | Some definition => dict_set (default name asname) definition d
    | None => d
    end) names defs.

(** [read_module] is the text of the file of a module. *)
Context (read_module : pystr -> outcome pystr).

(** The objects of a module, read once. *)
Definition load_module (module : pystr) (modules : list (pystr * definitions))
  : outcome (definitions * list (pystr * definitions)) :=
  match dict_get module modules with
  | Some objects => Ret (objects, modules)
  | None =>
      source ← read_module module;
      body ← parse source;
      let objects := map (fun '(name, node) => (name, mk_definition source node)) (public_api_objects body) in
      Ret (objects, dict_set module objects modules)
  end.

Fixpoint facade_definitions_from (body : list stmt) (modules : list (pystr * definitions)) (defs : definitions)
  : outcome definitions :=
  match body with
  | [] => Ret defs
  | SImportFrom _ (Some module) names :: rest =>
      if is_implementation module then
        '(objects, modules) ← load_module module modules;
        facade_definitions_from rest modules (import_names objects names defs)
      else facade_definitions_from rest modules defs
  | _ :: rest => facade_definitions_from rest modules defs
  end.

Definition facade_definitions (api_text : outcome pystr) : outcome definitions :=
  text ← api_text;
  body ← parse text;
  facade_definitions_from body [] [].

(** The section of one exported name. *)
Definition render_export (objects : definitions) (name : pystr) : outcome (list pystr) :=
  match dict_get name objects with
  | None => exit_with (lit "exported object has no API definition: " ++ name)
  | Some d => lines ← render_public_object (definition_source d) name (definition_node d); Ret (lines ++ [[]])
  end.

Definition render_generated_section (api_text : outcome pystr) (exported : list pystr) : outcome pystr :=
  objects ← facade_definitions api_text;
  sections ← traverse (render_export objects) exported;
  Ret (join NEWLINE
    ([BEGIN_MARKER; []; lit "_Generated from public docstrings behind the `dataset_rt.api` facade._"; []] ++
     concat sections ++ [END_MARKER])).

(** * The generated section of the document *)

(** [s.find(m)]. *)
Fixpoint find (m s : pystr) : option nat :=
  match strip_prefix m s with
  | Some _ => Some O
  | None => match s with [] => None | _ :: r => S <$> find m r end
  end.

(** The text to write, if any. *)
Definition update_marked_section (path_name original generated : pystr) (check : bool) : outcome (option pystr) :=
  match find BEGIN_MARKER original, find END_MARKER original with
  | Some start, Some stop =>
      let stop := (stop + length END_MARKER)%nat in
      let updated := take start original ++ generated ++ drop stop original in
      if check then
        if bool_decide (updated = original) then Ret None
        else exit_with (path_name ++ lit " is not synchronized with API docstrings")
      else Ret (Some updated)
  | _, _ => exit_with (lit "generated API docs markers not found in " ++ path_name)
  end.

Definition parse_check_flag (args : list pystr) : outcome bool :=
  match args with
  | [] => Ret false
  | [a] => if bool_decide (a = lit "--check") then Ret true else exit_with (lit "usage: sync_api_docs.py [--check]")
  | _ => exit_with (lit "usage: sync_api_docs.py [--check]")
  end.

(** [main]: the text to write to the document, if any. *)
Definition main (args : list pystr) (package_text api_text : outcome pystr) (path_name document : pystr)
  : outcome (option pystr) :=
  check ← parse_check_flag args;
  text ← package_text;
  package ← parse text;
  exported ← public_names package;
  generated ← render_generated_section api_text exported;
  update_marked_section path_name document generated check.
End Rendering.

(** * The first occurrence *)

Lemma strip_prefix_iff p : forall s r, strip_prefix p s = Some r <-> s = p ++ r.
Proof.
  induction p as [|a p IH]; intros [|b s] r; simpl; try (split; [by intros [= <-]|by intros <-]); [done|].
  destruct (Z.eqb_spec a b) as [->|Hne].
  - rewrite IH. split; [by intros ->|by intros [= ->]].
  - split; [done|by intros [= -> _]].
Qed.

(** [m] occurs in [s] at [i]. *)
Definition occurs (m s : pystr) (i : nat) : Prop := exists r, drop i s = m ++ r.

Lemma find_some m s : forall i, find m s = Some i <-> occurs m s i /\ forall j, (j < i)%nat -> ~ occurs m s j.
Proof.
  assert (Hz : forall s, (exists r, strip_prefix m s = Some r) <-> occurs m s 0).
  { intros s'. unfold occurs. rewrite drop_0. by setoid_rewrite strip_prefix_iff. }
  induction s as [|c s IH]; intros i; cbn [find].
  - destruct (strip_prefix m []) as [r|] eqn:E.
    + assert (H0 : occurs m [] 0) by (apply Hz; eauto). split; [intros [= <-]; split; [done|lia]|].
      intros [_ Hn]. destruct i; [done|]. by destruct (Hn O ltac:(lia)).
    + split; [done|]. intros [[r Hr] _]. exfalso. rewrite drop_nil in Hr. apply (strip_prefix_iff m [] r) in Hr. congruence.
  - destruct (strip_prefix m (c :: s)) as [r|] eqn:E.
    + assert (H0 : occurs m (c :: s) 0) by (apply Hz; eauto). split; [intros [= <-]; split; [done|lia]|].
      intros [_ Hn]. destruct i; [done|]. by destruct (Hn O ltac:(lia)).
    + assert (H0 : ~ occurs m (c :: s) 0) by (intros [r Hr]%Hz; congruence). rewrite fmap_Some. setoid_rewrite IH. split.
      * intros (k & [Hk Hn] & ->). split; [done|]. intros [|j] Hj; [done|]. apply Hn. lia.
      * intros [Ho Hn]. destruct i as [|k]; [done|]. exists k. split; [|done]. split; [done|].
        intros j Hj. apply (Hn (S j)). lia.
Qed.

Lemma occurs_app_l m a b i : occurs m a i -> (i + length m <= length a)%nat -> occurs m (a ++ b) i.
Proof. intros [r Hr] Hi. exists (r ++ b). rewrite drop_app_le by lia. by rewrite Hr, <- app_assoc. Qed.

Lemma occurs_length m s i : m <> [] -> occurs m s i -> (i + length m <= length s)%nat.
Proof.
  intros Hm [r Hr]. apply (f_equal length) in Hr. rewrite length_drop, length_app in Hr.
  destruct m; [done|]. simpl in *. lia.
Qed.

(** Occurrences depend on the text up to their end. *)
Lemma occurs_prefix m a b i : (i + length m <= length a)%nat -> occurs m (a ++ b) i -> occurs m a i.
Proof.
  intros Hi [r Hr]. rewrite drop_app_le in Hr by lia. exists (drop (length m) (drop i a)).
  assert (Hl : (length m <= length (drop i a))%nat) by (rewrite length_drop; lia).
  rewrite <- (take_drop (length m) (drop i a)) at 1. f_equal.
  apply (f_equal (take (length m))) in Hr. rewrite take_app_le in Hr by done. by rewrite take_app_length in Hr.
Qed.

Lemma occurs_shift m a s i : occurs m (a ++ s) (length a + i) <-> occurs m s i.
Proof. unfold occurs. by rewrite drop_app_add. Qed.

(** * Writing, then checking *)

Lemma marker_lengths : (0 < length END_MARKER <= length BEGIN_MARKER)%nat.
Proof. vm_compute. lia. Qed.

Lemma join_cons sep x y r : join sep (x :: y :: r) = x ++ sep ++ join sep (y :: r).
Proof. done. Qed.

(** The markers of a replaced section are found where the replacement put them. *)
Lemma markers_after_update original g a b (G := BEGIN_MARKER ++ g) (updated := take a original ++ G ++ drop (b + length END_MARKER) original) :
  find BEGIN_MARKER original = Some a -> find END_MARKER original = Some b -> (a + length BEGIN_MARKER <= b)%nat ->
  find END_MARKER G = Some (length G - length END_MARKER)%nat ->
  find BEGIN_MARKER updated = Some a /\ find END_MARKER updated = Some (a + length G - length END_MARKER)%nat.
Proof.
  intros Ha Hb Hab HG. pose proof marker_lengths as HL.
  apply find_some in Ha as [Oa Na], Hb as [Ob Nb], HG as [OG NG].
  assert (La : length (take a original) = a).
  { apply occurs_length in Oa; [|by intros E; rewrite E in HL; simpl in HL; lia]. rewrite length_take. lia. }
  pose proof Oa as [rest Hrest].
  assert (Eo : original = (take a original ++ BEGIN_MARKER) ++ rest) by (rewrite <- app_assoc, <- Hrest; by rewrite take_drop).
  assert (Eu : updated = (take a original ++ BEGIN_MARKER) ++ g ++ drop (b + length END_MARKER) original)
    by (unfold updated, G; by rewrite <- !app_assoc).
  assert (LP : length (take a original ++ BEGIN_MARKER) = (a + length BEGIN_MARKER)%nat) by (rewrite length_app; lia).
  assert (Hback : forall m j, (j + length m <= a + length BEGIN_MARKER)%nat -> occurs m updated j -> occurs m original j).
  { intros m j Hj Ho. rewrite Eu in Ho. apply occurs_prefix in Ho; [|lia]. rewrite Eo. apply occurs_app_l; [done|lia]. }
  split; apply find_some; split.
  - unfold updated. rewrite <- (Nat.add_0_r a) at 2. rewrite <- La at 2. rewrite occurs_shift. unfold G, occurs.
    rewrite drop_0, <- app_assoc. eauto.
  - intros j Hj Ho. apply (Na j Hj). apply Hback; [lia|done].
  - unfold updated. replace (a + length G - length END_MARKER)%nat with (length (take a original) + (length G - length END_MARKER))%nat
      by (apply occurs_length in OG; [lia|by intros E; rewrite E in HL; simpl in HL; lia]).
    rewrite occurs_shift. apply occurs_app_l; [done|]. apply occurs_length in OG; [lia|].
    by intros E; rewrite E in HL; simpl in HL; lia.
  - intros j Hj Ho. destruct (decide (j < a)%nat) as [Hja|Hja].
    + apply (Nb j); [lia|]. apply Hback; [lia|done].
    + assert (LG : (length END_MARKER <= length G)%nat) by (apply occurs_length in OG; [lia|by intros E; rewrite E in HL; simpl in HL; lia]).
      apply (NG (j - a)%nat); [lia|]. unfold updated in Ho. replace j with (length (take a original) + (j - a))%nat in Ho by lia.
      rewrite occurs_shift in Ho. apply occurs_prefix in Ho; [done|lia].
Qed.

Section Synchronized.
Context (unparse : expr -> pystr) (source_segment : pystr -> expr -> option pystr)
  (parse : pystr -> outcome (list stmt)) (read_module : pystr -> outcome pystr).

Lemma ret_inj {A} (x y : A) : Ret x = Ret y -> x = y.
Proof. by intros [=]. Qed.

(** A generated section starts with its marker. *)
Lemma generated_begins api_text exported G :
  render_generated_section unparse source_segment parse read_module api_text exported = Ret G ->
  exists g, G = BEGIN_MARKER ++ g.
Proof.
  unfold render_generated_section. intros H. apply bind_ret in H as (objects & _ & H).
  apply bind_ret in H as (sections & _ & H). apply ret_inj in H. eexists. symmetry. etransitivity; [|exact H].
  symmetry. apply (join_cons NEWLINE BEGIN_MARKER []).
Qed.

(** Writing the generated section and checking it agree: when the markers of the
    document are in order and the rendered text has the closing marker only at its
    end, a run that writes keeps everything before the opening and after the closing
    marker, a check of the written document succeeds, and writing again changes
    nothing. *)
Theorem sync_then_check (package_text api_text : outcome pystr) (path_name document updated generated : pystr)
    (exported : list pystr) (a b : nat)
    (Hexported : (text ← package_text; body ← parse text; public_names body) = Ret exported)
    (Hgen : render_generated_section unparse source_segment parse read_module api_text exported = Ret generated)
    (Hlast : find END_MARKER generated = Some (length generated - length END_MARKER)%nat)
    (Ha : find BEGIN_MARKER document = Some a) (Hb : find END_MARKER document = Some b)
    (Hab : (a + length BEGIN_MARKER <= b)%nat)
    (Hwrite : main unparse source_segment parse read_module [] package_text api_text path_name document = Ret (Some updated)) :
  updated = take a document ++ generated ++ drop (b + length END_MARKER) document /\
  main unparse source_segment parse read_module [lit "--check"] package_text api_text path_name updated = Ret None /\
  main unparse source_segment parse read_module [] package_text api_text path_name updated = Ret (Some updated).
Proof.
  apply bind_ret in Hexported as (text & Ht & He). apply bind_ret in He as (body & Hbody & Hpn).
  assert (Hmain : forall args check doc, parse_check_flag args = Ret check ->
    main unparse source_segment parse read_module args package_text api_text path_name doc =
    update_marked_section path_name doc generated check).
  { intros args check doc Hargs. unfold main. rewrite Hargs, Ht. cbn [mbind outcome_bind]. rewrite Hbody. cbn [mbind outcome_bind].
    rewrite Hpn. cbn [mbind outcome_bind]. by rewrite Hgen. }
  rewrite (Hmain [] false) in Hwrite by done. unfold update_marked_section in Hwrite. rewrite Ha, Hb in Hwrite.
  assert (Hu : take a document ++ generated ++ drop (b + length END_MARKER) document = updated) by congruence. clear Hwrite.
  destruct (generated_begins _ _ _ Hgen) as [g ->].
  destruct (markers_after_update document g a b Ha Hb Hab Hlast) as [Ha' Hb']. rewrite Hu in Ha', Hb'.
  assert (Hsame : take a updated ++ (BEGIN_MARKER ++ g) ++
    drop (a + length (BEGIN_MARKER ++ g) - length END_MARKER + length END_MARKER) updated = updated).
  { rewrite <- Hu. apply find_some in Ha as [Oa _], Hlast as [Ol _]. pose proof marker_lengths as HL.
    assert (HE : END_MARKER <> []) by (intros E; rewrite E in HL; simpl in HL; lia).
    assert (HB : BEGIN_MARKER <> []) by (intros E; rewrite E in HL; simpl in HL; lia).
    apply occurs_length in Oa, Ol; [|done|done]. assert (La : length (take a document) = a) by (rewrite length_take; lia).
    rewrite take_app_le, take_take, Nat.min_id by lia.
    replace (a + length (BEGIN_MARKER ++ g) - length END_MARKER + length END_MARKER)%nat with
      (length (take a document) + length (BEGIN_MARKER ++ g))%nat by lia.
    by rewrite drop_app_add, drop_app_length. }
  split; [done|]. rewrite (Hmain [lit "--check"] true), (Hmain [] false) by done. unfold update_marked_section.
  rewrite Ha', Hb', Hsame. split; [by rewrite bool_decide_eq_true_2|done].
Qed.
End Synchronized.

(** Markers in the wrong order are accepted, and every run repeats the text between
    them. *)
Example misordered_markers_grow :
  update_marked_section (lit "doc") (END_MARKER ++ lit "a" ++ BEGIN_MARKER) (BEGIN_MARKER ++ END_MARKER) false =
  Ret (Some (END_MARKER ++ lit "a" ++ (BEGIN_MARKER ++ END_MARKER) ++ lit "a" ++ BEGIN_MARKER)).
Proof. vm_compute. reflexivity. Qed.

(** A package that exports one documented class. *)
Definition demo_class : list stmt :=
  [SClass 1 (lit "Reader")
     [SExpr 2 (EStr (lit "Reads."));
      SFunction 3 (lit "__init__") (mk_arguments [] [(lit "self", None); (lit "n", Some (EName (lit "int")))] [] [] [EOther 0])
        None [] [SExpr 4 (EStr (lit "Open."))]]].
Definition docs_parse (text : pystr) : outcome (list stmt) :=
  if bool_decide (text = lit "pkg") then Ret [SAssign 1 [EName (lit "__all__")] (EList [EStr (lit "Reader")])]
  else if bool_decide (text = lit "api") then Ret [SImportFrom 1 (Some (lit "dataset_rt.reader")) [(lit "Reader", None)]]
  else Ret demo_class.
Definition docs_unparse (e : expr) : pystr := match e with EName id => id | _ => lit "3" end.

Definition demo_document : pystr := lit "# API " ++ BEGIN_MARKER ++ lit " old " ++ END_MARKER ++ lit " tail".

Lemma sync_then_check_witness :
  exists generated updated,
    main docs_unparse (fun _ _ => None) docs_parse Ret [] (Ret (lit "pkg")) (Ret (lit "api")) (lit "doc") demo_document =
      Ret (Some updated) /\
    updated = lit "# API " ++ generated ++ lit " tail" /\
    main docs_unparse (fun _ _ => None) docs_parse Ret [lit "--check"] (Ret (lit "pkg")) (Ret (lit "api")) (lit "doc") updated =
      Ret None.
Proof.
  destruct (render_generated_section docs_unparse (fun _ _ => None) docs_parse Ret (Ret (lit "api")) [lit "Reader"])
    as [generated|] eqn:Eg; [|vm_compute in Eg; discriminate Eg].
  destruct (main docs_unparse (fun _ _ => None) docs_parse Ret [] (Ret (lit "pkg")) (Ret (lit "api")) (lit "doc") demo_document)
    as [[updated|]|] eqn:Em; [|vm_compute in Em; discriminate Em|vm_compute in Em; discriminate Em].
  destruct (sync_then_check docs_unparse (fun _ _ => None) docs_parse Ret (Ret (lit "pkg")) (Ret (lit "api")) (lit "doc")
    demo_document updated generated [lit "Reader"] 6 54) as (Hu & Hc & _).
  - vm_compute. reflexivity.
  - exact Eg.
  - vm_compute in Eg. injection Eg as <-. vm_compute. reflexivity.
  - vm_compute. reflexivity.
  - vm_compute. reflexivity.
  - vm_compute. lia.
  - exact Em.
  - exists generated, updated. split; [reflexivity|]. split; [|exact Hc]. exact Hu.
Defined.

(** * Signatures *)

Lemma zip_strict_ok {A B} (a : list A) : forall (b : list B), length a = length b -> zip_strict a b = Ret (zip a b).
Proof. induction a as [|x a IH]; intros [|y b] H; simpl in *; try done. by rewrite IH by lia. Qed.

Lemma zip_strict_error {A B} (a : list A) : forall (b : list B), length a <> length b ->
  exists m, zip_strict a b = Raise (ValueError m).
Proof.
  induction a as [|x a IH]; intros [|y b] H; simpl in *; try done; [by eexists|by eexists|].
  destruct (IH b ltac:(lia)) as [m ->]. by eexists.
Qed.

(** The default of parameter [i] of [n]: the last ones have it. *)
Definition default_at (n : nat) (ds : list expr) (i : nat) : option expr :=
  if (n - length ds <=? i)%nat then ds !! (i - (n - length ds))%nat else None.

(** A rendered signature lists every parameter but a leading [self], in order,
    and gives the defaults to the last ones: a signature whose defaults belong to
    listed parameters always renders, and one with more defaults than listed
    parameters is an error. *)
Theorem render_args_defaults (unparse : expr -> pystr) (a : arguments)
    (Hkw : kwonlyargs a = [] \/ length (kw_defaults a) = length (kwonlyargs a)) :
  let args := drop_self (posonlyargs a ++ plain_args a) in
  if decide (length (defaults a) <= length args)%nat then
    render_args unparse a = Ret (join (lit ", ")
      (imap (fun i arg => render_arg unparse arg (default_at (length args) (defaults a) i)) args ++
       match kwonlyargs a with
       | [] => []
       | kw => lit "*" :: map (fun '(arg, d) => render_arg unparse arg d) (zip kw (kw_defaults a))
       end))
  else exists m, render_args unparse a = Raise (ValueError m).
Proof.
  set (args := drop_self (posonlyargs a ++ plain_args a)). cbn zeta. unfold render_args. fold args.
  destruct (decide (length (defaults a) <= length args)%nat) as [Hle|Hgt].
  - rewrite zip_strict_ok by (rewrite length_app, length_replicate, length_map; lia). cbn [mbind outcome_bind].
    assert (Hk : match kwonlyargs a with
                 | [] => Ret []
                 | kw => kwpairs ← zip_strict kw (kw_defaults a);
                         Ret (lit "*" :: map (fun '(arg, default) => render_arg unparse arg default) kwpairs)
                 end = Ret (match kwonlyargs a with
                            | [] => []
                            | kw => lit "*" :: map (fun '(arg, d) => render_arg unparse arg d) (zip kw (kw_defaults a))
                            end)).
    { destruct (kwonlyargs a) as [|x kw] eqn:E; [done|]. rewrite zip_strict_ok; [done|]. destruct Hkw; congruence. }
    rewrite Hk. cbn [mbind outcome_bind]. do 3 f_equal. apply list_eq. intros i. rewrite list_lookup_imap.
    change (map ?g ?l) with (g <$> l) at 1. rewrite list_lookup_fmap.
    destruct (args !! i) as [x|] eqn:Ei; simpl.
    + assert (Hi : (i < length args)%nat) by (by eapply lookup_lt_Some).
      match goal with |- context [zip args ?k !! i] =>
        assert (zip args k !! i = Some (x, default_at (length args) (defaults a) i)) as ->; [|done] end.
      apply lookup_zip_with_Some. do 2 eexists. split; [done|]. split; [done|]. unfold default_at. destruct (Nat.leb_spec (length args - length (defaults a)) i).
      * rewrite lookup_app_r by (rewrite length_replicate; lia). rewrite length_replicate.
        change (map ?g ?l) with (g <$> l). rewrite list_lookup_fmap.
        destruct (lookup_lt_is_Some_2 (defaults a) (i - (length args - length (defaults a)))) as [d ->]; [lia|done].
      * rewrite lookup_app_l by (rewrite length_replicate; lia). apply lookup_replicate. split; [done|lia].
    + apply lookup_ge_None in Ei. 
      match goal with |- context [zip args ?k !! i] => assert (zip args k !! i = None) as ->; [|done] end.
      apply lookup_ge_None. rewrite length_zip_with. lia.
  - destruct (zip_strict_error args (replicate (length args - length (defaults a)) None ++ map Some (defaults a))) as [m ->].
    + rewrite length_app, length_replicate, length_map. lia.
    + by exists m.
Qed.

Lemma render_args_defaults_witness :
  render_args docs_unparse (mk_arguments [(lit "self", None)] [(lit "a", None); (lit "b", Some (EName (lit "int")))]
    [(lit "c", None)] [None] [EOther 0]) = Ret (lit "a, b: int = 3, *, c").
Proof.
  pose proof (render_args_defaults docs_unparse (mk_arguments [(lit "self", None)] [(lit "a", None);
    (lit "b", Some (EName (lit "int")))] [(lit "c", None)] [None] [EOther 0]) (or_intror eq_refl)) as H.
  rewrite decide_True in H by (vm_compute; lia). etransitivity; [exact H|]. vm_compute. reflexivity.
Defined.
