(* ===== verification/BenchReader.v ===== *)
(** The paired reader benchmark of [src/scripts/bench_reader.py]: validated
    settings and cases, fixture payloads that carry their own identity, the
    transform that checks it, batching, one measured pass, one trial, the isolated
    trial process, the rotating schedule and the performance gates. Hashing, clock
    readings, process counters and Torch's loader are parameters. *)
From stdpp Require Import base tactics list numbers strings gmap sorting.
From S2P Require Import Prelude Collections Binary64 Records Config Seeds Resources Options Native Metadata Interface Dataset Refinement Runtime.
Open Scope Z_scope.

(** * Cases and settings *)

Inductive Context := Serial | Fork | Spawn | Forkserver.
Inductive Workload := Heavy | Cheap.
Inductive Mode := NativeMode | LoaderMode.

#[export] Instance Context_eq_dec : EqDecision Context.
Proof. solve_decision. Defined.
#[export] Instance Workload_eq_dec : EqDecision Workload.
Proof. solve_decision. Defined.
#[export] Instance Mode_eq_dec : EqDecision Mode.
Proof. solve_decision. Defined.

(** The strings these literals are. *)
Definition context_name (c : Context) : pystr :=
  match c with
  | Serial => lit "serial" | Fork => lit "fork" | Spawn => lit "spawn" | Forkserver => lit "forkserver"
  end.
Definition workload_name (w : Workload) : pystr :=
  match w with Heavy => lit "heavy" | Cheap => lit "cheap" end.

Record ReaderCase := mk_case { case_mode : Mode; case_workers : Z; case_context : Context }.

#[export] Instance ReaderCase_eq_dec : EqDecision ReaderCase.
Proof. solve_decision. Defined.

Definition case_validate_context (c : ReaderCase) : outcome unit :=
  _ ← require (negb (bool_decide (case_mode c = NativeMode) && negb (case_workers c =? 0)))
        (ValueError (lit "native control cannot have loading workers"));
  require (Bool.eqb (case_workers c =? 0) (bool_decide (case_context c = Serial)))
    (ValueError (lit "serial context requires zero workers, other contexts require workers")).

(** [ReaderCase(...)]: the field bound, then the validator. *)
Definition make_case (c : ReaderCase) : outcome ReaderCase :=
  if case_workers c <? 0 then Raise (ValidationError (lit "ReaderCase"))
  else match case_validate_context c with
       | Ret _ => Ret c
       | Raise _ => Raise (ValidationError (lit "ReaderCase"))
       end.

Record Benchmark := mk_benchmark {
  samples_per_cache : Z;
  caches : Z;
  payload_bytes : Z;
  metadata_bytes : Z;
  transform_rounds : Z;
  bench_seed : Z;
  batch_size : Z;
  native_workers : Z;
  prefetch_size : Z;
  prefetch_factor : Z;
  contexts : list Context;
  worker_counts : list Z;
  workloads : list Workload;
  shuffles : list bool;
  repeats : Z;
  trial_timeout : pyfloat;
  persistent_workers : bool;
  quiet : bool }.

(** The declared bounds; a worker context is not [serial]. *)
Definition fields_valid (c : Benchmark) : bool :=
  (0 <? samples_per_cache c) && (0 <? caches c) && (16 <=? payload_bytes c) && (0 <=? metadata_bytes c) &&
  (0 <=? transform_rounds c) && (0 <=? bench_seed c) && (bench_seed c <=? Z.shiftl 1 64 - 1) &&
  (0 <? batch_size c) && (0 <? native_workers c) && (0 <? prefetch_size c) && (0 <? prefetch_factor c) &&
  forallb (fun x => negb (bool_decide (x = Serial))) (contexts c) &&
  (0 <? repeats c) && float_gt0 (trial_timeout c).

Definition fixture_total (c : Benchmark) : Z := samples_per_cache c * caches c.

Definition nonempty {A} (l : list A) : bool := match l with [] => false | _ => true end.

(** [methods] is [get_all_start_methods()]. *)
Definition validate_work (methods : list pystr) (c : Benchmark) : outcome unit :=
  let total := fixture_total c in
  _ ← require (negb ((total <=? batch_size c) || negb (total mod batch_size c =? 0)))
        (ValueError (lit "total fixture samples must exceed and be divisible by batch_size"));
  _ ← require (nonempty (worker_counts c) && negb (existsb (fun n => n <? 1) (worker_counts c)))
        (ValueError (lit "worker_counts must contain positive process counts"));
  _ ← require (bool_decide (NoDup (worker_counts c))) (ValueError (lit "worker_counts must be unique"));
  _ ← require (nonempty (contexts c) && nonempty (workloads c) && nonempty (shuffles c))
        (ValueError (lit "contexts, workloads, and shuffles must be nonempty"));
  _ ← require (bool_decide (NoDup (contexts c))) (ValueError (lit "contexts must be unique"));
  _ ← require (bool_decide (NoDup (workloads c)) && bool_decide (NoDup (shuffles c)))
        (ValueError (lit "workloads and shuffles must be unique"));
  _ ← traverse (fun x => require (bool_decide (context_name x ∈ methods))
                           (ValueError (lit "unavailable worker context: " ++ context_name x))) (contexts c);
  Ret tt.

Definition make_benchmark (methods : list pystr) (c : Benchmark) : outcome Benchmark :=
  if fields_valid c then
    match validate_work methods c with
    | Ret _ => Ret c
    | Raise _ => Raise (ValidationError (lit "Benchmark"))
    end
  else Raise (ValidationError (lit "Benchmark")).

Definition reader_cases (contexts : list Context) (worker_counts : list Z) : outcome (list ReaderCase) :=
  traverse make_case
    (mk_case NativeMode 0 Serial :: mk_case LoaderMode 0 Serial ::
     concat (map (fun context => map (fun workers => mk_case LoaderMode workers context) worker_counts)
               contexts)).

(** * Fixtures *)

Record Source := mk_source {
  source_name : pystr;
  cache_position : Z;
  source_samples : Z;
  source_payload_bytes : Z;
  source_metadata_bytes : Z }.

Record CacheInput := mk_input { input_data : list Z; input_metadata : gmap pystr MetadataValue }.

(** [s.ljust(width, "x")]. *)
Definition ljust_x (width : Z) (s : pystr) : pystr :=
  s ++ replicate (Z.to_nat (width - Z.of_nat (length s))) 120.

(** The record of one index: the position and the index, repeated and cut. *)
Definition source_input (s : Source) (index : Z) : outcome CacheInput :=
  position ← to_bytes 8 (cache_position s);
  number ← to_bytes 8 index;
  let header := position ++ number in
  let payload := take (Z.to_nat (source_payload_bytes s))
                   (repeat_bytes ((source_payload_bytes s + 15) / 16) header) in
  Ret (mk_input payload
    (if source_metadata_bytes s =? 0 then {[ lit "index" := MInt index ]}
     else {[ lit "index" := MInt index;
             lit "wide" := MString (ljust_x (source_metadata_bytes s) (dec index)) ]})).

(** The records an exhausted iteration has yielded. *)
Definition source_iter (s : Source) : outcome (list CacheInput) :=
  traverse (source_input s) (seqZ 0 (source_samples s)).

Definition fixture_sources (c : Benchmark) : list Source :=
  map (fun index => mk_source (lit "cache-" ++ dec index) index (samples_per_cache c) (payload_bytes c)
                      (metadata_bytes c)) (seqZ 0 (caches c)).

(** The published paths, in the order of the outcomes; a failed source raises.
    [render] is [str] of the failure. *)
Fixpoint fixture_paths (render : pystr -> pystr -> pystr) (outcomes : list CacheWriteResult)
  : outcome (list path) :=
  match outcomes with
  | [] => Ret []
  | CacheWriteSuccess _ p :: rest => ps ← fixture_paths render rest; Ret (p :: ps)
  | CacheWriteError name message :: _ => Raise (RuntimeError (render name message))
  end.

(** [write] is [runtime.write_cache] under [root] without progress. *)
Definition create_fixture (render : pystr -> pystr -> pystr)
    (write : DatasetRuntime -> list Source -> outcome (list CacheWriteResult)) (c : Benchmark)
  : outcome (list path) :=
  runtime ← new_runtime (native_workers c);
  outcomes ← write runtime (fixture_sources c);
  fixture_paths render outcomes.

(** * Transformed output *)

Record Output := mk_output { bytes_read : Z; output_pid : Z; digest : list Z }.

Definition AssertionError (msg : pystr) : py_exc := OtherException (lit "AssertionError") msg.

Section Transform.
Context (sha256 : list Z -> list Z).

(** [Transform.__call__] in process [pid]. *)
Definition transform_call (pid rounds : Z) (cache_ids : list Z) (s : CachedSample) : outcome Output :=
  let position := from_bytes (take 8 (sample_data s)) in
  id ← index_at cache_ids position;
  _ ← require (id =? sample_cache_id s) (AssertionError []);
  _ ← require (from_bytes (take 8 (drop 8 (sample_data s))) =? sample_sample_id s) (AssertionError []);
  let first := sha256 (sample_data s) in
  Ret (mk_output (Z.of_nat (length (sample_data s))) pid (Nat.iter (Z.to_nat rounds) sha256 first)).
End Transform.

(** * Batches *)

(** A value handed over by Torch: a tuple of items, which may not be outputs, or
    something else. *)
Inductive boundary := BatchTuple (items : list (option Output)) | NotATuple.

Definition collate (outputs : list Output) : boundary := BatchTuple (map Some outputs).

Section Batches.
Context {N : NativeReader} (f : CachedSample -> outcome Output).

(** The loop of [native_batches] until the batch is complete or the dataset ends;
    an exception ends the generator. *)
Fixpoint fill_batch (missing : nat) (batch : list Output) (s : generator * CachedDataset)
  : outcome (option boundary) * (generator * CachedDataset) :=
  match missing with
  | O => (Ret (Some (collate batch)), s)
  | S missing =>
      match gen_next s.1 s.2 with
      | (Raise e, _, d) => (Raise e, (GenDone, d))
      | (Ret None, g, d) => (Ret (match batch with [] => None | _ => Some (collate batch) end), (g, d))
      | (Ret (Some sample), g, d) =>
          match f sample with
          | Raise e => (Raise e, (GenDone, d))
          | Ret o => fill_batch missing (batch ++ [o]) (g, d)
          end
      end
  end.

(** [next(native_batches(dataset, transform, size))] for a positive size. *)
Definition native_batches (size : Z) (s : generator * CachedDataset)
  : outcome (option boundary) * (generator * CachedDataset) :=
  fill_batch (Z.to_nat size) [] s.
End Batches.

Definition checked_item (item : option Output) : outcome Output :=
  match item with
  | Some o => if Z.of_nat (length (digest o)) =? 32 then Ret o
              else Raise (TypeError (lit "invalid transformed output"))
  | None => Raise (TypeError (lit "invalid transformed output"))
  end.

Definition checked_batch (value : boundary) : outcome (list Output) :=
  match value with
  | NotATuple | BatchTuple [] => Raise (TypeError (lit "expected a nonempty transformed batch"))
  | BatchTuple items => traverse checked_item items
  end.

(** * One measured pass *)

Record Resources := mk_resources { rss_bytes : Z; threads : Z; file_descriptors : Z; processes : Z }.

Definition peak_resources (a b : Resources) : Resources :=
  mk_resources (Z.max (rss_bytes a) (rss_bytes b)) (Z.max (threads a) (threads b))
    (Z.max (file_descriptors a) (file_descriptors b)) (Z.max (processes a) (processes b)).

Record PassMeasurement := mk_pass {
  iterator_seconds : pyfloat;
  first_batch_seconds : pyfloat;
  steady_seconds : pyfloat;
  steady_samples : Z;
  accepted : Z;
  pass_bytes_read : Z;
  transform_pids : list Z;
  pass_resources : Resources }.

Definition seconds_valid (f : pyfloat) : bool := float_isfinite f && negb (float_lt0 f).

Definition make_pass (p : PassMeasurement) : outcome PassMeasurement :=
  if seconds_valid (iterator_seconds p) && seconds_valid (first_batch_seconds p) &&
     float_isfinite (steady_seconds p) && float_gt0 (steady_seconds p) &&
     (0 <? steady_samples p) && (0 <? accepted p) && (0 <? pass_bytes_read p)
  then Ret p else Raise (ValidationError (lit "PassMeasurement")).

Definition samples_per_second (p : PassMeasurement) : outcome pyfloat :=
  n ← float_of_int (steady_samples p); f64_div n (steady_seconds p).

(** The readings of the clock during a pass. *)
Record readings := mk_readings {
  at_started : pyfloat;
  at_created : pyfloat;
  at_delivered : pyfloat;
  at_steady : pyfloat;
  at_finished : pyfloat }.

(** The observer thread: its maxima, whether it failed or did not stop, and the final
    snapshot taken by the measuring thread. *)
Record observer := mk_observer {
  observer_peak : Resources;
  observer_final : outcome Resources;
  observer_alive : bool;
  observer_failures : list py_exc }.

(** The [finally] block: its own exceptions replace those of the pass. *)
Definition stop_observer {A} (o : observer) (r : outcome A) : outcome A :=
  _ ← require (negb (observer_alive o)) (AssertionError (lit "resource observer did not stop"));
  _ ← require (negb (nonempty (observer_failures o))) (RuntimeError (lit "resource observer failed"));
  r.

Record tally := mk_tally { tally_accepted : Z; tally_bytes : Z; tally_pids : gset Z }.

Definition count_batch (batch : list Output) (t : tally) : tally :=
  mk_tally (tally_accepted t + Z.of_nat (length batch)) (tally_bytes t + Zsum (map bytes_read batch))
    (tally_pids t ∪ list_to_set (map output_pid batch)).

Section Pass.
Context {S : Type} (next : S -> outcome (option boundary) * S).

Definition StopIteration : py_exc := OtherException (lit "StopIteration") [].

(** [checked_batch(next(iterator))]. *)
Definition draw (s : S) : outcome (list Output) * S :=
  let '(r, s) := next s in
  (v ← r; match v with Some b => checked_batch b | None => Raise StopIteration end, s).

(** [while accepted < total]; [None] when the fuel is used up. *)
Fixpoint consume (fuel : nat) (total : Z) (t : tally) (s : S) : option (outcome tally * S) :=
  if total <=? tally_accepted t then Some (Ret t, s)
  else match fuel with
  | O => None
  | Datatypes.S fuel =>
      match draw s with
      | (Raise e, s) => Some (Raise e, s)
      | (Ret batch, s) => consume fuel total (count_batch batch t) s
      end
  end.

(** [next(iterator, ()) == ()]. *)
Definition exhausted (s : S) : outcome unit * S :=
  let '(r, s) := next s in
  (v ← r; match v with
          | None | Some (BatchTuple []) => Ret tt
          | Some _ => Raise (AssertionError (lit "sequential loader emitted extra samples"))
          end, s).

Definition empty_tally : tally := mk_tally 0 0 ∅.

(** [measure_pass] on an iterator that [iter(batches)] has made or refused. *)
Definition measure_pass (c : Benchmark) (shuffle : bool) (clock : readings) (o : observer) (iterator : outcome S)
    (s0 : S) : option (outcome PassMeasurement * S) :=
  let total := fixture_total c in
  match iterator with
  | Raise e => Some (stop_observer o (Raise e), s0)
  | Ret s =>
  match draw s with
  | (Raise e, s) => Some (stop_observer o (Raise e), s)
  | (Ret first, s) =>
  match consume (Z.to_nat total) total (count_batch first empty_tally) s with
  | None => None
  | Some (Raise e, s) => Some (stop_observer o (Raise e), s)
  | Some (Ret t, s) =>
      let audit :=
        _ ← require ((tally_accepted t =? total) && (tally_bytes t =? total * payload_bytes c)) (AssertionError []);
        observer_final o in
      let '(tail, s) :=
        match audit with
        | Raise e => (Raise e, s)
        | Ret _ => if shuffle then (Ret tt, s) else exhausted s
        end in
      (Some (r ← stop_observer o (final ← audit; _ ← tail; Ret final);
             make_pass (mk_pass (f64_sub (at_created clock) (at_started clock))
               (f64_sub (at_delivered clock) (at_started clock))
               (f64_sub (at_finished clock) (at_steady clock))
               (tally_accepted t - Z.of_nat (length first)) (tally_accepted t) (tally_bytes t)
               (sort_by Z.leb (elements (tally_pids t))) (peak_resources (observer_peak o) r)), s))
  end end end.
End Pass.

(** * One trial *)

Record TrialSpec := mk_spec {
  spec_config : Benchmark;
  spec_paths : list path;
  spec_case : ReaderCase;
  spec_shuffle : bool;
  spec_workload : Workload;
  spec_pair : Z }.

Record TrialResult := mk_trial {
  trial_case : ReaderCase;
  trial_shuffle : bool;
  trial_workload : Workload;
  trial_pair : Z;
  construction_seconds : pyfloat;
  cold : PassMeasurement;
  warm : PassMeasurement;
  cleanup_seconds : pyfloat }.

Definition make_trial (t : TrialResult) : outcome TrialResult :=
  if float_isfinite (construction_seconds t) && float_isfinite (cleanup_seconds t) then Ret t
  else Raise (ValidationError (lit "TrialResult")).

(** The arguments of [to_torch_dataloader] in a loader trial. *)
Definition trial_options (spec : TrialSpec) : LoaderOptions :=
  let c := spec_config spec in
  let workers := case_workers (spec_case spec) in
  mk_options (PBool (spec_shuffle spec))
    (if spec_shuffle spec then PInt (bench_seed c) else PStr (lit "random"))
    (PInt (fixture_total c))
    (PStr (if spec_shuffle spec then lit "replicate" else lit "split"))
    (PInt (batch_size c)) (PInt workers) (PInt (native_workers c)) (PBool false) (PBool false)
    (PBool (persistent_workers c && (0 <? workers))) (PInt 0)
    (ContextName (if bool_decide (case_context (spec_case spec) = Serial) then lit "spawn"
                  else context_name (case_context (spec_case spec))))
    (if workers =? 0 then PStr (lit "auto") else PInt (prefetch_factor c))
    (PBool (negb (quiet c))).

(** What surrounds a trial: the process, the manifests, the clock, the observers of
    the two passes, and whether a child survived the cleanup. *)
Record trial_env := mk_trial_env {
  env_process : Z;
  env_manifest_id : path -> outcome Z;
  env_construction : pyfloat;
  env_cold_clock : readings;
  env_warm_clock : readings;
  env_cold_observer : observer;
  env_warm_observer : observer;
  env_cleanup : pyfloat;
  env_child_alive : bool }.

Section Trial.
Context {N : NativeReader} (sha256 : list Z -> list Z).
Context {L : Type} (build_loader : CachedDataset -> LoaderOptions -> outcome L)
  (loader_iter : L -> outcome L) (loader_next : L -> outcome (option boundary) * L).

Definition trial_load (spec : TrialSpec) : outcome CachedDataset :=
  let c := spec_config spec in
  runtime ← new_runtime (native_workers c);
  seed ← derive_seed (PInt (bench_seed c)) (PInt 0) (PInt 0);
  reader ← make_reader_config (mk_reader_config seed (prefetch_size c) (spec_shuffle spec) false);
  cached_dataset runtime (spec_paths spec) reader.

(** The dataset of a trial, warmed by one sample, with the length of a whole pass. *)
Definition trial_dataset (spec : TrialSpec) : outcome CachedDataset :=
  let c := spec_config spec in
  d ← trial_load spec;
  match gen_next GenNew d with
  | (Raise e, _, _) => Raise e
  | (Ret None, _, _) => Raise StopIteration
  | (Ret (Some s), _, d) =>
      _ ← require (nonempty (sample_data s)) (AssertionError []);
      match set_epoch_len (fixture_total c) d with
      | (Raise e, _) => Raise e
      | (Ret _, d) => Ret d
      end
  end.

Definition spec_rounds (spec : TrialSpec) : Z :=
  match spec_workload spec with Heavy => transform_rounds (spec_config spec) | Cheap => 0 end.

(** Both passes over one iterable: [restart] is [iter] on what the first pass left. *)
Definition two_passes {S} (next : S -> outcome (option boundary) * S) (restart : S -> outcome S)
    (env : trial_env) (spec : TrialSpec) (s : S) : option (outcome (PassMeasurement * PassMeasurement)) :=
  match measure_pass next (spec_config spec) (spec_shuffle spec) (env_cold_clock env) (env_cold_observer env)
          (restart s) s with
  | None => None
  | Some (Raise e, _) => Some (Raise e)
  | Some (Ret cold, s) =>
      match measure_pass next (spec_config spec) (spec_shuffle spec) (env_warm_clock env) (env_warm_observer env)
              (restart s) s with
      | None => None
      | Some (r, _) => Some (warm ← r; Ret (cold, warm))
      end
  end.

(** The processes a pass may have used. *)
Definition check_pids (env : trial_env) (spec : TrialSpec) (cold warm : list Z) : outcome unit :=
  let c := spec_config spec in
  if case_workers (spec_case spec) =? 0 then
    require (bool_decide (cold = warm) && bool_decide (warm = [env_process env])) (AssertionError [])
  else
    let active := Z.min (case_workers (spec_case spec)) (fixture_total c / batch_size c) in
    _ ← require ((Z.of_nat (length cold) =? Z.of_nat (length warm)) && (Z.of_nat (length warm) =? active))
          (AssertionError []);
    _ ← require (bool_decide (env_process env ∉ cold ++ warm)) (AssertionError []);
    require (negb (persistent_workers c) || bool_decide (cold = warm)) (AssertionError []).

Definition finish_trial (env : trial_env) (spec : TrialSpec) (r : outcome (PassMeasurement * PassMeasurement))
  : outcome TrialResult :=
  '(cold, warm) ← r;
  _ ← check_pids env spec (transform_pids cold) (transform_pids warm);
  _ ← require (negb (env_child_alive env)) (AssertionError (lit "loading worker survived trial cleanup"));
  make_trial (mk_trial (spec_case spec) (spec_shuffle spec) (spec_workload spec) (spec_pair spec)
                (env_construction env) cold warm (env_cleanup env)).

(** [measure_trial]: each [native_batches] call is a new generator on the dataset. *)
Definition measure_trial (env : trial_env) (spec : TrialSpec) : option (outcome TrialResult) :=
  match d ← trial_dataset spec; ids ← traverse (env_manifest_id env) (spec_paths spec); Ret (d, ids) with
  | Raise e => Some (Raise e)
  | Ret (d, ids) =>
      match case_mode (spec_case spec) with
      | NativeMode =>
          let f := transform_call sha256 (env_process env) (spec_rounds spec) ids in
          finish_trial env spec <$>
            two_passes (native_batches f (batch_size (spec_config spec)))
              (fun s => Ret (GenNew, s.2)) env spec (GenNew, d)
      | LoaderMode =>
          match build_loader d (trial_options spec) with
          | Raise e => Some (Raise e)
          | Ret l => finish_trial env spec <$> two_passes loader_next loader_iter env spec l
          end
      end
  end.
End Trial.

(** * The isolated trial process *)

(** How the child ended: it exited with its two streams, or waiting for it raised. *)
Inductive child := Exited (status : Z) (stdout stderr : pystr) | Interrupted (e : py_exc).

(** [terminate_trial]: [killpg] on the session (a session that is gone is no error),
    then the bounded wait. *)
Definition terminate_trial (kill : outcome unit) (wait : outcome unit) : outcome unit :=
  _ ← match kill with
      | Raise (OtherException kind m) =>
          if decide (kind = lit "ProcessLookupError") then Ret tt else Raise (OtherException kind m)
      | r => r
      end;
  wait.

(** [run_trial] and whether it killed the session; [parse] validates the result. *)
Definition run_trial (kill wait : outcome unit) (parse : pystr -> outcome TrialResult) (c : child)
  : outcome TrialResult * bool :=
  match c with
  | Interrupted e => (_ ← terminate_trial kill wait; Raise e, true)
  | Exited status stdout stderr =>
      if negb (status =? 0)
      then (_ ← terminate_trial kill wait;
            Raise (RuntimeError (lit "benchmark trial failed (" ++ dec status ++ lit "): " ++ stderr)), true)
      else (parse stdout, false)
  end.

(** * Performance gates *)

Inductive Metric := FourWorkerSpeedup | SerialRegression.

Record Gate := mk_gate {
  gate_shuffle : bool;
  gate_workload : Workload;
  gate_metric : Metric;
  gate_context : Context;
  paired_ratios : list pyfloat;
  gate_median : pyfloat;
  gate_threshold : pyfloat;
  sufficient_repeats : bool;
  gate_passed : bool }.

Definition make_gate (g : Gate) : outcome Gate :=
  if forallb float_isfinite (paired_ratios g) && float_isfinite (gate_median g) then Ret g
  else Raise (ValidationError (lit "Gate")).

(** The binary64 values of [0.10] and [2.0]. *)
Definition TENTH : pyfloat := round_f64 1 10.
Definition TWO : pyfloat := Finite 2 1.

(** The order of [(workload, shuffle)] tuples and of context names. *)
Definition group_leb (a b : Workload * bool) : bool :=
  if decide (a.1 = b.1) then implb a.2 b.2 else str_leb (workload_name a.1) (workload_name b.1).
Definition context_leb (a b : Context) : bool := str_leb (context_name a) (context_name b).

(** [{trial.pair: trial for trial in trials if P}]. *)
Definition by_pair (P : TrialResult -> Prop) `{!forall t, Decision (P t)} (trials : list TrialResult)
  : list (Z * TrialResult) :=
  dict_of (map (fun t => (trial_pair t, t)) (filter P trials)).

Definition is_native (t : TrialResult) : Prop := case_mode (trial_case t) = NativeMode.
Definition is_serial (t : TrialResult) : Prop :=
  case_mode (trial_case t) = LoaderMode /\ case_workers (trial_case t) = 0.
Definition has_four (t : TrialResult) : Prop := case_workers (trial_case t) = 4.
Definition in_group (workload : Workload) (shuffle : bool) (t : TrialResult) : Prop :=
  trial_workload t = workload /\ trial_shuffle t = shuffle.

#[export] Instance is_native_dec t : Decision (is_native t).
Proof. unfold is_native. apply _. Defined.
#[export] Instance is_serial_dec t : Decision (is_serial t).
Proof. unfold is_serial. apply _. Defined.
#[export] Instance has_four_dec t : Decision (has_four t).
Proof. unfold has_four. apply _. Defined.
#[export] Instance in_group_dec w s t : Decision (in_group w s t).
Proof. unfold in_group. apply _. Defined.

(** The ratio of the warm rates of one pair. *)
Definition rate_ratio (above below : list (Z * TrialResult)) (pair : Z) : outcome pyfloat :=
  a ← dict_index pair above;
  ra ← samples_per_second (warm a);
  b ← dict_index pair below;
  rb ← samples_per_second (warm b);
  f64_div ra rb.

(** The two kinds of gate on their ratios. *)
Definition regression_gate (workload : Workload) (shuffle : bool) (ratios : list pyfloat) : outcome Gate :=
  m ← median ratios;
  let enough := 5 <=? Z.of_nat (length ratios) in
  make_gate (mk_gate shuffle workload SerialRegression Serial ratios m TENTH enough (enough && float_leb m TENTH)).

Definition speedup_gate (workload : Workload) (shuffle : bool) (context : Context) (ratios : list pyfloat)
  : outcome Gate :=
  m ← median ratios;
  let enough := 5 <=? Z.of_nat (length ratios) in
  make_gate (mk_gate shuffle workload FourWorkerSpeedup context ratios m TWO enough (enough && float_leb TWO m)).

Definition four_in (context : Context) (t : TrialResult) : Prop :=
  has_four t /\ case_context (trial_case t) = context.
#[export] Instance four_in_dec x t : Decision (four_in x t).
Proof. unfold four_in. apply _. Defined.

(** The gates of one group. *)
Definition group_gates (trials : list TrialResult) (group : Workload * bool) : outcome (list Gate) :=
  let '(workload, shuffle) := group in
  let selected := filter (in_group workload shuffle) trials in
  let native := by_pair is_native selected in
  let serial := by_pair is_serial selected in
  regressions ← traverse (fun pair => q ← rate_ratio native serial pair; Ret (f64_sub q (Finite 1 1)))
                  (sort_by Z.leb native.*1);
  regression ← regression_gate workload shuffle regressions;
  if negb (bool_decide (workload = Heavy)) then Ret [regression]
  else
    let contexts := sort_by context_leb
      (remove_dups (map (fun t => case_context (trial_case t)) (filter has_four selected))) in
    speedups ← traverse (fun context =>
      ratios ← traverse (rate_ratio (by_pair (four_in context) selected) serial) (sort_by Z.leb serial.*1);
      speedup_gate workload shuffle context ratios) contexts;
    Ret (regression :: speedups).

Definition performance_gates (trials : list TrialResult) : outcome (list Gate) :=
  gates ← traverse (group_gates trials)
    (sort_by group_leb (remove_dups (map (fun t => (trial_workload t, trial_shuffle t)) trials)));
  Ret (concat gates).

(** * The schedule *)

(** The files whose contents identify the reader. *)
Definition reader_files : list pystr :=
  map lit ["dataset_rt/dataset.py"; "dataset_rt/integrations/loader.py"; "dataset_rt/integrations/loading.py";
           "dataset_rt/config.py"; "dataset_rt/runtime.py"; "dataset_rt/reconstruction.py"]%string.

(** One digest over every name and its contents. *)
Definition reader_fingerprint (sha256 : list Z -> list Z) (read : pystr -> outcome (list Z)) : outcome (list Z) :=
  contents ← traverse (fun name => b ← read name; Ret (name ++ b)) reader_files;
  Ret (sha256 (concat contents)).

(** The trials in the order they run. *)
Definition schedule (c : Benchmark) (paths : list path) (cases : list ReaderCase) : list TrialSpec :=
  concat (map (fun workload => concat (map (fun shuffle => concat (map (fun pair =>
    map (fun case => mk_spec c paths case shuffle workload pair)
      (rotate (pair mod Z.of_nat (length cases)) cases))
    (seqZ 0 (repeats c)))) (shuffles c))) (workloads c)).
