(* ===== verification/BenchProofs.v ===== *)
(** Correctness of the reader benchmark: payloads prove their own identity, a pass
    that is accepted did exactly the work it reports, a native trial on a sound
    fixture passes every check, the loader arguments are valid, and the gates pair
    the trials the schedule produced. *)
From stdpp Require Import base tactics list numbers strings gmap sorting.
From S2P Require Import Prelude Collections Binary64 Records Config Seeds Resources Options Native Metadata Interface Dataset Refinement Passes Runtime BenchReader.
Open Scope Z_scope.

(** * Payload identity *)

(** The two words a payload starts with, and its size. *)
Lemma source_input_payload s index : 0 <= cache_position s < 2 ^ 64 -> 0 <= index < 2 ^ 64 ->
  16 <= source_payload_bytes s ->
  exists i, source_input s index = Ret i /\
    Z.of_nat (length (input_data i)) = source_payload_bytes s /\
    from_bytes (take 8 (input_data i)) = cache_position s /\
    from_bytes (take 8 (drop 8 (input_data i))) = index.
Proof.
  intros Hp Hi Hb. unfold source_input.
  destruct (to_bytes_ok 8 (cache_position s)) as (p & -> & Hlp & Hfp); [lia|done|].
  destruct (to_bytes_ok 8 index) as (q & -> & Hlq & Hfq); [lia|done|]. simpl.
  eexists. split; [done|]. simpl. set (n := (source_payload_bytes s + 15) / 16).
  assert (Hn : 1 <= n /\ source_payload_bytes s <= 16 * n) by (unfold n; dlia).
  assert (Hl : Z.of_nat (length (repeat_bytes n (p ++ q))) = 16 * n).
  { rewrite length_repeat_bytes by lia. rewrite length_app. lia. }
  split; [rewrite length_take; lia|].
  assert (Hr : exists rest, repeat_bytes n (p ++ q) = p ++ q ++ rest).
  { unfold repeat_bytes. destruct (Z.to_nat n) as [|m] eqn:E; [lia|]. simpl. eexists. by rewrite <- app_assoc. }
  destruct Hr as [rest ->]. rewrite skipn_firstn_comm, !take_take.
  replace (8 `min` Z.to_nat (source_payload_bytes s))%nat with (length p) by lia.
  replace (8 `min` (Z.to_nat (source_payload_bytes s) - 8))%nat with (length q) by lia.
  rewrite take_app_length. replace 8%nat with (length p) by lia. by rewrite drop_app_length, take_app_length.
Qed.

(** The transform accepts a sample exactly when its payload was written for the
    identity it is delivered with. *)
Lemma transform_call_identity sha256 pid rounds ids s :
  transform_call sha256 pid rounds ids s =
    Ret (mk_output (Z.of_nat (length (sample_data s))) pid
           (Nat.iter (Z.to_nat rounds) sha256 (sha256 (sample_data s)))) <->
  ids !! Z.to_nat (from_bytes (take 8 (sample_data s))) = Some (sample_cache_id s) /\
  0 <= from_bytes (take 8 (sample_data s)) /\
  from_bytes (take 8 (drop 8 (sample_data s))) = sample_sample_id s.
Proof.
  unfold transform_call, index_at, require.
  destruct (Z.ltb_spec (from_bytes (take 8 (sample_data s))) 0); simpl; [split; [done|lia]|].
  destruct (ids !! _) as [id|]; simpl; [|split; [done|by intros [? _]]].
  destruct (Z.eqb_spec id (sample_cache_id s)) as [->|Hne]; simpl; [|split; [done|intros [[=] _]; lia]].
  destruct (Z.eqb_spec (from_bytes (take 8 (drop 8 (sample_data s)))) (sample_sample_id s)); simpl;
    [|split; [done|lia]]. by split.
Qed.

(** A fixture payload has the requested size and identifies its record: delivered
    as any sample, the transform returns an output (with the payload's size, for any
    number of hash rounds) exactly when the cache at the writing position has the
    sample's cache id and the writing index is its sample id; any other delivery is
    refused by an exception. *)
Theorem payload_identity (sha256 : list Z -> list Z) (s : Source) (index : Z)
    (Hp : 0 <= cache_position s < 2 ^ 64) (Hi : 0 <= index < 2 ^ 64) (Hb : 16 <= source_payload_bytes s) :
  exists input, source_input s index = Ret input /\
    forall pid rounds ids metadata cache_id sample_id,
      let sample := mk_sample (input_data input) metadata cache_id sample_id in
      match transform_call sha256 pid rounds ids sample with
      | Ret o => ids !! Z.to_nat (cache_position s) = Some cache_id /\ sample_id = index /\
                 bytes_read o = source_payload_bytes s /\ output_pid o = pid
      | Raise _ => ids !! Z.to_nat (cache_position s) <> Some cache_id \/ sample_id <> index
      end.
Proof.
  destruct (source_input_payload s index Hp Hi Hb) as (i & Hs & Hl & H1 & H2).
  exists i. split; [done|]. intros pid rounds ids metadata cid sid sample.
  pose proof (transform_call_identity sha256 pid rounds ids sample) as Hid. simpl in Hid.
  rewrite H1, H2, Hl in Hid.
  destruct (transform_call sha256 pid rounds ids sample) as [o|e] eqn:E.
  - assert (o = mk_output (source_payload_bytes s) pid
                 (Nat.iter (Z.to_nat rounds) sha256 (sha256 (input_data i)))) as ->.
    { revert E. unfold transform_call. intros E. repeat (apply bind_ret in E as (? & _ & E)).
      injection E as <-. simpl. by rewrite Hl. }
    destruct Hid as [Hid _]. destruct (Hid eq_refl) as (? & _ & ?). by split_and!.
  - destruct (decide (ids !! Z.to_nat (cache_position s) = Some cid)); [|by left].
    destruct (decide (sid = index)); [|by right]. destruct Hid as [_ Hid].
    discriminate Hid. split_and!; (done || lia).
Qed.

Lemma payload_identity_witness :
  exists input, source_input (mk_source (lit "cache-3") 3 10 20 0) 5 = Ret input /\
    transform_call (fun b => b) 1 2 [9; 9; 9; 8] (mk_sample (input_data input) ∅ 8 5) =
      Ret (mk_output 20 1 (input_data input)) /\
    exists e, transform_call (fun b => b) 1 2 [9; 9; 9; 8] (mk_sample (input_data input) ∅ 8 6) = Raise e.
Proof.
  destruct (payload_identity (fun b => b) (mk_source (lit "cache-3") 3 10 20 0) 5) as (input & H & Ht);
    [split; [done|reflexivity]|split; [done|reflexivity]|done|].
  assert (Hw := Ht 1 2 [9; 9; 9; 8] ∅ 8 6). exists input. split; [exact H|].
  vm_compute in H. injection H as <-. split; [reflexivity|]. eexists. reflexivity.
Defined.

(** * One pass *)

Lemma traverse_checked items b : traverse checked_item items = Ret b ->
  items = map Some b /\ Forall (fun o => Z.of_nat (length (digest o)) = 32) b.
Proof.
  revert b. induction items as [|i items IH]; intros b H; simpl in H; [by injection H as <-|].
  apply bind_ret in H as (o & Ho & H). apply bind_ret in H as (os & Hos & [= <-]).
  apply IH in Hos as [-> HF]. unfold checked_item in Ho. destruct i as [o'|]; [|done].
  destruct (Z.eqb_spec (Z.of_nat (length (digest o'))) 32); [|done]. injection Ho as ->. simpl. by split; [|constructor].
Qed.

Lemma checked_batch_ok v b : checked_batch v = Ret b ->
  v = collate b /\ b <> [] /\ Forall (fun o => Z.of_nat (length (digest o)) = 32) b.
Proof.
  unfold checked_batch, collate. destruct v as [[|i items]|]; [done| |done]. intros H.
  apply traverse_checked in H as [E HF]. split_and!; [by rewrite E| |done]. by intros ->.
Qed.

Lemma checked_batch_collate b : b <> [] -> Forall (fun o => Z.of_nat (length (digest o)) = 32) b ->
  checked_batch (collate b) = Ret b.
Proof.
  intros Hne HF. unfold collate, checked_batch. destruct b as [|o b]; [done|]. clear Hne.
  change (traverse checked_item (map Some (o :: b)) = Ret (o :: b)).
  induction HF as [|x l Hx HF IH]; [done|]. simpl. rewrite Hx. simpl. by rewrite IH.
Qed.

Section Drawn.
Context {S : Type} (next : S -> outcome (option boundary) * S).

(** The batches an iterator delivers between two of its states. *)
Inductive draws : S -> list (list Output) -> S -> Prop :=
| draws_nil s : draws s [] s
| draws_cons s b s1 bs s2 : next s = (Ret (Some (collate b)), s1) -> draws s1 bs s2 -> draws s (b :: bs) s2.

Definition pass_tally (bs : list (list Output)) : tally := fold_left (fun t b => count_batch b t) bs empty_tally.

Lemma draw_ok s b s' : draw next s = (Ret b, s') -> next s = (Ret (Some (collate b)), s') /\ b <> [].
Proof.
  unfold draw. destruct (next s) as [[[v|]|e] s1]; simpl; try done. intros [= H <-].
  apply checked_batch_ok in H as (-> & Hne & _). done.
Qed.

Lemma draws_snoc s bs s1 b s2 : draws s bs s1 -> next s1 = (Ret (Some (collate b)), s2) -> draws s (bs ++ [b]) s2.
Proof. induction 1; intros Hn; simpl; econstructor; eauto. constructor. Qed.

Lemma count_batch_accepted b t : b <> [] -> tally_accepted t < tally_accepted (count_batch b t).
Proof. intros. destruct b; [done|]. simpl. lia. Qed.

(** The loop never runs out of fuel, and what it returns is the tally of the batches
    drawn. *)
Lemma consume_spec fuel total : forall bs s0 s, total - tally_accepted (pass_tally bs) <= Z.of_nat fuel ->
  draws s0 bs s ->
  exists r s', consume next fuel total (pass_tally bs) s = Some (r, s') /\
    forall t, r = Ret t -> exists more, draws s0 (bs ++ more) s' /\ t = pass_tally (bs ++ more) /\
      total <= tally_accepted t.
Proof.
  induction fuel as [|fuel IH]; intros bs s0 s Hf Hd; cbn [consume];
    destruct (Z.leb_spec total (tally_accepted (pass_tally bs))).
  1,3: do 2 eexists; split; [done|]; intros t [= <-]; exists []; rewrite app_nil_r; done.
  - lia.
  - destruct (draw next s) as [[b|e] s1] eqn:E; [|by do 2 eexists].
    apply draw_ok in E as [En Hne].
    assert (Ht : count_batch b (pass_tally bs) = pass_tally (bs ++ [b])).
    { unfold pass_tally. by rewrite fold_left_app. }
    pose proof (count_batch_accepted b (pass_tally bs) Hne). rewrite Ht in *.
    destruct (IH (bs ++ [b]) s0 s1 ltac:(lia) (draws_snoc _ _ _ _ _ Hd En)) as (r & s' & -> & Hr).
    do 2 eexists. split; [done|]. intros t Hrt. destruct (Hr t Hrt) as (more & Hd' & Ht' & Hge).
    exists (b :: more). by rewrite <- app_assoc in Hd', Ht'.
Qed.

Lemma pass_tally_spec bs : tally_accepted (pass_tally bs) = Z.of_nat (length (concat bs)) /\
  tally_bytes (pass_tally bs) = Zsum (map bytes_read (concat bs)) /\
  tally_pids (pass_tally bs) = list_to_set (map output_pid (concat bs)).
Proof.
  unfold pass_tally. induction bs as [|b bs IH] using rev_ind; [done|].
  rewrite fold_left_app, concat_app. simpl. rewrite app_nil_r, !map_app, Zsum_app, length_app.
  destruct IH as (-> & -> & ->). split_and!; [lia|lia|]. by rewrite list_to_set_app_L.
Qed.
End Drawn.

Lemma sorted_Zleb l : StronglySorted Z.le (sort_by Z.leb l).
Proof.
  assert (H : StronglySorted (leq Z.leb) (sort_by Z.leb l)).
  { apply sort_by_sorted; unfold leq; intros; rewrite ?Z.leb_le in *; lia. }
  induction H as [|x r _ IH HF]; constructor; [done|]. eapply Forall_impl; [exact HF|].
  intros y. apply Z.leb_le.
Qed.

Lemma stop_observer_raise {A} o e : exists e', @stop_observer A o (Raise e) = Raise e'.
Proof. unfold stop_observer, require. destruct (observer_alive o), (observer_failures o); simpl; eauto. Qed.

(** An exception inside the measured block is the end of the pass. *)
Ltac pass_raises :=
  do 2 eexists; split; [done|]; simpl;
  match goal with |- context [@stop_observer ?A ?o (Raise ?e)] =>
    destruct (@stop_observer_raise A o e) as [? ->] end;
  exact I.

(** A measured pass over any iterator of batches always ends, and when it is
    accepted it has done exactly the work it reports: the batches drawn hold all the
    fixture's samples and no more, with the full payload bytes, some of them after
    the first batch; the process identifiers are those of the outputs, sorted and
    distinct; the observer stopped without a failure; and a sequential iterator had
    nothing left. *)
Theorem pass_accounts {S : Type} (next : S -> outcome (option boundary) * S) (c : Benchmark) (shuffle : bool)
    (clock : readings) (o : observer) (iterator : outcome S) (s0 : S) :
  exists r s', measure_pass next c shuffle clock o iterator s0 = Some (r, s') /\
    match r with
    | Raise _ => True
    | Ret p => exists s first rest s1,
        iterator = Ret s /\ draws next s (first :: rest) s1 /\
        Z.of_nat (length (concat (first :: rest))) = fixture_total c /\ accepted p = fixture_total c /\
        Zsum (map bytes_read (concat (first :: rest))) = fixture_total c * payload_bytes c /\
        pass_bytes_read p = fixture_total c * payload_bytes c /\
        steady_samples p = Z.of_nat (length (concat rest)) /\ 0 < steady_samples p /\
        (forall pid, pid ∈ transform_pids p <-> pid ∈ map output_pid (concat (first :: rest))) /\
        StronglySorted Z.le (transform_pids p) /\ NoDup (transform_pids p) /\
        observer_alive o = false /\ observer_failures o = [] /\
        (shuffle = false -> (next s1).1 = Ret None \/ (next s1).1 = Ret (Some (BatchTuple [])))
    end.
Proof.
  unfold measure_pass. destruct iterator as [s|e]; [|pass_raises].
  destruct (draw next s) as [[first|e] s1] eqn:E1; [|pass_raises].
  apply draw_ok in E1 as [En Hne].
  assert (Hd : draws next s [first] s1) by (econstructor; [done|constructor]).
  assert (Hacc : tally_accepted (pass_tally [first]) = Z.of_nat (length first)) by done.
  destruct (consume_spec next (Z.to_nat (fixture_total c)) (fixture_total c) [first] s s1 ltac:(lia) Hd)
    as (r & s2 & Hc & Hr).
  change (count_batch first empty_tally) with (pass_tally [first]). rewrite Hc.
  destruct r as [t|e]; [|pass_raises].
  destruct (Hr t eq_refl) as (rest & Hds & -> & Hge). clear Hr Hc.
  destruct (pass_tally_spec ([first] ++ rest)) as (Ha & Hb & Hp). rewrite Ha, Hb, Hp. simpl ([first] ++ rest) in *.
  unfold require at 1.
  destruct (Z.eqb_spec (Z.of_nat (length (concat (first :: rest)))) (fixture_total c)) as [Et|];
    [|pass_raises].
  destruct (Z.eqb_spec (Zsum (map bytes_read (concat (first :: rest)))) (fixture_total c * payload_bytes c)) as [Eb|];
    [|pass_raises].
  cbn [andb mbind outcome_bind].
  destruct (observer_final o) as [final|e]; [|pass_raises].
  destruct (if shuffle then (Ret tt, s2) else exhausted next s2) as [tail s3] eqn:Etl.
  do 2 eexists. split; [done|]. simpl. unfold stop_observer, require.
  destruct (observer_alive o) eqn:Eo; simpl; [done|].
  destruct (observer_failures o) eqn:Ef; simpl; [|done].
  destruct tail as [[]|e]; simpl; [|done]. unfold make_pass.
  match goal with |- context [if ?b then Ret _ else _] => destruct b eqn:Ev; [|done] end. simpl in Ev |- *. bools.
  exists s, first, rest, s2. split_and!; try done.
  - rewrite length_app. lia.
  - intros pid. rewrite sort_by_perm, elem_of_elements, elem_of_list_to_set. done.
  - apply sorted_Zleb.
  - rewrite sort_by_perm. apply NoDup_elements.
  - intros ->. unfold exhausted in Etl. destruct (next s2) as [[[[[|]|]|]|] s4]; simpl in *; try done; auto.
Qed.

(** * Validated settings *)

Record benchmark_facts (methods : list pystr) (c : Benchmark) : Prop := mk_facts {
  fact_samples : 0 < samples_per_cache c;
  fact_caches : 0 < caches c;
  fact_payload : 16 <= payload_bytes c;
  fact_seed : is_u64 (bench_seed c);
  fact_batch : 0 < batch_size c < fixture_total c;
  fact_divides : fixture_total c mod batch_size c = 0;
  fact_native : 0 < native_workers c;
  fact_factor : 0 < prefetch_factor c;
  fact_contexts : Forall (fun x => x <> Serial /\ context_name x ∈ methods) (contexts c) /\ contexts c <> [] /\ NoDup (contexts c);
  fact_counts : Forall (Z.le 1) (worker_counts c) /\ worker_counts c <> [] /\ NoDup (worker_counts c);
  fact_workloads : workloads c <> [] /\ NoDup (workloads c);
  fact_shuffles : shuffles c <> [] /\ NoDup (shuffles c);
  fact_repeats : 0 < repeats c }.

Lemma require_ret b e u : require b e = Ret u -> b = true.
Proof. by destruct b. Qed.

Lemma nonempty_spec {A} (l : list A) : nonempty l = true <-> l <> [].
Proof. by destruct l. Qed.

Lemma traverse_require {A} (P : A -> bool) e l r : traverse (fun x => require (P x) (e x)) l = Ret r ->
  Forall (fun x => P x = true) l.
Proof.
  revert r. induction l as [|x l IH]; intros r H; [constructor|]. simpl in H.
  apply bind_ret in H as (u & H1 & H). apply bind_ret in H as (us & H2 & _).
  constructor; [by eapply require_ret|by eapply IH].
Qed.

Lemma make_benchmark_facts methods c c' : make_benchmark methods c = Ret c' -> c' = c /\ benchmark_facts methods c.
Proof.
  unfold make_benchmark. destruct (fields_valid c) eqn:Ef; [|done].
  destruct (validate_work methods c) as [u|] eqn:Ev; [|done]. intros [= <-]. split; [done|].
  unfold validate_work in Ev. repeat (apply bind_ret in Ev as (? & ?%require_ret & Ev)).
  apply bind_ret in Ev as (us & Hm%traverse_require & _).
  unfold fields_valid in Ef. bools. repeat match goal with H : nonempty _ = true |- _ => apply nonempty_spec in H end.
  repeat match goal with H : bool_decide _ = true |- _ => apply bool_decide_eq_true in H end.
  constructor; try done; try lia.
  - split_and!; [|done|done]. apply Forall_forall. intros y Hy. rewrite Forall_forall in Hm.
    pose proof (Hm y Hy) as Hy'%bool_decide_eq_true. split; [|done].
    match goal with H : forallb _ (contexts c) = true |- _ => rename H into Hall end.
    rewrite forallb_forall in Hall. specialize (Hall y (proj1 (list_elem_of_In _ _) Hy)).
    by apply negb_true_iff, bool_decide_eq_false in Hall.
  - split_and!; [|done|done]. apply Forall_forall. intros y Hy.
    match goal with H : existsb _ _ = false |- _ => rename H into He end.
    destruct (Z.leb_spec 1 y); [done|]. exfalso. apply not_true_iff_false in He. apply He.
    apply existsb_exists. exists y. split; [by apply list_elem_of_In|]. by apply Z.ltb_lt.
Qed.

Lemma draw_collate {S} (next : S -> outcome (option boundary) * S) s b s1 :
  next s = (Ret (Some (collate b)), s1) -> b <> [] -> Forall (fun o => Z.of_nat (length (digest o)) = 32) b ->
  draw next s = (Ret b, s1).
Proof.
  intros Hn Hne HF. unfold draw. rewrite Hn. cbn [mbind outcome_bind]. by rewrite checked_batch_collate.
Qed.

Lemma consume_draws {S} (next : S -> outcome (option boundary) * S) fuel total : forall bs s s' t,
  draws next s bs s' ->
  Forall (fun b => b <> [] /\ Forall (fun o => Z.of_nat (length (digest o)) = 32) b) bs ->
  tally_accepted t + Z.of_nat (length (concat bs)) = total -> (length bs <= fuel)%nat ->
  consume next fuel total t s = Some (Ret (fold_left (fun t b => count_batch b t) bs t), s').
Proof.
  induction fuel as [|fuel IH]; intros bs s s' t Hd HF Ht Hl.
  - destruct Hd; simpl in *; [|lia]. destruct (Z.leb_spec total (tally_accepted t)); [done|lia].
  - destruct Hd as [s|s b s1 bs s2 Hn Hd]; cbn [consume fold_left].
    { simpl in Ht. destruct (Z.leb_spec total (tally_accepted t)); [done|lia]. }
    apply Forall_cons in HF as [[Hne HF1] HF]. simpl in Ht. rewrite length_app in Ht.
    destruct (Z.leb_spec total (tally_accepted t)); [destruct b; [done|simpl in *; lia]|].
    rewrite (draw_collate _ _ _ _ Hn Hne HF1).
    apply IH; [done|done|simpl; lia|simpl in Hl; lia].
Qed.

(** * A native trial *)

(** The caches of a loaded fixture: the manifests' identities in path order, and every
    record reads back as its source yielded it. *)
Definition sound_fixture {N : NativeReader} (c : Benchmark) (ids : list Z) (d : CachedDataset) : Prop :=
  Z.of_nat (length (nat_caches (cd_inner d))) = caches c /\
  forall k cache, nat_caches (cd_inner d) !! k = Some cache ->
    ids !! k = Some (cache_identity cache) /\ sample_count cache = samples_per_cache c /\
    forall i input, 0 <= i < samples_per_cache c ->
      source_input (mk_source (lit "cache-" ++ dec (Z.of_nat k)) (Z.of_nat k) (samples_per_cache c)
                      (payload_bytes c) (metadata_bytes c)) i = Ret input ->
      read_payload cache i = Ok (input_data input, input_metadata input).

Section NativeTrial.
Context {N : NativeReader} {L : NativeReaderLaws N}.
Context (sha256 : list Z -> list Z) (Hsha : forall b, Z.of_nat (length (sha256 b)) = 32).
Context (methods : list pystr) (c : Benchmark) (Hc : benchmark_facts methods c)
  (Hbound : 3 * fixture_total c <= U64_MAX).
Context (workers : Z) (paths : list path) (reader : ReaderConfig) (d0 : CachedDataset)
  (Hload : cached_dataset_load workers paths reader = Ret d0).
Context (ids : list Z) (Hfix : sound_fixture c ids d0) (pid rounds : Z).

Abbreviation f := (transform_call sha256 pid rounds ids).

(** An output of the fixture's payload size, from this process. *)
Definition good (o : Output) : Prop :=
  bytes_read o = payload_bytes c /\ output_pid o = pid /\ Z.of_nat (length (digest o)) = 32.

Definition good_sample (s : CachedSample) : Prop :=
  sample_data s <> [] /\ exists o, f s = Ret o /\ good o.

Lemma total_pos : 1 <= samples_per_cache c /\ 1 <= caches c /\ fixture_total c = caches c * samples_per_cache c.
Proof. destruct Hc. unfold fixture_total in *. lia. Qed.

Lemma fixture_uniform : 1 <= caches c /\ 1 <= samples_per_cache c /\
  Z.of_nat (length (nat_caches (cd_inner d0))) = caches c /\
  forall k cache, nat_caches (cd_inner d0) !! k = Some cache -> sample_count cache = samples_per_cache c.
Proof.
  destruct total_pos as (? & ? & _). destruct Hfix as [Hlen Hall]. split_and!; try done.
  intros k cache Hk. by destruct (Hall k cache Hk) as (_ & ? & _).
Qed.

(** The record of an index of the fixture is delivered and accepted. *)
Lemma fixture_sample index : 0 <= index < fixture_total c ->
  exists s, load_planned_sample (cd_inner d0) index = Ok s /\ good_sample s.
Proof.
  intros Hi. destruct total_pos as (Hs & Hk & Ht). destruct fixture_uniform as (HK & Hm & Hlen & Hcount).
  rewrite Ht in Hi. set (m := samples_per_cache c) in *.
  destruct (uniform_sample workers paths reader d0 Hload (caches c) m HK Hm Hlen Hcount index Hi)
    as (k & cache & Ek & Ekm & Hj & Hl). destruct (proj2 Hfix k cache Ek) as (Hid & _ & Hread).
  assert (Hi64 : index < 2 ^ 64) by (rewrite U64_MAX_eq in Hbound; lia).
  destruct (source_input_payload (mk_source (lit "cache-" ++ dec (Z.of_nat k)) (Z.of_nat k) m (payload_bytes c)
    (metadata_bytes c)) (index mod m)) as (input & Hin & Hlen' & H1 & H2); simpl in *.
  { dlia. }
  { dlia. }
  { apply Hc. }
  exists (mk_sample (input_data input) (input_metadata input) (cache_identity cache) (index mod m)).
  rewrite Hl. unfold sample_of. rewrite (Hread _ _ Hj Hin).
  split; [done|]. pose proof (fact_payload _ _ Hc). split; [intros E; simpl in E; rewrite E in Hlen'; simpl in Hlen'; lia|].
  eexists. split.
  - apply transform_call_identity. simpl. rewrite H1, Nat2Z.id. split_and!; [done|lia|done].
  - split_and!; [done|done|]. simpl. clear -Hsha. induction (Z.to_nat rounds); simpl; apply Hsha.
Qed.

Lemma loaded_total : ds_total (nat_state (cd_inner d0)) = fixture_total c /\ dataset_len d0 = fixture_total c.
Proof.
  destruct fixture_uniform as (HK & Hm & Hlen & Hcount). destruct total_pos as (_ & _ & ->).
  by apply (uniform_total workers paths reader d0 Hload (caches c) (samples_per_cache c)).
Qed.

Abbreviation T := (fixture_total c).
Abbreviation shuffle := (ds_shuffle (nat_state (cd_inner d0))).

Lemma fixture_population : 1 <= T /\ forall index, 0 <= index < T ->
  exists s, load_planned_sample (cd_inner d0) index = Ok s /\ good_sample s.
Proof. destruct total_pos as (? & ? & ?). split; [nia|apply fixture_sample]. Qed.

Abbreviation at_pending := (at_pending d0 T).

Lemma fill_batch_ok m : forall n pos batch s, Z.of_nat m <= n -> at_pending n pos s ->
  exists outs s', fill_batch f m batch s = (Ret (Some (collate (batch ++ outs))), s') /\
    length outs = m /\ Forall good outs /\ at_pending (n - Z.of_nat m) pos s'.
Proof.
  induction m as [|m IH]; intros n pos batch [g d] Hm Hat; cbn [fill_batch].
  - exists [], (g, d). rewrite app_nil_r. split_and!; [done|done|constructor|].
    by replace (n - Z.of_nat 0) with n by lia.
  - destruct (at_pending_next d0 T good_sample fixture_population n pos g d ltac:(lia) Hat) as (s & g' & d' & E & Hs & Hat').
    simpl. rewrite E. destruct Hs as (_ & o & -> & Ho).
    destruct (IH (n - 1) pos (batch ++ [o]) (g', d') ltac:(lia) Hat') as (outs & s' & -> & Hl & HF & Hend).
    exists (o :: outs), s'. rewrite <- app_assoc. simpl. split_and!; [done|lia|by constructor|].
    by replace (n - Z.of_nat (S m)) with (n - 1 - Z.of_nat m) by lia.
Qed.

Lemma native_draws q : forall pos s, at_pending (Z.of_nat q * batch_size c) pos s ->
  exists bs s', draws (native_batches f (batch_size c)) s bs s' /\ length bs = q /\
    Forall (fun b => Z.of_nat (length b) = batch_size c /\ Forall good b) bs /\ at_pending 0 pos s'.
Proof.
  pose proof (fact_batch _ _ Hc) as [Hb _].
  induction q as [|q IH]; intros pos s Hs; [exists [], s; split_and!; [constructor|done|constructor|done]|].
  destruct (fill_batch_ok (Z.to_nat (batch_size c)) (Z.of_nat (S q) * batch_size c) pos [] s ltac:(nia) Hs) as (b & s1 & E & Hl & HF & H1).
  destruct (IH pos s1) as (bs & s' & Hd & Hn & HFs & H2).
  { by replace (Z.of_nat q * batch_size c) with (Z.of_nat (S q) * batch_size c - Z.of_nat (Z.to_nat (batch_size c))) by lia. }
  exists (b :: bs), s'. split_and!; [by econstructor|simpl; lia| |done]. constructor; [|done]. split; [lia|done].
Qed.

Definition clock_valid (t : readings) : bool :=
  seconds_valid (f64_sub (at_created t) (at_started t)) && seconds_valid (f64_sub (at_delivered t) (at_started t)) &&
  float_isfinite (f64_sub (at_finished t) (at_steady t)) && float_gt0 (f64_sub (at_finished t) (at_steady t)).

Definition observer_ok (o : observer) : Prop :=
  observer_alive o = false /\ observer_failures o = [] /\ returns (observer_final o).

(** What a pass over the fixture reports. *)
Definition full_pass (p : PassMeasurement) : Prop :=
  accepted p = T /\ steady_samples p = T - batch_size c /\ pass_bytes_read p = T * payload_bytes c /\
  transform_pids p = [pid].

Lemma good_batches bs : Forall (fun b => Z.of_nat (length b) = batch_size c /\ Forall good b) bs ->
  Forall (fun b => b <> [] /\ Forall (fun o => Z.of_nat (length (digest o)) = 32) b) bs /\
  Z.of_nat (length (concat bs)) = Z.of_nat (length bs) * batch_size c /\ Forall good (concat bs).
Proof.
  pose proof (fact_batch _ _ Hc) as [Hb _]. induction 1 as [|b bs [Hl Hg] _ (IH1 & IH2 & IH3)]; simpl.
  - split_and!; [constructor|lia|constructor].
  - split_and!.
    + constructor; [|done]. split; [intros ->; simpl in Hl; lia|]. eapply Forall_impl; [exact Hg|]. by intros o (_ & _ & ?).
    + rewrite length_app. lia.
    + by apply Forall_app.
Qed.

Lemma good_outputs os : Forall good os -> os <> [] ->
  Zsum (map bytes_read os) = Z.of_nat (length os) * payload_bytes c /\
  sort_by Z.leb (elements (list_to_set (C := gset Z) (map output_pid os))) = [pid].
Proof.
  intros HF Hne. split.
  - clear Hne. induction HF as [|o os (Hb & _) _ IH]; [done|]. simpl. rewrite Zsum_cons, IH. lia.
  - assert (E : list_to_set (C := gset Z) (map output_pid os) = {[ pid ]}).
    { apply set_eq. intros z. rewrite elem_of_list_to_set, elem_of_singleton.
      change (map ?g ?l) with (g <$> l). rewrite list_elem_of_fmap. rewrite Forall_forall in HF. split.
      - intros (o & -> & Ho). by destruct (HF o Ho) as (_ & -> & _).
      - intros ->. destruct os as [|o os]; [done|]. exists o. split; [|left]. symmetry.
        by destruct (HF o) as (_ & ? & _); [left|]. }
    rewrite E, elements_singleton. done.
Qed.

(** A pass over the whole fixture is accepted. *)
Lemma native_pass sh clock o pos s s0 : clock_valid clock = true -> observer_ok o -> at_pending T pos s ->
  exists p g d, measure_pass (native_batches f (batch_size c)) c sh clock o (Ret s) s0 = Some (Ret p, (g, d)) /\
    full_pass p /\ ((shuffle = true -> pos + T <= U64_MAX) -> at_pending T (pos + T) (GenNew, d)).
Proof.
  intros Hclock (Ho1 & Ho2 & final & Hfinal) Hs. destruct total_pos as (HT1 & HT2 & HT3).
  pose proof (fact_batch _ _ Hc) as Hb. pose proof (fact_divides _ _ Hc) as Hdiv. pose proof (fact_payload _ _ Hc) as Hpay.
  assert (Hq : T = Z.of_nat (Z.to_nat (T / batch_size c)) * batch_size c) by dlia.
  destruct (native_draws (Z.to_nat (T / batch_size c)) pos s ltac:(by rewrite <- Hq)) as (bs & s1 & Hd & Hn & HF & Hend). clear Hs.
  destruct (good_batches bs HF) as (Hne & Hlen & Hgood). rewrite Hn in Hlen. rewrite <- Hq in Hlen.
  assert (Hbs : bs <> []) by (intros ->; simpl in Hn; dlia).
  destruct (good_outputs _ Hgood) as [Hbytes Hpids]; [intros E; rewrite E in Hlen; simpl in Hlen; lia|].
  destruct Hd as [|s b s2 bs s1 Hn1 Hd]; [done|]. unfold measure_pass.
  apply Forall_cons in Hne as [[Hb1 Hb2] Hne]. rewrite (draw_collate _ _ _ _ Hn1 Hb1 Hb2).
  rewrite (consume_draws _ _ _ bs s2 s1 _ Hd Hne); [|simpl in *; rewrite length_app in Hlen; lia|].
  2: { simpl in Hn. dlia. }
  change (fold_left (fun t b => count_batch b t) bs (count_batch b empty_tally)) with (pass_tally (b :: bs)).
  destruct (pass_tally_spec (b :: bs)) as (-> & -> & ->). rewrite Hpids, Hlen, Hbytes, Hlen, !Z.eqb_refl.
  destruct s1 as [g d]. destruct (at_pending_end d0 T good_sample fixture_population pos g d Hend) as [g' Eg].
  assert (Hex : exists g2, (if sh then (Ret tt, (g, d)) else exhausted (native_batches f (batch_size c)) (g, d)) = (Ret tt, (g2, d))).
  { destruct sh; [by eexists|]. unfold exhausted, native_batches.
    destruct (Z.to_nat (batch_size c)) eqn:E; [lia|]. cbn [fill_batch]. simpl. rewrite Eg. simpl. by eexists. }
  destruct Hex as [g2 Hex]. simpl andb. unfold require at 1. cbn [mbind outcome_bind]. rewrite Hfinal, Hex.
  apply Forall_cons in HF as [[Hb3 _] _].
  exists (mk_pass (f64_sub (at_created clock) (at_started clock)) (f64_sub (at_delivered clock) (at_started clock))
    (f64_sub (at_finished clock) (at_steady clock)) (T - batch_size c) T (T * payload_bytes c) [pid]
    (peak_resources (observer_peak o) final)), g2, d. split; [|split; [done|]].
  - unfold stop_observer, require, make_pass. rewrite Ho1, Ho2. simpl. rewrite Hb3.
    unfold clock_valid in Hclock. rewrite Hclock. simpl.
    destruct (Z.ltb_spec 0 (T - batch_size c)); [|lia]. destruct (Z.ltb_spec 0 T); [|lia].
    destruct (Z.ltb_spec 0 (T * payload_bytes c)); [done|nia].
  - exact (at_restart d0 T good_sample fixture_population pos g d Hend).
Qed.
End NativeTrial.

Lemma trial_load_inv {N : NativeReader} spec d : trial_load spec = Ret d ->
  exists workers reader, cached_dataset_load workers (spec_paths spec) reader = Ret d.
Proof.
  unfold trial_load. intros H. apply bind_ret in H as (r & _ & H). apply bind_ret in H as (seed & _ & H).
  apply bind_ret in H as (reader & _ & H). unfold cached_dataset in H. eauto.
Qed.

(** The warmed dataset of a trial is about to read the whole fixture. *)
Lemma trial_dataset_ready {N : NativeReader} {L : NativeReaderLaws N} (sha256 : list Z -> list Z) methods spec d0 ids
    (pid rounds : Z) :
  (forall b, Z.of_nat (length (sha256 b)) = 32) -> benchmark_facts methods (spec_config spec) ->
  3 * fixture_total (spec_config spec) <= U64_MAX -> trial_load spec = Ret d0 ->
  sound_fixture (spec_config spec) ids d0 ->
  exists d, trial_dataset spec = Ret d /\
    Passes.at_pending d0 (fixture_total (spec_config spec)) (fixture_total (spec_config spec)) (2 * fixture_total (spec_config spec)) (GenNew, d).
Proof.
  intros Hsha Hc Hb Hl Hf. set (c := spec_config spec) in *. unfold trial_dataset. fold c. rewrite Hl. cbn [mbind outcome_bind].
  destruct (trial_load_inv _ _ Hl) as (workers & reader & Hld).
  destruct (total_pos methods c Hc) as (H1 & H2 & HT).
  destruct (loaded_total methods c Hc workers (spec_paths spec) reader d0 Hld ids Hf) as [Ht Hlen].
  pose proof (fixture_population sha256 Hsha methods c Hc Hb workers (spec_paths spec) reader d0 Hld ids Hf pid rounds)
    as Hpop.
  assert (1 <= fixture_total c) by nia.
  pose proof (loaded_pending d0 (fixture_total c) _ _ _ Hld Ht Hlen ltac:(lia)) as Hat.
  destruct (at_pending_next d0 _ _ Hpop (fixture_total c) _ GenNew d0 ltac:(lia) Hat) as (s & g & d1 & E & [Hd _] & Hat1).
  rewrite E. assert (nonempty (sample_data s) = true) as -> by (by apply nonempty_spec). simpl.
  destruct (at_pending_set_len d0 _ _ Hpop (fixture_total c - 1) (fixture_total c) g d1) as (d2 & -> & Hat2);
    [|done| |lia|lia|].
  - pose proof (fact_batch _ _ Hc). lia.
  - intros ->. unfold gen_next in E. repeat ocase E; simplify_eq. unfold run_next in *. repeat case_match; simplify_eq.
  - exists d2. split; [done|]. by replace (2 * fixture_total c) with (fixture_total c + fixture_total c) by lia.
Qed.

(** On a fixture whose caches read back what their sources yielded, the native
    control of a validated benchmark passes every check: the transform accepts each
    sample, both passes consume exactly the fixture in this process, with all its
    bytes, and the trial reports its own case, order, workload and pair. *)
Theorem native_trial_measures {N : NativeReader} {L : NativeReaderLaws N} {S : Type} (sha256 : list Z -> list Z)
    (build : CachedDataset -> LoaderOptions -> outcome S) (iter : S -> outcome S)
    (next : S -> outcome (option boundary) * S) (methods : list pystr) (env : trial_env) (spec : TrialSpec)
    (d0 : CachedDataset) (ids : list Z)
    (Hsha : forall b, Z.of_nat (length (sha256 b)) = 32)
    (Hc : make_benchmark methods (spec_config spec) = Ret (spec_config spec))
    (Hbound : 3 * fixture_total (spec_config spec) <= U64_MAX)
    (Hcase : spec_case spec = mk_case NativeMode 0 Serial)
    (Hload : trial_load spec = Ret d0)
    (Hids : traverse (env_manifest_id env) (spec_paths spec) = Ret ids)
    (Hfix : sound_fixture (spec_config spec) ids d0)
    (Hclocks : clock_valid (env_cold_clock env) && clock_valid (env_warm_clock env) &&
               float_isfinite (env_construction env) && float_isfinite (env_cleanup env) = true)
    (Hobs : observer_ok (env_cold_observer env) /\ observer_ok (env_warm_observer env))
    (Hchild : env_child_alive env = false) :
  exists t, measure_trial sha256 build iter next env spec = Some (Ret t) /\
    trial_case t = spec_case spec /\ trial_shuffle t = spec_shuffle spec /\
    trial_workload t = spec_workload spec /\ trial_pair t = spec_pair spec /\
    full_pass (spec_config spec) (env_process env) (cold t) /\
    full_pass (spec_config spec) (env_process env) (warm t).
Proof.
  apply make_benchmark_facts in Hc as [_ Hc]. bools. destruct Hobs as [Ho1 Ho2].
  set (c := spec_config spec) in *. set (rounds := spec_rounds spec).
  destruct (trial_load_inv _ _ Hload) as (workers & reader & Hld).
  destruct (trial_dataset_ready sha256 methods spec d0 ids (env_process env) rounds Hsha Hc Hbound Hload Hfix)
    as (d & Hd & Hat).
  unfold measure_trial. rewrite Hd, Hids. cbn [mbind outcome_bind]. rewrite Hcase. cbn [case_mode].
  fold c. fold c in Hat. fold rounds. unfold two_passes. fold c.
  destruct (native_pass sha256 Hsha methods c Hc Hbound workers (spec_paths spec) reader d0 Hld ids Hfix
    (env_process env) rounds (spec_shuffle spec) (env_cold_clock env) (env_cold_observer env)
    (2 * fixture_total c) (GenNew, d) (GenNew, d)) as (p1 & g1 & d1 & E1 & Hp1 & Hat1); [done|done|done|].
  cbn [snd] in *. rewrite E1.
  destruct (native_pass sha256 Hsha methods c Hc Hbound workers (spec_paths spec) reader d0 Hld ids Hfix
    (env_process env) rounds (spec_shuffle spec) (env_warm_clock env) (env_warm_observer env)
    (2 * fixture_total c + fixture_total c) (GenNew, d1) (g1, d1)) as (p2 & g2 & d2 & E2 & Hp2 & _);
    [done|done|apply Hat1; lia|].
  cbn [snd] in *. rewrite E2. simpl. unfold check_pids, require. rewrite Hcase. simpl.
  pose proof Hp1 as (_ & _ & _ & ->). pose proof Hp2 as (_ & _ & _ & ->).
  rewrite !bool_decide_eq_true_2 by done. simpl. rewrite Hchild. simpl. unfold make_trial. simpl.
  match goal with H1 : float_isfinite (env_construction env) = true, H2 : float_isfinite (env_cleanup env) = true |- _ =>
    rewrite H1, H2 end. simpl. eexists. by split_and!.
Qed.

(** ** A concrete fixture *)

Definition small : Benchmark :=
  mk_benchmark 2 2 16 0 3 7 2 1 4 2 [Fork] [1; 4] [Heavy; Cheap] [true; false] 2 (Finite 120 1) true true.
Definition small_methods : list pystr := [lit "fork"; lit "spawn"].
Definition small_source (k : Z) : Source := mk_source (lit "cache-" ++ dec k) k 2 16 0.

(** Two caches whose records are those of their sources. *)
Definition small_native : NativeReader := {|
  uniform := fun key n => key mod n; weighted := fun _ _ => 0; distribution_error := fun _ => None;
  open_cache := fun _ _ position => Ok (mk_cache position [] [[]; []] []);
  read_payload := fun cache i => match source_input (small_source (cache_identity cache)) i with
                                 | Ret input => Ok (input_data input, input_metadata input)
                                 | Raise _ => Err WorkerFailed
                                 end;
  resolve := fun p => p |}.

Lemma small_native_laws : NativeReaderLaws small_native.
Proof. split; [split; simpl; intros; [apply Z.mod_pos_bound|]; lia|done]. Qed.

Definition small_clock : readings := mk_readings (Finite 0 1) (Finite 1 8) (Finite 1 4) (Finite 1 4) (Finite 1 1).
Definition small_observer : observer := mk_observer (mk_resources 1 1 1 1) (Ret (mk_resources 2 1 1 1)) false [].
Definition small_env : trial_env :=
  mk_trial_env 42 (fun p => Ret (if decide (p = [lit "a"]) then 0 else 1)) (Finite 1 1) small_clock small_clock
    small_observer small_observer (Finite 1 1) false.
Definition small_spec : TrialSpec :=
  mk_spec small [[lit "a"]; [lit "b"]] (mk_case NativeMode 0 Serial) true Heavy 0.
Definition small_dataset : CachedDataset :=
  match @trial_load small_native small_spec with Ret d => d | Raise _ => demo_dataset end.

Lemma native_trial_measures_witness :
  exists t, @measure_trial small_native (fun _ => replicate 32 0) unit (fun _ _ => Ret tt) Ret
              (fun s => (Ret None, s)) small_env small_spec = Some (Ret t) /\
    accepted (warm t) = 4 /\ transform_pids (warm t) = [42].
Proof.
  destruct (@native_trial_measures small_native small_native_laws unit (fun _ => replicate 32 0) (fun _ _ => Ret tt) Ret
    (fun s => (Ret None, s)) small_methods small_env small_spec small_dataset [0; 1])
    as (t & Ht & _ & _ & _ & _ & _ & Hw).
  - reflexivity.
  - vm_compute. reflexivity.
  - vm_compute. discriminate.
  - reflexivity.
  - vm_compute. reflexivity.
  - reflexivity.
  - split; [vm_compute; reflexivity|]. intros k cache Hk.
    assert (Hc : nat_caches (cd_inner small_dataset) = [mk_cache 0 [] [[]; []] []; mk_cache 1 [] [[]; []] []])
      by (vm_compute; reflexivity).
    rewrite Hc in Hk. destruct k as [|[|k]]; [| |discriminate Hk]; injection Hk as <-.
    + split; [reflexivity|]. split; [reflexivity|]. intros i input _ Hi. cbn [read_payload small_native cache_identity].
      by rewrite (Hi : source_input (small_source 0) i = Ret input).
    + split; [reflexivity|]. split; [reflexivity|]. intros i input _ Hi. cbn [read_payload small_native cache_identity].
      by rewrite (Hi : source_input (small_source 1) i = Ret input).
  - vm_compute. reflexivity.
  - split; (split; [reflexivity|split; [reflexivity|eexists; reflexivity]]).
  - reflexivity.
  - exists t. split; [exact Ht|]. destruct Hw as (Ha & _ & _ & Hp). split; [rewrite Ha; reflexivity|exact Hp].
Defined.
