(* ===== verification/BenchGates.v ===== *)
(** The gates of the reader benchmark against a direct definition: every ratio pairs
    the two trials of one round, workload and order, whatever order they ran in. *)
From stdpp Require Import base tactics list numbers strings gmap sorting.
From S2P Require Import Prelude Collections Binary64 Records Config Seeds Resources Options Native Metadata Interface Dataset Refinement Runtime BenchReader BenchProofs.
Open Scope Z_scope.

(** * The reference *)

Definition native_case : ReaderCase := mk_case NativeMode 0 Serial.
Definition serial_case : ReaderCase := mk_case LoaderMode 0 Serial.

Section Reference.
Context (c : Benchmark) (rate : ReaderCase -> bool -> Workload -> Z -> outcome pyfloat).

(** The rate of one case over the rate of another, in every round. *)
Definition paired (above below : ReaderCase) (shuffle : bool) (workload : Workload) (pair : Z) : outcome pyfloat :=
  a ← rate above shuffle workload pair;
  b ← rate below shuffle workload pair;
  f64_div a b.

Definition reference_group (group : Workload * bool) : outcome (list Gate) :=
  let '(workload, shuffle) := group in
  regressions ← traverse (fun pair => q ← paired native_case serial_case shuffle workload pair;
                                      Ret (f64_sub q (Finite 1 1))) (seqZ 0 (repeats c));
  regression ← regression_gate workload shuffle regressions;
  if negb (bool_decide (workload = Heavy)) then Ret [regression]
  else
    speedups ← traverse (fun context =>
      ratios ← traverse (paired (mk_case LoaderMode 4 context) serial_case shuffle workload) (seqZ 0 (repeats c));
      speedup_gate workload shuffle context ratios)
      (sort_by context_leb (if bool_decide (4 ∈ worker_counts c) then contexts c else []));
    Ret (regression :: speedups).

Definition reference_gates : outcome (list Gate) :=
  gates ← traverse reference_group (sort_by group_leb (list_prod (workloads c) (shuffles c)));
  Ret (concat gates).
End Reference.

(** * Selections *)

Lemma traverse_ext {A B} (g h : A -> outcome B) l : (forall x, x ∈ l -> g x = h x) -> traverse g l = traverse h l.
Proof.
  induction l as [|x l IH]; intros H; simpl; [done|]. rewrite H by left.
  rewrite IH; [done|]. intros y Hy. apply H. by right.
Qed.

Lemma traverse_Forall2 {A B} (g : A -> outcome B) l r : traverse g l = Ret r <-> Forall2 (fun x y => g x = Ret y) l r.
Proof.
  revert r. induction l as [|x l IH]; intros r; simpl.
  - split; [intros [= <-]; constructor|by inversion 1].
  - split.
    + intros H. apply bind_ret in H as (y & Hy & H). apply bind_ret in H as (ys & Hys & [= <-]).
      constructor; [done|]. by apply IH.
    + inversion 1 as [|? ? ? ? Hy Hys]; subst. rewrite Hy. simpl. apply IH in Hys. by rewrite Hys.
Qed.

Lemma Forall2_filter {A B} (R : A -> B -> Prop) (P : A -> Prop) (Q : B -> Prop)
    `{!forall x, Decision (P x), !forall x, Decision (Q x)} l k :
  Forall2 R l k -> (forall x y, R x y -> (P x <-> Q y)) -> Forall2 R (filter P l) (filter Q k).
Proof.
  intros HF Hiff. induction HF as [|x y l k Hxy HF IH]; [constructor|]. rewrite !filter_cons.
  destruct (decide (P x)) as [p|p], (decide (Q y)) as [q|q]; [by constructor|..|done]; by apply Hiff in Hxy; tauto.
Qed.

Lemma filter_concat_map {A B} (P : B -> Prop) `{!forall x, Decision (P x)} (g : A -> list B) l :
  filter P (concat (map g l)) = concat (map (fun y => filter P (g y)) l).
Proof. induction l as [|y l IH]; simpl; [done|]. by rewrite filter_app, IH. Qed.

Lemma filter_all {A} (P : A -> Prop) `{!forall x, Decision (P x)} (l : list A) : (forall x, x ∈ l -> P x) -> filter P l = l.
Proof.
  induction l as [|x l IH]; intros Hl; [done|]. rewrite filter_cons_True by (apply Hl; left).
  f_equal. apply IH. intros y Hy. apply Hl. by right.
Qed.

Lemma filter_none {A} (P : A -> Prop) `{!forall x, Decision (P x)} (l : list A) : (forall x, x ∈ l -> ~ P x) -> filter P l = [].
Proof.
  induction l as [|x l IH]; intros Hl; [done|]. rewrite filter_cons_False by (apply Hl; left).
  apply IH. intros y Hy. apply Hl. by right.
Qed.

Lemma filter_ext_elem {A} (P Q : A -> Prop) `{!forall x, Decision (P x), !forall x, Decision (Q x)} (l : list A) :
  (forall x, x ∈ l -> (P x <-> Q x)) -> filter P l = filter Q l.
Proof.
  induction l as [|x l IH]; intros Hl; [done|]. rewrite !filter_cons.
  assert (filter P l = filter Q l) as -> by (apply IH; intros y Hy; apply Hl; by right).
  pose proof (Hl x ltac:(left)). destruct (decide (P x)), (decide (Q x)); (done || tauto).
Qed.

Lemma traverse_Forall2_ext {A B C} (R : A -> B -> Prop) (g : A -> outcome C) (h : B -> outcome C) l k :
  Forall2 R l k -> (forall x y, x ∈ l -> R x y -> g x = h y) -> traverse g l = traverse h k.
Proof.
  induction 1 as [|x y l k Hxy _ IH]; intros H; [done|]. cbn [traverse]. rewrite (H x y ltac:(left) Hxy), IH; [done|].
  intros x' y' Hx. apply H. by right.
Qed.

Lemma filter_map_map {A B} (P : B -> Prop) `{!forall x, Decision (P x)} (g : A -> B) l :
  filter P (map g l) = map g (filter (fun x => P (g x)) l).
Proof.
  induction l as [|x l IH]; [done|]. cbn [map]. destruct (decide (P (g x))) as [p|p].
  - rewrite !filter_cons_True by done. cbn [map]. by rewrite IH.
  - by rewrite !filter_cons_False by done.
Qed.

(** Selecting by a key from blocks of distinct keys gives the block. *)
Lemma filter_block {A B} (P : B -> Prop) `{!forall x, Decision (P x)} (key : B -> A) (g : A -> list B) l y :
  (forall z x, x ∈ g z -> key x = z) -> (forall x, P x <-> key x = y) -> NoDup l -> y ∈ l ->
  filter P (concat (map g l)) = g y.
Proof.
  intros Hk HP Hn Hy. rewrite filter_concat_map.
  assert (H1 : filter P (g y) = g y).
  { apply filter_all. intros x Hx. apply HP. eauto. }
  assert (H0 : forall z, z <> y -> filter P (g z) = []).
  { intros z Hz. apply filter_none. intros x Hx HPx%HP. apply Hk in Hx. congruence. }
  assert (Hnone : forall l, y ∉ l -> concat (map (fun z => filter P (g z)) l) = []).
  { clear Hn Hy l. induction l as [|z l IH]; intros Hy; [done|]. apply not_elem_of_cons in Hy as [Hz Hy]. simpl.
    rewrite H0 by done. by apply IH. }
  induction Hn as [|z l Hz Hn IH]; [by apply elem_of_nil in Hy|]. simpl.
  apply elem_of_cons in Hy as [<-|Hy]; [by rewrite H1, Hnone, app_nil_r|].
  rewrite H0 by (by intros ->). by apply IH.
Qed.

(** Sorting the distinct elements of two lists with the same elements. *)
Lemma sort_same_elements {A} `{EqDecision A} (leb : A -> A -> bool) l k :
  (forall a b, leq leb a b \/ leq leb b a) -> (forall a b x, leq leb a b -> leq leb b x -> leq leb a x) ->
  (forall a b, leq leb a b -> leq leb b a -> a = b) -> NoDup k -> (forall x, x ∈ l <-> x ∈ k) ->
  sort_by leb (remove_dups l) = sort_by leb k.
Proof.
  intros Ht Htr Ha Hk He. apply sort_by_unique; [done|done|done| |by apply sort_by_sorted].
  rewrite sort_by_perm. apply NoDup_Permutation; [apply NoDup_remove_dups|done|].
  intros x. by rewrite elem_of_remove_dups, He.
Qed.

Lemma sort_seqZ n : sort_by Z.leb (seqZ 0 n) = seqZ 0 n.
Proof.
  apply sort_by_unique; unfold leq; try (intros; rewrite ?Z.leb_le in *; lia); [done|].
  assert (H : forall m, StronglySorted (fun a b => (a <=? b) = true) (seqZ m (Z.of_nat (Z.to_nat n)))).
  { induction (Z.to_nat n) as [|k IH]; intros m; [constructor|]. rewrite seqZ_S by lia.
    replace (Z.of_nat (S k) - 1) with (Z.of_nat k) by lia. constructor; [apply IH|].
    apply Forall_forall. intros x Hx%elem_of_seqZ. apply Z.leb_le. lia. }
  destruct (Z.leb_spec 0 n); [rewrite <- (Z2Nat.id n) at 1 by done; apply H|].
  rewrite seqZ_nil by lia. constructor.
Qed.

Lemma NoDup_product {A B} (l : list A) (k : list B) : NoDup l -> NoDup k -> NoDup (list_prod l k).
Proof.
  intros Hl Hk. induction Hl as [|x l Hx Hl IH]; simpl; [constructor|]. apply NoDup_app. split_and!.
  - by apply (NoDup_fmap_2 (fun y => (x, y))).
  - intros [a b] (y & [= -> ->] & _)%elem_of_map Hin. apply list_elem_of_In, in_prod_iff in Hin as [Ha _].
    by apply Hx, list_elem_of_In.
  - done.
Qed.

Lemma group_leb_order : (forall a b, leq group_leb a b \/ leq group_leb b a) /\
  (forall a b x, leq group_leb a b -> leq group_leb b x -> leq group_leb a x) /\
  (forall a b, leq group_leb a b -> leq group_leb b a -> a = b).
Proof.
  unfold leq. split_and!.
  - intros [[] []] [[] []]; vm_compute; auto.
  - intros [[] []] [[] []] [[] []]; vm_compute; auto; discriminate.
  - intros [[] []] [[] []]; vm_compute; auto; discriminate.
Qed.

Lemma context_leb_order : (forall a b, leq context_leb a b \/ leq context_leb b a) /\
  (forall a b x, leq context_leb a b -> leq context_leb b x -> leq context_leb a x) /\
  (forall a b, leq context_leb a b -> leq context_leb b a -> a = b).
Proof.
  unfold leq. split_and!.
  - intros [] []; vm_compute; auto.
  - intros [] [] []; vm_compute; auto; discriminate.
  - intros [] []; vm_compute; auto; discriminate.
Qed.

(** * Cases *)

Lemma reader_cases_ok methods c : benchmark_facts methods c -> reader_cases (contexts c) (worker_counts c) =
  Ret (native_case :: serial_case ::
       concat (map (fun x => map (fun w => mk_case LoaderMode w x) (worker_counts c)) (contexts c))).
Proof.
  intros Hc. unfold reader_cases. set (l := concat _). cbn [traverse]. change (make_case (mk_case NativeMode 0 Serial)) with (Ret native_case).
  change (make_case (mk_case LoaderMode 0 Serial)) with (Ret serial_case). cbn [mbind outcome_bind].
  rewrite (traverse_ret make_case (fun x => x)); [by rewrite map_id|].
  intros x Hx. unfold l in Hx. apply elem_of_concat_map in Hx as (y & Hy & (w & -> & Hw)%elem_of_map).
  destruct (fact_contexts _ _ Hc) as (HF & _). destruct (fact_counts _ _ Hc) as (HFc & _).
  destruct (proj1 (Forall_forall _ _) HF y Hy) as [Hy1 _].
  pose proof (proj1 (Forall_forall _ _) HFc w Hw) as Hw1. simpl in Hw1.
  unfold make_case, case_validate_context. simpl. destruct (Z.ltb_spec w 0); [lia|].
  destruct (Z.eqb_spec w 0); [lia|]. rewrite bool_decide_eq_false_2 by done. done.
Qed.

Section Cases.
Context (methods : list pystr) (c : Benchmark) (Hc : benchmark_facts methods c).

Abbreviation cases := (native_case :: serial_case ::
  concat (map (fun x => map (fun w => mk_case LoaderMode w x) (worker_counts c)) (contexts c))).

Lemma elem_of_cases x : x ∈ cases <-> x = native_case \/ x = serial_case \/
  exists ctx w, x = mk_case LoaderMode w ctx /\ ctx ∈ contexts c /\ w ∈ worker_counts c.
Proof.
  rewrite !elem_of_cons, elem_of_concat_map. setoid_rewrite elem_of_map. split.
  - intros [?|[?|(y & Hy & w & -> & Hw)]]; eauto 10.
  - intros [?|[?|(y & w & -> & Hy & Hw)]]; eauto 10.
Qed.

Lemma worker_case x : x ∈ concat (map (fun x => map (fun w => mk_case LoaderMode w x) (worker_counts c)) (contexts c)) ->
  case_mode x = LoaderMode /\ 1 <= case_workers x.
Proof.
  intros (y & Hy & (w & -> & Hw)%elem_of_map)%elem_of_concat_map. destruct (fact_counts _ _ Hc) as (HF & _).
  split; [done|]. exact (proj1 (Forall_forall _ _) HF w Hw).
Qed.

(** Each class of cases the gates use has one member. *)
Lemma one_native : filter (fun x => case_mode x = NativeMode) cases = [native_case].
Proof.
  rewrite filter_cons_True by done. rewrite filter_cons_False by done.
  rewrite filter_none; [done|]. intros x [Hm _]%worker_case. congruence.
Qed.

Lemma one_serial : filter (fun x => case_mode x = LoaderMode /\ case_workers x = 0) cases = [serial_case].
Proof.
  rewrite filter_cons_False by (by intros []). rewrite filter_cons_True by done.
  rewrite filter_none; [done|]. intros x [_ Hw]%worker_case [_ E]. lia.
Qed.

Lemma one_four x : x ∈ contexts c -> 4 ∈ worker_counts c ->
  filter (fun y => case_workers y = 4 /\ case_context y = x) cases = [mk_case LoaderMode 4 x].
Proof.
  intros Hx H4. destruct (fact_contexts _ _ Hc) as (_ & _ & Hn). destruct (fact_counts _ _ Hc) as (_ & _ & Hn4).
  rewrite !filter_cons_False by (by intros [[=] _]).
  rewrite <- list_filter_filter.
  rewrite (filter_block (fun y => case_context y = x) case_context _ _ x); [|..]; try done.
  - rewrite <- (concat_map_singleton (fun w => mk_case LoaderMode w x)).
    rewrite (filter_block (fun y => case_workers y = 4) case_workers (fun w => [mk_case LoaderMode w x]) _ 4); try done.
    by intros z y ->%list_elem_of_singleton.
  - by intros z y (w & -> & _)%elem_of_map.
Qed.
End Cases.

(** * Trials of a schedule *)

(** A trial reports what it was asked to measure. *)
Definition echoes (spec : TrialSpec) (t : TrialResult) : Prop :=
  trial_case t = spec_case spec /\ trial_shuffle t = spec_shuffle spec /\
  trial_workload t = spec_workload spec /\ trial_pair t = spec_pair spec.

(** [measure_trial] does so whenever it returns. *)
Lemma measure_trial_echoes {N : NativeReader} {S} sha256 (build : CachedDataset -> LoaderOptions -> outcome S)
    iter next env spec t : measure_trial sha256 build iter next env spec = Some (Ret t) -> echoes spec t.
Proof.
  unfold measure_trial. intros H. ocase H.
  assert (Hf : forall r, finish_trial env spec r = Ret t -> echoes spec t).
  { intros r Hr. unfold finish_trial in Hr. apply bind_ret in Hr as ([p1 p2] & _ & Hr).
    apply bind_ret in Hr as (? & _ & Hr). apply bind_ret in Hr as (? & _ & Hr).
    unfold make_trial in Hr. ocase Hr. by injection Hr as <-. }
  repeat ocase H; apply fmap_Some in H as (r & _ & H); symmetry in H; eauto.
Qed.

Section Schedule.
Context (methods : list pystr) (c : Benchmark) (Hc : benchmark_facts methods c) (paths : list path)
  (run : TrialSpec -> outcome TrialResult) (Hecho : forall spec t, run spec = Ret t -> echoes spec t).

Abbreviation cases := (native_case :: serial_case ::
  concat (map (fun x => map (fun w => mk_case LoaderMode w x) (worker_counts c)) (contexts c))).
Abbreviation spec_of := (fun workload shuffle case pair => mk_spec c paths case shuffle workload pair).

Context (results : list TrialResult) (Hrun : traverse run (schedule c paths cases) = Ret results).

(** The trials of one group, in the order they ran. *)
Definition block (workload : Workload) (shuffle : bool) : list TrialSpec :=
  concat (map (fun pair => map (fun case => spec_of workload shuffle case pair)
    (rotate (pair mod Z.of_nat (length cases)) cases)) (seqZ 0 (repeats c))).

Lemma elem_of_block workload shuffle x : x ∈ block workload shuffle <->
  exists case pair, x = spec_of workload shuffle case pair /\ case ∈ cases /\ 0 <= pair < repeats c.
Proof.
  unfold block. rewrite elem_of_concat_map. split.
  - intros (pair & Hp%elem_of_seqZ & (y & -> & Hy)%elem_of_map). rewrite rotate_perm in Hy. exists y, pair. split_and!; [done|done|lia..].
  - intros (y & pair & -> & Hy & Hp). exists pair. split; [apply elem_of_seqZ; lia|].
    apply elem_of_map. exists y. split; [done|]. by rewrite rotate_perm.
Qed.

Lemma schedule_blocks : schedule c paths cases =
  concat (map (fun workload => concat (map (block workload) (shuffles c))) (workloads c)).
Proof. done. Qed.

Lemma block_of workload shuffle : workload ∈ workloads c -> shuffle ∈ shuffles c ->
  filter (fun x => spec_workload x = workload /\ spec_shuffle x = shuffle) (schedule c paths cases) =
  block workload shuffle.
Proof.
  intros Hw Hs. destruct (fact_workloads _ _ Hc) as [_ Hnw]. destruct (fact_shuffles _ _ Hc) as [_ Hns].
  rewrite schedule_blocks.
  transitivity (filter (fun x => spec_shuffle x = shuffle) (filter (fun x => spec_workload x = workload)
    (concat (map (fun workload => concat (map (block workload) (shuffles c))) (workloads c))))).
  { rewrite list_filter_filter. apply list_filter_iff. tauto. }
  rewrite (filter_block _ spec_workload _ _ workload); try done.
  - rewrite (filter_block _ spec_shuffle _ _ shuffle); try done.
    intros z x (y & p & -> & _)%elem_of_block. done.
  - intros z x (s & _ & (y & p & -> & _)%elem_of_block)%elem_of_concat_map. done.
Qed.

(** A class of cases with one member has one trial in every round. *)
Lemma block_class (P : ReaderCase -> Prop) `{!forall x, Decision (P x)} workload shuffle case :
  filter P cases = [case] ->
  filter (fun x => P (spec_case x)) (block workload shuffle) =
  map (spec_of workload shuffle case) (seqZ 0 (repeats c)).
Proof.
  intros HP. unfold block. rewrite filter_concat_map, <- (concat_map_singleton (spec_of workload shuffle case)). f_equal. apply map_ext.
  intros pair. rewrite filter_map_map. cbn [spec_case]. by rewrite (filter_rotate P _ _ _ HP).
Qed.

Lemma results_of_schedule : Forall2 (fun spec t => run spec = Ret t) (schedule c paths cases) results.
Proof. by apply traverse_Forall2. Qed.

(** The dictionary of a class: one trial per round, the one that ran for it. *)
Lemma by_pair_class (P : ReaderCase -> Prop) (Q : TrialResult -> Prop) `{!forall x, Decision (P x), !forall x, Decision (Q x)}
    workload shuffle case : workload ∈ workloads c -> shuffle ∈ shuffles c ->
  filter P cases = [case] -> (forall t, Q t <-> P (trial_case t)) ->
  (by_pair Q (filter (in_group workload shuffle) results)).*1 = seqZ 0 (repeats c) /\
  forall pair, 0 <= pair < repeats c -> exists t,
    dict_get pair (by_pair Q (filter (in_group workload shuffle) results)) = Some t /\
    run (spec_of workload shuffle case pair) = Ret t.
Proof.
  intros Hw Hs HP HQ.
  assert (HF : Forall2 (fun spec t => run spec = Ret t) (map (spec_of workload shuffle case) (seqZ 0 (repeats c)))
    (filter Q (filter (in_group workload shuffle) results))).
  { rewrite <- (block_class P workload shuffle case HP), <- (block_of workload shuffle Hw Hs).
    apply Forall2_filter; [apply Forall2_filter; [apply results_of_schedule|]|].
    - intros x t (_ & E1 & E2 & _)%Hecho. unfold in_group. by rewrite E1, E2.
    - intros x t (E & _)%Hecho. by rewrite HQ, E. }
  change (map ?g ?l) with (g <$> l) in HF. apply Forall2_fmap_l in HF.
  set (ts := filter Q _) in *.
  assert (Hk : map trial_pair ts = seqZ 0 (repeats c)).
  { clear -HF Hecho. induction HF as [|p t ps ts Hp _ IH]; simpl; [done|]. rewrite IH. f_equal.
    by apply Hecho in Hp as (_ & _ & _ & ->). }
  assert (Hd : by_pair Q (filter (in_group workload shuffle) results) = map (fun t => (trial_pair t, t)) ts).
  { unfold by_pair. fold ts. apply dict_of_NoDup. change (map ?g ?l) with (g <$> l) at 1. rewrite <- list_fmap_compose.
    change (NoDup (map trial_pair ts)). rewrite Hk. apply NoDup_seqZ. }
  rewrite Hd. split; [change (map ?g ?l) with (g <$> l) at 1; by rewrite <- list_fmap_compose|].
  intros pair Hp. pose proof (lookup_seqZ_lt 0 (repeats c) (Z.to_nat pair) ltac:(lia)) as Hl.
  replace (0 + Z.of_nat (Z.to_nat pair)) with pair in Hl by lia.
  destruct (Forall2_lookup_l _ _ _ _ _ HF Hl) as (t & Ht & Hr). exists t. split; [|done].
  apply dict_get_elem.
  - change (map ?g ?l) with (g <$> l). rewrite <- list_fmap_compose.
    change (NoDup (map trial_pair ts)). rewrite Hk. apply NoDup_seqZ.
  - apply elem_of_map. exists t. split; [|by eapply list_elem_of_lookup_2].
    f_equal. by apply Hecho in Hr as (_ & _ & _ & ->).
Qed.

(** The rate a case reached in a round. *)
Definition rate (case : ReaderCase) (shuffle : bool) (workload : Workload) (pair : Z) : outcome pyfloat :=
  t ← run (spec_of workload shuffle case pair); samples_per_second (warm t).

Lemma rate_ratio_paired (A B : list (Z * TrialResult)) workload shuffle above below pair :
  (exists t, dict_get pair A = Some t /\ run (spec_of workload shuffle above pair) = Ret t) ->
  (exists t, dict_get pair B = Some t /\ run (spec_of workload shuffle below pair) = Ret t) ->
  rate_ratio A B pair = paired rate above below shuffle workload pair.
Proof.
  intros (a & Ha & Ra) (b & Hb & Rb). unfold rate_ratio, paired, rate, dict_index. rewrite Ha, Hb, Ra, Rb. done.
Qed.

Lemma group_contexts workload shuffle : workload ∈ workloads c -> shuffle ∈ shuffles c ->
  sort_by context_leb (remove_dups (map (fun t => case_context (trial_case t))
    (filter has_four (filter (in_group workload shuffle) results)))) =
  sort_by context_leb (if bool_decide (4 ∈ worker_counts c) then contexts c else []).
Proof.
  intros Hw Hs. destruct context_leb_order as (H1 & H2 & H3). apply sort_same_elements; [done..| |].
  { case_bool_decide; [apply (fact_contexts _ _ Hc)|constructor]. }
  assert (HF : Forall2 (fun spec t => run spec = Ret t)
    (filter (fun x => case_workers (spec_case x) = 4) (block workload shuffle))
    (filter has_four (filter (in_group workload shuffle) results))).
  { rewrite <- (block_of workload shuffle Hw Hs).
    apply Forall2_filter; [apply Forall2_filter; [apply results_of_schedule|]|].
    - intros x t (_ & E1 & E2 & _)%Hecho. unfold in_group. by rewrite E1, E2.
    - intros x t (E & _)%Hecho. unfold has_four. by rewrite E. }
  intros x. rewrite elem_of_map. split.
  - intros (t & -> & [i Ht]%list_elem_of_lookup_1). destruct (Forall2_lookup_r _ _ _ _ _ HF Ht) as (spec & Hsp & Hr).
    apply Hecho in Hr as (-> & _). apply list_elem_of_lookup_2, list_elem_of_filter in Hsp as [E4 Hb].
    apply elem_of_block in Hb as (y & pair & -> & Hy & _). simpl in *.
    apply elem_of_cases in Hy as [->|[->|(ctx & w & -> & Hctx & Hwc)]]; [done|done|]. simpl in *. subst w.
    by rewrite bool_decide_eq_true_2.
  - case_bool_decide as H4; [|by intros ?%elem_of_nil]. intros Hx.
    assert (Hin : spec_of workload shuffle (mk_case LoaderMode 4 x) 0 ∈
      filter (fun x => case_workers (spec_case x) = 4) (block workload shuffle)).
    { apply list_elem_of_filter. split; [done|]. apply elem_of_block. do 2 eexists. split; [done|].
      split; [apply elem_of_cases; eauto 10|]. pose proof (fact_repeats _ _ Hc). lia. }
    apply list_elem_of_lookup_1 in Hin as [i Hi]. destruct (Forall2_lookup_l _ _ _ _ _ HF Hi) as (t & Ht & Hr).
    exists t. apply Hecho in Hr as (-> & _). split; [done|]. by eapply list_elem_of_lookup_2.
Qed.

Lemma group_gates_reference workload shuffle : workload ∈ workloads c -> shuffle ∈ shuffles c ->
  group_gates results (workload, shuffle) = reference_group c rate (workload, shuffle).
Proof.
  intros Hw Hs. unfold group_gates, reference_group.
  destruct (by_pair_class _ is_native workload shuffle native_case Hw Hs (one_native methods c Hc) ltac:(done)) as [Kn Gn].
  destruct (by_pair_class _ is_serial workload shuffle serial_case Hw Hs (one_serial methods c Hc) ltac:(done)) as [Ks Gs].
  rewrite Kn, Ks, sort_seqZ, (group_contexts workload shuffle Hw Hs).
  rewrite (traverse_ext _ (fun pair => q ← paired rate native_case serial_case shuffle workload pair;
                                       Ret (f64_sub q (Finite 1 1)))).
  2: { intros pair Hp%elem_of_seqZ. rewrite (rate_ratio_paired _ _ workload shuffle native_case serial_case);
         [done|apply Gn; lia|apply Gs; lia]. }
  destruct (traverse _ (seqZ 0 (repeats c))) as [rs|]; [|done]. cbn [mbind outcome_bind].
  destruct (regression_gate workload shuffle rs) as [g|]; [|done]. cbn [mbind outcome_bind].
  destruct (negb (bool_decide (workload = Heavy))); [done|].
  erewrite (traverse_ext (fun context => ratios ← traverse (rate_ratio (by_pair (four_in context) _) _) _; _)); [done|].
  intros x Hx. rewrite sort_by_perm in Hx. case_bool_decide as H4; [|by apply elem_of_nil in Hx]. cbn beta.
  destruct (by_pair_class _ (four_in x) workload shuffle (mk_case LoaderMode 4 x) Hw Hs (one_four methods c Hc x Hx H4) ltac:(done))
    as [_ Gx].
  erewrite (traverse_ext (rate_ratio _ _)); [done|]. intros pair Hp%elem_of_seqZ.
  apply rate_ratio_paired; [apply Gx; lia|apply Gs; lia].
Qed.

Lemma groups_reference :
  sort_by group_leb (remove_dups (map (fun t => (trial_workload t, trial_shuffle t)) results)) =
  sort_by group_leb (list_prod (workloads c) (shuffles c)).
Proof.
  destruct group_leb_order as (H1 & H2 & H3). apply sort_same_elements; [done..| |].
  { apply NoDup_product; [apply (fact_workloads _ _ Hc)|apply (fact_shuffles _ _ Hc)]. }
  intros [w s]. rewrite elem_of_map, (list_elem_of_In (list_prod _ _)), in_prod_iff, <- !list_elem_of_In. split.
  - intros (t & [= -> ->] & [i Ht]%list_elem_of_lookup_1).
    destruct (Forall2_lookup_r _ _ _ _ _ results_of_schedule Ht) as (spec & Hsp & (_ & -> & -> & _)%Hecho).
    apply list_elem_of_lookup_2 in Hsp. rewrite schedule_blocks in Hsp.
    apply elem_of_concat_map in Hsp as (w & Hw & (s & Hs & (y & pair & -> & _)%elem_of_block)%elem_of_concat_map). done.
  - intros [Hw Hs]. destruct (by_pair_class _ is_native w s native_case Hw Hs (one_native methods c Hc) ltac:(done)) as [_ Gn].
    pose proof (fact_repeats _ _ Hc) as Hr. destruct (Gn 0 ltac:(lia)) as (t & _ & Ht).
    assert (Hin : spec_of w s native_case 0 ∈ schedule c paths cases).
    { rewrite schedule_blocks. apply elem_of_concat_map. exists w. split; [done|]. apply elem_of_concat_map.
      exists s. split; [done|]. apply elem_of_block. do 2 eexists. split; [done|]. split; [left|lia]. }
    apply list_elem_of_lookup_1 in Hin as [i Hi].
    destruct (Forall2_lookup_l _ _ _ _ _ results_of_schedule Hi) as (t' & Ht' & Hr').
    exists t'. apply Hecho in Hr' as (_ & -> & -> & _). split; [done|]. by eapply list_elem_of_lookup_2.
Qed.

Lemma gates_reference : performance_gates results = reference_gates c rate.
Proof.
  unfold performance_gates, reference_gates. rewrite groups_reference.
  rewrite (traverse_ext _ (reference_group c rate)); [done|]. intros [w s] Hx. rewrite sort_by_perm in Hx.
  apply list_elem_of_In, in_prod_iff in Hx as [Hw Hs]. apply group_gates_reference; by apply list_elem_of_In.
Qed.
End Schedule.

Lemma regression_gate_ok w sh ratios g : regression_gate w sh ratios = Ret g ->
  paired_ratios g = ratios /\ sufficient_repeats g = (5 <=? Z.of_nat (length ratios)).
Proof.
  unfold regression_gate, make_gate. intros H. apply bind_ret in H as (m & _ & H). ocase H. by injection H as <-.
Qed.

Lemma speedup_gate_ok w sh x ratios g : speedup_gate w sh x ratios = Ret g ->
  paired_ratios g = ratios /\ sufficient_repeats g = (5 <=? Z.of_nat (length ratios)).
Proof.
  unfold speedup_gate, make_gate. intros H. apply bind_ret in H as (m & _ & H). ocase H. by injection H as <-.
Qed.

(** Every gate of the reference holds one ratio per round. *)
Lemma reference_gates_rounds c rate gates g : 0 < repeats c -> reference_gates c rate = Ret gates -> g ∈ gates ->
  Z.of_nat (length (paired_ratios g)) = repeats c /\ sufficient_repeats g = (5 <=? repeats c).
Proof.
  intros Hr H Hg. unfold reference_gates in H. apply bind_ret in H as (gs & H%traverse_Forall2 & [= <-]).
  rewrite <- (map_id gs) in Hg. apply elem_of_concat_map in Hg as (l & [i Hl]%list_elem_of_lookup_1 & Hg).
  destruct (Forall2_lookup_r _ _ _ _ _ H Hl) as ([w sh] & _ & E). clear H Hl. unfold reference_group in E.
  assert (Hlen : forall B (h : Z -> outcome B) rs, traverse h (seqZ 0 (repeats c)) = Ret rs -> Z.of_nat (length rs) = repeats c).
  { intros B h rs Hh%traverse_Forall2. rewrite <- (Forall2_length _ _ _ Hh). apply seqZ_length_pos. lia. }
  apply bind_ret in E as (rs & Hrs & E). apply Hlen in Hrs.
  apply bind_ret in E as (g0 & Hg0%regression_gate_ok & E).
  assert (Hreg : g = g0 -> Z.of_nat (length (paired_ratios g)) = repeats c /\ sufficient_repeats g = (5 <=? repeats c)).
  { intros ->. destruct Hg0 as [-> ->]. by rewrite Hrs. }
  ocase E; [injection E as <-; apply list_elem_of_singleton in Hg; auto|].
  apply bind_ret in E as (gs' & Hs%traverse_Forall2 & [= <-]). apply elem_of_cons in Hg as [Hg|Hg]; [auto|].
  apply list_elem_of_lookup_1 in Hg as [k Hk]. destruct (Forall2_lookup_r _ _ _ _ _ Hs Hk) as (x & _ & Ex).
  apply bind_ret in Ex as (ratios & Hra & Hx). apply Hlen in Hra. apply speedup_gate_ok in Hx as [-> ->]. by rewrite Hra.
Qed.

(** The gates of a validated benchmark are the direct ones: when every trial
    reports what it was asked to measure, each regression ratio divides the native
    rate by the serial rate of the same round, workload and order, and each speedup
    the four-worker rate by the serial one, for every round in order, every group
    and, for heavy work with four workers among the counts, every context. No lookup
    of a round can fail, however the schedule rotates the cases, and every gate has
    one ratio per round. *)
Theorem gates_pair_rounds (methods : list pystr) (c : Benchmark) (paths : list path) (cases : list ReaderCase)
    (run : TrialSpec -> outcome TrialResult) (trials : list TrialResult)
    (Hc : make_benchmark methods c = Ret c) (Hecho : forall spec t, run spec = Ret t -> echoes spec t)
    (Hcases : reader_cases (contexts c) (worker_counts c) = Ret cases)
    (Hrun : traverse run (schedule c paths cases) = Ret trials) :
  performance_gates trials = reference_gates c (rate c paths run) /\
  forall gates g, performance_gates trials = Ret gates -> g ∈ gates ->
    Z.of_nat (length (paired_ratios g)) = repeats c /\ sufficient_repeats g = (5 <=? repeats c).
Proof.
  apply make_benchmark_facts in Hc as [_ Hc]. rewrite (reader_cases_ok methods c Hc) in Hcases.
  injection Hcases as <-. pose proof (gates_reference methods c Hc paths run Hecho trials Hrun) as E.
  split; [done|]. intros gates g Hg. rewrite E in Hg. by eapply reference_gates_rounds; [apply Hc|exact Hg].
Qed.

(** Trials that report a rate depending on the case and the round. *)
Definition small_run (spec : TrialSpec) : outcome TrialResult :=
  let pass := mk_pass (Finite 0 1) (Finite 1 1)
                (Finite 1 (Z.to_pos (1 + case_workers (spec_case spec) + spec_pair spec))) 2 4 64 [42]
                (mk_resources 1 1 1 1) in
  Ret (mk_trial (spec_case spec) (spec_shuffle spec) (spec_workload spec) (spec_pair spec) (Finite 1 1) pass pass
         (Finite 1 1)).

Lemma gates_pair_rounds_witness :
  exists trials gates, traverse small_run (schedule small [] [native_case; serial_case; mk_case LoaderMode 1 Fork;
    mk_case LoaderMode 4 Fork]) = Ret trials /\ performance_gates trials = Ret gates /\
    map (fun g => (gate_workload g, gate_shuffle g, paired_ratios g)) gates =
      [(Cheap, false, [Finite 0 1; Finite 0 1]); (Cheap, true, [Finite 0 1; Finite 0 1]);
       (Heavy, false, [Finite 0 1; Finite 0 1]); (Heavy, false, [Finite 5 1; Finite 3 1]);
       (Heavy, true, [Finite 0 1; Finite 0 1]); (Heavy, true, [Finite 5 1; Finite 3 1])] /\
    forall g, g ∈ gates -> Z.of_nat (length (paired_ratios g)) = 2.
Proof.
  destruct (traverse small_run (schedule small [] [native_case; serial_case; mk_case LoaderMode 1 Fork;
    mk_case LoaderMode 4 Fork])) as [trials|] eqn:E; [|vm_compute in E; discriminate E].
  destruct (gates_pair_rounds small_methods small [] [native_case; serial_case; mk_case LoaderMode 1 Fork;
    mk_case LoaderMode 4 Fork] small_run trials) as [Hg Hl].
  - vm_compute. reflexivity.
  - intros spec t [= <-]. done.
  - vm_compute. reflexivity.
  - exact E.
  - destruct (performance_gates trials) as [gates|] eqn:Eg.
    + exists trials, gates. split; [reflexivity|]. split; [exact Eg|]. split.
      * vm_compute in E. injection E as <-. vm_compute in Eg. injection Eg as <-. reflexivity.
      * intros g Hin. exact (proj1 (Hl gates g eq_refl Hin)).
    + vm_compute in E. injection E as <-. vm_compute in Eg. discriminate Eg.
Defined.
