(* ===== verification/BenchWriter.v ===== *)
(** The writer benchmark of [src/scripts/bench_writer.py]: prepared sources, one
    verified measurement, the rotating schedule and the paired speedups. Hashing, the
    write itself, clock readings and process counters are parameters. *)
From stdpp Require Import base tactics list numbers strings gmap sorting.
From S2P Require Import Prelude Collections Binary64 Records Config Seeds Native Metadata Interface Dataset Refinement Passes Runtime BenchReader BenchProofs BenchGates.
Open Scope Z_scope.

(** * Iterating over a whole dataset *)

Section Drain.
Context {N : NativeReader} {A : Type} (step : A -> CachedSample -> outcome A).

(** [for sample in dataset: ...]; [None] when the fuel is used up. *)
Fixpoint drain (fuel : nat) (a : A) (g : generator) (d : CachedDataset) : option (outcome A) :=
  match fuel with
  | O => None
  | S fuel =>
      match gen_next g d with
      | (Raise e, _, _) => Some (Raise e)
      | (Ret None, _, _) => Some (Ret a)
      | (Ret (Some s), g, d) =>
          match step a s with
          | Raise e => Some (Raise e)
          | Ret a => drain fuel a g d
          end
      end
  end.

(** One iteration needs one call more than the dataset has samples. *)
Definition for_each (a : A) (d : CachedDataset) : option (outcome A) :=
  drain (S (S (Z.to_nat (dataset_len d)))) a GenNew d.
End Drain.

(** * Sources *)

Record PreparedSource := mk_prepared {
  prepared_name : pystr;
  prepared_samples : Z;
  prepared_payload_bytes : Z;
  prepared_rounds : Z }.

Record SourceObservation := mk_observation {
  observed_started : pyfloat;
  observed_first_sample : pyfloat;
  observed_pid : Z }.

Section Writer.
Context (sha256 : list Z -> list Z).

(** The record of one index: the index, then its repeated hash, cut to size. *)
Definition prepared_input (s : PreparedSource) (index : Z) : outcome CacheInput :=
  value ← to_bytes 8 index;
  let digest := sha256 (Nat.iter (Z.to_nat (prepared_rounds s)) sha256 value) in
  let payload := take (Z.to_nat (prepared_payload_bytes s))
                   (value ++ repeat_bytes ((prepared_payload_bytes s + 31) / 32) digest) in
  Ret (mk_input payload {[ lit "index" := MInt index ]}).

Definition prepared_iter (s : PreparedSource) : outcome (list CacheInput) :=
  traverse (prepared_input s) (seqZ 0 (prepared_samples s)).

(** * Settings *)

Record WriterBenchmark := mk_writer_benchmark {
  wb_samples : Z;
  wb_sources : Z;
  wb_payload_bytes : Z;
  wb_preparation_rounds : Z;
  wb_native_workers : Z;
  wb_prefetch_size : Z;
  wb_repeats : Z;
  wb_processes : list Z;
  wb_process_timeout_seconds : pyfloat }.

Definition writer_fields_valid (c : WriterBenchmark) : bool :=
  (0 <? wb_samples c) && (0 <? wb_sources c) && (8 <=? wb_payload_bytes c) && (0 <=? wb_preparation_rounds c) &&
  (0 <? wb_native_workers c) && (0 <? wb_prefetch_size c) && (1 <=? wb_repeats c) && nonempty (wb_processes c) &&
  float_isfinite (wb_process_timeout_seconds c) && float_gt0 (wb_process_timeout_seconds c).

Definition check_processes (processes : list Z) : outcome unit :=
  require (negb (existsb (fun n => n <? 0) processes || negb (bool_decide (NoDup processes))))
    (ValueError (lit "process counts must be distinct nonnegative integers")).

(** [model_copy(update={"samples": 16})]. *)
Definition warmup (c : WriterBenchmark) : WriterBenchmark :=
  mk_writer_benchmark 16 (wb_sources c) (wb_payload_bytes c) (wb_preparation_rounds c) (wb_native_workers c)
    (wb_prefetch_size c) (wb_repeats c) (wb_processes c) (wb_process_timeout_seconds c).

(** * One measurement *)

Record ProcessPeaks := mk_peaks { peak_rss_bytes : Z; peak_threads : Z; peak_processes : Z }.

(** One process of a tick: its memory and its threads, [None] where it had vanished or
    refused; what was read before counts. *)
Abbreviation member := (option Z * option Z)%type.

Definition member_rss (m : member) : Z := default 0 m.1.
Definition member_threads (m : member) : Z := match m with (Some _, Some t) => t | _ => 0 end.
Definition member_counted (m : member) : Z := match m with (Some _, Some _) => 1 | _ => 0 end.

(** [observe_resources]: the maxima over the ticks of the observer. *)
Definition observe_tick (tree : list member) (peaks : ProcessPeaks) : ProcessPeaks :=
  mk_peaks (Z.max (peak_rss_bytes peaks) (Zsum (map member_rss tree)))
    (Z.max (peak_threads peaks) (Zsum (map member_threads tree)))
    (Z.max (peak_processes peaks) (Zsum (map member_counted tree))).
Definition observe_resources (ticks : list (list member)) (peaks : ProcessPeaks) : ProcessPeaks :=
  fold_left (fun peaks tree => observe_tick tree peaks) ticks peaks.

Record Measurement := mk_measurement {
  m_pair : Z;
  m_workload : Workload;
  m_processes : Z;
  m_write_seconds : pyfloat;
  m_first_source_seconds : pyfloat;
  m_first_sample_seconds : pyfloat;
  m_accepted_samples : Z;
  m_accepted_bytes : Z;
  m_writer_pids : list Z;
  m_resources : ProcessPeaks }.

Definition measured_sources (c : WriterBenchmark) (workload : Workload) : list PreparedSource :=
  map (fun index => mk_prepared (lit "source-" ++ dec index) (wb_samples c) (wb_payload_bytes c)
                      (match workload with Heavy => wb_preparation_rounds c | Cheap => 0 end))
    (seqZ 0 (wb_sources c)).

(** What surrounds one measurement: the write under a configuration, the clock around
    it, the resource observer and the observation files. *)
Record write_env := mk_write_env {
  we_write : DatasetRuntime -> WriterConfig -> list PreparedSource -> outcome (list CacheWriteResult);
  we_render : pystr -> pystr -> pystr;
  we_started : pyfloat;
  we_finished : pyfloat;
  we_observer_alive : bool;
  we_peaks : ProcessPeaks;
  we_records : outcome (list SourceObservation) }.

Definition measured_writer_config (c : WriterBenchmark) (processes : Z) : outcome WriterConfig :=
  make_writer_config (mk_writer_config processes (wb_process_timeout_seconds c) (wb_prefetch_size c)
    (max_shard_bytes DEFAULT_WRITER_CONFIG) DEFAULT_SHARD_COMPRESSION false false DEFAULT_WRITER_PROFILER_CONFIG).

(** [min(...)] of an iterable of floats. *)
Definition py_min (l : list pyfloat) : outcome pyfloat :=
  match l with
  | [] => Raise (ValueError (lit "min() iterable argument is empty"))
  | x :: r => Ret (fold_left (fun m y => if float_ltb y m then y else m) r x)
  end.

(** One sample of the verification loop: count and bytes. *)
Definition verify_sample (a : Z * Z) (s : CachedSample) : outcome (Z * Z) :=
  _ ← require (from_bytes (take 8 (sample_data s)) =? sample_sample_id s) (AssertionError []);
  Ret (a.1 + 1, a.2 + Z.of_nat (length (sample_data s))).

Context {N : NativeReader}.

(** The dataset that verifies a write. *)
Definition written_dataset (env : write_env) (c : WriterBenchmark) (workload : Workload) (processes : Z)
  : outcome CachedDataset :=
  runtime ← new_runtime (wb_native_workers c);
  config ← measured_writer_config c processes;
  results ← we_write env runtime config (measured_sources c workload);
  _ ← require (negb (we_observer_alive env)) (RuntimeError (lit "resource observer did not stop"));
  paths ← fixture_paths (we_render env) results;
  cached_dataset runtime paths (mk_reader_config 0 64 false true).

Definition measure (env : write_env) (c : WriterBenchmark) (pair : Z) (workload : Workload) (processes : Z)
  : option (outcome Measurement) :=
  match written_dataset env c workload processes with
  | Raise e => Some (Raise e)
  | Ret dataset =>
      match for_each verify_sample (0, 0) dataset with
      | None => None
      | Some r => Some (
          '(count, byte_count) ← r;
          _ ← require (count =? wb_samples c * wb_sources c) (AssertionError []);
          _ ← require (byte_count =? count * wb_payload_bytes c) (AssertionError []);
          records ← we_records env;
          first ← py_min (map observed_started records);
          sample ← py_min (map observed_first_sample records);
          Ret (mk_measurement pair workload processes (f64_sub (we_finished env) (we_started env))
                 (f64_sub first (we_started env)) (f64_sub sample (we_started env)) count byte_count
                 (sort_by Z.leb (elements (list_to_set (C := gset Z) (map observed_pid records)))) (we_peaks env)))
      end
  end.
End Writer.

(** * Speedups *)

Definition is_control (m : Measurement) : Prop := m_processes m = 0.
#[export] Instance is_control_dec m : Decision (is_control m).
Proof. unfold is_control. apply _. Defined.

Definition controls (ms : list Measurement) : list (Z * Workload * pyfloat) :=
  dict_of (map (fun m => ((m_pair m, m_workload m), m_write_seconds m)) (filter is_control ms)).

Abbreviation ratio_table := (list (Workload * list (Z * list pyfloat))).

(** [ratios.setdefault(w, {}).setdefault(p, []).append(r)]. *)
Definition append_ratio (w : Workload) (p : Z) (r : pyfloat) (ratios : ratio_table) : ratio_table :=
  let cases := default [] (dict_get w ratios) in
  dict_set w (dict_set p (default [] (dict_get p cases) ++ [r]) cases) ratios.

Fixpoint collect_ratios (ctl : list (Z * Workload * pyfloat)) (ms : list Measurement) (ratios : ratio_table)
  : outcome ratio_table :=
  match ms with
  | [] => Ret ratios
  | m :: rest =>
      match dict_get (m_pair m, m_workload m) ctl with
      | None => collect_ratios ctl rest ratios
      | Some control =>
          r ← f64_div control (m_write_seconds m);
          collect_ratios ctl rest (append_ratio (m_workload m) (m_processes m) r ratios)
      end
  end.

Definition paired_speedups (ms : list Measurement) : outcome (list (Workload * list (Z * pyfloat))) :=
  ratios ← collect_ratios (controls ms) ms [];
  traverse (fun '(w, cases) => l ← traverse (fun '(p, values) => m ← median values; Ret (p, m)) cases; Ret (w, l))
    ratios.

(** * The schedule *)

Definition workload_order : list Workload := [Heavy; Cheap].

(** The measurements of the rounds, in the order they run. *)
Definition writer_schedule (c : WriterBenchmark) : list (Z * Workload * Z) :=
  concat (map (fun pair => concat (map (fun workload => map (fun processes => (pair, workload, processes))
    (rotate (pair mod Z.of_nat (length (wb_processes c))) (wb_processes c))) workload_order))
    (seqZ 0 (wb_repeats c))).

Definition writer_files : list pystr :=
  map lit ["dataset_rt/writer.py"; "dataset_rt/config.py"; "dataset_rt/runtime.py"; "scripts/bench_writer.py"]%string.

Definition fingerprints (sha256 : list Z -> list Z) (read : pystr -> outcome (list Z))
  : outcome (list (pystr * list Z)) :=
  traverse (fun name => b ← read name; Ret (name, sha256 b)) writer_files.

(** * Iteration ends *)

Lemma drain_running {N : NativeReader} {A} (step : A -> CachedSample -> outcome A) fuel :
  forall a p total e d, total - e <= Z.of_nat fuel -> exists r, drain step (S fuel) a (GenRunning p total e) d = Some r.
Proof.
  induction fuel as [|fuel IH]; intros a p total e d Hf; cbn [drain]; unfold gen_next, run_next;
    (destruct (Z.leb_spec total e); [by eexists|]); [lia|].
  destruct (next_physical_index _ _ p e) as [[i|] p']; [|by eexists].
  destruct (load_planned_sample _ i) as [s|]; [|by eexists]. destruct (step a s) as [a'|]; [|by eexists].
  apply IH. lia.
Qed.

Lemma for_each_total {N : NativeReader} {A} (step : A -> CachedSample -> outcome A) a d :
  exists r, for_each step a d = Some r.
Proof.
  unfold for_each. cbn [drain]. unfold gen_next. destruct (epoch_plan _ _) as [[p s]|] eqn:E; [|by eexists].
  apply epoch_plan_len in E. unfold run_next. destruct (Z.leb_spec (plan_len p) 0); [by eexists|].
  destruct (next_physical_index _ _ p 0) as [[i|] p']; [|by eexists].
  destruct (load_planned_sample _ i) as [x|]; [|by eexists]. destruct (step a x) as [a'|]; [|by eexists].
  apply drain_running. unfold dataset_len, native_len. lia.
Qed.

(** A whole pass over samples every step accepts, with an invariant on the samples to
    go. *)
Lemma drain_pending {N : NativeReader} {L : NativeReaderLaws N} {A} (step : A -> CachedSample -> outcome A) d0 T good
    (Hpop : 1 <= T /\ forall index, 0 <= index < T ->
       exists s, load_planned_sample (cd_inner d0) index = Ok s /\ good s)
    (I : nat -> A -> Prop) (Hstep : forall n a s, good s -> I (S n) a -> exists a', step a s = Ret a' /\ I n a') fuel :
  forall n a pos g d, (n < fuel)%nat -> at_pending d0 T (Z.of_nat n) pos (g, d) -> I n a ->
  exists b, drain step fuel a g d = Some (Ret b) /\ I O b.
Proof.
  induction fuel as [|fuel IH]; intros n a pos g d Hf Hat HI; [lia|]. cbn [drain]. destruct n as [|n].
  - destruct (at_pending_end d0 T good Hpop pos g d Hat) as [g' ->]. by exists a.
  - destruct (at_pending_next d0 T good Hpop (Z.of_nat (S n)) pos g d ltac:(lia) Hat) as (s & g' & d' & -> & Hs & Hat').
    destruct (Hstep n a s Hs HI) as (a' & -> & HI'). replace (Z.of_nat (S n) - 1) with (Z.of_nat n) in Hat' by lia.
    by apply (IH n a' pos g' d'); [lia|..].
Qed.

(** Over caches of one size. *)
Lemma uniform_pass {N : NativeReader} {L : NativeReaderLaws N} {A} (step : A -> CachedSample -> outcome A)
    workers paths reader d K m good (I : nat -> A -> Prop) a :
  cached_dataset_load workers paths reader = Ret d -> 1 <= K -> 1 <= m -> K * m <= U64_MAX ->
  Z.of_nat (length (nat_caches (cd_inner d))) = K ->
  (forall k cache, nat_caches (cd_inner d) !! k = Some cache -> sample_count cache = m /\
     forall i, 0 <= i < m -> exists s, sample_of cache i = Ok s /\ good s) ->
  (forall n a s, good s -> I (S n) a -> exists a', step a s = Ret a' /\ I n a') -> I (Z.to_nat (K * m)) a ->
  exists b, for_each step a d = Some (Ret b) /\ I O b.
Proof.
  intros Hd HK Hm Hb Hlen Hall Hstep HI.
  assert (Hcount : forall k cache, nat_caches (cd_inner d) !! k = Some cache -> sample_count cache = m)
    by (intros k cache Hk; by destruct (Hall k cache Hk)).
  destruct (uniform_total _ _ _ d Hd K m HK Hlen Hcount) as [Ht Hdl].
  assert (Hpop : 1 <= K * m /\ forall index, 0 <= index < K * m ->
    exists s, load_planned_sample (cd_inner d) index = Ok s /\ good s).
  { split; [nia|]. intros index Hi.
    destruct (uniform_sample _ _ _ d Hd K m HK Hm Hlen Hcount index Hi) as (k & cache & Hk & _ & Hj & ->).
    destruct (Hall k cache Hk) as [_ Hs]. by apply Hs. }
  pose proof (loaded_pending d (K * m) _ _ _ Hd Ht Hdl Hb) as Hat.
  unfold for_each. rewrite Hdl. replace (K * m) with (Z.of_nat (Z.to_nat (K * m))) in Hat at 2 by lia.
  apply (drain_pending step d (K * m) good Hpop I Hstep _ (Z.to_nat (K * m)) a (K * m)); [lia|done|done].
Qed.

(** * Verified measurements *)

Lemma prepared_payload sha256 s index : (forall b, Z.of_nat (length (sha256 b)) = 32) -> 0 <= index < 2 ^ 64 ->
  8 <= prepared_payload_bytes s ->
  exists i, prepared_input sha256 s index = Ret i /\
    Z.of_nat (length (input_data i)) = prepared_payload_bytes s /\ from_bytes (take 8 (input_data i)) = index.
Proof.
  intros Hsha Hi Hb. unfold prepared_input.
  destruct (to_bytes_ok 8 index) as (q & -> & Hlq & Hfq); [lia|done|]. simpl. eexists. split; [done|]. simpl.
  split.
  - rewrite length_take, length_app.
    pose proof (length_repeat_bytes ((prepared_payload_bytes s + 31) / 32)
      (sha256 (Nat.iter (Z.to_nat (prepared_rounds s)) sha256 q)) ltac:(dlia)) as Hr.
    rewrite Hsha in Hr. dlia.
  - rewrite take_take. replace (8 `min` Z.to_nat (prepared_payload_bytes s))%nat with (length q) by lia.
    by rewrite take_app_length.
Qed.

(** The caches a write has left: one per source, whose records read back as the source
    yielded them. *)
Definition sound_write {N : NativeReader} (sha256 : list Z -> list Z) (c : WriterBenchmark) (workload : Workload)
    (d : CachedDataset) : Prop :=
  Z.of_nat (length (nat_caches (cd_inner d))) = wb_sources c /\
  forall k cache source, nat_caches (cd_inner d) !! k = Some cache -> measured_sources c workload !! k = Some source ->
    sample_count cache = prepared_samples source /\
    forall i input, 0 <= i < prepared_samples source -> prepared_input sha256 source i = Ret input ->
      read_payload cache i = Ok (input_data input, input_metadata input).

(** The verification loop over sound caches counts every sample. *)
Lemma verified_pass {N : NativeReader} {L : NativeReaderLaws N} sha256 (Hsha : forall b, Z.of_nat (length (sha256 b)) = 32)
    env c processes workload (Hc : writer_fields_valid c = true) (Hbound : wb_samples c * wb_sources c <= U64_MAX)
    d (Hd : written_dataset env c workload processes = Ret d) (Hs : sound_write sha256 c workload d) :
  for_each verify_sample (0, 0) d =
    Some (Ret (wb_samples c * wb_sources c, wb_samples c * wb_sources c * wb_payload_bytes c)).
Proof.
  unfold writer_fields_valid in Hc. bools. unfold written_dataset in Hd.
  do 5 (apply bind_ret in Hd as (? & _ & Hd)). unfold cached_dataset in Hd. destruct Hs as [Hlen Hall].
  assert (Hsrc : forall k cache, nat_caches (cd_inner d) !! k = Some cache -> exists source,
    measured_sources c workload !! k = Some source /\ prepared_samples source = wb_samples c /\
    prepared_payload_bytes source = wb_payload_bytes c).
  { intros k cache Hk%lookup_lt_Some. unfold measured_sources. change (map ?g ?l) with (g <$> l).
    rewrite list_lookup_fmap, lookup_seqZ_lt by lia. simpl. by eexists. }
  assert (Hcount : forall k cache, nat_caches (cd_inner d) !! k = Some cache -> sample_count cache = wb_samples c).
  { intros k cache Hk. destruct (Hsrc k cache Hk) as (source & Hso & <- & _). by destruct (Hall k cache source Hk Hso). }
  destruct (uniform_pass verify_sample _ _ _ d (wb_sources c) (wb_samples c)
    (fun s => from_bytes (take 8 (sample_data s)) = sample_sample_id s /\
              Z.of_nat (length (sample_data s)) = wb_payload_bytes c)
    (fun n a => a.1 = wb_samples c * wb_sources c - Z.of_nat n /\ a.2 = a.1 * wb_payload_bytes c) (0, 0) Hd)
    as ([count bytes] & -> & [Ec Eb]); [lia|lia|lia|done| | |simpl; split; nia|].
  - intros k cache Hk. split; [by apply (Hcount k)|]. intros i Hi. assert (wb_samples c <= wb_samples c * wb_sources c) by nia.
    destruct (Hsrc k cache Hk) as (source & Hso & Hn & Hb). destruct (Hall k cache source Hk Hso) as [_ Hread].
    destruct (prepared_payload sha256 source i) as (input & Hin & Hl & Hf);
      [done|rewrite U64_MAX_eq in Hbound; lia|lia|].
    unfold sample_of. rewrite (Hread i input ltac:(lia) Hin). eexists. split; [done|]. split; [done|]. simpl. lia.
  - intros n [count bytes] s [Hid Hl] [H1' H2']. unfold verify_sample, require. rewrite Hid, Z.eqb_refl, Hl. simpl in *.
    eexists. split; [done|]. simpl. lia.
  - simpl in *. do 2 f_equal. f_equal; lia.
Qed.

(** A measurement of the writer benchmark always ends; when it is accepted, its
    counts are exactly those of the sources and its processes are those of the
    observation files; and when the written caches read back what the sources
    yielded it is accepted, for any number of processes. *)
Theorem writer_measurement_verified {N : NativeReader} {L : NativeReaderLaws N} (sha256 : list Z -> list Z)
    (env : write_env) (c : WriterBenchmark) (pair processes : Z) (workload : Workload)
    (Hsha : forall b, Z.of_nat (length (sha256 b)) = 32) (Hc : writer_fields_valid c = true)
    (Hbound : wb_samples c * wb_sources c <= U64_MAX) :
  exists r, measure env c pair workload processes = Some r /\
    (forall m, r = Ret m -> m_pair m = pair /\ m_workload m = workload /\ m_processes m = processes /\
       m_accepted_samples m = wb_samples c * wb_sources c /\
       m_accepted_bytes m = wb_samples c * wb_sources c * wb_payload_bytes c /\
       exists records, we_records env = Ret records /\ StronglySorted Z.le (m_writer_pids m) /\
         NoDup (m_writer_pids m) /\ forall pid, pid ∈ m_writer_pids m <-> pid ∈ map observed_pid records) /\
    (forall d records, written_dataset env c workload processes = Ret d -> sound_write sha256 c workload d ->
       we_records env = Ret records -> records <> [] -> returns r).
Proof.
  unfold measure. destruct (written_dataset env c workload processes) as [d|e] eqn:Ed;
    [|eexists; split; [done|]; split; [done|]; by intros].
  destruct (for_each_total verify_sample (0, 0) d) as [r Hr]. rewrite Hr. eexists. split; [done|]. split.
  - intros m Hm. apply bind_ret in Hm as ([count byte_count] & -> & Hm).
    apply bind_ret in Hm as (? & Hcount%require_ret & Hm). apply bind_ret in Hm as (? & Hbytes%require_ret & Hm).
    apply bind_ret in Hm as (records & Hrec & Hm). apply bind_ret in Hm as (? & _ & Hm).
    apply bind_ret in Hm as (? & _ & [= <-]). bools. subst. simpl. split_and!; try done.
    exists records. split_and!; [done|apply sorted_Zleb|rewrite sort_by_perm; apply NoDup_elements|].
    intros pid. by rewrite sort_by_perm, elem_of_elements, elem_of_list_to_set.
  - intros d' records [= <-] Hs Hrec Hne.
    rewrite (verified_pass sha256 Hsha env c processes workload Hc Hbound d Ed Hs) in Hr. injection Hr as <-.
    cbn [mbind outcome_bind]. unfold require. rewrite !Z.eqb_refl. cbn [mbind outcome_bind].
    rewrite Hrec. destruct records as [|x records]; [done|]. by eexists.
Qed.

Definition small_writer : WriterBenchmark := mk_writer_benchmark 2 2 8 1 1 4 2 [0; 2; 4] (Finite 60 1).
Definition zero_sha (b : list Z) : list Z := replicate 32 0.

(** Two caches whose records are those of their sources. *)
Definition writer_native : NativeReader := {|
  uniform := fun key n => key mod n; weighted := fun _ _ => 0; distribution_error := fun _ => None;
  open_cache := fun _ _ position => Ok (mk_cache position [] [[]; []] []);
  read_payload := fun cache i =>
    match prepared_input zero_sha (mk_prepared (lit "source") 2 8 1) i with
    | Ret input => Ok (input_data input, input_metadata input)
    | Raise _ => Err WorkerFailed
    end;
  resolve := fun p => p |}.

Lemma writer_native_laws : NativeReaderLaws writer_native.
Proof. split; [split; simpl; intros; [apply Z.mod_pos_bound|]; lia|done]. Qed.

Definition small_write_env : write_env :=
  mk_write_env (fun _ _ sources => Ret (map (fun s => CacheWriteSuccess (prepared_name s) [prepared_name s]) sources))
    (fun _ m => m) (Finite 0 1) (Finite 5 1) false (mk_peaks 1 1 1)
    (Ret [mk_observation (Finite 2 1) (Finite 3 1) 9; mk_observation (Finite 1 1) (Finite 4 1) 8]).

Lemma writer_measurement_verified_witness :
  exists m, @measure writer_native small_write_env small_writer 0 Heavy 2 = Some (Ret m) /\
    m_accepted_samples m = 4 /\ m_accepted_bytes m = 32 /\ m_writer_pids m = [8; 9] /\
    m_first_source_seconds m = Finite 1 1.
Proof.
  destruct (@writer_measurement_verified writer_native writer_native_laws zero_sha small_write_env small_writer 0 2 Heavy)
    as (r & Hr & Hok & Hret).
  - reflexivity.
  - reflexivity.
  - vm_compute. discriminate.
  - destruct (@written_dataset writer_native small_write_env small_writer Heavy 2) as [d|] eqn:Ed;
      [|vm_compute in Ed; discriminate Ed].
    assert (Hs : @sound_write writer_native zero_sha small_writer Heavy d).
    { assert (Hd : nat_caches (cd_inner d) = [mk_cache 0 [] [[]; []] []; mk_cache 1 [] [[]; []] []])
        by (vm_compute in Ed; injection Ed as <-; reflexivity).
      split; [rewrite Hd; reflexivity|]. rewrite Hd. intros k cache source Hk Hs.
      destruct k as [|[|k]]; [| |discriminate Hk]; injection Hk as <-; injection Hs as <-;
        (split; [reflexivity|]); intros i input _ Hi; cbn [read_payload writer_native];
        by rewrite (Hi : prepared_input zero_sha (mk_prepared (lit "source") 2 8 1) i = Ret input). }
    destruct (Hret d _ eq_refl Hs eq_refl ltac:(discriminate)) as [m Hm].
    exists m. rewrite Hm in Hr. split; [exact Hr|]. vm_compute in Hr. injection Hr as <-. by split_and!.
Defined.

(** * Paired speedups *)

(** The ratios collected for a workload and a process count. *)
Definition table_get (w : Workload) (p : Z) (t : ratio_table) : list pyfloat :=
  default [] (dict_get p (default [] (dict_get w t))).

Lemma append_ratio_get w p r t w' p' : table_get w' p' (append_ratio w p r t) =
  if decide ((w, p) = (w', p')) then table_get w p t ++ [r] else table_get w' p' t.
Proof.
  unfold table_get, append_ratio. rewrite dict_get_set. destruct (decide (w = w')) as [<-|Hw]; simpl.
  - rewrite dict_get_set. destruct (decide (p = p')) as [<-|Hp]; [by rewrite decide_True|].
    rewrite decide_False by congruence. done.
  - rewrite decide_False by congruence. done.
Qed.

Section Speedups.
Context (ctl : list (Z * Workload * pyfloat)).

(** The measurements of a workload and a process count that have a control. *)
Definition counted (w : Workload) (p : Z) (m : Measurement) : Prop :=
  m_workload m = w /\ m_processes m = p /\ is_Some (dict_get (m_pair m, m_workload m) ctl).
#[export] Instance counted_dec w p m : Decision (counted w p m).
Proof. unfold counted. apply _. Defined.

Definition ratio_of (m : Measurement) : outcome pyfloat :=
  control ← dict_index (m_pair m, m_workload m) ctl; f64_div control (m_write_seconds m).

Lemma collect_ratios_get w p ms : forall t t', collect_ratios ctl ms t = Ret t' ->
  exists rs, traverse ratio_of (filter (counted w p) ms) = Ret rs /\ table_get w p t' = table_get w p t ++ rs.
Proof.
  induction ms as [|m ms IH]; intros t t' H; [injection H as <-; exists []; by rewrite app_nil_r|]. simpl in H.
  destruct (dict_get (m_pair m, m_workload m) ctl) as [control|] eqn:E.
  - apply bind_ret in H as (r & Hr & H). destruct (IH _ _ H) as (rs & Hrs & Ht). rewrite append_ratio_get in Ht.
    destruct (decide ((m_workload m, m_processes m) = (w, p))) as [[= <- <-]|Hne].
    + rewrite filter_cons_True by (split_and!; [done|done|rewrite E; eauto]). exists (r :: rs). cbn [traverse].
      assert (ratio_of m = Ret r) as -> by (unfold ratio_of, dict_index; by rewrite E).
      rewrite Hrs. split; [done|]. by rewrite Ht, <- app_assoc.
    + rewrite filter_cons_False; [eauto|]. intros (<- & <- & _). done.
  - rewrite filter_cons_False; [eauto|]. unfold counted. rewrite E. by intros (_ & _ & [? ?]).
Qed.
End Speedups.

(** Mapping the values of a dictionary. *)
Lemma traverse_dict {K V W} `{EqDecision K} (g : V -> outcome W) (d : list (K * V)) (d' : list (K * W)) :
  traverse (fun '(k, v) => y ← g v; Ret (k, y)) d = Ret d' ->
  forall k v, dict_get k d = Some v -> exists y, g v = Ret y /\ dict_get k d' = Some y.
Proof.
  revert d'. induction d as [|[k0 v0] d IH]; intros d' H k v Hk; [done|]. cbn [traverse] in H.
  apply bind_ret in H as (y & Hy & H). apply bind_ret in Hy as (y0 & Hy0 & [= <-]).
  apply bind_ret in H as (ys & Hys & [= <-]). simpl in *. destruct (decide (k0 = k)) as [<-|]; [|eauto].
  injection Hk as <-. eauto.
Qed.

Lemma table_get_some w p t l : table_get w p t = l -> l <> [] ->
  exists cases, dict_get w t = Some cases /\ dict_get p cases = Some l.
Proof.
  unfold table_get. intros <- Hne. destruct (dict_get w t) as [cases|]; [|done]. exists cases. split; [done|].
  simpl in *. by destruct (dict_get p cases).
Qed.

Lemma workload_order_ok : NoDup workload_order /\ forall w, w ∈ workload_order.
Proof. split; [by apply (bool_decide_unpack _)|]. intros []; unfold workload_order; [left|right; left]. Qed.

Section WriterSchedule.
Context (c : WriterBenchmark) (run : WriterBenchmark -> Z -> Workload -> Z -> outcome Measurement)
  (Hecho : forall k w p m, run c k w p = Ret m -> m_pair m = k /\ m_workload m = w /\ m_processes m = p).
Context (Hdistinct : NoDup (wb_processes c)) (ms : list Measurement)
  (Hrun : traverse (fun '(k, w, p) => run c k w p) (writer_schedule c) = Ret ms).

Abbreviation entry := (Z * Workload * Z)%type.

Definition round_block (k : Z) : list entry :=
  concat (map (fun workload => map (fun processes => (k, workload, processes))
    (rotate (k mod Z.of_nat (length (wb_processes c))) (wb_processes c))) workload_order).

Lemma measured : Forall2 (fun (x : entry) m => run c x.1.1 x.1.2 x.2 = Ret m) (writer_schedule c) ms.
Proof.
  apply traverse_Forall2 in Hrun. eapply Forall2_impl; [exact Hrun|]. by intros [[k w] p] m.
Qed.

Lemma rotated_process p k : p ∈ wb_processes c -> filter (fun x => x = p) (rotate k (wb_processes c)) = [p].
Proof.
  intros Hp. apply filter_rotate. rewrite <- (map_id (wb_processes c)), <- (concat_map_singleton (fun x => x)).
  rewrite (filter_block (fun x => x = p) (fun x => x) (fun x => [x]) _ p); try done.
  by intros z x ->%list_elem_of_singleton.
Qed.

(** Each round measures a workload with a process count once. *)
Lemma round_once w p k : p ∈ wb_processes c ->
  filter (fun x : entry => x.1.2 = w /\ x.2 = p) (round_block k) = [(k, w, p)].
Proof.
  intros Hp. unfold round_block.
  transitivity (filter (fun x : entry => x.2 = p) (filter (fun x : entry => x.1.2 = w) (round_block k))).
  { rewrite list_filter_filter. apply list_filter_iff. tauto. }
  unfold round_block. rewrite (filter_block _ (fun x : entry => x.1.2) _ _ w).
  - rewrite filter_map_map. cbn [snd]. by rewrite rotated_process.
  - by intros z x (y & -> & _)%elem_of_map.
  - done.
  - apply workload_order_ok.
  - apply workload_order_ok.
Qed.

Lemma schedule_class w p : p ∈ wb_processes c ->
  filter (fun x : entry => x.1.2 = w /\ x.2 = p) (writer_schedule c) = map (fun k => (k, w, p)) (seqZ 0 (wb_repeats c)).
Proof.
  intros Hp. change (writer_schedule c) with (concat (map round_block (seqZ 0 (wb_repeats c)))).
  rewrite filter_concat_map, <- (concat_map_singleton (fun k => (k, w, p))). f_equal. apply map_ext.
  intros k. by apply round_once.
Qed.

Lemma measured_class w p : p ∈ wb_processes c ->
  Forall2 (fun k m => run c k w p = Ret m) (seqZ 0 (wb_repeats c))
    (filter (fun m => m_workload m = w /\ m_processes m = p) ms).
Proof.
  intros Hp. apply (Forall2_fmap_l (fun k => (k, w, p)) (fun (x : entry) m => run c x.1.1 x.1.2 x.2 = Ret m)).
  change (?g <$> ?l) with (map g l). rewrite <- schedule_class by done.
  apply Forall2_filter; [apply measured|]. intros [[k w'] p'] m (_ & <- & <-)%Hecho. done.
Qed.

Lemma control_keys : 0 ∈ wb_processes c ->
  map (fun m => (m_pair m, m_workload m)) (filter is_control ms) = list_prod (seqZ 0 (wb_repeats c)) workload_order.
Proof.
  intros H0.
  assert (HF : Forall2 (fun (x : entry) m => run c x.1.1 x.1.2 x.2 = Ret m)
    (filter (fun x : entry => x.2 = 0) (writer_schedule c)) (filter is_control ms)).
  { apply Forall2_filter; [apply measured|]. intros [[k w] p] m (_ & _ & <-)%Hecho. done. }
  transitivity (map fst (filter (fun x : entry => x.2 = 0) (writer_schedule c))).
  { clear -HF Hecho. induction HF as [|[[k w] p] m xs l Hm _ IH]; simpl; [done|]. rewrite IH.
    apply Hecho in Hm as (-> & -> & _). done. }
  change (writer_schedule c) with (concat (map round_block (seqZ 0 (wb_repeats c)))). rewrite filter_concat_map.
  induction (seqZ 0 (wb_repeats c)) as [|k l IH]; [done|]. cbn [map concat list_prod]. rewrite map_app, IH. f_equal.
  unfold round_block, workload_order. cbn [map concat]. rewrite app_nil_r, filter_app, !filter_map_map. cbn [snd].
  by rewrite !rotated_process.
Qed.

(** The control of a round is its serial measurement. *)
Lemma controls_get w k m : 0 ∈ wb_processes c -> 0 <= k < wb_repeats c -> run c k w 0 = Ret m ->
  dict_get (k, w) (controls ms) = Some (m_write_seconds m).
Proof.
  intros H0 Hk Hm. unfold controls.
  assert (Hn : NoDup (map (fun m => ((m_pair m, m_workload m), m_write_seconds m)) (filter is_control ms)).*1).
  { change (?g <$> map ?f ?l) with (map g (map f l)). rewrite map_map. cbn [fst]. rewrite control_keys by done.
    apply NoDup_product; [apply NoDup_seqZ|]. apply workload_order_ok. }
  rewrite dict_of_NoDup by done. apply dict_get_elem; [done|]. apply elem_of_map. exists m.
  apply Hecho in Hm as Hm'. destruct Hm' as (<- & <- & _). split; [done|].
  pose proof (lookup_seqZ_lt 0 (wb_repeats c) (Z.to_nat (m_pair m)) ltac:(lia)) as Hl.
  replace (0 + Z.of_nat (Z.to_nat (m_pair m))) with (m_pair m) in Hl by lia.
  destruct (Forall2_lookup_l _ _ _ _ _ (measured_class (m_workload m) 0 H0) Hl) as (m' & Hm' & E).
  rewrite E in Hm. injection Hm as ->. apply list_elem_of_lookup_2, list_elem_of_filter in Hm' as [[_ ?] ?].
  by apply list_elem_of_filter.
Qed.

(** The ratio of a round: its serial time over the time with [p] processes. *)
Definition round_ratio (w : Workload) (p k : Z) : outcome pyfloat :=
  control ← run c k w 0;
  m ← run c k w p;
  f64_div (m_write_seconds control) (m_write_seconds m).

Lemma class_ratios w p : 0 ∈ wb_processes c -> p ∈ wb_processes c ->
  traverse (ratio_of (controls ms)) (filter (counted (controls ms) w p) ms) =
  traverse (round_ratio w p) (seqZ 0 (wb_repeats c)).
Proof.
  intros H0 Hp. pose proof (measured_class w p Hp) as HF.
  assert (Hctl : forall k, 0 <= k < wb_repeats c -> exists m0, run c k w 0 = Ret m0 /\
    dict_get (k, w) (controls ms) = Some (m_write_seconds m0)).
  { intros k Hk. pose proof (lookup_seqZ_lt 0 (wb_repeats c) (Z.to_nat k) ltac:(lia)) as Hl.
    replace (0 + Z.of_nat (Z.to_nat k)) with k in Hl by lia.
    destruct (Forall2_lookup_l _ _ _ _ _ (measured_class w 0 H0) Hl) as (m0 & _ & E). exists m0.
    split; [done|]. by apply controls_get. }
  rewrite (filter_ext_elem _ (fun m => m_workload m = w /\ m_processes m = p)).
  - symmetry. apply (traverse_Forall2_ext _ _ _ _ _ HF). intros k m Hk%elem_of_seqZ Hm.
    destruct (Hctl k ltac:(lia)) as (m0 & E0 & Ec). unfold round_ratio, ratio_of, dict_index. rewrite E0, Hm.
    apply Hecho in Hm as (-> & -> & _). by rewrite Ec.
  - intros m Hin. unfold counted. split; [by intros (? & ? & _)|]. intros [Hw Hpm]. split_and!; [done|done|].
    assert (Hm : m ∈ filter (fun m => m_workload m = w /\ m_processes m = p) ms) by (by apply list_elem_of_filter).
    apply list_elem_of_lookup_1 in Hm as [i Hi]. destruct (Forall2_lookup_r _ _ _ _ _ HF Hi) as (k & Hk & E).
    apply list_elem_of_lookup_2, elem_of_seqZ in Hk. apply Hecho in E as (-> & -> & _).
    destruct (Hctl k ltac:(lia)) as (m0 & _ & ->). by eexists.
Qed.
End WriterSchedule.

(** The reported speedup of a workload with a process count is the median, over
    all rounds in order, of the serial time of the round over the time with that many
    processes: controls and measurements of one round are always paired, however the
    rounds rotate the counts. *)
Theorem speedups_pair_controls (c : WriterBenchmark)
    (run : WriterBenchmark -> Z -> Workload -> Z -> outcome Measurement) (ms : list Measurement)
    (speedups : list (Workload * list (Z * pyfloat))) (w : Workload) (p : Z)
    (Hvalid : writer_fields_valid c = true) (Hprocesses : check_processes (wb_processes c) = Ret tt)
    (Hcontrol : 0 ∈ wb_processes c) (Hp : p ∈ wb_processes c)
    (Hecho : forall k w p m, run c k w p = Ret m -> m_pair m = k /\ m_workload m = w /\ m_processes m = p)
    (Hrun : traverse (fun '(k, w, p) => run c k w p) (writer_schedule c) = Ret ms)
    (Hspeed : paired_speedups ms = Ret speedups) :
  exists ratios m, traverse (round_ratio c run w p) (seqZ 0 (wb_repeats c)) = Ret ratios /\
    median ratios = Ret m /\ (cases ← dict_get w speedups; dict_get p cases) = Some m.
Proof.
  apply require_ret in Hprocesses. bools. apply bool_decide_eq_true in H0 as Hn.
  unfold paired_speedups in Hspeed. apply bind_ret in Hspeed as (t & Ht & Hs).
  destruct (collect_ratios_get (controls ms) w p ms [] t Ht) as (rs & Hrs & Hg).
  rewrite (class_ratios c run Hecho Hn ms Hrun w p Hcontrol Hp) in Hrs. exists rs.
  assert (Hne : rs <> []).
  { apply traverse_Forall2, Forall2_length in Hrs. unfold writer_fields_valid in Hvalid. bools.
    rewrite length_seqZ in Hrs. intros ->. simpl in Hrs. lia. }
  destruct (table_get_some w p t rs Hg Hne) as (cases & Hw & Hpc).
  destruct (traverse_dict (fun cases => traverse (fun '(p, values) => m ← median values; Ret (p, m)) cases) t speedups
    Hs w cases Hw) as (l & Hl & Hwl).
  destruct (traverse_dict median cases l Hl p rs Hpc) as (m & Hm & Hpl).
  exists m. split_and!; [done|done|]. by rewrite Hwl.
Qed.

Definition small_timing (c : WriterBenchmark) (k : Z) (w : Workload) (p : Z) : outcome Measurement :=
  Ret (mk_measurement k w p (Finite (12 + k * 12) (Z.to_pos (p + 1))) (Finite 0 1) (Finite 0 1) 4 32 [8; 9] (mk_peaks 1 1 1)).

Lemma speedups_pair_controls_witness :
  exists ms speedups, traverse (fun '(k, w, p) => small_timing small_writer k w p) (writer_schedule small_writer) = Ret ms /\
    paired_speedups ms = Ret speedups /\
    (cases ← dict_get Heavy speedups; dict_get 2 cases) = Some (Finite 3 1).
Proof.
  destruct (traverse (fun '(k, w, p) => small_timing small_writer k w p) (writer_schedule small_writer)) as [ms|] eqn:E;
    [|vm_compute in E; discriminate E].
  destruct (paired_speedups ms) as [speedups|] eqn:Es;
    [|vm_compute in E; injection E as <-; vm_compute in Es; discriminate Es].
  destruct (speedups_pair_controls small_writer small_timing ms speedups Heavy 2) as (ratios & m & Hr & Hm & Hg).
  - reflexivity.
  - vm_compute. reflexivity.
  - left.
  - right. left.
  - by intros k w p m [= <-].
  - exact E.
  - exact Es.
  - exists ms, speedups. split; [reflexivity|]. split; [exact Es|]. rewrite Hg. f_equal.
    vm_compute in Hr. injection Hr as <-. vm_compute in Hm. by injection Hm as <-.
Defined.
