(* ===== verification/BenchBaseline.v ===== *)
(** The serial baseline of [src/scripts/bench_parallel.py] and the smoke benchmark of
    [src/scripts/bench_smoke.py]: their sources, their measurements, and that both
    read exactly what was written. Hashing, writing, the clock and the process
    counters are parameters. *)
From stdpp Require Import base tactics list numbers strings gmap.
From S2P Require Import Prelude Collections Binary64 Records Config Seeds Native Metadata Interface Dataset Refinement Passes Runtime BenchReader BenchProofs BenchWriter.
Open Scope Z_scope.

(** * The baseline *)

Record BaselineSource := mk_baseline_source {
  bs_name : pystr;
  bs_samples : Z;
  bs_payload_bytes : Z;
  bs_rounds : Z }.

Record BaselineBenchmark := mk_baseline {
  bb_samples : Z;
  bb_sources : Z;
  bb_payload_bytes : Z;
  bb_preparation_rounds : Z;
  bb_transform_rounds : Z;
  bb_native_workers : Z;
  bb_prefetch_size : Z;
  bb_repeats : Z }.

Definition baseline_valid (c : BaselineBenchmark) : bool :=
  (0 <? bb_samples c) && (0 <? bb_sources c) && (0 <? bb_payload_bytes c) && (0 <=? bb_preparation_rounds c) &&
  (0 <=? bb_transform_rounds c) && (0 <? bb_native_workers c) && (0 <? bb_prefetch_size c) && (1 <=? bb_repeats c).

Record BaselineMeasurement := mk_baseline_measurement {
  bm_write_seconds : pyfloat;
  bm_startup_seconds : pyfloat;
  bm_first_sample_seconds : pyfloat;
  bm_read_transform_seconds : pyfloat;
  bm_cleanup_seconds : pyfloat;
  bm_accepted : Z;
  bm_bytes_read : Z;
  bm_rss_bytes : Z;
  bm_threads : Z;
  bm_file_descriptors : Z }.

(** The durations of a measurement and the counters read at its end. *)
Record baseline_env := mk_baseline_env {
  be_write : DatasetRuntime -> WriterConfig -> list BaselineSource -> outcome (list CacheWriteResult);
  be_render : pystr -> pystr -> pystr;
  be_write_seconds : pyfloat;
  be_startup_seconds : pyfloat;
  be_first_seconds : pyfloat;
  be_read_seconds : pyfloat;
  be_cleanup_seconds : pyfloat;
  be_rss : Z;
  be_threads : Z;
  be_descriptors : Z }.

Section Baseline.
Context (sha256 : list Z -> list Z).

(** [prepare]: the hash of the decimal digits, [rounds + 1] times. *)
Definition prepare (index rounds : Z) : list Z := sha256 (Nat.iter (Z.to_nat rounds) sha256 (dec index)).

Definition baseline_input (s : BaselineSource) (index : Z) : CacheInput :=
  mk_input (take (Z.to_nat (bs_payload_bytes s))
              (repeat_bytes ((bs_payload_bytes s + 31) / 32) (prepare index (bs_rounds s))))
    {[ lit "index" := MInt index ]}.

Definition baseline_iter (s : BaselineSource) : list CacheInput := map (baseline_input s) (seqZ 0 (bs_samples s)).

Definition baseline_sources (c : BaselineBenchmark) : list BaselineSource :=
  map (fun index => mk_baseline_source (lit "source-" ++ dec index) (bb_samples c) (bb_payload_bytes c)
                      (bb_preparation_rounds c)) (seqZ 0 (bb_sources c)).

(** The accepted samples, the bytes read, the time of the first sample and the
    transforms done, in order. *)
Record baseline_tally := mk_baseline_tally {
  bt_accepted : Z;
  bt_bytes : Z;
  bt_first : pyfloat;
  bt_prepared : list (list Z) }.

Definition baseline_step (env : baseline_env) (c : BaselineBenchmark) (a : baseline_tally) (s : CachedSample)
  : outcome baseline_tally :=
  let accepted := bt_accepted a + 1 in
  Ret (mk_baseline_tally accepted (bt_bytes a + Z.of_nat (length (sample_data s)))
         (if accepted =? 1 then be_first_seconds env else bt_first a)
         (bt_prepared a ++ [prepare (sample_sample_id s) (bb_transform_rounds c)])).

Context {N : NativeReader}.

Definition baseline_dataset (env : baseline_env) (c : BaselineBenchmark) : outcome CachedDataset :=
  runtime ← new_runtime (bb_native_workers c);
  config ← make_writer_config (mk_writer_config 0 (process_timeout_seconds DEFAULT_WRITER_CONFIG) (bb_prefetch_size c)
             (max_shard_bytes DEFAULT_WRITER_CONFIG) DEFAULT_SHARD_COMPRESSION false false DEFAULT_WRITER_PROFILER_CONFIG);
  results ← be_write env runtime config (baseline_sources c);
  paths ← fixture_paths (be_render env) results;
  reader ← make_reader_config (mk_reader_config 42 (bb_prefetch_size c) true false);
  cached_dataset runtime paths reader.

(** [measure]; removing the temporary directory is not part of the result. *)
Definition baseline_measure (env : baseline_env) (c : BaselineBenchmark) : option (outcome BaselineMeasurement) :=
  match baseline_dataset env c with
  | Raise e => Some (Raise e)
  | Ret dataset =>
      match for_each (baseline_step env c) (mk_baseline_tally 0 0 (Finite 0 1) []) dataset with
      | None => None
      | Some r => Some (
          t ← r;
          _ ← require (bt_accepted t =? bb_samples c * bb_sources c) (AssertionError []);
          _ ← require (bt_bytes t =? bt_accepted t * bb_payload_bytes c) (AssertionError []);
          Ret (mk_baseline_measurement (be_write_seconds env) (be_startup_seconds env) (bt_first t)
                 (be_read_seconds env) (be_cleanup_seconds env) (bt_accepted t) (bt_bytes t) (be_rss env)
                 (be_threads env) (be_descriptors env)))
      end
  end.
End Baseline.

(** * The smoke benchmark *)

Definition SAMPLE_COUNT : Z := 10000.
Definition PAYLOAD_BYTES : Z := 1024.

Definition synthetic_input (index : Z) : CacheInput :=
  mk_input (repeat_bytes PAYLOAD_BYTES [120]) {[ lit "index" := MInt index; lit "split" := MString (lit "train") ]}.

Definition synthetic_iter : list CacheInput := map synthetic_input (seqZ 0 SAMPLE_COUNT).

Record smoke_report := mk_smoke_report {
  sr_samples : Z;
  sr_payload_bytes : Z;
  sr_total_bytes_read : Z;
  sr_write_seconds : pyfloat;
  sr_read_seconds : pyfloat;
  sr_write_rate : pyfloat;
  sr_read_rate : pyfloat }.

Section Smoke.
Context {N : NativeReader}.

(** [written] is the write of the source with [prefetch_size=128]; the two durations
    are clock differences. *)
Definition smoke_main (render : list CacheWriteResult -> pystr -> pystr)
    (written : DatasetRuntime -> outcome (list CacheWriteResult)) (write_seconds read_seconds : pyfloat)
  : option (outcome smoke_report) :=
  match (runtime ← new_runtime 4;
         from_cache_sources runtime (mk_reader_config 42 128 false false) (written runtime)) with
  | Raise e => Some (Raise e)
  | Ret (CacheSourcesDatasetError results message) => Some (Raise (RuntimeError (render results message)))
  | Ret (CacheSourcesDatasetSuccess dataset _) =>
      match for_each (fun total s => Ret (total + Z.of_nat (length (sample_data s)))) 0 dataset with
      | None => None
      | Some r => Some (
          byte_count ← r;
          count ← float_of_int SAMPLE_COUNT;
          write_rate ← f64_div count write_seconds;
          read_rate ← f64_div count read_seconds;
          Ret (mk_smoke_report SAMPLE_COUNT PAYLOAD_BYTES byte_count write_seconds read_seconds write_rate read_rate))
      end
  end.
End Smoke.

(** * Reading back what was written *)

Lemma baseline_payload sha256 s index : (forall b, Z.of_nat (length (sha256 b)) = 32) -> 0 <= bs_payload_bytes s ->
  Z.of_nat (length (input_data (baseline_input sha256 s index))) = bs_payload_bytes s.
Proof.
  intros Hsha Hb. simpl. rewrite length_take.
  pose proof (length_repeat_bytes ((bs_payload_bytes s + 31) / 32) (prepare sha256 index (bs_rounds s)) ltac:(dlia)) as Hr.
  unfold prepare in *. rewrite Hsha in Hr. dlia.
Qed.

(** Caches of one size whose samples all have the payload size. *)
Definition uniform_payload {N : NativeReader} (K m bytes : Z) (d : CachedDataset) : Prop :=
  Z.of_nat (length (nat_caches (cd_inner d))) = K /\
  forall k cache, nat_caches (cd_inner d) !! k = Some cache -> sample_count cache = m /\
    forall i, 0 <= i < m -> exists data metadata, read_payload cache i = Ok (data, metadata) /\
      Z.of_nat (length data) = bytes.

Lemma uniform_payload_samples {N : NativeReader} K m bytes d : uniform_payload K m bytes d ->
  forall k cache, nat_caches (cd_inner d) !! k = Some cache -> sample_count cache = m /\
    forall i, 0 <= i < m -> exists s, sample_of cache i = Ok s /\ Z.of_nat (length (sample_data s)) = bytes.
Proof.
  intros [_ Hall] k cache Hk. destruct (Hall k cache Hk) as [Hm Hr]. split; [done|]. intros i Hi.
  destruct (Hr i Hi) as (data & metadata & E & Hl). unfold sample_of. rewrite E. by eexists.
Qed.

(** A baseline measurement always ends, and when the written caches hold every
    sample with its full payload it is accepted and counts exactly the samples and
    bytes of the sources, although the reader draws them at random. *)
Theorem baseline_reads_back {N : NativeReader} {L : NativeReaderLaws N} (sha256 : list Z -> list Z)
    (env : baseline_env) (c : BaselineBenchmark) (Hc : baseline_valid c = true)
    (Hbound : bb_samples c * bb_sources c <= U64_MAX) :
  exists r, baseline_measure sha256 env c = Some r /\
    forall d, baseline_dataset env c = Ret d -> uniform_payload (bb_sources c) (bb_samples c) (bb_payload_bytes c) d ->
      exists m, r = Ret m /\ bm_accepted m = bb_samples c * bb_sources c /\
        bm_bytes_read m = bb_samples c * bb_sources c * bb_payload_bytes c /\
        bm_first_sample_seconds m = be_first_seconds env.
Proof.
  unfold baseline_measure. destruct (baseline_dataset env c) as [d|e] eqn:Ed; [|eexists; split; [done|]; by intros].
  destruct (for_each_total (baseline_step sha256 env c) (mk_baseline_tally 0 0 (Finite 0 1) []) d) as [r Hr]. rewrite Hr.
  eexists. split; [done|]. intros d' [= <-] Hu. unfold baseline_valid in Hc. bools.
  unfold baseline_dataset in Ed. do 5 (apply bind_ret in Ed as (? & _ & Ed)).
  destruct (uniform_pass (baseline_step sha256 env c) _ _ _ d (bb_sources c) (bb_samples c)
    (fun s => Z.of_nat (length (sample_data s)) = bb_payload_bytes c)
    (fun n a => bt_accepted a = bb_samples c * bb_sources c - Z.of_nat n /\ bt_bytes a = bt_accepted a * bb_payload_bytes c /\
       (0 <= bt_accepted a) /\ (0 < bt_accepted a -> bt_first a = be_first_seconds env))
    (mk_baseline_tally 0 0 (Finite 0 1) []) Ed)
    as (t & Ht & E1 & E2 & E3 & E4); [lia|lia|lia|apply Hu|exact (uniform_payload_samples _ _ _ d Hu)| |simpl; split_and!; nia|].
  - intros n a s Hl (I1 & I2 & I3 & I4). eexists. split; [done|]. simpl. split_and!; [lia|rewrite I2, Hl; lia|lia|].
    intros _. destruct (Z.eqb_spec (bt_accepted a + 1) 1); [done|]. apply I4. lia.
  - rewrite Ht in Hr. injection Hr as <-. cbn [mbind outcome_bind]. unfold require.
    assert (E : bt_accepted t = bb_samples c * bb_sources c) by lia. rewrite E2, E, !Z.eqb_refl. cbn [mbind outcome_bind].
    eexists. split; [done|]. simpl. split_and!; [done|done|]. apply E4. nia.
Qed.

(** The smoke benchmark reports the bytes of every synthetic sample. *)
Theorem smoke_reads_back {N : NativeReader} {L : NativeReaderLaws N} render written write_seconds read_seconds r results d
    (Hr : smoke_main render written write_seconds read_seconds = Some (Ret r))
    (Hw : written (mk_runtime 4) = Ret results)
    (Hd : cached_dataset_load 4 (successful_cache_paths results) (mk_reader_config 42 128 false false) = Ret d)
    (Hu : uniform_payload 1 SAMPLE_COUNT PAYLOAD_BYTES d) :
  sr_total_bytes_read r = SAMPLE_COUNT * PAYLOAD_BYTES.
Proof.
  unfold smoke_main in Hr. change (new_runtime 4) with (Ret (mk_runtime 4)) in Hr. cbn [mbind outcome_bind] in Hr.
  unfold from_cache_sources in Hr. rewrite Hw in Hr. cbn [mbind outcome_bind] in Hr. unfold cached_dataset in Hr.
  destruct (successful_cache_paths results) as [|p ps] eqn:Ep; [discriminate Hr|].
  cbn [runtime_num_workers] in Hr. rewrite Hd in Hr. cbn [mbind outcome_bind] in Hr.
  destruct (uniform_pass (fun total s => Ret (total + Z.of_nat (length (sample_data s)))) _ _ _ d 1 SAMPLE_COUNT
    (fun s => Z.of_nat (length (sample_data s)) = PAYLOAD_BYTES)
    (fun n a => a = (SAMPLE_COUNT - Z.of_nat n) * PAYLOAD_BYTES) 0 Hd)
    as (b & Hb & Eb); [done|done|done|apply Hu|exact (uniform_payload_samples _ _ _ d Hu)| |done|].
  - intros n a s Hl ->. eexists. split; [done|]. lia.
  - rewrite Hb in Hr. cbn [mbind outcome_bind] in Hr. destruct (float_of_int SAMPLE_COUNT) as [count|]; cbn [mbind outcome_bind] in Hr; [|discriminate Hr].
    destruct (f64_div count write_seconds) as [x|]; cbn [mbind outcome_bind] in Hr; [|discriminate Hr].
    destruct (f64_div count read_seconds) as [y|]; cbn [mbind outcome_bind] in Hr; [|discriminate Hr]. injection Hr as Hr. rewrite <- Hr.
    cbn [sr_total_bytes_read]. rewrite Eb. lia.
Qed.

Definition small_baseline : BaselineBenchmark := mk_baseline 2 2 8 1 1 1 4 1.
Definition small_baseline_env : baseline_env :=
  mk_baseline_env (fun _ _ sources => Ret (map (fun s => CacheWriteSuccess (bs_name s) [bs_name s]) sources))
    (fun _ m => m) (Finite 1 1) (Finite 1 1) (Finite 1 2) (Finite 1 1) (Finite 1 1) 1 1 1.

Lemma baseline_reads_back_witness :
  exists m, @baseline_measure zero_sha writer_native small_baseline_env small_baseline = Some (Ret m) /\
    bm_accepted m = 4 /\ bm_bytes_read m = 32 /\ bm_first_sample_seconds m = Finite 1 2.
Proof.
  destruct (@baseline_reads_back writer_native writer_native_laws zero_sha small_baseline_env small_baseline) as (r & Hr & Hd).
  - reflexivity.
  - vm_compute. discriminate.
  - destruct (@baseline_dataset writer_native small_baseline_env small_baseline) as [d|] eqn:Ed;
      [|vm_compute in Ed; discriminate Ed].
    assert (Hu : @uniform_payload writer_native 2 2 8 d).
    { assert (Hc : nat_caches (cd_inner d) = [mk_cache 0 [] [[]; []] []; mk_cache 1 [] [[]; []] []])
        by (vm_compute in Ed; injection Ed as <-; reflexivity).
      split; [rewrite Hc; reflexivity|]. rewrite Hc. intros k cache Hk.
      destruct k as [|[|k]]; [| |discriminate Hk]; injection Hk as <-; (split; [reflexivity|]); intros i Hi;
        assert (i = 0 \/ i = 1) as [-> | ->] by lia; eexists _, _; (split; [vm_compute; reflexivity|reflexivity]). }
    destruct (Hd d eq_refl Hu) as (m & -> & H1 & H2 & H3). exists m. split; [exact Hr|]. by split_and!.
Defined.
