(* ===== verification/BenchReports.v ===== *)
(** The commands around the measurements of [src/scripts/bench_reader.py],
    [bench_writer.py] and [bench_parallel.py]: progress, the identity of the machine and
    of the code, and the report that is written once everything was measured. The host, the
    clock and the JSON text of a report are parameters. *)
From stdpp Require Import base tactics list numbers strings gmap.
From S2P Require Import Prelude Collections Binary64 Records Config PyStr Native Dataset BenchReader BenchProofs BenchGates BenchWriter BenchBaseline.
Open Scope Z_scope.

(** * Commands *)

(** What a command does outside of its process. *)
Inductive effect :=
| Stderr (line : pystr)
| MadeDirectory (p : path)
| WroteText (p : path) (text : pystr)
| Stdout (line : pystr).

Definition command (A : Type) : Type := list effect * outcome A.

#[export] Instance command_ret : MRet command := fun A a => ([], Ret a).
#[export] Instance command_bind : MBind command := fun A B f m =>
  match m with
  | (done, Ret a) => let '(more, r) := f a in (done ++ more, r)
  | (done, Raise e) => (done, Raise e)
  end.

Definition compute {A} (r : outcome A) : command A := ([], r).
Definition say (quiet : bool) (line : pystr) : command unit := (if quiet then [] else [Stderr line], Ret tt).
Definition print (line : pystr) : command unit := ([Stdout line], Ret tt).

Fixpoint each {A B} (f : A -> command B) (l : list A) : command (list B) :=
  match l with
  | [] => mret []
  | x :: r => y ← f x; ys ← each f r; mret (y :: ys)
  end.

(** The machine: a failing write leaves a part of its text in the truncated file. *)
Record host := mk_host {
  host_now : pystr;
  host_git : list pystr -> outcome pystr;
  host_platform : pystr;
  host_machine : pystr;
  host_python : pystr;
  host_version : pystr -> outcome pystr;
  host_cpus : option Z;
  host_memory : Z;
  host_mkdir : path -> outcome unit;
  host_write : path -> pystr -> option (pystr * py_exc) }.

Section Commands.
Context (h : host).

Definition mkdir_parents (p : path) : command unit :=
  match host_mkdir h p with Ret _ => ([MadeDirectory p], Ret tt) | Raise e => ([], Raise e) end.

Definition write_report (p : path) (text : pystr) : command unit :=
  match host_write h p text with
  | None => ([WroteText p text], Ret tt)
  | Some (partial, e) => ([WroteText p partial], Raise e)
  end.

(** [subprocess.run(["git", ...], check=True)]. *)
Definition revision : outcome pystr := strip <$> host_git h [lit "rev-parse"; lit "HEAD"].

(** [psutil.cpu_count() or 1]. *)
Definition cpu_count : Z := match host_cpus h with Some n => if n =? 0 then 1 else n | None => 1 end.

(** The end of every command: the directory, the file with its newline, the answer. *)
Definition publish_report (output : path) (rendered answer : pystr) : command unit :=
  _ ← mkdir_parents (removelast output);
  _ ← write_report output (rendered ++ lit (String (Ascii.ascii_of_nat 10) ""));
  print answer.

(** * The baseline *)

Record BaselineReport := mk_baseline_report {
  br_recorded_at : pystr;
  br_revision : pystr;
  br_platform : pystr;
  br_machine : pystr;
  br_python : pystr;
  br_cpu_count : option Z;
  br_memory_bytes : Z;
  br_settings : BaselineBenchmark;
  br_filesystem_cache : pystr;
  br_measurements : list BaselineMeasurement }.

(** [run] is [measure] at each repetition. *)
Definition baseline_report (quiet : bool) (run : Z -> outcome BaselineMeasurement) (c : BaselineBenchmark)
  : command BaselineReport :=
  measurements ← each (fun index =>
      _ ← say quiet (lit "Baseline run " ++ dec (index + 1) ++ lit "/" ++ dec (bb_repeats c));
      compute (run index)) (seqZ 0 (bb_repeats c));
  head ← compute revision;
  mret (mk_baseline_report (host_now h) head (host_platform h) (host_machine h) (host_python h) (host_cpus h)
          (host_memory h) c (lit "fresh write then read; warm filesystem cache") measurements).

Definition baseline_cli_cmd (render : BaselineReport -> pystr) (quiet : bool) (output : path)
    (run : Z -> outcome BaselineMeasurement) (c : BaselineBenchmark) : command unit :=
  report ← baseline_report quiet run c;
  publish_report output (render report) (render report).

(** * The writer benchmark *)

Record WriterReport := mk_writer_report {
  wr_recorded_at : pystr;
  wr_revision : pystr;
  wr_fingerprints : list (pystr * list Z);
  wr_platform : pystr;
  wr_python : pystr;
  wr_cpu_count : Z;
  wr_memory_bytes : Z;
  wr_settings : WriterBenchmark;
  wr_measurements : list Measurement;
  wr_paired_speedups : list (Workload * list (Z * pyfloat));
  wr_scope : pystr }.

(** Checks, discarded warmups, the rounds and the unchanged sources; [prints] are the
    fingerprints before and after. *)
Definition writer_report (prints : outcome (list (pystr * list Z)) * outcome (list (pystr * list Z)))
    (run : WriterBenchmark -> Z -> Workload -> Z -> outcome Measurement) (quiet : bool) (c : WriterBenchmark)
  : command WriterReport :=
  _ ← compute (check_processes (wb_processes c));
  fingerprints ← compute prints.1;
  _ ← each (fun w => each (fun p => compute (run (warmup c) (-1) w p)) (wb_processes c)) workload_order;
  measurements ← each (fun '(k, w, p) =>
      _ ← say quiet (lit "Writer pair " ++ dec (k + 1) ++ lit "/" ++ dec (wb_repeats c) ++ lit ": " ++
                     workload_name w ++ lit ", processes=" ++ dec p);
      compute (run c k w p)) (writer_schedule c);
  now ← compute prints.2;
  _ ← compute (require (bool_decide (now = fingerprints))
        (RuntimeError (lit "writer or benchmark sources changed during measurement")));
  head ← compute revision;
  speedups ← compute (paired_speedups measurements);
  mret (mk_writer_report (host_now h) head fingerprints (host_platform h) (host_python h) cpu_count (host_memory h)
          c measurements speedups (lit "T10 descriptive writer measurements; final combined acceptance is T12")).

(** [show] is the text of the speedups alone. *)
Definition writer_cli_cmd (render : WriterReport -> pystr) (show : list (Workload * list (Z * pyfloat)) -> pystr)
    (prints : outcome (list (pystr * list Z)) * outcome (list (pystr * list Z)))
    (run : WriterBenchmark -> Z -> Workload -> Z -> outcome Measurement) (quiet : bool) (output : path)
    (c : WriterBenchmark) : command unit :=
  report ← writer_report prints run quiet c;
  publish_report output (render report) (show (wr_paired_speedups report)).

(** * The reader benchmark *)

Record Environment := mk_environment {
  en_recorded_at : pystr;
  en_revision : pystr;
  en_worktree_dirty : bool;
  en_benchmark_sha256 : list Z;
  en_reader_sha256 : list Z;
  en_platform : pystr;
  en_python : pystr;
  en_torch : pystr;
  en_psutil : pystr;
  en_cpus : Z;
  en_memory_bytes : Z }.

(** [environment()]: the files are read once more. *)
Definition report_environment (sha256 : list Z -> list Z) (read : pystr -> outcome (list Z)) (self : pystr) : outcome Environment :=
  head ← host_git h [lit "rev-parse"; lit "HEAD"];
  dirty ← host_git h [lit "status"; lit "--porcelain"];
  benchmark ← sha256 <$> read self;
  reader ← reader_fingerprint sha256 read;
  torch ← host_version h (lit "torch");
  psutil ← host_version h (lit "psutil");
  Ret (mk_environment (host_now h) (strip head) (nonempty dirty) benchmark reader (host_platform h)
         (host_python h) torch psutil cpu_count (host_memory h)).

Record Report := mk_report {
  rp_environment : Environment;
  rp_settings : Benchmark;
  rp_trials : list TrialResult;
  rp_gates : list Gate }.

(** What the reader benchmark is run with: the contents of the code before and after the
    trials and when the report is made, the fixture, one trial in its own process, and the
    text of a case. *)
Record reader_env := mk_reader_env {
  re_sha256 : list Z -> list Z;
  re_before : pystr -> outcome (list Z);
  re_after : pystr -> outcome (list Z);
  re_late : pystr -> outcome (list Z);
  re_self : pystr;
  re_fixture : Benchmark -> outcome (list path);
  re_trial : TrialSpec -> outcome TrialResult;
  re_show_case : ReaderCase -> pystr }.

Definition trial_line (env : reader_env) (spec : TrialSpec) : pystr :=
  workload_name (spec_workload spec) ++ lit ", shuffle=" ++ lit (if spec_shuffle spec then "True" else "False") ++
  lit ", pair " ++ dec (spec_pair spec + 1) ++ lit "/" ++ dec (repeats (spec_config spec)) ++ lit ": " ++
  re_show_case env (spec_case spec).

(** [run_benchmark]: the code read before and after the trials must not have changed. *)
Definition run_benchmark (env : reader_env) (c : Benchmark) : command Report :=
  reader_revision ← compute (reader_fingerprint (re_sha256 env) (re_before env));
  benchmark_revision ← compute (re_sha256 env <$> re_before env (re_self env));
  cases ← compute (reader_cases (contexts c) (worker_counts c));
  paths ← compute (re_fixture env c);
  results ← each (fun spec => _ ← say (quiet c) (trial_line env spec); compute (re_trial env spec))
              (schedule c paths cases);
  reader_now ← compute (reader_fingerprint (re_sha256 env) (re_after env));
  _ ← compute (require (bool_decide (reader_now = reader_revision))
        (RuntimeError (lit "reader code changed during benchmark; repeat with one consistent revision")));
  benchmark_now ← compute (re_sha256 env <$> re_after env (re_self env));
  _ ← compute (require (bool_decide (benchmark_now = benchmark_revision))
        (RuntimeError (lit "benchmark code changed during measurement; repeat with one revision")));
  machine ← compute (report_environment (re_sha256 env) (re_late env) (re_self env));
  gates ← compute (performance_gates results);
  mret (mk_report machine c results gates).

(** [cli_cmd]: a trial process reads its specification and prints its result only. *)
Definition reader_cli_cmd (env : reader_env) (render : Report -> pystr) (internal_trial : bool)
    (specification : outcome TrialSpec) (measure : TrialSpec -> outcome TrialResult)
    (show_trial : TrialResult -> pystr) (output : path) (c : Benchmark) : command unit :=
  if internal_trial
  then spec ← compute specification; result ← compute (measure spec); print (show_trial result)
  else
    report ← run_benchmark env c;
    publish_report output (render report) (render report).
End Commands.

(** * Properties *)

(** A command that only reports progress. *)
Definition progress_only {A} (m : command A) : Prop := Forall (fun e => exists line, e = Stderr line) m.1.

Lemma progress_compute {A} (r : outcome A) : progress_only (compute r).
Proof. constructor. Qed.

Lemma progress_ret {A} (a : A) : progress_only (mret a).
Proof. constructor. Qed.

Lemma progress_say quiet line : progress_only (say quiet line).
Proof. destruct quiet; repeat constructor; eauto. Qed.

Lemma progress_bind {A B} (m : command A) (f : A -> command B) :
  progress_only m -> (forall a, progress_only (f a)) -> progress_only (m ≫= f).
Proof.
  unfold progress_only, mbind, command_bind. destruct m as [before [a|e]]; simpl; intros Hm Hf; [|done].
  specialize (Hf a). destruct (f a) as [more r]. by apply Forall_app.
Qed.

Lemma progress_each {A B} (f : A -> command B) l : (forall x, progress_only (f x)) -> progress_only (each f l).
Proof.
  intros Hf. induction l as [|x l IH]; simpl; [apply progress_ret|].
  apply progress_bind; [done|]. intros y. apply progress_bind; [done|]. intros ys. apply progress_ret.
Qed.

Create HintDb progress.
#[export] Hint Resolve progress_compute progress_ret progress_say progress_bind progress_each : progress.

(** Steps of a computation that returned. *)
Lemma command_bind_ret {A B} (m : command A) (f : A -> command B) b :
  (m ≫= f).2 = Ret b -> exists a, m.2 = Ret a /\ (f a).2 = Ret b.
Proof.
  unfold mbind, command_bind. destruct m as [before [a|e]]; simpl; [|done].
  destruct (f a) as [more r] eqn:E; simpl. intros ->. exists a. by rewrite E.
Qed.

Lemma each_ret {A B} (f : A -> command B) l : forall r,
  (each f l).2 = Ret r -> Forall2 (fun x y => (f x).2 = Ret y) l r.
Proof.
  induction l as [|x l IH]; simpl; intros r H; [by simplify_eq/=; constructor|].
  apply command_bind_ret in H as (y & Hy & H). apply command_bind_ret in H as (ys & Hys & H).
  simplify_eq/=. constructor; auto.
Qed.

(** The report of [m] is published once it is complete: no file is written unless [m]
    returned a report, a command that ends without an error did exactly the progress of
    [m] and the three steps of publication, and a file with anything but the whole report
    is left only by a write that itself failed. *)
Definition publishes {R} (c : command unit) (m : command R) (render answer : R -> pystr) (output : path) : Prop :=
  let newline := lit (String (Ascii.ascii_of_nat 10) "") in
  (forall p text, WroteText p text ∈ c.1 ->
     p = output /\ exists r, m.2 = Ret r /\ (text = render r ++ newline \/ exists e, c.2 = Raise e)) /\
  (c.2 = Ret tt -> exists r, m.2 = Ret r /\
     c.1 = m.1 ++ [MadeDirectory (removelast output); WroteText output (render r ++ newline); Stdout (answer r)]).

Lemma publish_report_publishes {R} h (m : command R) render answer output :
  progress_only m ->
  publishes (m ≫= (fun r => publish_report h output (render r) (answer r))) m render answer output.
Proof.
  intros Hm. assert (Hp : forall p text, WroteText p text ∉ m.1).
  { intros p text Hin. apply (proj1 (Forall_forall _ _) Hm) in Hin as [line E]. discriminate. }
  unfold publishes, mbind, command_bind. destruct m as [before [r|e]]; simpl in *; [|by split; [intros ?? ?%Hp|]].
  unfold publish_report, mkdir_parents, write_report, print, mbind, command_bind.
  destruct (host_mkdir h _) as [[]|e]; simpl.
  - destruct (host_write h _ _) as [[partial e]|]; simpl; split; try done.
    + intros p text [?%Hp|Hin]%elem_of_app; [done|]. split; [set_solver|]. exists r. eauto.
    + intros p text [?%Hp|Hin]%elem_of_app; [done|]. assert (p = output /\ text = render r ++ [10]) as [-> ->] by set_solver. eauto.
    + intros _. eauto.
  - split; [|done]. intros p text. rewrite app_nil_r. by intros ?%Hp.
Qed.

(** Measurements reported one by one are those of the schedule, in its order. *)
Lemma each_measured {A B} (line : A -> pystr) quiet (run : A -> outcome B) l r :
  (each (fun x => _ ← say quiet (line x); compute (run x)) l).2 = Ret r -> Forall2 (fun x y => run x = Ret y) l r.
Proof.
  intros H%each_ret. eapply Forall2_impl; [exact H|]. intros x y E.
  by apply command_bind_ret in E as (? & _ & E).
Qed.

Ltac steps H :=
  repeat match type of H with
         | (_ ≫= _).2 = Ret _ =>
             let a := fresh "a" in let Ha := fresh "Ha" in
             apply command_bind_ret in H as (a & Ha & H); try (cbn [compute snd] in Ha)
         end.

Lemma baseline_report_measured h quiet run c r :
  (baseline_report h quiet run c).2 = Ret r ->
  Forall2 (fun i m => run i = Ret m) (seqZ 0 (bb_repeats c)) (br_measurements r) /\ revision h = Ret (br_revision r).
Proof.
  unfold baseline_report. intros H. steps H. injection H as <-. simpl. split; [|done].
  by apply (each_measured (fun index => lit "Baseline run " ++ dec (index + 1) ++ lit "/" ++ dec (bb_repeats c)) quiet).
Qed.

Lemma writer_report_measured h prints run quiet c r :
  (writer_report h prints run quiet c).2 = Ret r ->
  Forall2 (fun '(k, w, p) m => run c k w p = Ret m) (writer_schedule c) (wr_measurements r) /\
  prints.1 = prints.2 /\ paired_speedups (wr_measurements r) = Ret (wr_paired_speedups r).
Proof.
  unfold writer_report. intros H. steps H. injection H as <-. simpl.
  split_and!; [|by apply require_ret, bool_decide_eq_true in Ha4 as ->; rewrite Ha0, Ha3|done].
  apply each_ret in Ha2. eapply Forall2_impl; [exact Ha2|]. intros [[k w] p] m E.
  by apply command_bind_ret in E as (? & _ & E).
Qed.

Lemma run_benchmark_measured h env c r :
  (run_benchmark h env c).2 = Ret r ->
  exists paths cases,
    re_fixture env c = Ret paths /\ reader_cases (contexts c) (worker_counts c) = Ret cases /\
    Forall2 (fun spec t => re_trial env spec = Ret t) (schedule c paths cases) (rp_trials r) /\
    reader_fingerprint (re_sha256 env) (re_before env) = reader_fingerprint (re_sha256 env) (re_after env) /\
    performance_gates (rp_trials r) = Ret (rp_gates r).
Proof.
  unfold run_benchmark. intros H. steps H. injection H as <-. simpl. exists a2, a1.
  apply require_ret, bool_decide_eq_true in Ha5 as ->.
  split_and!; [done|done|by apply each_measured in Ha3|by rewrite Ha, Ha4|done].
Qed.

(** A benchmark report is evidence of a complete run. The baseline, the writer and
    the reader command write their report only after every scheduled measurement was made
    (for the last two also only when the measured code did not change meanwhile): a
    measurement, a fingerprint, a version or a git query that fails leaves no file. A
    command that ends normally printed its progress, made the directory, wrote the whole
    report with all measurements in the order of the schedule, and printed its answer
    last; anything else in the file is the rest of a write that failed. A trial process
    prints its result and writes nothing. *)
Theorem reports_are_complete (h : host) (output : path) :
  (forall render quiet run c,
     publishes (baseline_cli_cmd h render quiet output run c) (baseline_report h quiet run c) render render output /\
     (forall r, (baseline_report h quiet run c).2 = Ret r ->
        Forall2 (fun i m => run i = Ret m) (seqZ 0 (bb_repeats c)) (br_measurements r))) /\
  (forall render show prints run quiet c,
     publishes (writer_cli_cmd h render show prints run quiet output c) (writer_report h prints run quiet c)
       render (fun r => show (wr_paired_speedups r)) output /\
     (forall r, (writer_report h prints run quiet c).2 = Ret r ->
        Forall2 (fun '(k, w, p) m => run c k w p = Ret m) (writer_schedule c) (wr_measurements r) /\
        prints.1 = prints.2 /\ paired_speedups (wr_measurements r) = Ret (wr_paired_speedups r))) /\
  (forall env render specification measure show_trial c,
     publishes (reader_cli_cmd h env render false specification measure show_trial output c) (run_benchmark h env c)
       render render output /\
     (forall r, (run_benchmark h env c).2 = Ret r -> exists paths cases,
        re_fixture env c = Ret paths /\ reader_cases (contexts c) (worker_counts c) = Ret cases /\
        Forall2 (fun spec t => re_trial env spec = Ret t) (schedule c paths cases) (rp_trials r) /\
        reader_fingerprint (re_sha256 env) (re_before env) = reader_fingerprint (re_sha256 env) (re_after env) /\
        performance_gates (rp_trials r) = Ret (rp_gates r)) /\
     (forall e, e ∈ (reader_cli_cmd h env render true specification measure show_trial output c).1 ->
        exists spec t, specification = Ret spec /\ measure spec = Ret t /\ e = Stdout (show_trial t))).
Proof.
  split_and!; intros; split_and!.
  - apply publish_report_publishes. unfold baseline_report. eauto 10 with progress.
  - intros r H. by apply baseline_report_measured in H as [? _].
  - apply (publish_report_publishes h _ render (fun r => show (wr_paired_speedups r))).
    unfold writer_report. repeat (apply progress_bind || apply progress_each || intros [[? ?] ?] || intro); auto with progress.
  - apply writer_report_measured.
  - apply publish_report_publishes. unfold run_benchmark.
    repeat (apply progress_bind || apply progress_each || intro); auto with progress.
  - apply run_benchmark_measured.
  - unfold reader_cli_cmd, compute, print, mbind, command_bind. intros e.
    destruct specification as [spec|]; simpl; [|set_solver]. destruct (measure spec) as [t|] eqn:E; simpl; [|set_solver].
    intros He. exists spec, t. set_solver.
Qed.

Lemma reports_are_complete_witness :
  let h := mk_host (lit "now") (fun _ => Ret (lit " c0ffee ")) (lit "linux") (lit "x86_64") (lit "3.12")
             (fun _ => Ret (lit "1.0")) None 8 (fun _ => Ret tt) (fun _ _ => None) in
  let c := mk_baseline 1 1 8 0 0 1 1 2 in
  let m := mk_baseline_measurement (Finite 1 1) (Finite 1 1) (Finite 1 1) (Finite 1 1) (Finite 1 1) 1 8 1 1 1 in
  let run (i : Z) : outcome BaselineMeasurement := Ret m in
  let failing (i : Z) : outcome BaselineMeasurement := if i =? 1 then Raise (AssertionError []) else Ret m in
  let output := [lit "plan"; lit "baseline.json"] in
  let render (r : BaselineReport) : pystr := br_revision r in
  ((exists r, (baseline_report h false run c).2 = Ret r /\
     (baseline_cli_cmd h render false output run c).1 =
     (baseline_report h false run c).1 ++
     [MadeDirectory [lit "plan"]; WroteText output (render r ++ [10]); Stdout (render r)]) /\
   (baseline_cli_cmd h render false output run c).1 =
     [Stderr (lit "Baseline run 1/2"); Stderr (lit "Baseline run 2/2"); MadeDirectory [lit "plan"];
      WroteText output (lit "c0ffee" ++ [10]); Stdout (lit "c0ffee")]) /\
  baseline_cli_cmd h render false output failing c =
    ([Stderr (lit "Baseline run 1/2"); Stderr (lit "Baseline run 2/2")], Raise (AssertionError [])).
Proof.
  intros h c m run failing output render. split; [split|]; [|by vm_compute|by vm_compute].
  refine (proj2 (proj1 (proj1 (reports_are_complete h output) render false run c)) _). by vm_compute.
Defined.
