(* ===== verification/Training.v ===== *)
(** The distributed training example ([src/examples/ddp_loading.py]): its settings, its
    fixture, and the life of one rank, from joining the process group through one epoch
    of the loader to leaving the group. Torch's model, optimizer and batch iteration are
    parameters. *)
From stdpp Require Import base tactics list numbers strings gmap.
From S2P Require Import Prelude Collections Binary64 PyStr Records Config Seeds Partition Reconstruction Resources Options.
From S2P Require Import Planner Native Metadata Interface Dataset Export Loader Construction Runtime BenchReader.
Open Scope Z_scope.

(** * Settings and fixture *)

Record Example := mk_example {
  ex_ranks : Z;
  ex_workers : Z;
  ex_worker_context : pystr;
  ex_gloo_interface : pystr;
  ex_steps : Z;
  ex_shuffle : bool;
  ex_quiet : bool;
  ex_json_output : bool }.

Definition example_valid (e : Example) : bool :=
  (2 <=? ex_ranks e) && (ex_ranks e <=? 4) && (0 <=? ex_workers e) && (ex_workers e <=? 2) &&
  bool_decide (ex_worker_context e ∈ map lit ["fork"; "spawn"; "forkserver"]%string) && (0 <? ex_steps e).

Definition make_example (e : Example) : outcome Example :=
  if example_valid e then Ret e else Raise (ValidationError (lit "Example")).

Definition default_example : Example :=
  mk_example 2 2 (lit "forkserver") (lit "lo0") 4 true false false.

(** [Source.__iter__]: 48 decimal numbers. *)
Definition training_input (index : Z) : CacheInput := mk_input (dec index) {[ lit "index" := MInt index ]}.
Definition training_iter : list CacheInput := map training_input (seqZ 0 48).

(** [transform(sample)]: the number the tensor is made of. *)
Definition training_transform (sample : CachedSample) : outcome pyfloat :=
  n ← py_int (sample_data sample); Ret (round_f64 n 48).

(** The arguments of [to_torch_dataloader]. *)
Definition rank_options (e : Example) : LoaderOptions :=
  mk_options (PBool (ex_shuffle e)) (if ex_shuffle e then PInt 7 else PStr (lit "random"))
    (PInt (ex_steps e * 4 * ex_ranks e))
    (PStr (if ex_shuffle e then lit "replicate" else lit "split"))
    (PInt 4) (PInt (ex_workers e)) (PStr (lit "auto")) (PBool false) (PBool false)
    (PBool (0 <? ex_workers e)) (PInt 0) (ContextName (ex_worker_context e)) (PStr (lit "auto"))
    (PBool (negb (ex_quiet e))).

(** * One rank *)

Inductive train_event :=
| GroupJoined
| OptimizerStep
| Printed (text : pystr)
| GroupLeft.

(** What a loader hands out: the transform's collated tensor, or something else. *)
Inductive torch_batch := Tensor | OtherBatch.

(** The surroundings of a rank: joining the group, building the model, one optimizer
    step after so many, and the loader's construction and batches. *)
Record rank_env := mk_rank_env {
  re_join : outcome unit;
  re_model : outcome unit;
  re_step : Z -> outcome unit;
  re_construction : environment;
  re_batches : loader pyfloat -> list (outcome torch_batch) }.

Definition bool_json (b : bool) : pystr := if b then lit "true" else lit "false".

Section Rank.
Context {N : NativeReader} (env : rank_env) (rank : Z) (e : Example).

(** [for batch in loader]. *)
Fixpoint train_loop (completed : Z) (batches : list (outcome torch_batch)) : outcome Z * list train_event :=
  match batches with
  | [] => (Ret completed, [])
  | Raise ex :: _ => (Raise ex, [])
  | Ret OtherBatch :: _ => (Raise (TypeError (lit "expected the transform's collated tensor")), [])
  | Ret Tensor :: rest =>
      match re_step env completed with
      | Raise ex => (Raise ex, [])
      | Ret _ =>
          let completed := completed + 1 in
          let line := if (rank =? 0) && negb (ex_quiet e)
                      then [Printed (lit "step " ++ dec completed ++ lit "/" ++ dec (ex_steps e))] else [] in
          let '(r, events) := train_loop completed rest in
          (r, OptimizerStep :: line ++ events)
      end
  end.

Definition rank_report (completed : Z) : list train_event :=
  if ex_json_output e
  then [Printed (lit "{" ++ [34] ++ lit "rank" ++ [34] ++ lit ": " ++ dec rank ++ lit ", " ++
                 [34] ++ lit "steps" ++ [34] ++ lit ": " ++ dec completed ++ lit ", " ++
                 [34] ++ lit "shuffle" ++ [34] ++ lit ": " ++ bool_json (ex_shuffle e) ++ lit "}")]
  else if negb (ex_quiet e)
  then [Printed (lit "rank " ++ dec rank ++ lit ": completed " ++ dec completed ++ lit " optimizer steps")]
  else [].

(** The body of the [try]; the filesystem holds the loader's artifacts, which
    [del loader] releases. *)
Definition rank_body (cache : path) (fs : filesystem) : outcome unit * list train_event * filesystem :=
  match (runtime ← new_runtime 1;
         config ← make_reader_config (mk_reader_config 7 2 true false);
         cached_dataset runtime [cache] config) with
  | Raise ex => (Raise ex, [], fs)
  | Ret dataset =>
      let '(r, fs) := to_torch_dataloader (re_construction env) dataset (rank_options e)
                        (Some training_transform) None None fs in
      match r with
      | Raise ex => (Raise ex, [], fs)
      | Ret (loader, _) =>
          match re_model env with
          | Raise ex => (Raise ex, [], fs)
          | Ret _ =>
              match train_loop 0 (re_batches env loader) with
              | (Raise ex, events) => (Raise ex, events, fs)
              | (Ret completed, events) =>
                  (Ret tt, events ++ rank_report completed,
                   match ad_artifacts (ld_adapter loader) with
                   | Some a => release (env_pid (re_construction env)) a fs
                   | None => fs
                   end)
              end
          end
      end
  end.

(** [train_rank]: the group is left whatever happened after joining it. *)
Definition train_rank (cache : path) (fs : filesystem) : outcome unit * list train_event * filesystem :=
  match re_join env with
  | Raise ex => (Raise ex, [], fs)
  | Ret _ =>
      let '(r, events, fs) := rank_body cache fs in
      (r, GroupJoined :: events ++ [GroupLeft], fs)
  end.
End Rank.

(** [Example.cli_cmd]: write the fixture, then run every rank; [spawn] starts the
    processes and joins them. *)
Definition training_cli (render : CacheWriteResult -> pystr) (written : outcome (list CacheWriteResult))
    (spawn : path -> Z -> outcome unit) (e : Example) : outcome unit :=
  outcomes ← written;
  match outcomes with
  | [] => Raise (IndexError (lit "list index out of range"))
  | CacheWriteSuccess _ p :: _ => spawn p (ex_ranks e)
  | other :: _ => Raise (RuntimeError (render other))
  end.

(** * Every rank takes the same number of steps *)

(** The batches Torch forms of the quotas of a loader's consumers. *)
Definition loader_batches {T : Type} (l : loader T) : Z :=
  Zsum (map (ceil_batches (ld_batch_size l)) (map plan_sample_count (ad_partitions (ld_adapter l)))).

Lemma example_valid_facts e : example_valid e = true ->
  2 <= ex_ranks e <= 4 /\ 0 <= ex_workers e <= 2 /\ 0 < ex_steps e.
Proof. unfold example_valid. intros H. bools. lia. Qed.

Section Steps.
Context {N : NativeReader} (env : environment) (e : Example) (r : Z).
Context (Hgroup : env_group env = Some (r, ex_ranks e)) (He : example_valid e = true).

Lemma check_rank_arguments {T : Type} ds (transform : option (CachedSample -> outcome T))
    replica workers count seed warnings :
  check_arguments env ds (rank_options e) transform [] = Ret (replica, workers, count, seed, warnings) ->
  replica = mk_replica r (ex_ranks e) /\ 0 <= r < ex_ranks e /\ Resources.processes (counts workers) = ex_workers e /\
  count = ex_steps e * 4 * ex_ranks e /\ 1 <= count <= MAX_SAMPLE_BUDGET /\
  seed = (if ex_shuffle e then Some 7 else None).
Proof.
  unfold check_arguments. intros H.
  apply bind_ret in H as (u & _ & H). apply bind_ret in H as (u' & _ & H).
  apply bind_ret in H as (replica' & Hr & H). apply bind_ret in H as (workers' & Hw & H).
  apply bind_ret in H as (u'' & _ & H). apply bind_ret in H as (count' & Hc & H).
  apply bind_ret in H as (seed' & Hs & H). injection H as <- <- <- <- _.
  unfold capture_replica in Hr. rewrite Hgroup in Hr. destruct (env_worker env); [discriminate|].
  unfold make_replica in Hr. destruct (_ && _) eqn:Hrange in Hr; [|discriminate]. injection Hr as <-.
  unfold in_range in Hrange. bools.
  split; [done|]. split; [lia|]. split; [|split; [|split]].
  - unfold resolve_workers in Hw. apply bind_ret in Hw as (c & Hcounts & Hw).
    destruct (_ && _) in Hw; [discriminate|]. apply bind_ret in Hw as (p & _ & Hw).
    apply bind_ret in Hw as (f & _ & Hw). apply bind_ret in Hw as (ctx & _ & Hw). injection Hw as <-. simpl.
    unfold resolve_worker_counts in Hcounts. simpl in Hcounts.
    apply bind_ret in Hcounts as (ranks & _ & Hcounts). apply bind_ret in Hcounts as (threads & _ & Hcounts).
    by injection Hcounts as <-.
  - unfold sample_budget in Hc. simpl in Hc. destruct (negb _) in Hc; [discriminate|]. by injection Hc as <-.
  - unfold sample_budget in Hc. simpl in Hc. destruct (negb _) eqn:Hn in Hc; [discriminate|].
    injection Hc as <-. bools. lia.
  - unfold common_seed, resolved_seed in Hs. simpl in Hs. destruct (ex_shuffle e); simpl in Hs; by injection Hs as <-.
Qed.

(** The consumers of a rank form exactly [steps] batches. *)
Lemma rank_loader_batches ds fs l ws fs' :
  (export_metadata_arrow (cd_inner ds)).2 < 2 ^ 63 ->
  to_torch_dataloader env ds (rank_options e) (Some training_transform) None None fs = (Ret (l, ws), fs') ->
  loader_batches l = ex_steps e.
Proof.
  intros Hrows Hl. apply example_valid_facts in He as He'.
  apply make_dataloader_plans in Hl as (replica & workers & count & seed & warnings & more & Hc & Hp & Hb & Hpos).
  apply check_rank_arguments in Hc as (-> & Hr & Hw & -> & Hcount & ->). simpl in Hpos, Hp, Hb. rewrite Hw in Hp.
  assert (plannable (export_metadata_arrow (cd_inner ds)).2 (ex_ranks e) (ex_workers e) 4
    (ex_steps e * 4 * ex_ranks e) (ex_shuffle e) (if ex_shuffle e then Some 7 else None)) as Hin.
  { constructor; [lia|rewrite ?Z.shiftl_mul_pow2; lia|rewrite ?Z.shiftl_mul_pow2; lia|lia|lia|].
    intros ->. exists 7. split; [done|]. unfold is_u64. rewrite U64_MAX_eq. lia. }
  destruct (prepare_partitions_ok (env_worker_secret env) _ r (ex_ranks e) (ex_workers e) 4 _
    (resolved_partition (rank_options e)) (ex_shuffle e) _ false Hin Hr) as (plans & ws' & _ & Hp' & Hpl).
  rewrite Hp in Hp'. injection Hp' as <- _.
  unfold loader_batches. rewrite Hb. rewrite (pd_batches _ _ _ _ _ _ _ _ _ _ _ _ Hpl).
  unfold local_budget, ceil_batches.
  replace (ex_steps e * 4 * ex_ranks e + ex_ranks e - 1) with (ex_steps e * 4 * ex_ranks e + (ex_ranks e - 1)) by lia.
  rewrite Z.div_add_l, (Z.div_small (ex_ranks e - 1)) by lia. dlia.
Qed.
End Steps.

Definition optimizer_steps (events : list train_event) : Z :=
  Zsum (map (fun ev => match ev with OptimizerStep => 1 | _ => 0 end) events).

Lemma optimizer_steps_app a b : optimizer_steps (a ++ b) = optimizer_steps a + optimizer_steps b.
Proof. unfold optimizer_steps. by rewrite map_app, Zsum_app. Qed.

Lemma optimizer_steps_printed (b : bool) text : optimizer_steps (if b then [Printed text] else []) = 0.
Proof. by destruct b. Qed.

Lemma rank_report_steps rank e completed : optimizer_steps (rank_report rank e completed) = 0.
Proof. unfold rank_report. by destruct (ex_json_output e); [|destruct (ex_quiet e)]. Qed.

Lemma train_loop_steps env rank e n : (forall k, re_step env k = Ret tt) -> forall completed,
  exists events, train_loop env rank e completed (replicate n (Ret Tensor)) =
                   (Ret (completed + Z.of_nat n), events) /\
    optimizer_steps events = Z.of_nat n.
Proof.
  intros Hstep. induction n as [|n IH]; intros completed; simpl.
  - exists []. by rewrite Z.add_0_r.
  - rewrite Hstep. destruct (IH (completed + 1)) as (events & -> & Hn). eexists. split.
    + f_equal. f_equal. lia.
    + match goal with |- optimizer_steps (_ :: ?rest) = _ => change (optimizer_steps ([OptimizerStep] ++ rest) = Z.of_nat (S n)) end.
      rewrite !optimizer_steps_app, optimizer_steps_printed, Hn.
      change (optimizer_steps [OptimizerStep]) with 1. lia.
Qed.

(** Only [train_rank] itself leaves the group. *)
Lemma train_loop_inside env rank e batches : forall completed,
  GroupLeft ∉ (train_loop env rank e completed batches).2.
Proof.
  induction batches as [|[[]|ex] batches IH]; intros completed; simpl; try apply not_elem_of_nil.
  destruct (re_step env completed); [|apply not_elem_of_nil].
  specialize (IH (completed + 1)). destruct (train_loop _ _ _ _ batches) as [res events]. simpl in *.
  apply not_elem_of_cons. split; [done|]. apply not_elem_of_app. split; [|done].
  destruct (_ && _); [|apply not_elem_of_nil]. apply not_elem_of_cons. split; [done|apply not_elem_of_nil].
Qed.

Lemma rank_report_inside rank e completed : GroupLeft ∉ rank_report rank e completed.
Proof.
  unfold rank_report. destruct (ex_json_output e); [|destruct (negb (ex_quiet e)); [|apply not_elem_of_nil]];
    (apply not_elem_of_cons; split; [done|apply not_elem_of_nil]).
Qed.

Lemma rank_body_inside {N : NativeReader} env rank e cache fs : GroupLeft ∉ (rank_body env rank e cache fs).1.2.
Proof.
  unfold rank_body. destruct (_ ≫= _) as [dataset|ex]; [|apply not_elem_of_nil].
  destruct (to_torch_dataloader _ _ _ _ _ _ _) as [[[l ws]|ex] fs1]; [|apply not_elem_of_nil].
  destruct (re_model env); [|apply not_elem_of_nil].
  pose proof (train_loop_inside env rank e (re_batches env l) 0) as Hloop.
  destruct (train_loop _ _ _ _ _) as [[completed|ex] events]; simpl in *; [|done].
  apply not_elem_of_app. split; [done|apply rank_report_inside].
Qed.

(** C37. The ranks of a training run stay in step. With accepted settings, a dataset
    that loads and a loader that is constructed, every rank of the group completes its
    epoch with exactly [steps] optimizer steps, whatever the order, the number of loading
    workers and the table size, so that no rank waits for another one's gradients; Torch
    is taken to group the quota of each consumer into batches and to hand out tensors.
    And a rank that joined the group leaves it last, however its run ends. *)
Theorem ranks_stay_in_step {N : NativeReader} (env : rank_env) (e : Example) (r : Z) (cache : path)
    (fs fs' : filesystem) (d : CachedDataset) (l : loader pyfloat) (ws : list py_warning)
    (He : example_valid e = true) (Hgroup : env_group (re_construction env) = Some (r, ex_ranks e))
    (Hjoin : re_join env = Ret tt) (Hmodel : re_model env = Ret tt) (Hstep : forall k, re_step env k = Ret tt)
    (Hload : (runtime ← new_runtime 1; cached_dataset runtime [cache] (mk_reader_config 7 2 true false)) = Ret d)
    (Hrows : (export_metadata_arrow (cd_inner d)).2 < 2 ^ 63)
    (Hloader : to_torch_dataloader (re_construction env) d (rank_options e) (Some training_transform) None None fs =
                 (Ret (l, ws), fs'))
    (Htorch : forall l, re_batches env l = replicate (Z.to_nat (loader_batches l)) (Ret Tensor)) :
  exists events, (train_rank env r e cache fs).1 = (Ret tt, GroupJoined :: events ++ [GroupLeft]) /\
    optimizer_steps events = ex_steps e /\
    (forall env' cache' fs'', re_join env' = Ret tt ->
       exists events', (train_rank env' r e cache' fs'').1.2 = GroupJoined :: events' ++ [GroupLeft] /\
         (GroupLeft ∉ events')).
Proof.
  destruct (train_loop_steps env r e (Z.to_nat (loader_batches l)) Hstep 0) as (events & Hrun & Hsteps).
  rewrite (rank_loader_batches (re_construction env) e r Hgroup He d fs l ws fs' Hrows Hloader) in *.
  destruct (example_valid_facts e He) as (_ & _ & Hpos).
  exists (events ++ rank_report r e (ex_steps e)). split; [|split].
  - unfold train_rank. rewrite Hjoin. unfold rank_body. simpl in Hload |- *. rewrite Hload, Hloader, Hmodel.
    rewrite Htorch, (rank_loader_batches (re_construction env) e r Hgroup He d fs l ws fs' Hrows Hloader), Hrun.
    simpl. by rewrite Z2Nat.id by lia.
  - rewrite optimizer_steps_app, rank_report_steps, Hsteps. lia.
  - intros env' cache' fs'' Hj. unfold train_rank. rewrite Hj.
    pose proof (rank_body_inside env' r e cache' fs'') as Hin.
    destruct (rank_body env' r e cache' fs'') as [[res ev] fs3]. by exists ev.
Qed.

(** Rank one of two, with two loading workers, over the concrete reader. *)
Definition ddp_construction : environment :=
  mk_environment 100 None (Some (1, 2)) (map lit ["fork"; "spawn"; "forkserver"]%string) (lit "fork") 4 None 7
    (fun _ => 0) (fun l => l) (fun _ => true) (fun _ => Ret [lit "tmp"; lit "dataset-rt-1"]) (fun _ => NoFault)
    (Ret tt) (Ret tt) (Ret tt) (fun _ l => l) (Ret tt) (Ret tt).

Definition ddp_env : rank_env :=
  mk_rank_env (Ret tt) (Ret tt) (fun _ => Ret tt) ddp_construction
    (fun l => replicate (Z.to_nat (loader_batches l)) (Ret Tensor)).

#[local] Existing Instance demo_native.

Definition ddp_dataset : CachedDataset :=
  match cached_dataset_load 1 [[lit "c"]] (mk_reader_config 7 2 true false) with
  | Ret d => d
  | Raise _ => demo_dataset
  end.

Lemma ranks_stay_in_step_witness :
  exists events, (train_rank ddp_env 1 default_example [lit "c"] ∅).1 = (Ret tt, GroupJoined :: events ++ [GroupLeft]) /\
    optimizer_steps events = 4.
Proof.
  assert ((match (to_torch_dataloader ddp_construction ddp_dataset (rank_options default_example)
              (Some training_transform) None None ∅).1 with Ret _ => true | Raise _ => false end) = true) as Hok
    by (vm_compute; reflexivity).
  destruct (to_torch_dataloader ddp_construction ddp_dataset (rank_options default_example)
              (Some training_transform) None None ∅) as [[[l ws]|ex] fs'] eqn:Hl; [|discriminate Hok].
  destruct (ranks_stay_in_step ddp_env default_example 1 [lit "c"] ∅ fs' ddp_dataset l ws) as (events & Hrun & Hs & _).
  - vm_compute. reflexivity.
  - reflexivity.
  - reflexivity.
  - reflexivity.
  - reflexivity.
  - vm_compute. reflexivity.
  - vm_compute. reflexivity.
  - exact Hl.
  - reflexivity.
  - exists events. split; [exact Hrun|exact Hs].
Defined.
