(* ===== verification/BuildLocal.v ===== *)
(** The local artifact build ([src/scripts/build_local.py]): its settings and the
    sequence of commands it runs, any of which may fail. Which programs are installed,
    the platform, the environment variables and the exit of every command are
    parameters. *)
From stdpp Require Import base tactics list numbers strings gmap.
From S2P Require Import Prelude Collections PyStr Records.
Open Scope Z_scope.

(** * Settings *)

Definition DEFAULT_MACOS_TARGETS : list pystr := map lit ["aarch64-apple-darwin"; "x86_64-apple-darwin"]%string.
Definition DEFAULT_LINUX_TARGETS : list pystr :=
  map lit ["x86_64-unknown-linux-gnu"; "aarch64-unknown-linux-gnu"]%string.

Record BuildConfig := mk_build {
  linux_targets : pystr;
  macos_targets : pystr;
  compatibility : pystr;
  skip_macos : bool;
  skip_linux : bool }.

(** [split_nonempty(value)]. *)
Definition split_nonempty (value : pystr) : outcome (list pystr) :=
  match filter (fun part => part <> []) (split_ws value) with
  | [] => Raise (SystemExit (PStr (lit "build configuration list must not be empty")))
  | parts => Ret parts
  end.

Definition parsed_linux_targets (c : BuildConfig) : outcome (list pystr) :=
  match linux_targets c with [] => Ret DEFAULT_LINUX_TARGETS | v => split_nonempty v end.
Definition parsed_macos_targets (c : BuildConfig) : outcome (list pystr) :=
  match macos_targets c with [] => Ret DEFAULT_MACOS_TARGETS | v => split_nonempty v end.

(** * The build as a sequence of actions *)

Inductive build_action :=
| RemoveDist
| CreateDist
| Run (command : list pystr) (env : option (gmap pystr pystr))
| PrintLine (text : pystr).

(** What surrounds a build: installed programs, the platform, the environment, the exit
    of an action, the project directory, the parsed version and the files of [dist]. *)
Record build_env := mk_build_env {
  be_which : pystr -> bool;
  be_system : pystr;
  be_environ : gmap pystr pystr;
  be_exit : build_action -> outcome unit;
  be_root : pystr;
  be_version : outcome pyval;
  be_artifacts : list (pystr * bool) }.

(** Actions done so far, and the outcome. *)
Definition building (A : Type) : Type := outcome A * list build_action.

#[export] Instance building_ret : MRet building := fun A a => (Ret a, []).
#[export] Instance building_bind : MBind building := fun A B f m =>
  match m with
  | (Ret a, done) => let '(r, more) := f a in (r, done ++ more)
  | (Raise e, done) => (Raise e, done)
  end.

Definition of_outcome {A : Type} (r : outcome A) : building A := (r, []).

Fixpoint for_each_target (f : pystr -> building unit) (targets : list pystr) : building unit :=
  match targets with
  | [] => mret tt
  | t :: rest => _ ← f t; for_each_target f rest
  end.

Section Build.
Context (env : build_env).

Definition act (a : build_action) : building unit := (be_exit env a, [a]).

Definition DIST_DIR : pystr := be_root env ++ lit "/dist".

Definition require_command (command : pystr) : building unit :=
  if be_which env command then mret tt
  else of_outcome (Raise (SystemExit (PStr (lit "required command not found: " ++ command)))).

(** [run(command, env=...)]. *)
Definition run (command : list pystr) (vars : option (gmap pystr pystr)) : building unit := act (Run command vars).

Definition clean_dist : building unit := _ ← act RemoveDist; act CreateDist.

Definition uv_maturin : list pystr := map lit ["uv"; "run"; "--python"; "3.11"; "--extra"; "dev"; "maturin"]%string.

Definition build_sdist : building unit := run (uv_maturin ++ [lit "sdist"; lit "--out"; DIST_DIR]) None.

Definition ensure_rust_target (target : pystr) : building unit :=
  run [lit "rustup"; lit "target"; lit "add"; target] None.

Definition wheel_command (target : pystr) : list pystr :=
  uv_maturin ++ [lit "build"; lit "--release"; lit "--out"; DIST_DIR; lit "--target"; target].

Definition build_macos_wheels (c : BuildConfig) : building unit :=
  if bool_decide (be_system env = lit "Darwin") then
    targets ← of_outcome (parsed_macos_targets c);
    for_each_target (fun t => _ ← ensure_rust_target t; run (wheel_command t) None) targets
  else of_outcome (Raise (SystemExit (PStr (lit "macOS wheels must be built on macOS; set DATASETRT_SKIP_MACOS=true")))).

(** [env.setdefault(key, value)] and [zig_cache_env()]. *)
Definition setdefault (key value : pystr) (vars : gmap pystr pystr) : gmap pystr pystr :=
  match vars !! key with Some _ => vars | None => <[key := value]> vars end.

Definition zig_cache_env : gmap pystr pystr :=
  setdefault (lit "ZIG_LOCAL_CACHE_DIR") (lit "/tmp/zig-local-cache")
    (setdefault (lit "ZIG_GLOBAL_CACHE_DIR") (lit "/tmp/zig-global-cache")
      (setdefault (lit "CARGO_ZIGBUILD_CACHE_DIR") (lit "/tmp/cargo-zigbuild") (be_environ env))).

Definition build_linux_target (c : BuildConfig) (target : pystr) : building unit :=
  _ ← ensure_rust_target target;
  run (wheel_command target ++ [lit "--zig"; lit "--compatibility"; compatibility c]) (Some zig_cache_env).

Definition build_linux_wheels (c : BuildConfig) : building unit :=
  targets ← of_outcome (parsed_linux_targets c);
  for_each_target (build_linux_target c) targets.

Definition project_version : outcome pystr :=
  v ← be_version env;
  match v with
  | PStr s => Ret s
  | _ => Raise (SystemExit (PStr (lit "project version must be a string")))
  end.

(** [sorted(DIST_DIR.iterdir())], files only. *)
Definition artifact_lines : list pystr :=
  map fst (filter (fun a => a.2 = true) (sort_by (fun a b : pystr * bool => str_leb a.1 b.1) (be_artifacts env))).

Definition print_artifacts : building unit :=
  version ← of_outcome project_version;
  _ ← act (PrintLine (lit "Built DatasetRT " ++ version ++ lit " artifacts:"));
  for_each_target (fun line => act (PrintLine line)) artifact_lines.

Definition build_main (c : BuildConfig) : building unit :=
  _ ← require_command (lit "uv");
  _ ← require_command (lit "cargo");
  _ ← require_command (lit "rustup");
  _ ← clean_dist;
  _ ← build_sdist;
  _ ← (if skip_macos c then mret tt else build_macos_wheels c);
  _ ← (if skip_linux c then mret tt else build_linux_wheels c);
  print_artifacts.
End Build.

(** * The plan of a build *)

(** Every action of a complete build, in order. *)
Section Plan.
Context (env : build_env) (c : BuildConfig).

Definition target_actions (wheel : pystr -> build_action) (targets : outcome (list pystr)) : list build_action :=
  match targets with
  | Raise _ => []
  | Ret ts => concat (map (fun t => [Run [lit "rustup"; lit "target"; lit "add"; t] None; wheel t]) ts)
  end.

Definition macos_actions : list build_action :=
  if skip_macos c then []
  else target_actions (fun t => Run (wheel_command env t) None) (parsed_macos_targets c).

Definition linux_actions : list build_action :=
  if skip_linux c then []
  else target_actions (fun t => Run (wheel_command env t ++ [lit "--zig"; lit "--compatibility"; compatibility c])
                                   (Some (zig_cache_env env))) (parsed_linux_targets c).

Definition report_actions : list build_action :=
  match project_version env with
  | Raise _ => []
  | Ret v => PrintLine (lit "Built DatasetRT " ++ v ++ lit " artifacts:") :: map PrintLine (artifact_lines env)
  end.

Definition build_plan : list build_action :=
  [RemoveDist; CreateDist; Run (uv_maturin ++ [lit "sdist"; lit "--out"; DIST_DIR env]) None] ++
  macos_actions ++ linux_actions ++ report_actions.
End Plan.

(** A computation follows a plan: its actions are a prefix of it, the last one is the one
    that failed, and a computation that returns has done the whole plan without a
    failure. *)
Definition follows {A : Type} (env : build_env) (plan : list build_action) (m : building A) : Prop :=
  match m with
  | (Ret _, done) => done = plan /\ Forall (fun a => be_exit env a = Ret tt) done
  | (Raise _, done) =>
      done `prefix_of` plan /\
      (Forall (fun a => be_exit env a = Ret tt) done \/
       exists before last, done = before ++ [last] /\ Forall (fun a => be_exit env a = Ret tt) before)
  end.

Section Follows.
Context (env : build_env).

Lemma follows_ret {A : Type} (a : A) : follows env [] (mret a : building A).
Proof. by split. Qed.

Lemma follows_raise {A : Type} plan (e : py_exc) : follows (A := A) env plan (of_outcome (Raise e)).
Proof. split; [apply prefix_nil|]. by left. Qed.

Lemma follows_act a : follows env [a] (act env a).
Proof.
  unfold act, follows. destruct (be_exit env a) as [[]|e] eqn:E.
  - split; [done|]. by repeat constructor.
  - split; [done|]. right. exists [], a. by split.
Qed.

Lemma follows_bind {A B : Type} p q (m : building A) (k : A -> building B) :
  follows env p m -> (forall a, follows env q (k a)) -> follows env (p ++ q) (m ≫= k).
Proof.
  intros Hm Hk. unfold mbind, building_bind. destruct m as [[a|e] done].
  - destruct Hm as [-> Hok]. specialize (Hk a). destruct (k a) as [[b|e] more].
    + destruct Hk as [-> Hq]. split; [done|]. by apply Forall_app.
    + destruct Hk as [Hpre Hq]. split; [by apply prefix_app|].
      destruct Hq as [Hq|(before & last & -> & Hq)]; [left; by apply Forall_app|right].
      exists (p ++ before), last. split; [by rewrite app_assoc|by apply Forall_app].
  - destruct Hm as [Hpre Hm]. split; [by apply prefix_app_r|done].
Qed.

Lemma follows_targets f (plan_of : pystr -> list build_action) targets :
  (forall t, follows env (plan_of t) (f t)) ->
  follows env (concat (map plan_of targets)) (for_each_target f targets).
Proof.
  intros Hf. induction targets as [|t targets IH]; [by apply follows_ret|].
  simpl. by apply follows_bind.
Qed.

Lemma follows_parsed {A : Type} (r : outcome A) (plan_of : A -> list build_action) (k : A -> building unit) :
  (forall a, follows env (plan_of a) (k a)) ->
  follows env (match r with Ret a => plan_of a | Raise _ => [] end) (of_outcome r ≫= k).
Proof.
  intros Hk. destruct r as [a|e]; [|by apply @follows_raise].
  unfold of_outcome, mbind, building_bind. specialize (Hk a). by destruct (k a) as [[[]|e] done].
Qed.
End Follows.

(** The parts of a build follow their parts of the plan. *)
Section Parts.
Context (env : build_env) (c : BuildConfig).

Lemma require_command_follows command : follows env [] (require_command env command).
Proof. unfold require_command. destruct (be_which env command); [apply follows_ret|apply @follows_raise]. Qed.

Lemma clean_dist_follows : follows env [RemoveDist; CreateDist] (clean_dist env).
Proof. apply (follows_bind env [RemoveDist] [CreateDist]); [|intros _]; apply follows_act. Qed.

Lemma target_follows t wheel vars :
  follows env [Run [lit "rustup"; lit "target"; lit "add"; t] None; Run wheel vars]
    (_ ← ensure_rust_target env t; run env wheel vars).
Proof. apply (follows_bind env [_] [_]); [|intros _]; apply follows_act. Qed.

Lemma macos_follows : follows env (macos_actions env c) (if skip_macos c then mret tt else build_macos_wheels env c).
Proof.
  unfold macos_actions, build_macos_wheels. destruct (skip_macos c); [apply follows_ret|].
  case_bool_decide; [|apply @follows_raise].
  apply follows_parsed. intros ts. apply follows_targets. intros t. apply target_follows.
Qed.

Lemma linux_follows : follows env (linux_actions env c) (if skip_linux c then mret tt else build_linux_wheels env c).
Proof.
  unfold linux_actions, build_linux_wheels. destruct (skip_linux c); [apply follows_ret|].
  apply follows_parsed. intros ts. apply follows_targets. intros t. apply target_follows.
Qed.

Lemma report_follows : follows env (report_actions env) (print_artifacts env).
Proof.
  apply follows_parsed. intros v. apply (follows_bind env [_]); [apply follows_act|]. intros _.
  rewrite <- (concat_map_singleton PrintLine). apply follows_targets. intros line. apply follows_act.
Qed.

Lemma lookup_setdefault key value vars other :
  setdefault key value vars !! other =
    match vars !! other with
    | Some v => Some v
    | None => if decide (other = key) then Some value else None
    end.
Proof.
  unfold setdefault. destruct (vars !! key) as [w|] eqn:E; case_decide as Hk; try subst other.
  - by rewrite E.
  - by destruct (vars !! other).
  - by rewrite lookup_insert_eq, E.
  - rewrite lookup_insert_ne by congruence. by destruct (vars !! other).
Qed.
End Parts.

(** Whatever fails, a build does the actions of its plan in order and stops at
    the first one that fails; a build that returns has done all of them. Every wheel is
    built after its own target was added, Linux wheels see cache directories for every
    variable the caller left unset and keep the caller's own, and nothing is removed
    unless every required program is installed. *)
Theorem build_follows_plan (env : build_env) (c : BuildConfig) :
  follows env (build_plan env c) (build_main env c) /\
  ((exists command, command ∈ map lit ["uv"; "cargo"; "rustup"]%string /\ be_which env command = false) ->
     (build_main env c).2 = []) /\
  (forall key, zig_cache_env env !! key =
     match be_environ env !! key with
     | Some v => Some v
     | None => if decide (key = lit "CARGO_ZIGBUILD_CACHE_DIR") then Some (lit "/tmp/cargo-zigbuild")
               else if decide (key = lit "ZIG_GLOBAL_CACHE_DIR") then Some (lit "/tmp/zig-global-cache")
               else if decide (key = lit "ZIG_LOCAL_CACHE_DIR") then Some (lit "/tmp/zig-local-cache")
               else None
     end).
Proof.
  split; [|split].
  - do 3 (apply (follows_bind env []); [apply require_command_follows|intros _]).
    apply (follows_bind env [RemoveDist; CreateDist]); [apply clean_dist_follows|intros _].
    apply (follows_bind env [_]); [apply follows_act|intros _].
    apply follows_bind; [apply macos_follows|intros _].
    apply follows_bind; [apply linux_follows|intros _]. apply report_follows.
  - intros (command & Hin & Hmissing). unfold build_main, require_command.
    repeat (apply elem_of_cons in Hin as [->|Hin]; [rewrite Hmissing; repeat case_match; done|]).
    by apply elem_of_nil in Hin.
  - intros key. unfold zig_cache_env. rewrite !lookup_setdefault.
    destruct (be_environ env !! key) as [v|]; [done|].
    by destruct (decide (key = lit "CARGO_ZIGBUILD_CACHE_DIR")); [|destruct (decide (key = lit "ZIG_GLOBAL_CACHE_DIR"))].
Qed.
