(* ===== verification/Distributed.v ===== *)
(** The distributed benchmark ([src/dataset_rt/run_benchmark.py] and
    [src/dataset_rt/benchmarks/]): its configuration and topology, the launch of the
    ranks, the synthetic fixtures with their identity check, the independent validation
    of worker plans, the order check of a sequential pass, the agreement checks of a
    pass, and the bounded resource observer. Torch, its collectives, clocks and process
    measurements are arguments. *)
From stdpp Require Import base tactics list numbers strings gmap.
From S2P Require Import Prelude Collections Records Binary64 Config Seeds Partition Reconstruction Options Planner.
Open Scope Z_scope.

(** * Configuration *)

Inductive bench_device := Cpu | Cuda.
Inductive worker_context := SpawnContext | ForkserverContext | ForkContext.

#[export] Instance bench_device_eq_dec : EqDecision bench_device.
Proof. solve_decision. Defined.
#[export] Instance worker_context_eq_dec : EqDecision worker_context.
Proof. solve_decision. Defined.

(** [BenchmarkConfig]: the fields that decide what runs. *)
Record BenchmarkConfig := mk_benchmark_config {
  bc_ranks : Z;
  bc_num_workers : Z;
  bc_device : bench_device;
  bc_worker_context : worker_context;
  bc_native_num_workers : Z;
  bc_batch_size : Z;
  bc_samples_per_epoch : option Z;
  bc_shuffle : bool;
  bc_worker_partition : WorkerPartition;
  bc_drop_last : bool;
  bc_persistent_workers : bool;
  bc_seed : Z;
  bc_repeats : Z;
  bc_samples_per_cache : Z;
  bc_caches : Z;
  bc_payload_bytes : Z;
  bc_metadata_bytes : Z;
  bc_cache_paths : list path;
  bc_input_features : Z;
  bc_model_width : Z;
  bc_transform_rounds : Z;
  bc_prefetch_size : Z;
  bc_prefetch_factor : Z;
  bc_timeout_seconds : Z }.

(** The bounds of the fields. *)
Definition benchmark_fields_valid (c : BenchmarkConfig) : bool :=
  (0 <? bc_ranks c) && (0 <=? bc_num_workers c) && (0 <? bc_native_num_workers c) && (0 <? bc_batch_size c) &&
  match bc_samples_per_epoch c with None => true | Some n => (0 <? n) && (n <=? Z.shiftl 1 53) end &&
  (0 <=? bc_seed c) && (bc_seed c <? Z.shiftl 1 64) && (0 <? bc_repeats c) && (0 <? bc_samples_per_cache c) &&
  (0 <? bc_caches c) && (16 <=? bc_payload_bytes c) && (0 <=? bc_metadata_bytes c) && (0 <? bc_input_features c) &&
  (0 <? bc_model_width c) && (0 <=? bc_transform_rounds c) && (0 <? bc_prefetch_size c) &&
  (0 <? bc_prefetch_factor c) && (0 <? bc_timeout_seconds c).

(** [_validate_workload]; [methods] are the start methods of the platform. *)
Definition validate_workload (methods : list worker_context) (c : BenchmarkConfig) : outcome BenchmarkConfig :=
  if negb (bool_decide (bc_worker_context c ∈ methods))
  then Raise (ValueError (lit "worker_context is unavailable on this platform"))
  else if bool_decide (bc_device c = Cuda) && negb (bc_num_workers c =? 0) && bool_decide (bc_worker_context c = ForkContext)
  then Raise (ValueError (lit "CUDA loading requires spawn or forkserver workers"))
  else if negb (bc_input_features c mod 32 =? 0)
  then Raise (ValueError (lit "input_features must be divisible by 32"))
  else Ret c.

Record Topology := mk_topology { tp_rank : Z; tp_local_rank : Z; tp_world_size : Z; tp_local_world_size : Z }.

Definition topology_fields_valid (t : Topology) : bool :=
  (0 <=? tp_rank t) && (0 <=? tp_local_rank t) && (0 <? tp_world_size t) && (0 <? tp_local_world_size t).

(** [_validate_membership]. *)
Definition validate_membership (t : Topology) : outcome Topology :=
  if (tp_world_size t <=? tp_rank t) || (tp_local_world_size t <=? tp_local_rank t)
  then Raise (ValueError (lit "rank does not belong to its launcher topology"))
  else Ret t.

(** * Launching *)

(** What waiting for the launched session gives: a status, or an exception. *)
Inductive waited := Exited (status : Z) | WaitRaised (e : py_exc).

(** What [launch] did to the session. *)
Record launched := mk_launched { ln_killed : bool; ln_reaped : bool }.

(** The command line, after the interpreter; [arguments] are [sys.argv[1:]]. *)
Definition launch_command (ranks : Z) (arguments : list pystr) : list pystr :=
  [lit "-m"; lit "torch.distributed.run"; lit "--standalone"; lit "--local-addr"; lit "127.0.0.1";
   lit "--nproc-per-node"; dec ranks; lit "--max-restarts"; lit "0"; lit "--module"; lit "dataset_rt.run_benchmark"]
  ++ arguments.

(** [launch]: [group_exists] says whether the session is there to be killed, [reap] is
    the second wait. *)
Definition launch (w : waited) (group_exists : bool) (reap : outcome unit) : outcome unit * launched :=
  let failed (e : py_exc) :=
    (match reap with Ret _ => Raise e | Raise r => Raise r end, mk_launched group_exists true) in
  match w with
  | Exited 0 => (Ret tt, mk_launched false true)
  | Exited status => failed (SystemExit (PInt status))
  | WaitRaised e => failed e
  end.

(** [main]: a process without a rank launches, a rank measures. *)
Definition bench_main (imports : outcome unit) (missing : py_exc -> option pystr) (parse : outcome BenchmarkConfig)
    (has_rank : bool) (launch_ranks run_rank : BenchmarkConfig -> outcome unit) : outcome unit :=
  match imports with
  | Raise e => match missing e with
               | Some name => Raise (SystemExit (PStr (lit "Missing benchmark dependency " ++ name ++
                                                       lit "; install dataset-rt[benchmark].")))
               | None => Raise e
               end
  | Ret _ => config ← parse; if has_rank then run_rank config else launch_ranks config
  end.

(** * Fixtures *)

(** A source of one rank and the payload and metadata of its record [index]. *)
Record RankSource := mk_rank_source {
  rs_cache_position : Z;
  rs_count : Z;
  rs_payload_bytes : Z;
  rs_metadata_bytes : Z }.

Definition rank_position (s : RankSource) (index : Z) : Z := rs_cache_position s * rs_count s + index.

Definition rank_record (s : RankSource) (index : Z) : outcome (list Z * gmap pystr MetadataValue) :=
  let position := rank_position s index in
  p ← to_bytes 8 position;
  i ← to_bytes 8 index;
  let text := dec position in
  Ret (take (Z.to_nat (rs_payload_bytes s)) (repeat_bytes ((rs_payload_bytes s + 15) / 16) (p ++ i)),
       {[ lit "benchmark_position" := MInt position;
          lit "wide" := MString (if rs_metadata_bytes s =? 0 then []
                                 else text ++ replicate (Z.to_nat (rs_metadata_bytes s - Z.of_nat (length text))) 120) ]}).

Record Identity := mk_identity { id_cache : Z; id_sample : Z; id_position : Z; id_worker : Z }.

(** [Transform.__call__] up to the hashing: the identity of a sample, checked against its
    payload for synthetic caches. *)
Definition transform_identity (synthetic : bool) (worker : option Z) (s : CachedSample) : outcome Identity :=
  position ← (if synthetic
              then match sample_metadata s !! lit "benchmark_position" with
                   | Some (MInt position) =>
                       p ← to_bytes 8 position;
                       i ← to_bytes 8 (sample_sample_id s);
                       if bool_decide (take 16 (sample_data s) = p ++ i) then Ret position
                       else Raise (ValueError (lit "synthetic payload identity differs from metadata"))
                   | Some _ => Raise (ValueError (lit "synthetic position must be an integer"))
                   | None => Raise (OtherException (lit "KeyError") (lit "benchmark_position"))
                   end
              else Ret 0);
  Ret (mk_identity (sample_cache_id s) (sample_sample_id s) position (default 0 worker)).

(** * Plans *)

Definition local_samples (samples ranks batch_size : Z) (drop_last : bool) : Z :=
  if drop_last then samples / (ranks * batch_size) * batch_size else (samples + ranks - 1) / ranks.

(** The scan over the spans of the active plans. *)
Fixpoint scan_spans (offset : Z) (plans : list WorkerPlan) : outcome Z :=
  match plans with
  | [] => Ret offset
  | p :: rest =>
      if negb (plan_offset p =? offset) || (plan_population_size p =? 0)
      then Raise (ValueError (lit "split worker spans overlap or omit positions"))
      else scan_spans (offset + plan_population_size p) rest
  end.

Definition active_plans (plans : list WorkerPlan) : list WorkerPlan :=
  filter (fun p => plan_sample_count p <> 0) plans.

(** The span a rank should cover. *)
Definition expected_span (population requested quota rank world_size : Z) : Z * Z :=
  if requested =? population then (rank * quota, quota)
  else let virtual := Z.max population world_size in
       let size := virtual / world_size in
       let remainder := virtual mod world_size in
       (rank * size + Z.min rank remainder, size + (if rank <? remainder then 1 else 0)).

Definition validate_plans (plans : list WorkerPlan) (population requested : Z) (c : BenchmarkConfig) (t : Topology)
  : outcome unit :=
  let quota := local_samples requested (tp_world_size t) (bc_batch_size c) (bc_drop_last c) in
  let active := active_plans plans in
  if negb (Zsum (map plan_sample_count active) =? quota)
  then Raise (ValueError (lit "worker plans multiply or lose the local budget"))
  else if quota =? 0 then Ret tt
  else match bc_worker_partition c with
  | Replicate =>
      if existsb (fun p => negb (plan_offset p =? 0) || negb (plan_population_size p =? population)) active
      then Raise (ValueError (lit "replicated worker population is incomplete"))
      else Ret tt
  | Split =>
      let '(offset, length) := expected_span population requested quota (tp_rank t) (tp_world_size t) in
      stop ← scan_spans offset active;
      if stop =? offset + length then Ret tt
      else Raise (ValueError (lit "split rank span has incorrect coverage"))
  end.

(** * A pass *)

(** [check_order]: one batch against the cyclic spans; [counters] by worker. *)
Fixpoint check_order (plans : list WorkerPlan) (population : Z) (batch : list Identity) (counters : list Z)
  : outcome (list Z) :=
  match batch with
  | [] => Ret counters
  | i :: rest =>
      match plans !! Z.to_nat (id_worker i), counters !! Z.to_nat (id_worker i) with
      | Some plan, Some count =>
          k ← py_mod count (plan_population_size plan);
          expected ← py_mod (plan_offset plan + k) population;
          if negb (id_position i =? expected)
          then Raise (ValueError (lit "sequential fixture position differs from worker plan"))
          else check_order plans population rest (<[Z.to_nat (id_worker i) := count + 1]> counters)
      | _, _ => Raise (IndexError (lit "list index out of range"))
      end
  end.

(** The bytes [prefix_digest] feeds into a digest. *)
Fixpoint prefix_bytes (batch : list Identity) : outcome (list Z) :=
  match batch with
  | [] => Ret []
  | i :: rest =>
      c ← to_bytes 8 (id_cache i);
      s ← to_bytes 8 (id_sample i);
      more ← prefix_bytes rest;
      Ret (c ++ s ++ more)
  end.

(** The loop of [measure_pass] over the batches of a loader: counts, the digest of the
    first four batches, and the order check of a sequential synthetic pass. *)
Fixpoint pass_loop (ordered : bool) (plans : list WorkerPlan) (population : Z) (loader : list (list Identity))
    (batches samples : Z) (digest : list Z) (counters : list Z) : outcome (Z * Z * list Z * list Z) :=
  match loader with
  | [] => Ret (batches, samples, digest, counters)
  | batch :: rest =>
      digest ← (if batches <? 4 then more ← prefix_bytes batch; Ret (digest ++ more) else Ret digest);
      counters ← (if ordered then check_order plans population batch counters else Ret counters);
      pass_loop ordered plans population rest (batches + 1) (samples + Z.of_nat (length batch)) digest counters
  end.

(** How the resource observer ended: whether its thread stopped in time, and what it failed with. *)
Record observed := mk_observed { ob_stopped : bool; ob_failures : list py_exc }.

(** The [finally] clause of a pass and the check behind it: an observer that does not stop
    replaces whatever the loop raised. *)
Definition observed_pass {A} (o : observed) (loop : outcome A) : outcome A :=
  if negb (ob_stopped o) then Raise (RuntimeError (lit "resource observer did not stop"))
  else result ← loop;
       match ob_failures o with
       | [] => Ret result
       | _ => Raise (RuntimeError (lit "resource observation failed"))
       end.

(** [measure_pass] without its clock and model; [ranks] are the counts of all ranks. *)
Definition rank_pass (plans : list WorkerPlan) (population : Z) (synthetic : bool) (c : BenchmarkConfig) (t : Topology)
    (loader : list (list Identity)) (loader_length : Z) (o : observed) (ranks : list (Z * Z)) (counters : list Z)
  : outcome (Z * Z * list Z * list Z) :=
  '(batches, samples, digest, counters) ←
     observed_pass o (pass_loop (synthetic && negb (bc_shuffle c)) plans population loader 0 0 [] counters);
  let requested := default population (bc_samples_per_epoch c) in
  if negb (samples =? local_samples requested (tp_world_size t) (bc_batch_size c) (bc_drop_last c)) ||
     negb (batches =? loader_length)
  then Raise (ValueError (lit "observed batches or sample count differ from reported loader length"))
  else if existsb (fun counts => negb (bool_decide (counts = (batches, samples)))) ranks
  then Raise (ValueError (lit "rank sample or batch counts differ"))
  else Ret (batches, samples, digest, counters).

(** [device_for]: the device of a rank, [None] for the CPU. *)
Definition device_for (c : BenchmarkConfig) (t : Topology) (cuda_available nccl : bool) (devices : Z) : outcome (option Z) :=
  match bc_device c with
  | Cpu => Ret None
  | Cuda =>
      if negb cuda_available || (devices <=? tp_local_rank t)
      then Raise (ValueError (lit "requested CUDA topology exceeds available CUDA devices"))
      else if negb nccl then Raise (ValueError (lit "CUDA benchmark requires a PyTorch build with NCCL"))
      else Ret (Some (tp_local_rank t))
  end.

(** The start of [run_rank]. *)
Definition check_ranks (c : BenchmarkConfig) (t : Topology) : outcome unit :=
  if (bc_ranks c =? 1) || (bc_ranks c =? tp_world_size t) then Ret tt
  else Raise (ValueError (lit "--ranks disagrees with torchrun WORLD_SIZE; omit it under external torchrun")).

(** * Resources *)

Record TreeResources := mk_resources { r_rss_bytes : Z; r_threads : Z; r_file_descriptors : Z; r_processes : Z }.
Definition no_resources : TreeResources := mk_resources 0 0 0 0.

(** [resource_snapshot]: one reading per member of the tree, [None] for a process that
    exited meanwhile; counters read before a process vanishes stay counted. *)
Record reading := mk_reading { rd_rss : option Z; rd_threads : option Z; rd_fds : option Z }.

Definition read_member (r : reading) (acc : TreeResources) : TreeResources :=
  match rd_rss r with
  | None => acc
  | Some rss =>
      let acc := mk_resources (r_rss_bytes acc + rss) (r_threads acc) (r_file_descriptors acc) (r_processes acc) in
      match rd_threads r with
      | None => acc
      | Some threads =>
          let acc := mk_resources (r_rss_bytes acc) (r_threads acc + threads) (r_file_descriptors acc) (r_processes acc) in
          match rd_fds r with
          | None => acc
          | Some fds => mk_resources (r_rss_bytes acc) (r_threads acc) (r_file_descriptors acc + fds) (r_processes acc + 1)
          end
      end
  end.

Definition resource_snapshot (tree : list reading) : TreeResources := fold_left (fun acc r => read_member r acc) tree no_resources.

Definition combine_resources (a b : TreeResources) : TreeResources :=
  mk_resources (Z.max (r_rss_bytes a) (r_rss_bytes b)) (Z.max (r_threads a) (r_threads b))
    (Z.max (r_file_descriptors a) (r_file_descriptors b)) (Z.max (r_processes a) (r_processes b)).

(** [ResourceObserver.run]: the peak over the snapshots until it is stopped or one of
    them fails. *)
Fixpoint observe (ticks : list (outcome (list reading))) (peak : TreeResources) : TreeResources * list py_exc :=
  match ticks with
  | [] => (peak, [])
  | Ret tree :: rest => observe rest (combine_resources peak (resource_snapshot tree))
  | Raise e :: _ => (peak, [e])
  end.

(** * Properties *)

Lemma local_samples_budget samples w batch drop_last : local_samples samples w batch drop_last = local_budget samples w batch drop_last.
Proof. done. Qed.

Lemma active_sum plans : Zsum (map plan_sample_count (active_plans plans)) = Zsum (map plan_sample_count plans).
Proof.
  unfold active_plans. induction plans as [|p plans IH]; [done|]. rewrite filter_cons.
  destruct (decide (plan_sample_count p <> 0)) as [E|E]; cbn [map]; rewrite ?Zsum_cons, IH; [done|].
  apply dec_stable in E. lia.
Qed.

(** Plans without a quota hold no rows, so the active spans tile as all of them do. *)
Lemma scan_active plans : forall offset, tiles offset (map plan_span plans) ->
  Forall (fun p => 0 <= plan_sample_count p /\ 0 <= plan_population_size p /\
    (0 < plan_sample_count p <-> 0 < plan_population_size p)) plans ->
  scan_spans offset (active_plans plans) = Ret (offset + Zsum (map plan_population_size plans)).
Proof.
  induction plans as [|p plans IH]; intros offset Ht Hf; [simpl; rewrite Zsum_nil; f_equal; lia|].
  cbn [map tiles plan_span] in Ht. destruct Ht as (Eo & _ & Ht). apply Forall_cons in Hf as [(H1 & H2 & H3) Hf].
  cbn [map]. rewrite Zsum_cons. unfold active_plans. rewrite filter_cons. fold (active_plans plans).
  destruct (decide (plan_sample_count p <> 0)) as [E|E].
  - cbn [scan_spans]. rewrite Eo, Z.eqb_refl. destruct (Z.eqb_spec (plan_population_size p) 0); [lia|]. simpl.
    rewrite IH by done. f_equal. lia.
  - apply dec_stable in E. assert (plan_population_size p = 0) as E0 by lia. rewrite E0, Z.add_0_r in Ht.
    rewrite E0. by apply IH.
Qed.

(** The checker's own arithmetic agrees with the planner's. *)
Lemma expected_span_row n samples quota r w : 1 <= n -> 0 < w -> 0 <= r < w -> 0 <= quota ->
  expected_span n samples quota r w = span_pair (row_span (effective_population n samples quota w) w r).
Proof.
  intros Hn Hw Hr Hq. unfold expected_span, effective_population, span_pair, row_span. simpl.
  destruct (Z.eqb_spec samples n).
  - rewrite Z.div_mul, Z.mod_mul by lia. rewrite Z.min_r by lia. destruct (Z.ltb_spec r 0); [lia|]. f_equal; lia.
  - destruct (Z.ltb_spec n w).
    + rewrite Z.max_r by lia. assert ((n + w - 1) / w = 1) as -> by (symmetry; apply (Z.div_unique _ _ _ (n - 1)); lia).
      by rewrite Z.mul_1_l.
    + by rewrite Z.max_l by lia.
Qed.

(** C40. The benchmark's independent check of worker plans accepts everything the loader
    prepares: for every rank of every topology, split or replicated, for full passes,
    longer or shorter epochs and populations smaller than the number of ranks. *)
Theorem prepared_plans_accepted (fresh : Z -> Z) (row_count num_workers samples : Z) (seed : option Z)
    (c : BenchmarkConfig) (t : Topology)
    (Hin : plannable row_count (tp_world_size t) num_workers (bc_batch_size c) samples (bc_shuffle c) seed)
    (Hrank : 0 <= tp_rank t < tp_world_size t) :
  exists plans warnings,
    prepare_partitions fresh row_count (mk_replica (tp_rank t) (tp_world_size t)) num_workers (bc_batch_size c) samples
      (bc_worker_partition c) (bc_shuffle c) seed (bc_drop_last c) = Ret (plans, warnings) /\
    validate_plans plans row_count samples c t = Ret tt.
Proof.
  destruct (prepare_partitions_ok fresh row_count (tp_rank t) (tp_world_size t) num_workers (bc_batch_size c) samples
    (bc_worker_partition c) (bc_shuffle c) seed (bc_drop_last c) Hin Hrank) as (plans & ws & _ & Hp & Hd).
  exists plans, ws. split; [done|]. destruct Hd as [_ Hsum Hact Hsplit _ Hrep Hid _]. destruct Hin as [Hrows Hw _ Hb Hs _].
  unfold validate_plans. rewrite local_samples_budget, active_sum, Hsum, Z.eqb_refl. simpl.
  set (quota := local_budget _ _ _ _) in *. destruct (Z.eqb_spec quota 0); [done|].
  assert (Hq : 0 < quota).
  { destruct (local_budget_bounds samples (tp_world_size t) (bc_batch_size c) (bc_drop_last c)) as [? _]; [lia..|]. fold quota in H. lia. }
  destruct (bc_worker_partition c).
  - destruct (Hsplit eq_refl) as [Ht Hz]. rewrite expected_span_row by lia. unfold span_pair.
    rewrite (scan_active _ _ Ht Hact). simpl. rewrite (Hz Hq). by rewrite Z.eqb_refl.
  - assert (existsb (fun p => negb (plan_offset p =? 0) || negb (plan_population_size p =? row_count)) (active_plans plans) = false) as ->; [|done].
    apply not_true_is_false. intros (p & Hin & Hbad)%existsb_exists. apply list_elem_of_In, list_elem_of_filter in Hin as [Hp0 Hin].
    destruct (proj1 (Forall_forall _ _) Hact p Hin) as (H1 & _ & _). destruct (proj1 (Forall_forall _ _) Hid p Hin) as (_ & Ho & _).
    rewrite (proj1 (Forall_forall _ _) (Hrep eq_refl) p Hin) in Hbad by lia. rewrite (Ho eq_refl), !Z.eqb_refl in Hbad. done.
Qed.

Definition demo_benchmark : BenchmarkConfig :=
  mk_benchmark_config 3 4 Cpu SpawnContext 1 8 (Some 50) true Split false true 7 3 512 2 4096 0 [] 256 512 0 16 2 600.

Lemma prepared_plans_accepted_witness : exists plans warnings,
  prepare_partitions (fun _ => 0) 100 (mk_replica 1 3) 4 8 50 Split true (Some 7) false = Ret (plans, warnings) /\
  validate_plans plans 100 50 demo_benchmark (mk_topology 1 1 3 3) = Ret tt.
Proof.
  apply (prepared_plans_accepted (fun _ => 0) 100 4 50 (Some 7) demo_benchmark (mk_topology 1 1 3 3)); [|simpl; lia].
  constructor; try (split; vm_compute; congruence); [vm_compute; congruence|].
  intros _. exists 7. split; [reflexivity|split; vm_compute; congruence].
Defined.

(** A fixture record carries its identity: its payload has the requested size, and the
    transform accepts it exactly with the sample id it was written for. *)
Lemma rank_record_identity s index cache worker (sample : Z) :
  16 <= rs_payload_bytes s -> 0 <= rank_position s index < 2 ^ 64 -> 0 <= index < 2 ^ 64 -> 0 <= sample < 2 ^ 64 ->
  exists data metadata, rank_record s index = Ret (data, metadata) /\
    Z.of_nat (length data) = rs_payload_bytes s /\
    (transform_identity true worker (mk_sample data metadata cache sample) =
       Ret (mk_identity cache sample (rank_position s index) (default 0 worker)) <-> sample = index).
Proof.
  intros Hb Hp Hi Hs. unfold rank_record.
  destruct (to_bytes_ok 8 (rank_position s index)) as (p & Ep & Hlp & _); [lia|done|]. rewrite Ep.
  destruct (to_bytes_ok 8 index) as (q & Eq & Hlq & Hq); [lia|done|]. rewrite Eq. simpl.
  destruct (to_bytes_ok 8 sample) as (x & Ex & Hlx & Hx); [lia|done|].
  set (n := (rs_payload_bytes s + 15) / 16). assert (Hn : 1 <= n /\ rs_payload_bytes s <= 16 * n) by (unfold n; dlia).
  eexists _, _. split; [done|]. assert (Hl : Z.of_nat (length (repeat_bytes n (p ++ q))) = 16 * n).
  { rewrite length_repeat_bytes by lia. rewrite length_app. lia. }
  split; [rewrite length_take; lia|]. unfold transform_identity. simpl. rewrite lookup_insert_eq, Ep. simpl.
  rewrite Ex. simpl.
  assert (Et : take 16 (take (Z.to_nat (rs_payload_bytes s)) (repeat_bytes n (p ++ q))) = p ++ q).
  { unfold repeat_bytes. destruct (Z.to_nat n) as [|m] eqn:E; [lia|]. simpl. rewrite take_take, take_app_le by (rewrite length_app; lia).
    rewrite take_ge; [done|]. rewrite length_app. lia. }
  rewrite Et. case_bool_decide as Hc.
  - apply (inj (app p)) in Hc. subst x. split; [intros _; congruence|done].
  - split; [discriminate|]. intros ->. destruct Hc. rewrite Eq in Ex. injection Ex as ->. done.
Qed.

(** The observer keeps maxima: the peak bounds every snapshot taken before it failed,
    and each component is one of them or the initial value. *)
Lemma observe_bounds ticks : forall peak, let '(top, failures) := observe ticks peak in
  combine_resources peak top = top /\ (length failures <= 1)%nat.
Proof.
  assert (Hc : forall a b c, combine_resources (combine_resources a b) c = c -> combine_resources a c = c).
  { intros [] [] []. unfold combine_resources. simpl. intros [= ? ? ? ?]. f_equal; lia. }
  induction ticks as [|[tree|e] ticks IH]; intros peak; cbn [observe].
  - split; [|simpl; lia]. destruct peak. unfold combine_resources. simpl. by rewrite !Z.max_id.
  - specialize (IH (combine_resources peak (resource_snapshot tree))). destruct (observe _ _) as [top failures].
    destruct IH as [IH ?]. split; [by eapply Hc|done].
  - split; [|simpl; lia]. destruct peak. unfold combine_resources. simpl. by rewrite !Z.max_id.
Qed.
