(* ===== verification/Channel.v ===== *)
(** The bounded channel of the native runtime ([src/src/dataset_rt/channel.rs]): a queue
    under a mutex with one condition variable for receivers and one for senders. A call
    holds the mutex from its check to its return or its sleep, so each such stretch is one
    step; which call runs next, which sleeper a notification wakes, spurious wakeups and
    deadlines are chosen by the sequence of actions. *)
From stdpp Require Import base tactics list numbers strings gmap.
From S2P Require Import Prelude Collections Records Seeds Native.
Open Scope Z_scope.

(** * The state under the mutex *)

(** [State<T>]. *)
Record channel_state (T : Type) := mk_channel {
  ch_queue : list T;
  ch_senders_open : bool;
  ch_receivers_open : bool }.
Arguments mk_channel {T} _ _ _.
Arguments ch_queue {T} _.
Arguments ch_senders_open {T} _.
Arguments ch_receivers_open {T} _.

Inductive RecvTimeoutError := Timeout | Disconnected.

Section Operations.
Context {T : Type}.
Implicit Types (st : channel_state T) (v : T).

Definition queue_len st : Z := Z.of_nat (length (ch_queue st)).

(** [bounded]; [reserved] is the allocator's answer. *)
Definition bounded (reserved : Z -> option pystr) (capacity : Z) : result (channel_state T) CacheError :=
  if capacity =? 0 then Err (InvalidInput (lit "channel capacity must be positive"))
  else match reserved capacity with
       | Some error => Err (InvalidInput (lit "cannot allocate channel capacity " ++ dec capacity ++ lit ": " ++ error))
       | None => Ok (mk_channel [] true true)
       end.

(** The conditions of [wait_while]. *)
Definition send_waits (capacity : Z) st : bool := ch_receivers_open st && (queue_len st =? capacity).
Definition recv_waits st : bool := ch_senders_open st && (queue_len st =? 0).

(** [send] behind its wait. *)
Definition push_value v st : result unit CacheError * channel_state T :=
  if negb (ch_receivers_open st) then (Err WorkerFailed, st)
  else (Ok tt, mk_channel (ch_queue st ++ [v]) (ch_senders_open st) (ch_receivers_open st)).

(** [recv] behind its wait. *)
Definition pop_value st : result T CacheError * channel_state T :=
  match ch_queue st with
  | [] => (Err WorkerFailed, st)
  | v :: rest => (Ok v, mk_channel rest (ch_senders_open st) (ch_receivers_open st))
  end.

(** [recv_timeout] behind its wait, which the deadline may have ended. *)
Definition pop_in_time st : result T RecvTimeoutError * channel_state T :=
  match ch_queue st with
  | v :: rest => (Ok v, mk_channel rest (ch_senders_open st) (ch_receivers_open st))
  | [] => (Err (if ch_senders_open st then Timeout else Disconnected), st)
  end.

(** [SenderOwner::drop] and [ReceiverOwner::drop]; the latter releases the queue. *)
Definition close_senders st : channel_state T := mk_channel (ch_queue st) false (ch_receivers_open st).
Definition close_receivers st : list T * channel_state T := (ch_queue st, mk_channel [] (ch_senders_open st) false).
End Operations.

(** * Calls in progress *)

Inductive call (T : Type) := Sending (v : T) | Receiving | TimedReceiving.
Arguments Sending {T} v.
Arguments Receiving {T}.
Arguments TimedReceiving {T}.

Record thread (T : Type) := mk_thread { th_call : call T; th_asleep : bool }.
Arguments mk_thread {T} _ _.
Arguments th_call {T} _.
Arguments th_asleep {T} _.

(** The channel with its handles ([Arc] counts of the owners) and the calls in progress. *)
Record system (T : Type) := mk_system {
  sy_state : channel_state T;
  sy_senders : nat;
  sy_receivers : nat;
  sy_calls : gmap nat (thread T) }.
Arguments mk_system {T} _ _ _ _.
Arguments sy_state {T} _.
Arguments sy_senders {T} _.
Arguments sy_receivers {T} _.
Arguments sy_calls {T} _.

Inductive event (T : Type) :=
| Sent (i : nat) (v : T)
| SendFailed (i : nat)
| Received (i : nat) (v : T)
| RecvFailed (i : nat)
| RecvTimedOut (i : nat)
| Discarded (vs : list T).
Arguments Sent {T} i v.
Arguments SendFailed {T} i.
Arguments Received {T} i v.
Arguments RecvFailed {T} i.
Arguments RecvTimedOut {T} i.
Arguments Discarded {T} vs.

(** [Turn i expired notified]: call [i] takes the mutex, with its deadline passed or not,
    and wakes [notified] if it notifies. *)
Inductive action (T : Type) :=
| Begin (i : nat) (c : call T)
| CloneSender
| CloneReceiver
| DropSender
| DropReceiver
| Wake (i : nat)
| Turn (i : nat) (expired : bool) (notified : option nat).
Arguments Begin {T} i c.
Arguments CloneSender {T}.
Arguments CloneReceiver {T}.
Arguments DropSender {T}.
Arguments DropReceiver {T}.
Arguments Wake {T} i.
Arguments Turn {T} i expired notified.

Section Calls.
Context {T : Type}.
Implicit Types (s : system T) (calls : gmap nat (thread T)).

Definition is_sender (t : thread T) : bool := match th_call t with Sending _ => true | _ => false end.
Definition is_receiver (t : thread T) : bool := negb (is_sender t).

(** How many calls satisfy [P]. *)
Definition count (P : thread T -> bool) calls : nat := size (filter (fun kv => P kv.2 = true) calls).

Definition asleep (kind : thread T -> bool) calls : nat := count (fun t => kind t && th_asleep t) calls.
Definition awake (kind : thread T -> bool) calls : nat := count (fun t => kind t && negb (th_asleep t)) calls.

Definition wake (t : thread T) : thread T := mk_thread (th_call t) false.

(** [notify_one]: some sleeper of the kind, if there is one. *)
Definition notify_one (kind : thread T -> bool) (notified : option nat) calls : option (gmap nat (thread T)) :=
  match notified with
  | None => if (asleep kind calls =? 0)%nat then Some calls else None
  | Some j =>
      match calls !! j with
      | Some t => if kind t && th_asleep t then Some (<[j := wake t]> calls) else None
      | None => None
      end
  end.

(** [notify_all]. *)
Definition notify_all (kind : thread T -> bool) calls : gmap nat (thread T) :=
  (fun t => if kind t then wake t else t) <$> calls.

(** A call that waits sleeps; one that returns leaves, and notifies the other side when it
    changed the queue. *)
Definition sleeps (i : nat) (t : thread T) s : system T * list (event T) :=
  (mk_system (sy_state s) (sy_senders s) (sy_receivers s) (<[i := mk_thread (th_call t) true]> (sy_calls s)), []).

Definition returns (i : nat) (st : channel_state T) (kind : thread T -> bool) (notifies : bool) (notified : option nat)
    (e : event T) s : option (system T * list (event T)) :=
  let calls := delete i (sy_calls s) in
  let calls := if notifies then notify_one kind notified calls else Some calls in
  match calls with
  | Some calls => Some (mk_system st (sy_senders s) (sy_receivers s) calls, [e])
  | None => None
  end.

(** [send], [recv] and [recv_timeout], from taking the mutex on. *)
Definition turn (capacity : Z) (i : nat) (expired : bool) (notified : option nat) (t : thread T) s
  : option (system T * list (event T)) :=
  match th_call t with
  | Sending v =>
      if send_waits capacity (sy_state s) then Some (sleeps i t s)
      else match push_value v (sy_state s) with
           | (Ok _, st) => returns i st is_receiver true notified (Sent i v) s
           | (Err _, st) => returns i st is_receiver false notified (SendFailed i) s
           end
  | Receiving =>
      if recv_waits (sy_state s) then Some (sleeps i t s)
      else match pop_value (sy_state s) with
           | (Ok v, st) => returns i st is_sender true notified (Received i v) s
           | (Err _, st) => returns i st is_sender false notified (RecvFailed i) s
           end
  | TimedReceiving =>
      if recv_waits (sy_state s) && negb expired then Some (sleeps i t s)
      else match pop_in_time (sy_state s) with
           | (Ok v, st) => returns i st is_sender true notified (Received i v) s
           | (Err Timeout, st) => returns i st is_sender false notified (RecvTimedOut i) s
           | (Err Disconnected, st) => returns i st is_sender false notified (RecvFailed i) s
           end
  end.

(** A handle outlives the calls made through it: the last one is dropped when no such call
    is in progress. *)
Definition drop_sender s : option (system T * list (event T)) :=
  match sy_senders s with
  | O => None
  | 1%nat =>
      if (count is_sender (sy_calls s) =? 0)%nat
      then Some (mk_system (close_senders (sy_state s)) 0 (sy_receivers s) (notify_all is_receiver (sy_calls s)), [])
      else None
  | S n => Some (mk_system (sy_state s) n (sy_receivers s) (sy_calls s), [])
  end.

Definition drop_receiver s : option (system T * list (event T)) :=
  match sy_receivers s with
  | O => None
  | 1%nat =>
      if (count is_receiver (sy_calls s) =? 0)%nat
      then let '(queued, st) := close_receivers (sy_state s) in
           Some (mk_system st (sy_senders s) 0 (notify_all is_sender (sy_calls s)), [Discarded queued])
      else None
  | S n => Some (mk_system (sy_state s) (sy_senders s) n (sy_calls s), [])
  end.

(** Who may begin a call: a holder of a handle of its side. *)
Definition may_begin (c : call T) s : bool :=
  match c with Sending _ => negb (sy_senders s =? 0)%nat | _ => negb (sy_receivers s =? 0)%nat end.

Definition act (capacity : Z) (a : action T) s : option (system T * list (event T)) :=
  match a with
  | Begin i c =>
      match sy_calls s !! i with
      | None => if may_begin c s
                then Some (mk_system (sy_state s) (sy_senders s) (sy_receivers s) (<[i := mk_thread c false]> (sy_calls s)), [])
                else None
      | Some _ => None
      end
  | CloneSender => if (sy_senders s =? 0)%nat then None
                   else Some (mk_system (sy_state s) (S (sy_senders s)) (sy_receivers s) (sy_calls s), [])
  | CloneReceiver => if (sy_receivers s =? 0)%nat then None
                     else Some (mk_system (sy_state s) (sy_senders s) (S (sy_receivers s)) (sy_calls s), [])
  | DropSender => drop_sender s
  | DropReceiver => drop_receiver s
  | Wake i =>
      match sy_calls s !! i with
      | Some t => Some (mk_system (sy_state s) (sy_senders s) (sy_receivers s) (<[i := wake t]> (sy_calls s)), [])
      | None => None
      end
  | Turn i expired notified =>
      match sy_calls s !! i with
      | Some t => if th_asleep t then None else turn capacity i expired notified t s
      | None => None
      end
  end.

(** A sequence of actions and the events it makes. *)
Fixpoint run_actions (capacity : Z) (acts : list (action T)) s : option (system T * list (event T)) :=
  match acts with
  | [] => Some (s, [])
  | a :: rest =>
      match act capacity a s with
      | Some (s, events) =>
          match run_actions capacity rest s with
          | Some (s, more) => Some (s, events ++ more)
          | None => None
          end
      | None => None
      end
  end.

(** The two handles [bounded] returns. *)
Definition opened (st : channel_state T) : system T := mk_system st 1 1 ∅.
End Calls.

(** * Counting calls *)

Section Counting.
Context {T : Type}.
Implicit Types (calls : gmap nat (thread T)) (P : thread T -> bool) (t : thread T).

Lemma count_fresh P calls i t : calls !! i = None -> count P (<[i := t]> calls) = (Nat.b2n (P t) + count P calls)%nat.
Proof.
  intros Hi. unfold count. destruct (P t) eqn:E.
  - rewrite map_filter_insert_True by done. rewrite map_size_insert_None; [done|].
    apply map_lookup_filter_None. by left.
  - rewrite map_filter_insert_False by (simpl; congruence). by rewrite delete_id by done.
Qed.

Lemma count_gone P calls i t : calls !! i = Some t -> count P calls = (Nat.b2n (P t) + count P (delete i calls))%nat.
Proof.
  intros Hi. rewrite <- (insert_delete_id calls i t Hi) at 1. apply count_fresh, lookup_delete_eq.
Qed.

Lemma count_changed P calls i t t' : calls !! i = Some t ->
  (count P (<[i := t']> calls) + Nat.b2n (P t) = count P calls + Nat.b2n (P t'))%nat.
Proof.
  intros Hi. rewrite (count_gone P calls i t Hi). rewrite <- (insert_delete_eq calls i t').
  rewrite count_fresh by apply lookup_delete_eq. lia.
Qed.

Lemma count_zero P calls : count P calls = 0%nat <-> forall i t, calls !! i = Some t -> P t = false.
Proof.
  unfold count. rewrite map_size_empty_iff, map_empty. split.
  - intros H i t Hi. specialize (H i). apply map_lookup_filter_None in H as [H|H]; [congruence|].
    specialize (H t Hi). simpl in H. by destruct (P t).
  - intros H i. apply map_lookup_filter_None. destruct (calls !! i) as [t|] eqn:E; [right|by left].
    intros x [= <-]. simpl. rewrite (H i t E). done.
Qed.

Lemma count_mono P Q calls : (forall t, P t = true -> Q t = true) -> (count P calls <= count Q calls)%nat.
Proof.
  intros H. unfold count. apply map_subseteq_size, map_filter_subseteq_ext.
  intros i t _ Hp. simpl in *. by apply H.
Qed.

Lemma count_size P calls : (count P calls <= size calls)%nat.
Proof. unfold count. apply map_subseteq_size, map_filter_subseteq. Qed.

Lemma some_counted P calls : (0 < count P calls)%nat -> exists i t, calls !! i = Some t /\ P t = true.
Proof.
  intros H. unfold count in H.
  destruct (map_choose (filter (fun kv : nat * thread T => P kv.2 = true) calls)) as (i & t & Hi).
  { intros E. rewrite E in H. rewrite map_size_empty in H. lia. }
  apply map_lookup_filter_Some in Hi as [Hi HP]. by exists i, t.
Qed.

Lemma notify_all_count kind P calls :
  count P (notify_all kind calls) = count (fun t => P (if kind t then wake t else t)) calls.
Proof. unfold count, notify_all. rewrite map_filter_fmap. by rewrite map_size_fmap. Qed.
End Counting.

(** * The invariant of the two condition variables *)

(** While a receiver sleeps, every queued value has an awake receiver that will come for it;
    while a sender sleeps, every free place has an awake sender. *)
Record channel_inv {T : Type} (capacity : Z) (s : system T) : Prop := mk_inv {
  inv_bound : 0 < capacity /\ queue_len (sy_state s) <= capacity;
  inv_senders : ch_senders_open (sy_state s) = negb (sy_senders s =? 0)%nat;
  inv_receivers : ch_receivers_open (sy_state s) = negb (sy_receivers s =? 0)%nat;
  inv_sending : sy_senders s = 0%nat -> count is_sender (sy_calls s) = 0%nat;
  inv_receiving : sy_receivers s = 0%nat -> count is_receiver (sy_calls s) = 0%nat;
  inv_emptied : sy_receivers s = 0%nat -> ch_queue (sy_state s) = [];
  inv_readable : (0 < asleep is_receiver (sy_calls s))%nat ->
    queue_len (sy_state s) <= Z.of_nat (awake is_receiver (sy_calls s)) /\ sy_senders s <> 0%nat;
  inv_writable : (0 < asleep is_sender (sy_calls s))%nat ->
    capacity - queue_len (sy_state s) <= Z.of_nat (awake is_sender (sy_calls s)) /\ sy_receivers s <> 0%nat }.

(** The facts of an invariant, and the cases of a number of handles. *)
Ltac facts I := destruct I as [[? ?] Hso Hro Hsc Hrc Hem Hrd Hwr]; simpl in *.
Ltac handles := repeat match goal with
  | H : context [(?n =? 0)%nat] |- _ => destruct (Nat.eqb_spec n 0) | |- context [(?n =? 0)%nat] => destruct (Nat.eqb_spec n 0)
  end; simpl in *; try congruence.

Section Invariant.
Context {T : Type} (capacity : Z).
Implicit Types (s : system T) (calls : gmap nat (thread T)) (t : thread T).

(** [calls'] is [calls] with [out] taken out and [into] put in, as far as counting goes. *)
Definition weight (P : thread T -> bool) (o : option (thread T)) : nat := match o with Some t => Nat.b2n (P t) | None => 0 end.
Definition moved (out into : option (thread T)) calls calls' : Prop :=
  forall P, (count P calls' + weight P out = count P calls + weight P into)%nat.

Lemma moved_in calls i t : calls !! i = None -> moved None (Some t) calls (<[i := t]> calls).
Proof. intros H P. rewrite count_fresh by done. simpl. lia. Qed.
Lemma moved_out calls i t : calls !! i = Some t -> moved (Some t) None calls (delete i calls).
Proof. intros H P. rewrite (count_gone P calls i t H). simpl. lia. Qed.
Lemma moved_over calls i t t' : calls !! i = Some t -> moved (Some t) (Some t') calls (<[i := t']> calls).
Proof. intros H P. by apply count_changed. Qed.

(** The six counts the invariant speaks of. *)
Lemma moved_counts out into calls calls' : moved out into calls calls' ->
  (count is_sender calls' + weight is_sender out = count is_sender calls + weight is_sender into /\
   count is_receiver calls' + weight is_receiver out = count is_receiver calls + weight is_receiver into /\
   asleep is_sender calls' + weight (fun t => is_sender t && th_asleep t) out =
     asleep is_sender calls + weight (fun t => is_sender t && th_asleep t) into /\
   asleep is_receiver calls' + weight (fun t => is_receiver t && th_asleep t) out =
     asleep is_receiver calls + weight (fun t => is_receiver t && th_asleep t) into /\
   awake is_sender calls' + weight (fun t => is_sender t && negb (th_asleep t)) out =
     awake is_sender calls + weight (fun t => is_sender t && negb (th_asleep t)) into /\
   awake is_receiver calls' + weight (fun t => is_receiver t && negb (th_asleep t)) out =
     awake is_receiver calls + weight (fun t => is_receiver t && negb (th_asleep t)) into)%nat.
Proof. intros H. split_and!; apply H. Qed.

Lemma notify_one_counts kind notified calls calls' : (forall t, kind (wake t) = kind t) ->
  notify_one kind notified calls = Some calls' ->
  (forall P : thread T -> bool, (forall t, kind t = true -> P t = false) -> count P calls' = count P calls) /\
  count kind calls' = count kind calls /\
  ((asleep kind calls = 0%nat /\ asleep kind calls' = 0%nat /\ awake kind calls' = awake kind calls) \/
   (asleep kind calls = S (asleep kind calls') /\ awake kind calls' = S (awake kind calls))).
Proof.
  intros Hw H. destruct notified as [j|]; simpl in H.
  - destruct (calls !! j) as [t|] eqn:Hj; [|done]. destruct (kind t && th_asleep t) eqn:E; [|done].
    apply andb_true_iff in E as [Ek Es]. injection H as <-.
    pose proof (moved_over calls j t (wake t) Hj) as Hc. unfold moved, weight in Hc.
    split_and!.
    + intros P HP. specialize (Hc P). rewrite (HP t), (HP (wake t)) in Hc by (rewrite ?Hw; done). lia.
    + specialize (Hc kind). rewrite Hw in Hc. lia.
    + right. pose proof (Hc (fun t => kind t && th_asleep t)) as Ha.
      pose proof (Hc (fun t => kind t && negb (th_asleep t))) as Hn.
      cbv beta in Ha, Hn. rewrite Hw, Ek, Es in Ha, Hn. simpl in Ha, Hn. unfold asleep, awake. lia.
  - destruct (asleep kind calls =? 0)%nat eqn:E; [|done]. injection H as <-. apply Nat.eqb_eq in E.
    split_and!; [done|done|]. left. lia.
Qed.

(** The six counts after a change. *)
Ltac tally H := apply moved_counts in H; simpl in H; destruct H as (? & ? & ? & ? & ? & ?).

Lemma begin_inv s i c : channel_inv capacity s -> sy_calls s !! i = None -> may_begin c s = true ->
  channel_inv capacity (mk_system (sy_state s) (sy_senders s) (sy_receivers s) (<[i := mk_thread c false]> (sy_calls s))).
Proof.
  intros I Hi Hm. pose proof (moved_in _ _ (mk_thread c false) Hi) as Hc. tally Hc.
  facts I. destruct c; simpl in *; constructor; simpl; intuition (try done; handles; try lia).
Qed.

Lemma woken_inv s i t : channel_inv capacity s -> sy_calls s !! i = Some t ->
  channel_inv capacity (mk_system (sy_state s) (sy_senders s) (sy_receivers s) (<[i := wake t]> (sy_calls s))).
Proof.
  intros I Hi. destruct t as [c b]. pose proof (moved_over _ _ _ (wake (mk_thread c b)) Hi) as Hc. tally Hc.
  facts I. destruct c, b; simpl in *; constructor; simpl; intuition (try done; try lia).
Qed.

Lemma sleeps_inv s i t : channel_inv capacity s -> sy_calls s !! i = Some t -> th_asleep t = false ->
  (if is_sender t then send_waits capacity (sy_state s) else recv_waits (sy_state s)) = true ->
  channel_inv capacity (sleeps i t s).1.
Proof.
  intros I Hi Ha Hw. destruct t as [c b]. simpl in Ha. subst b.
  pose proof (moved_over _ _ _ (mk_thread c true) Hi) as Hc. tally Hc. facts I. unfold send_waits, recv_waits in Hw.
  destruct c; simpl in *; apply andb_true_iff in Hw as [Ho Hl]; apply Z.eqb_eq in Hl;
    constructor; simpl; intuition (try done; handles; try lia).
Qed.

(** A notification of one side leaves the counts of the other. *)
Lemma notify_receiver_counts notified calls calls' : notify_one is_receiver notified calls = Some calls' ->
  count is_sender calls' = count is_sender calls /\ count is_receiver calls' = count is_receiver calls /\
  asleep is_sender calls' = asleep is_sender calls /\ awake is_sender calls' = awake is_sender calls /\
  ((asleep is_receiver calls = 0 /\ asleep is_receiver calls' = 0 /\ awake is_receiver calls' = awake is_receiver calls) \/
   (asleep is_receiver calls = S (asleep is_receiver calls') /\ awake is_receiver calls' = S (awake is_receiver calls)))%nat.
Proof.
  intros H. apply notify_one_counts in H as (Ho & Hk & Hc); [|by intros []].
  split_and!; try done; apply Ho; intros [[] ?]; done.
Qed.

Lemma notify_sender_counts notified calls calls' : notify_one is_sender notified calls = Some calls' ->
  count is_sender calls' = count is_sender calls /\ count is_receiver calls' = count is_receiver calls /\
  asleep is_receiver calls' = asleep is_receiver calls /\ awake is_receiver calls' = awake is_receiver calls /\
  ((asleep is_sender calls = 0 /\ asleep is_sender calls' = 0 /\ awake is_sender calls' = awake is_sender calls) \/
   (asleep is_sender calls = S (asleep is_sender calls') /\ awake is_sender calls' = S (awake is_sender calls)))%nat.
Proof.
  intros H. apply notify_one_counts in H as (Ho & Hk & Hc); [|by intros []].
  split_and!; try done; apply Ho; intros [[] ?]; done.
Qed.

Lemma push_inv s i v notified calls' : channel_inv capacity s -> sy_calls s !! i = Some (mk_thread (Sending v) false) ->
  send_waits capacity (sy_state s) = false -> ch_receivers_open (sy_state s) = true ->
  notify_one is_receiver notified (delete i (sy_calls s)) = Some calls' ->
  channel_inv capacity (mk_system (mk_channel (ch_queue (sy_state s) ++ [v]) (ch_senders_open (sy_state s))
                                     (ch_receivers_open (sy_state s))) (sy_senders s) (sy_receivers s) calls').
Proof.
  intros I Hi Hw Ho Hn. apply notify_receiver_counts in Hn. pose proof (moved_out _ _ _ Hi) as Hc. tally Hc.
  facts I. unfold send_waits in Hw. rewrite Ho in Hw. simpl in Hw. apply Z.eqb_neq in Hw.
  unfold queue_len in *. constructor; simpl; unfold queue_len; simpl; rewrite ?length_app; simpl;
    intuition (try done; handles; try lia).
Qed.

Lemma pop_inv s i t v rest notified calls' : channel_inv capacity s -> sy_calls s !! i = Some t ->
  is_sender t = false -> th_asleep t = false -> ch_queue (sy_state s) = v :: rest ->
  notify_one is_sender notified (delete i (sy_calls s)) = Some calls' ->
  channel_inv capacity (mk_system (mk_channel rest (ch_senders_open (sy_state s)) (ch_receivers_open (sy_state s)))
                          (sy_senders s) (sy_receivers s) calls').
Proof.
  intros I Hi Hs Ha Hq Hn. apply notify_sender_counts in Hn. destruct t as [c b]. simpl in Ha. subst b.
  pose proof (moved_out _ _ _ Hi) as Hc. tally Hc. facts I. unfold queue_len in *. rewrite Hq in *.
  destruct c; [done| |]; simpl in *; constructor; simpl; unfold queue_len; simpl; intuition (try done; handles; try lia).
Qed.

(** A call that leaves with an error: a sender after the receivers are gone, a receiver of an
    empty queue. *)
Lemma leave_inv s i t : channel_inv capacity s -> sy_calls s !! i = Some t -> th_asleep t = false ->
  (if is_sender t then ch_receivers_open (sy_state s) = false else ch_queue (sy_state s) = []) ->
  channel_inv capacity (mk_system (sy_state s) (sy_senders s) (sy_receivers s) (delete i (sy_calls s))).
Proof.
  intros I Hi Ha Hl. destruct t as [c b]. simpl in Ha. subst b. pose proof (moved_out _ _ _ Hi) as Hc. tally Hc.
  facts I. unfold queue_len in *. destruct c; simpl in *; try rewrite Hl in *; simpl in *;
    constructor; simpl; unfold queue_len; try rewrite Hl; simpl; intuition (try done; handles; try lia).
Qed.

Lemma turn_inv s i expired notified t s' events : channel_inv capacity s -> sy_calls s !! i = Some t ->
  th_asleep t = false -> turn capacity i expired notified t s = Some (s', events) -> channel_inv capacity s'.
Proof.
  intros I Hi Ha H. unfold turn, push_value, pop_value, pop_in_time, returns in H. destruct t as [[v| |] b]; simpl in *; subst b.
  - destruct (send_waits capacity (sy_state s)) eqn:Ew; [injection H as <- <-; by apply (sleeps_inv s i (mk_thread (Sending v) false))|].
    destruct (ch_receivers_open (sy_state s)) eqn:Eo; simpl in H.
    + destruct (notify_one _ _ _) eqn:En; [|done]. injection H as <- <-. rewrite <- Eo at 1. by eapply push_inv.
    + injection H as <- <-. by eapply leave_inv.
  - destruct (recv_waits (sy_state s)) eqn:Ew; [injection H as <- <-; by apply (sleeps_inv s i (mk_thread Receiving false))|].
    destruct (ch_queue (sy_state s)) as [|v rest] eqn:Eq; simpl in H; [injection H as <- <-; by eapply leave_inv|].
    destruct (notify_one _ _ _) eqn:En; [|done]. injection H as <- <-. by eapply pop_inv.
  - destruct (recv_waits (sy_state s) && negb expired) eqn:Ew.
    { apply andb_true_iff in Ew as [Ew _]. injection H as <- <-. by apply (sleeps_inv s i (mk_thread TimedReceiving false)). }
    destruct (ch_queue (sy_state s)) as [|v rest] eqn:Eq; simpl in H.
    + destruct (ch_senders_open _); injection H as <- <-; by eapply leave_inv.
    + destruct (notify_one _ _ _) eqn:En; [|done]. injection H as <- <-. by eapply pop_inv.
Qed.

Lemma notify_all_counts kind calls : (forall t, kind (wake t) = kind t) ->
  asleep kind (notify_all kind calls) = 0%nat /\ count kind (notify_all kind calls) = count kind calls /\
  (forall P : thread T -> bool, (forall t, kind t = true -> P t = false) -> count P (notify_all kind calls) = count P calls).
Proof.
  intros Hw. split_and!.
  - unfold asleep. rewrite notify_all_count. apply count_zero. intros i t _. destruct (kind t) eqn:E; rewrite ?E, ?andb_false_r; done.
  - rewrite notify_all_count. apply Nat.le_antisymm; apply count_mono; intros t; destruct (kind t) eqn:E; rewrite ?Hw, ?E; done.
  - intros P HP. rewrite notify_all_count. apply Nat.le_antisymm; apply count_mono; intros t; destruct (kind t) eqn:E;
      rewrite ?(HP t) by done; try rewrite (HP (wake t)) by (by rewrite Hw); done.
Qed.

Lemma asleep_le kind calls : (asleep kind calls <= count kind calls)%nat.
Proof. apply count_mono. intros t H. by apply andb_true_iff in H as [-> _]. Qed.

Lemma drop_sender_inv s s' events : channel_inv capacity s -> drop_sender s = Some (s', events) -> channel_inv capacity s'.
Proof.
  intros I H. unfold drop_sender in H. destruct (sy_senders s) as [|[|n]] eqn:En; [done| |].
  - destruct (count is_sender (sy_calls s) =? 0)%nat eqn:E0; [|done]. injection H as <- <-. apply Nat.eqb_eq in E0.
    destruct (notify_all_counts is_receiver (sy_calls s)) as (Hz & Hk & Ho); [by intros []|].
    assert (count is_sender (notify_all is_receiver (sy_calls s)) = 0%nat) as Hs.
    { rewrite Ho; [done|]. intros [[] ?]; done. }
    pose proof (asleep_le is_sender (notify_all is_receiver (sy_calls s))).
    facts I. constructor; simpl; rewrite ?Hk; intuition (try done; try lia).
  - injection H as <- <-. facts I. constructor; simpl; rewrite ?En in *; intuition (try done; try lia).
Qed.

Lemma drop_receiver_inv s s' events : channel_inv capacity s -> drop_receiver s = Some (s', events) -> channel_inv capacity s'.
Proof.
  intros I H. unfold drop_receiver in H. destruct (sy_receivers s) as [|[|n]] eqn:En; [done| |].
  - destruct (count is_receiver (sy_calls s) =? 0)%nat eqn:E0; [|done]. injection H as <- <-. apply Nat.eqb_eq in E0.
    destruct (notify_all_counts is_sender (sy_calls s)) as (Hz & Hk & Ho); [by intros []|].
    assert (count is_receiver (notify_all is_sender (sy_calls s)) = 0%nat) as Hs.
    { rewrite Ho; [done|]. intros [[] ?]; done. }
    pose proof (asleep_le is_receiver (notify_all is_sender (sy_calls s))).
    facts I. unfold queue_len in *. constructor; simpl; unfold queue_len; simpl; rewrite ?Hk; intuition (try done; try lia).
  - injection H as <- <-. facts I. constructor; simpl; rewrite ?En in *; intuition (try done; try lia).
Qed.

Lemma act_inv a s s' events : channel_inv capacity s -> act capacity a s = Some (s', events) -> channel_inv capacity s'.
Proof.
  intros I H. destruct a as [i c| | | | |i|i expired notified]; simpl in H.
  - destruct (sy_calls s !! i) eqn:Ei; [done|]. destruct (may_begin c s) eqn:Em; [|done]. injection H as <- <-. by apply begin_inv.
  - destruct (sy_senders s =? 0)%nat eqn:E; [done|]. injection H as <- <-. apply Nat.eqb_neq in E. facts I.
    constructor; simpl; intuition (try done; handles).
  - destruct (sy_receivers s =? 0)%nat eqn:E; [done|]. injection H as <- <-. apply Nat.eqb_neq in E. facts I.
    constructor; simpl; intuition (try done; handles).
  - by eapply drop_sender_inv.
  - by eapply drop_receiver_inv.
  - destruct (sy_calls s !! i) eqn:Ei; [|done]. injection H as <- <-. by apply woken_inv.
  - destruct (sy_calls s !! i) as [t|] eqn:Ei; [|done]. destruct (th_asleep t) eqn:Ea; [done|]. by eapply turn_inv.
Qed.

Lemma run_inv acts : forall s s' events, channel_inv capacity s ->
  run_actions capacity acts s = Some (s', events) -> channel_inv capacity s'.
Proof.
  induction acts as [|a acts IH]; simpl; intros s s' events I H; [by injection H as <- <-|].
  destruct (act capacity a s) as [[s1 e1]|] eqn:Ea; [|done]. apply act_inv in Ea; [|done].
  destruct (run_actions capacity acts s1) as [[s2 e2]|] eqn:Er; [|done]. injection H as <- <-. by eapply IH.
Qed.

Lemma opened_inv reserved (st : channel_state T) : 0 <= capacity -> bounded reserved capacity = Ok st -> channel_inv capacity (opened st).
Proof.
  intros Hc H. unfold bounded in H. destruct (Z.eqb_spec capacity 0); [done|]. destruct (reserved capacity); [done|].
  injection H as <-. constructor; simpl; unfold queue_len, asleep, count; simpl; intuition (try done; try lia);
    rewrite map_filter_empty, map_size_empty in *; lia.
Qed.
End Invariant.

(** * What goes in comes out *)

Section Values.
Context {T : Type}.
Implicit Types (s : system T) (tr : list (event T)).

(** The values of a trace that were accepted, delivered, and released unread. *)
Definition sent_values tr : list T := omap (fun e => match e with Sent _ v => Some v | _ => None end) tr.
Definition received_values tr : list T := omap (fun e => match e with Received _ v => Some v | _ => None end) tr.
Definition discarded_values tr : list T := concat (map (fun e => match e with Discarded vs => vs | _ => [] end) tr).

Definition failed_send (e : event T) : bool := match e with SendFailed _ => true | _ => false end.
Definition failed_recv (e : event T) : bool := match e with RecvFailed _ => true | _ => false end.

Lemma sent_app tr tr' : sent_values (tr ++ tr') = sent_values tr ++ sent_values tr'.
Proof. apply omap_app. Qed.
Lemma received_app tr tr' : received_values (tr ++ tr') = received_values tr ++ received_values tr'.
Proof. apply omap_app. Qed.
Lemma discarded_app tr tr' : discarded_values (tr ++ tr') = discarded_values tr ++ discarded_values tr'.
Proof. unfold discarded_values. by rewrite map_app, concat_app. Qed.

Context (capacity : Z).

(** What one action does to the queue, to the handles and to who can have failed. *)
Record effect (s : system T) (tr : list (event T)) (s' : system T) : Prop := mk_effect {
  ef_queue : ch_queue (sy_state s) ++ sent_values tr = received_values tr ++ discarded_values tr ++ ch_queue (sy_state s');
  ef_senders : sy_senders s = 0%nat -> sy_senders s' = 0%nat;
  ef_receivers : sy_receivers s = 0%nat -> sy_receivers s' = 0%nat /\ received_values tr = [] /\ discarded_values tr = [];
  ef_discarded : discarded_values tr = [] \/ sy_receivers s' = 0%nat;
  ef_failed_send : existsb failed_send tr = true -> sy_receivers s' = 0%nat;
  ef_failed_recv : existsb failed_recv tr = true -> sy_senders s' = 0%nat }.

Lemma no_receiver s i t : channel_inv capacity s -> sy_calls s !! i = Some t -> is_sender t = false -> sy_receivers s <> 0%nat.
Proof.
  intros I Hi Ht Hz. pose proof (proj1 (count_zero _ _) (inv_receiving _ _ I Hz) i t Hi) as H.
  unfold is_receiver in H. by rewrite Ht in H.
Qed.

Lemma turn_effect s i expired notified t s' tr : channel_inv capacity s -> sy_calls s !! i = Some t ->
  turn capacity i expired notified t s = Some (s', tr) -> effect s tr s'.
Proof.
  intros I Hi H. unfold turn, sleeps, returns, push_value, pop_value, pop_in_time in H.
  assert (is_sender t = false -> sy_receivers s <> 0%nat) as Hr by (by apply (no_receiver s i t)).
  pose proof (inv_senders _ _ I) as Hso. pose proof (inv_receivers _ _ I) as Hro.
  unfold recv_waits, queue_len in H. unfold is_sender in Hr.
  destruct (th_call t) as [v| |], (ch_queue (sy_state s)) as [|v' rest] eqn:Eq; simpl in *;
    repeat match type of H with
      | context [if ?b then _ else _] => destruct b eqn:? | context [match ?o with Some _ => _ | None => _ end] => destruct o eqn:?
      end; simpl in *; try done; injection H as <- <-; constructor; simpl; rewrite ?Eq; simpl;
    intuition (try done; handles); rewrite ?app_nil_r; try done; unfold sent_values, received_values, discarded_values; simpl; try done;
    destruct (ch_receivers_open (sy_state s)), (ch_senders_open (sy_state s)); simpl in *; congruence.
Qed.

Lemma quiet_effect s s' : ch_queue (sy_state s') = ch_queue (sy_state s) -> sy_receivers s' = sy_receivers s ->
  (sy_senders s = 0%nat -> sy_senders s' = 0%nat) -> effect s [] s'.
Proof. intros Hq Hr Hs. constructor; simpl; rewrite ?app_nil_r, ?Hr; try done. by left. Qed.

Lemma act_effect a s s' tr : channel_inv capacity s -> act capacity a s = Some (s', tr) -> effect s tr s'.
Proof.
  intros I H. destruct a as [i c| | | | |i|i expired notified]; simpl in H.
  - destruct (sy_calls s !! i); [done|]. destruct (may_begin c s); [|done]. injection H as <- <-. by apply quiet_effect.
  - destruct (sy_senders s =? 0)%nat eqn:E; [done|]. injection H as <- <-. apply Nat.eqb_neq in E. by apply quiet_effect.
  - destruct (sy_receivers s =? 0)%nat eqn:E; [done|]. injection H as <- <-. apply Nat.eqb_neq in E.
    constructor; simpl; rewrite ?app_nil_r; try done. by left.
  - unfold drop_sender in H. destruct (sy_senders s) as [|[|n]] eqn:En; [done| |].
    + destruct (_ =? 0)%nat; [|done]. injection H as <- <-. by apply quiet_effect.
    + injection H as <- <-. apply quiet_effect; simpl; [done..|lia].
  - unfold drop_receiver in H. destruct (sy_receivers s) as [|[|n]] eqn:En; [done| |].
    + destruct (_ =? 0)%nat; [|done]. injection H as <- <-. constructor; simpl; rewrite ?app_nil_r; try done; [|lia|by right].
      unfold discarded_values. simpl. by rewrite !app_nil_r.
    + injection H as <- <-. constructor; simpl; rewrite ?app_nil_r; try done; [lia|by left].
  - destruct (sy_calls s !! i); [|done]. injection H as <- <-. by apply quiet_effect.
  - destruct (sy_calls s !! i) as [t|] eqn:Ei; [|done]. destruct (th_asleep t); [done|]. by eapply turn_effect.
Qed.

Lemma effect_trans s tr s1 tr1 s2 : effect s tr s1 -> effect s1 tr1 s2 -> effect s (tr ++ tr1) s2.
Proof.
  intros E E1. destruct E as [Hq Hs Hr Hd Hfs Hfr], E1 as [Hq1 Hs1 Hr1 Hd1 Hfs1 Hfr1].
  assert (sy_receivers s1 = 0%nat -> sy_receivers s2 = 0%nat) as Hz by (intros H; by apply Hr1).
  constructor; rewrite ?sent_app, ?received_app, ?discarded_app, ?existsb_app.
  - rewrite app_assoc, Hq, <- !app_assoc. f_equal. rewrite Hq1. destruct Hd as [->|H0]; [by rewrite app_nil_l|].
    destruct (Hr1 H0) as (_ & -> & ->). done.
  - auto.
  - intros H0. destruct (Hr H0) as (H1 & -> & ->). destruct (Hr1 H1) as (H2 & -> & ->). done.
  - destruct Hd1 as [->|]; [|by right]. destruct Hd as [->|]; [by left|right; auto].
  - intros H. apply orb_true_iff in H as [H|H]; auto.
  - intros H. apply orb_true_iff in H as [H|H]; auto.
Qed.

Lemma run_effect acts : forall s s' tr, channel_inv capacity s -> run_actions capacity acts s = Some (s', tr) -> effect s tr s'.
Proof.
  induction acts as [|a acts IH]; simpl; intros s s' tr I H; [injection H as <- <-; by apply quiet_effect|].
  destruct (act capacity a s) as [[s1 e1]|] eqn:Ea; [|done].
  destruct (run_actions capacity acts s1) as [[s2 e2]|] eqn:Er; [|done]. injection H as <- <-.
  eapply effect_trans; [by apply (act_effect a)|]. eapply IH; [|exact Er]. by eapply act_inv.
Qed.
End Values.

(** * Coming to rest *)

Section Progress.
Context {T : Type} (capacity : Z).
Implicit Types (s : system T) (calls : gmap nat (thread T)).

Definition is_turn (a : action T) : bool := match a with Turn _ _ _ => true | _ => false end.

(** Each turn takes a call away or lays it to sleep; it wakes at most one other. *)
Definition potential s : nat := 2 * size (sy_calls s) + count (fun t => negb (th_asleep t)) (sy_calls s).

Lemma notify_one_awake kind notified calls calls' : notify_one kind notified calls = Some calls' ->
  size calls' = size calls /\
  (count (fun t => negb (th_asleep t)) calls' <= S (count (fun t => negb (th_asleep t)) calls))%nat.
Proof.
  intros H. destruct notified as [j|]; simpl in H.
  - destruct (calls !! j) as [t|] eqn:Hj; [|done]. destruct (kind t && th_asleep t); [|done]. injection H as <-.
    split; [by rewrite map_size_insert_Some by (by eexists)|].
    pose proof (moved_over calls j t (wake t) Hj (fun t => negb (th_asleep t))) as Hc. simpl in Hc. lia.
  - destruct (_ =? 0)%nat; [|done]. injection H as <-. lia.
Qed.

Lemma returns_potential i st kind notifies notified e s s' tr t : sy_calls s !! i = Some t -> th_asleep t = false ->
  returns i st kind notifies notified e s = Some (s', tr) -> (potential s' < potential s)%nat.
Proof.
  intros Hi Ha H. unfold returns in H.
  pose proof (moved_out _ _ _ Hi (fun t => negb (th_asleep t))) as Hc. simpl in Hc. rewrite Ha in Hc. simpl in Hc.
  assert (size (delete i (sy_calls s)) = Nat.pred (size (sy_calls s))) as Hs by (apply map_size_delete_Some; by eexists).
  assert (0 < size (sy_calls s))%nat as Hp.
  { destruct (size (sy_calls s)) eqn:E; [|lia]. apply map_size_empty_inv in E. rewrite E in Hi. by rewrite lookup_empty in Hi. }
  unfold potential. destruct notifies.
  - destruct (notify_one kind notified _) as [calls|] eqn:En; [|done]. injection H as <- <-. simpl.
    apply notify_one_awake in En as [Hz Hw]. lia.
  - injection H as <- <-. simpl. lia.
Qed.

Lemma turn_potential i expired notified s s' tr :
  act capacity (Turn i expired notified) s = Some (s', tr) -> (potential s' < potential s)%nat.
Proof.
  intros H. simpl in H. destruct (sy_calls s !! i) as [t|] eqn:Ei; [|done]. destruct (th_asleep t) eqn:Ea; [done|].
  assert (Hsleep : forall s1 tr1, sleeps i t s = (s1, tr1) -> (potential s1 < potential s)%nat).
  { intros s1 tr1 [= <- <-]. unfold potential. simpl. rewrite map_size_insert_Some by (by eexists).
    pose proof (moved_over _ _ _ (mk_thread (th_call t) true) Ei (fun t => negb (th_asleep t))) as Hc. simpl in Hc.
    rewrite Ea in Hc. simpl in Hc. lia. }
  unfold turn in H. destruct (th_call t) as [v| |].
  - destruct (send_waits _ _); [by eapply Hsleep, (inj Some)|].
    destruct (push_value _ _) as [[] ?]; by eapply returns_potential.
  - destruct (recv_waits _); [by eapply Hsleep, (inj Some)|].
    destruct (pop_value _) as [[] ?]; by eapply returns_potential.
  - destruct (_ && _); [by eapply Hsleep, (inj Some)|].
    destruct (pop_in_time _) as [[|[]] ?]; by eapply returns_potential.
Qed.

Lemma turns_bounded acts : forall s s' tr, Forall (fun a => is_turn a = true) acts ->
  run_actions capacity acts s = Some (s', tr) -> (length acts + potential s' <= potential s)%nat.
Proof.
  induction acts as [|a acts IH]; simpl; intros s s' tr Hf H; [by injection H as <- <-|].
  apply Forall_cons in Hf as [Ha Hf]. destruct a; try done.
  destruct (act capacity _ s) as [[s1 e1]|] eqn:Ea; [|done]. apply turn_potential in Ea.
  destruct (run_actions capacity acts s1) as [[s2 e2]|] eqn:Er; [|done]. injection H as <- <-.
  specialize (IH _ _ _ Hf Er). lia.
Qed.

Lemma notify_one_can kind calls : exists notified calls', notify_one kind notified calls = Some calls'.
Proof.
  destruct (asleep kind calls =? 0)%nat eqn:E.
  - exists None, calls. simpl. by rewrite E.
  - apply Nat.eqb_neq in E. destruct (some_counted (fun t => kind t && th_asleep t) calls) as (j & t & Hj & Ht);
      [unfold asleep in E; lia|]. exists (Some j). simpl. rewrite Hj, Ht. by eexists.
Qed.

Lemma awake_can_turn i t expired s : sy_calls s !! i = Some t -> th_asleep t = false ->
  exists notified s' tr, act capacity (Turn i expired notified) s = Some (s', tr).
Proof.
  intros Hi Ha. simpl. rewrite Hi, Ha. unfold turn, returns.
  destruct (notify_one_can is_receiver (delete i (sy_calls s))) as (nr & cr & Hr).
  destruct (notify_one_can is_sender (delete i (sy_calls s))) as (ns & cs & Hs).
  destruct (th_call t) as [v| |].
  - exists nr. destruct (send_waits _ _); [by eexists _, _|]. destruct (push_value _ _) as [[] ?]; [rewrite Hr|]; by eexists _, _.
  - exists ns. destruct (recv_waits _); [by eexists _, _|]. destruct (pop_value _) as [[] ?]; [rewrite Hs|]; by eexists _, _.
  - exists ns. destruct (_ && _); [by eexists _, _|].
    destruct (pop_in_time _) as [[|[]] ?]; [rewrite Hs| |]; by eexists _, _.
Qed.

(** With every call asleep, receivers wait for values that are not there, or senders for
    room that is not there. *)
Lemma at_rest s : channel_inv capacity s -> (forall i t, sy_calls s !! i = Some t -> th_asleep t = true) ->
  forall i t, sy_calls s !! i = Some t ->
  if is_sender t then queue_len (sy_state s) = capacity /\ sy_receivers s <> 0%nat
  else ch_queue (sy_state s) = [] /\ sy_senders s <> 0%nat.
Proof.
  intros I Hall i t Hi.
  assert (Haw : forall kind, awake kind (sy_calls s) = 0%nat).
  { intros kind. apply count_zero. intros k u Hk. rewrite (Hall k u Hk). apply andb_false_r. }
  assert (Has : forall kind, kind t = true -> (0 < asleep kind (sy_calls s))%nat).
  { intros kind Hk. unfold asleep. rewrite (count_gone _ _ _ _ Hi). rewrite Hk, (Hall i t Hi). simpl. lia. }
  destruct (is_sender t) eqn:E.
  - destruct (inv_writable _ _ I (Has is_sender E)) as [Hw Hr]. rewrite Haw in Hw. split; [|done].
    pose proof (inv_bound _ _ I). lia.
  - destruct (inv_readable _ _ I (Has is_receiver ltac:(unfold is_receiver; by rewrite E))) as [Hw Hr].
    rewrite Haw in Hw. split; [|done]. unfold queue_len in Hw. destruct (ch_queue (sy_state s)); [done|simpl in Hw; lia].
Qed.
End Progress.

(** * The contract of the channel *)

Section Contract.
Context {T : Type} (reserved : Z -> option pystr) (capacity : Z) (st : channel_state T).
Context (acts : list (action T)) (s : system T) (tr : list (event T)).
Context (Hcapacity : 0 <= capacity) (Hbounded : bounded reserved capacity = Ok st).
Context (Hrun : run_actions capacity acts (opened st) = Some (s, tr)).

(** C17. The channel is a bounded first-in first-out queue between any number of threads:
    in every interleaving of calls, wakeups, deadlines and dropped handles, the values
    delivered are the values accepted, in the order of acceptance, up to those still queued
    and those released unread when the last receiver left; the queue never holds more than
    the capacity; a send fails only when no receiver is left, and a receive only when no
    sender is. *)
Theorem channel_fifo :
  sent_values tr = received_values tr ++ discarded_values tr ++ ch_queue (sy_state s) /\
  queue_len (sy_state s) <= capacity /\
  (discarded_values tr = [] \/ sy_receivers s = 0%nat) /\
  (existsb failed_send tr = true -> sy_receivers s = 0%nat) /\
  (existsb failed_recv tr = true -> sy_senders s = 0%nat).
Proof.
  pose proof (opened_inv capacity reserved st Hcapacity Hbounded) as I0.
  destruct (run_effect capacity _ _ _ _ I0 Hrun) as [Hq _ _ Hd Hs Hr]. split_and!; try done.
  - rewrite <- Hq. unfold bounded in Hbounded. destruct (capacity =? 0); [done|]. destruct (reserved capacity); [done|].
    by injection Hbounded as <-.
  - by apply (run_inv capacity acts _ _ _ I0 Hrun).
Qed.

(** C18. No wakeup is lost: from every state the calls in progress come to rest after at
    most three turns each, whoever runs and whomever notifications wake; a call that is
    awake can always take its turn; and at rest every receiver waits for an empty queue
    with a sender left, every sender for a full queue with a receiver left, so that a
    value and a receiver, or a place and a sender, never wait for each other. *)
Theorem channel_wakes :
  (forall turns s' tr', Forall (fun a => is_turn a = true) turns ->
     run_actions capacity turns s = Some (s', tr') -> (length turns <= 3 * size (sy_calls s))%nat) /\
  (forall i t expired, sy_calls s !! i = Some t -> th_asleep t = false ->
     exists notified s' tr', act capacity (Turn i expired notified) s = Some (s', tr')) /\
  ((forall i t, sy_calls s !! i = Some t -> th_asleep t = true) ->
   forall i t, sy_calls s !! i = Some t ->
   if is_sender t then queue_len (sy_state s) = capacity /\ sy_receivers s <> 0%nat
   else ch_queue (sy_state s) = [] /\ sy_senders s <> 0%nat).
Proof.
  pose proof (run_inv capacity acts _ _ _ (opened_inv capacity reserved st Hcapacity Hbounded) Hrun) as I. split_and!.
  - intros turns s' tr' Hf H. pose proof (turns_bounded capacity _ _ _ _ Hf H).
    pose proof (count_size (fun t => negb (th_asleep t)) (sy_calls s)). unfold potential in *. lia.
  - intros i t expired. apply awake_can_turn.
  - by apply at_rest.
Qed.
End Contract.

(** A channel of one place: the second send sleeps until the first value is received, a
    receiver sleeps until the next value is sent, and the last value is released unread. *)
Definition demo_actions : list (action Z) :=
  [Begin 0 (Sending 10); Turn 0 false None; Begin 1 (Sending 11); Turn 1 false None; CloneReceiver;
   Begin 2 Receiving; Turn 2 false (Some 1%nat); Turn 1 false None; Begin 3 TimedReceiving; Turn 3 false None;
   Begin 4 TimedReceiving; Turn 4 false None; Begin 5 (Sending 12); Turn 5 false (Some 4%nat);
   DropReceiver; Wake 4; Turn 4 true None; Begin 6 (Sending 13); Turn 6 false None; DropReceiver;
   Begin 7 (Sending 14); Turn 7 false None].
Definition demo_channel : channel_state Z := mk_channel [] true true.

Definition demo_run : option (system Z * list (event Z)) := run_actions 1 demo_actions (opened demo_channel).

Lemma channel_fifo_witness : exists s tr, demo_run = Some (s, tr) /\
  received_values tr = [10; 11; 12] /\ discarded_values tr = [13] /\ sent_values tr = [10; 11; 12; 13] /\ sy_receivers s = 0%nat.
Proof.
  destruct demo_run as [[s tr]|] eqn:E; [|vm_compute in E; discriminate E]. exists s, tr. split; [reflexivity|].
  destruct (channel_fifo (fun _ => None) 1 demo_channel demo_actions s tr) as (Hq & _ & _ & Hs & _);
    [lia|reflexivity|exact E|].
  assert (received_values tr = [10; 11; 12] /\ discarded_values tr = [13] /\ ch_queue (sy_state s) = []) as (Hr & Hd & H0).
  { vm_compute in E. injection E as <- <-. repeat split. }
  rewrite Hr, Hd, H0 in Hq. repeat split; [exact Hr|exact Hd|exact Hq|]. apply Hs.
  vm_compute in E. injection E as <- <-. reflexivity.
Defined.

Lemma channel_wakes_witness : exists s tr, run_actions 1 (take 12 demo_actions) (opened demo_channel) = Some (s, tr) /\
  ch_queue (sy_state s) = [] /\ sy_senders s <> 0%nat.
Proof.
  destruct (run_actions 1 (take 12 demo_actions) (opened demo_channel)) as [[s tr]|] eqn:E; [|vm_compute in E; discriminate E].
  exists s, tr. split; [reflexivity|].
  destruct (channel_wakes (fun _ => None) 1 demo_channel (take 12 demo_actions) s tr) as (_ & _ & H);
    [lia|reflexivity|exact E|].
  assert (sy_calls s = {[ 4%nat := mk_thread TimedReceiving true ]}) as Hc by (vm_compute in E; injection E as <- <-; reflexivity).
  apply (H ltac:(intros i t Hi; rewrite Hc in Hi; apply lookup_singleton_Some in Hi as [_ <-]; reflexivity) 4%nat
           (mk_thread TimedReceiving true)).
  rewrite Hc. reflexivity.
Defined.
