(* ===== verification/WorkerPool.v ===== *)
(** The worker pool of the native runtime ([src/src/dataset_rt/worker_pool.rs]): threads
    that take jobs from a bounded channel and send each outcome, a caught panic included,
    to the channel of the operation that submitted the job. Calls on channels are the
    atomic operations of [Channel]; an operation whose wait condition holds has no step.
    Which thread moves next is chosen by the sequence of actions. *)
From stdpp Require Import base tactics list numbers strings gmap.
From S2P Require Import Prelude Collections Records Seeds Native FileSystem RecordCodec Channel.
Open Scope Z_scope.

(** A job: the operation it belongs to and what running it gives. *)
Record pool_job (A : Type) := mk_job { job_operation : nat; job_body : unwound (CacheResult A) }.
Arguments mk_job {A} _ _.
Arguments job_operation {A} _.
Arguments job_body {A} _.

Inductive pool_worker (A : Type) :=
| Idle
| Running (j : pool_job A)
| Delivering (operation : nat) (r : CacheResult A)
| Exited.
Arguments Idle {A}.
Arguments Running {A} j.
Arguments Delivering {A} operation r.
Arguments Exited {A}.

(** A client of the pool: its result channel and how many results it still waits for. *)
Record operation (A : Type) := mk_operation {
  op_capacity : Z;
  op_results : channel_state (CacheResult A);
  op_in_flight : Z }.
Arguments mk_operation {A} _ _ _.
Arguments op_capacity {A} _.
Arguments op_results {A} _.
Arguments op_in_flight {A} _.

Record pool_state (A : Type) := mk_pool_state {
  po_capacity : Z;
  po_jobs : channel_state (pool_job A);
  po_workers : list (pool_worker A);
  po_operations : gmap nat (operation A) }.
Arguments mk_pool_state {A} _ _ _ _.
Arguments po_capacity {A} _.
Arguments po_jobs {A} _.
Arguments po_workers {A} _.
Arguments po_operations {A} _.

Inductive pool_event (A : Type) :=
| Submitted (o : nat) (body : unwound (CacheResult A))
| Refused (o : nat)
| Collected (o : nat) (r : CacheResult A).
Arguments Submitted {A} o body.
Arguments Refused {A} o.
Arguments Collected {A} o r.

Inductive pool_action (A : Type) :=
| OpenOperation (o : nat) (capacity : Z)
| Submit (o : nat) (body : unwound (CacheResult A))
| Collect (o : nat)
| CloseOperation (o : nat)
| DropPool
| Take (w : nat)
| Finish (w : nat)
| Deliver (w : nat).
Arguments OpenOperation {A} o capacity.
Arguments Submit {A} o body.
Arguments Collect {A} o.
Arguments CloseOperation {A} o.
Arguments DropPool {A}.
Arguments Take {A} w.
Arguments Finish {A} w.
Arguments Deliver {A} w.

Definition QUEUED_JOBS_PER_WORKER : Z := 4.

Section Pool.
Context {A : Type}.
Implicit Types (p : pool_state A).

(** [spawn_worker] for every index: [spawned] is the system's answer. A failure drops the
    sender, so that the workers started before it leave. *)
Definition thread_error (index : nat) (error : pystr) : CacheError :=
  NativeFailure (lit "cannot start runtime worker " ++ dec (Z.of_nat index) ++ lit ": " ++ error).

Fixpoint spawn_workers (spawned : nat -> option pystr) (index count : nat) : list (pool_worker A) * option CacheError :=
  match count with
  | O => ([], None)
  | S count =>
      match spawned index with
      | Some error => ([], Some (thread_error index error))
      | None => let '(workers, failure) := spawn_workers spawned (S index) count in (Idle :: workers, failure)
      end
  end.

(** [WorkerPool::new], with the threads it leaves running. *)
Definition new_pool (reserved : Z -> option pystr) (spawned : nat -> option pystr) (num_workers : Z)
  : CacheResult (pool_state A * option CacheError) :=
  queue_capacity ← ok_or (checked_mul num_workers QUEUED_JOBS_PER_WORKER)
                     (InvalidInput (lit "worker queue capacity overflowed usize"));
  jobs ← bounded reserved queue_capacity;
  let '(workers, failure) := spawn_workers spawned 0 (Z.to_nat num_workers) in
  Ok (mk_pool_state queue_capacity (match failure with Some _ => close_senders jobs | None => jobs end) workers ∅, failure).

(** The wrapped closure of [submit]: it always has a result. *)
Definition job_result (j : pool_job A) : CacheResult A := native_result (lit "runtime worker") (job_body j).

Definition with_workers (workers : list (pool_worker A)) (jobs : channel_state (pool_job A)) p : pool_state A :=
  mk_pool_state (po_capacity p) jobs workers (po_operations p).
Definition with_operation (o : nat) (x : operation A) p : pool_state A :=
  mk_pool_state (po_capacity p) (po_jobs p) (po_workers p) (<[o := x]> (po_operations p)).

(** [submit] by an operation with room for one more result. *)
Definition submit_job (o : nat) (body : unwound (CacheResult A)) p : option (pool_state A * list (pool_event A)) :=
  match po_operations p !! o with
  | Some x =>
      if (op_in_flight x <? op_capacity x) && ch_receivers_open (op_results x) && ch_senders_open (po_jobs p)
      then if send_waits (po_capacity p) (po_jobs p) then None
           else match push_value (mk_job o body) (po_jobs p) with
                | (Ok _, jobs) =>
                    Some (with_operation o (mk_operation (op_capacity x) (op_results x) (op_in_flight x + 1))
                            (with_workers (po_workers p) jobs p), [Submitted o body])
                | (Err _, _) => Some (p, [Refused o])
                end
      else None
  | None => None
  end.

Definition collect (o : nat) p : option (pool_state A * list (pool_event A)) :=
  match po_operations p !! o with
  | Some x =>
      if ch_receivers_open (op_results x)
      then match pop_value (op_results x) with
           | (Ok r, st) => Some (with_operation o (mk_operation (op_capacity x) st (op_in_flight x - 1)) p, [Collected o r])
           | (Err _, _) => None
           end
      else None
  | None => None
  end.

(** The loop of a worker: [recv], the job, [send]; without jobs and senders it ends, and
    the last one to end closes the receiving side. *)
Definition all_exited (workers : list (pool_worker A)) : bool :=
  forallb (fun x => match x with Exited => true | _ => false end) workers.

Definition take_next_job (w : nat) p : option (pool_state A * list (pool_event A)) :=
  match po_workers p !! w with
  | Some Idle =>
      if recv_waits (po_jobs p) then None
      else match pop_value (po_jobs p) with
           | (Ok j, jobs) => Some (with_workers (<[w := Running j]> (po_workers p)) jobs p, [])
           | (Err _, jobs) =>
               let workers := <[w := Exited]> (po_workers p) in
               Some (with_workers workers (if all_exited workers then (close_receivers jobs).2 else jobs) p, [])
           end
  | _ => None
  end.

Definition finish_job (w : nat) p : option (pool_state A * list (pool_event A)) :=
  match po_workers p !! w with
  | Some (Running j) => Some (with_workers (<[w := Delivering (job_operation j) (job_result j)]> (po_workers p)) (po_jobs p) p, [])
  | _ => None
  end.

(** [let _ = result_sender.send(result)]. *)
Definition deliver_result (w : nat) p : option (pool_state A * list (pool_event A)) :=
  match po_workers p !! w with
  | Some (Delivering o r) =>
      match po_operations p !! o with
      | Some x =>
          if send_waits (op_capacity x) (op_results x) then None
          else let '(_, st) := push_value r (op_results x) in
               Some (with_operation o (mk_operation (op_capacity x) st (op_in_flight x))
                       (with_workers (<[w := Idle]> (po_workers p)) (po_jobs p) p), [])
      | None => None
      end
  | _ => None
  end.

Definition pool_act (reserved : Z -> option pystr) (a : pool_action A) p : option (pool_state A * list (pool_event A)) :=
  match a with
  | OpenOperation o capacity =>
      match po_operations p !! o, bounded reserved capacity with
      | None, Ok st => if capacity <? 0 then None else Some (with_operation o (mk_operation capacity st 0) p, [])
      | _, _ => None
      end
  | Submit o body => submit_job o body p
  | Collect o => collect o p
  | CloseOperation o =>
      match po_operations p !! o with
      | Some x => Some (with_operation o (mk_operation (op_capacity x) (close_receivers (op_results x)).2 (op_in_flight x)) p, [])
      | None => None
      end
  | DropPool => Some (with_workers (po_workers p) (close_senders (po_jobs p)) p, [])
  | Take w => take_next_job w p
  | Finish w => finish_job w p
  | Deliver w => deliver_result w p
  end.

Fixpoint pool_run (reserved : Z -> option pystr) (acts : list (pool_action A)) p
  : option (pool_state A * list (pool_event A)) :=
  match acts with
  | [] => Some (p, [])
  | a :: rest =>
      match pool_act reserved a p with
      | Some (p, events) =>
          match pool_run reserved rest p with
          | Some (p, more) => Some (p, events ++ more)
          | None => None
          end
      | None => None
      end
  end.
End Pool.

(** * Where the results are *)

Section Flow.
Context {A : Type}.
Implicit Types (p : pool_state A) (tr : list (pool_event A)).

Definition of_job (o : nat) (j : pool_job A) : option (CacheResult A) :=
  if decide (job_operation j = o) then Some (job_result j) else None.
Definition of_worker (o : nat) (x : pool_worker A) : option (CacheResult A) :=
  match x with
  | Running j => of_job o j
  | Delivering o' r => if decide (o' = o) then Some r else None
  | _ => None
  end.

Definition results_of (o : nat) p : list (CacheResult A) :=
  match po_operations p !! o with Some x => ch_queue (op_results x) | None => [] end.
Definition open_operation (o : nat) p : bool :=
  match po_operations p !! o with Some x => ch_receivers_open (op_results x) | None => true end.
Definition flight (o : nat) p : Z := match po_operations p !! o with Some x => op_in_flight x | None => 0 end.

(** Results operation [o] has not collected yet: of queued jobs, of workers, delivered. *)
Definition pending (o : nat) p : list (CacheResult A) :=
  omap (of_job o) (ch_queue (po_jobs p)) ++ omap (of_worker o) (po_workers p) ++ results_of o p.

Definition submitted (o : nat) tr : list (CacheResult A) :=
  omap (fun e => match e with Submitted o' body => of_job o (mk_job o' body) | _ => None end) tr.
Definition collected (o : nat) tr : list (CacheResult A) :=
  omap (fun e => match e with Collected o' r => if decide (o' = o) then Some r else None | _ => None end) tr.

(** What a step does for operation [o], unless its receiver is gone. *)
Definition flow (o : nat) p tr p' : Prop :=
  open_operation o p' = true ->
  open_operation o p = true /\
  pending o p ++ submitted o tr ≡ₚ collected o tr ++ pending o p' /\
  flight o p' = flight o p + Z.of_nat (length (submitted o tr)) - Z.of_nat (length (collected o tr)).

Lemma workers_out {B} (f : pool_worker A -> option B) workers w x : workers !! w = Some x ->
  omap f workers ≡ₚ option_list (f x) ++ omap f (delete w workers).
Proof. intros H. rewrite (delete_Permutation _ _ _ H) at 1. simpl. by destruct (f x). Qed.

Lemma workers_in {B} (f : pool_worker A -> option B) workers w x y : workers !! w = Some x ->
  omap f (<[w := y]> workers) ≡ₚ option_list (f y) ++ omap f (delete w workers).
Proof.
  intros H. assert (w < length workers)%nat as Hw by (by eapply lookup_lt_Some).
  rewrite insert_take_drop, delete_take_drop by done. rewrite !omap_app. simpl.
  destruct (f y); simpl; [by rewrite Permutation_middle|done].
Qed.

Lemma flow_refl o p p' : po_operations p' !! o = po_operations p !! o -> pending o p' ≡ₚ pending o p -> flow o p [] p'.
Proof.
  intros Ho Hp. unfold flow, open_operation, flight. rewrite Ho. intros H. split; [done|]. simpl. rewrite app_nil_r. split; [done|lia].
Qed.

Lemma with_operation_lookup o x p o2 :
  po_operations (with_operation o x p) !! o2 = if decide (o = o2) then Some x else po_operations p !! o2.
Proof. simpl. case_decide; simplify_eq; [by rewrite lookup_insert_eq|by rewrite lookup_insert_ne]. Qed.

(** The views of an operation after an update of [o]. *)
Ltac view o o2 := unfold flow, open_operation, flight, results_of; rewrite ?with_operation_lookup;
  destruct (decide (o = o2)) as [<-|?]; simpl.

Lemma submit_flow o body p p' tr o2 : submit_job o body p = Some (p', tr) -> flow o2 p tr p'.
Proof.
  unfold submit_job. destruct (po_operations p !! o) as [x|] eqn:Ex; [|done].
  destruct (_ && _ && _); [|done]. destruct (send_waits _ _); [done|]. unfold push_value.
  destruct (negb (ch_receivers_open (po_jobs p))); intros H; injection H as <- <-.
  { by apply flow_refl. }
  set (S := submitted o2 [Submitted o body]).
  assert (HS : omap (of_job o2) [mk_job o body] = S) by done.
  assert (Hp : pending o2 (with_operation o (mk_operation (op_capacity x) (op_results x) (op_in_flight x + 1))
      (with_workers (po_workers p) (mk_channel (ch_queue (po_jobs p) ++ [mk_job o body]) (ch_senders_open (po_jobs p))
         (ch_receivers_open (po_jobs p))) p)) ≡ₚ pending o2 p ++ S).
  { unfold pending. simpl. rewrite omap_app, HS, <- !app_assoc. apply Permutation_app_head.
    rewrite Permutation_app_comm, <- app_assoc. apply Permutation_app_head, Permutation_app_tail, Permutation_refl'.
    unfold results_of. rewrite with_operation_lookup. case_decide; [subst o2; by rewrite Ex|done]. }
  intros Ho. split; [|split; [by rewrite Hp|]].
  - revert Ho. view o o2; rewrite ?Ex; done.
  - change (collected o2 [Submitted o body]) with (@nil (CacheResult A)). subst S. unfold submitted, of_job. view o o2.
    + rewrite Ex, decide_True by done. simpl. lia.
    + rewrite decide_False by done. simpl. lia.
Qed.

Lemma collect_flow o p p' tr o2 : collect o p = Some (p', tr) -> flow o2 p tr p'.
Proof.
  unfold collect. destruct (po_operations p !! o) as [x|] eqn:Ex; [|done].
  destruct (ch_receivers_open (op_results x)) eqn:Eo; [|done]. unfold pop_value.
  destruct (ch_queue (op_results x)) as [|r rest] eqn:Eq; intros H; [done|]. injection H as <- <-.
  intros Hop. unfold pending, submitted, collected. simpl. rewrite app_nil_r. revert Hop.
  view o o2; rewrite ?Ex, ?Eq, ?Eo; intros Hop; split_and!; try done; try lia. by rewrite <- !Permutation_middle.
Qed.

Lemma take_flow w p p' tr o2 : take_next_job w p = Some (p', tr) -> flow o2 p tr p'.
Proof.
  unfold take_next_job. destruct (po_workers p !! w) as [[]|] eqn:Ew; try done.
  destruct (recv_waits _); [done|]. unfold pop_value.
  destruct (ch_queue (po_jobs p)) as [|j rest] eqn:Eq; intros H; injection H as <- <-; apply flow_refl; try done;
    unfold pending; rewrite Eq; simpl; change (results_of o2 (with_workers ?a ?b p)) with (results_of o2 p);
    rewrite (workers_in _ _ _ _ _ Ew), (workers_out (of_worker o2) _ _ _ Ew); simpl.
  - destruct (all_exited _); simpl; [done|by rewrite Eq].
  - destruct (of_job o2 j) as [r|]; simpl; [|done]. by rewrite <- !Permutation_middle.
Qed.

Lemma finish_flow w p p' tr o2 : finish_job w p = Some (p', tr) -> flow o2 p tr p'.
Proof.
  unfold finish_job. destruct (po_workers p !! w) as [[|j| |]|] eqn:Ew; try done. intros H. injection H as <- <-.
  apply flow_refl; [done|]. unfold pending. simpl. rewrite (workers_in _ _ _ _ _ Ew), (workers_out (of_worker o2) _ _ _ Ew).
  done.
Qed.

Lemma deliver_flow w p p' tr o2 : deliver_result w p = Some (p', tr) -> flow o2 p tr p'.
Proof.
  unfold deliver_result. destruct (po_workers p !! w) as [[| |o r|]|] eqn:Ew; try done.
  destruct (po_operations p !! o) as [x|] eqn:Ex; [|done]. destruct (send_waits _ _); [done|]. unfold push_value.
  destruct (ch_receivers_open (op_results x)) eqn:Eo; simpl; intros H; injection H as <- <-; intros Hop;
    unfold pending, submitted, collected; simpl; rewrite (workers_in _ _ _ _ _ Ew), (workers_out (of_worker o2) _ _ _ Ew); simpl;
    revert Hop; view o o2; rewrite ?Ex, ?Eo; try done; intros Hop'; split_and!; try done; try lia.
  all: rewrite ?app_nil_r; simpl; try done.
  rewrite (app_assoc _ _ [r]), (Permutation_app_comm _ [r]). simpl. done.
Qed.

Lemma act_flow reserved a p p' tr o : pool_act reserved a p = Some (p', tr) -> flow o p tr p'.
Proof.
  destruct a as [o1 capacity|o1 body|o1|o1| |w|w|w]; simpl; intros H;
    [| |by eapply collect_flow| | |by eapply take_flow|by eapply finish_flow|by eapply deliver_flow].
  - destruct (po_operations p !! o1) eqn:E1; [done|]. destruct (bounded reserved capacity) as [st|] eqn:Eb; [|done].
    destruct (capacity <? 0); [done|]. injection H as <- <-. unfold bounded in Eb. destruct (capacity =? 0); [done|].
    destruct (reserved capacity); [done|]. injection Eb as <-. intros Hop. revert Hop. unfold pending, submitted, collected. simpl.
    rewrite app_nil_r. view o1 o; rewrite ?E1; intros Hop; split_and!; try done; lia.
  - by eapply submit_flow.
  - destruct (po_operations p !! o1) as [x|] eqn:E1; [|done]. injection H as <- <-. intros Hop. revert Hop.
    unfold pending, submitted, collected. simpl. rewrite app_nil_r. view o1 o; [done|]. intros Hop. split_and!; try done; lia.
  - injection H as <- <-. by apply flow_refl.
Qed.

Lemma submitted_app o tr tr' : submitted o (tr ++ tr') = submitted o tr ++ submitted o tr'.
Proof. apply omap_app. Qed.
Lemma collected_app o tr tr' : collected o (tr ++ tr') = collected o tr ++ collected o tr'.
Proof. apply omap_app. Qed.

Lemma flow_trans o p tr p1 tr1 p2 : flow o p tr p1 -> flow o p1 tr1 p2 -> flow o p (tr ++ tr1) p2.
Proof.
  intros F F1 Ho. destruct (F1 Ho) as (Ho1 & Hp1 & Hf1). destruct (F Ho1) as (Ho0 & Hp & Hf).
  rewrite submitted_app, collected_app. split_and!; [done| |rewrite !length_app; lia].
  by rewrite app_assoc, Hp, <- !app_assoc, Hp1.
Qed.

Lemma run_flow reserved acts : forall p p' tr o, pool_run reserved acts p = Some (p', tr) -> flow o p tr p'.
Proof.
  induction acts as [|a acts IH]; simpl; intros p p' tr o H; [injection H as <- <-; by apply flow_refl|].
  destruct (pool_act reserved a p) as [[p1 e1]|] eqn:Ea; [|done].
  destruct (pool_run reserved acts p1) as [[p2 e2]|] eqn:Er; [|done]. injection H as <- <-.
  eapply flow_trans; [by eapply act_flow|by eapply IH].
Qed.
End Flow.

(** * The invariant of the pool *)

Section Invariant.
Context {A : Type} (reserved : Z -> option pystr).
Implicit Types (p : pool_state A).

Record pool_inv p : Prop := mk_pool_inv {
  pi_workers : po_workers p <> [];
  pi_receivers : ch_receivers_open (po_jobs p) = negb (all_exited (po_workers p));
  pi_exited : Exited ∈ po_workers p -> ch_senders_open (po_jobs p) = false /\ ch_queue (po_jobs p) = [];
  pi_flight : forall o, open_operation o p = true -> flight o p = Z.of_nat (length (pending o p));
  pi_window : forall o x, po_operations p !! o = Some x -> op_in_flight x <= op_capacity x }.

Lemma pi_flight_step p tr p' : (forall o, flow o p tr p') ->
  (forall o, open_operation o p = true -> flight o p = Z.of_nat (length (pending o p))) ->
  forall o, open_operation o p' = true -> flight o p' = Z.of_nat (length (pending o p')).
Proof.
  intros F I o Ho. destruct (F o Ho) as (Ho0 & Hp & Hf). apply Permutation_length in Hp. rewrite !length_app in Hp.
  rewrite Hf, (I o Ho0). lia.
Qed.

Lemma window_step o x p : (forall o x, po_operations p !! o = Some x -> op_in_flight x <= op_capacity x) ->
  op_in_flight x <= op_capacity x ->
  forall o2 x2, po_operations (with_operation o x p) !! o2 = Some x2 -> op_in_flight x2 <= op_capacity x2.
Proof. intros W Hx o2 x2. rewrite with_operation_lookup. case_decide; [by intros [= <-]|apply W]. Qed.

Lemma busy_not_all (workers : list (pool_worker A)) w x : workers !! w = Some x -> x <> Exited -> all_exited workers = false.
Proof.
  revert w. induction workers as [|y workers IH]; intros [|w] Hw Hx; simpl in *; simplify_eq; try done; [by destruct x|].
  rewrite (IH w Hw Hx). apply andb_false_r.
Qed.

Lemma exited_insert (workers : list (pool_worker A)) w y : y <> Exited -> Exited ∈ <[w := y]> workers -> Exited ∈ workers.
Proof.
  intros Hy H. apply list_elem_of_lookup in H as [k Hk]. destruct (decide (k = w)) as [->|Hn].
  - apply list_lookup_insert_Some in Hk as [(_ & ? & _)|(? & _)]; done.
  - rewrite list_lookup_insert_ne in Hk by done. by eapply list_elem_of_lookup_2.
Qed.

(** A change of one busy worker. *)
Lemma worker_moves p w x y jobs : pool_inv p -> po_workers p !! w = Some x -> x <> Exited -> y <> Exited ->
  ch_receivers_open jobs = ch_receivers_open (po_jobs p) -> ch_senders_open jobs = ch_senders_open (po_jobs p) ->
  (ch_queue (po_jobs p) = [] -> ch_queue jobs = []) ->
  (forall o, flow o p [] (with_workers (<[w := y]> (po_workers p)) jobs p)) ->
  pool_inv (with_workers (<[w := y]> (po_workers p)) jobs p).
Proof.
  intros I Hw Hx Hy Hr Hs Hq F. destruct I as [I1 I2 I3 I4 I5]. assert (w < length (po_workers p))%nat by (by eapply lookup_lt_Some).
  constructor; simpl; [|rewrite Hr, I2| | |done].
  - intros E. apply (f_equal length) in E. rewrite length_insert in E. by destruct (po_workers p).
  - rewrite (busy_not_all _ w x), (busy_not_all _ w y); try done. by apply list_lookup_insert_eq.
  - intros H'. rewrite Hs. destruct I3; [by eapply exited_insert|auto].
  - by eapply pi_flight_step.
Qed.

Lemma submit_inv o body p p' tr : pool_inv p -> submit_job o body p = Some (p', tr) ->
  pool_inv p' /\ tr = [Submitted o body].
Proof.
  intros I H. assert (F : forall o2, flow o2 p tr p') by (intros; by eapply submit_flow).
  unfold submit_job in H. destruct I as [I1 I2 I3 I4 I5]. destruct (po_operations p !! o) as [x|] eqn:Ex; [|done].
  destruct (_ && _ && _) eqn:Eg; [|done]. rewrite !andb_true_iff in Eg. destruct Eg as [[El Eo] Es]. apply Z.ltb_lt in El.
  assert (Hn : Exited ∉ po_workers p) by (intros He; destruct (I3 He); congruence).
  assert (ch_receivers_open (po_jobs p) = true) as Hr.
  { rewrite I2. destruct (po_workers p) as [|x0 rest] eqn:E0; [done|].
    rewrite (busy_not_all _ 0 x0); [done|done|]. intros ->. apply Hn. left. }
  destruct (send_waits _ _); [done|]. unfold push_value in H. rewrite Hr in H. simpl in H. injection H as <- <-. split; [|done].
  constructor; simpl; [done|by rewrite <- I2|done|by eapply pi_flight_step|].
  apply (window_step o); [done|simpl; lia].
Qed.

Lemma collect_inv o p p' tr : pool_inv p -> collect o p = Some (p', tr) -> pool_inv p'.
Proof.
  intros I H. assert (F : forall o2, flow o2 p tr p') by (intros; by eapply collect_flow).
  unfold collect in H. destruct I as [I1 I2 I3 I4 I5]. destruct (po_operations p !! o) as [x|] eqn:Ex; [|done].
  destruct (ch_receivers_open (op_results x)); [|done].
  destruct (pop_value (op_results x)) as [[r|] st]; [|done]. injection H as <- <-.
  constructor; simpl; [done|done|done|by eapply pi_flight_step|]. apply (window_step o); [done|]. simpl. specialize (I5 _ _ Ex). lia.
Qed.

Lemma take_inv w p p' tr : pool_inv p -> take_next_job w p = Some (p', tr) -> pool_inv p'.
Proof.
  intros I H. assert (F : forall o2, flow o2 p tr p') by (intros; by eapply take_flow).
  unfold take_next_job in H. destruct (po_workers p !! w) as [[]|] eqn:Ew; try done.
  destruct (recv_waits (po_jobs p)) eqn:Er; [done|]. unfold pop_value in H.
  destruct (ch_queue (po_jobs p)) as [|j rest] eqn:Eq; injection H as <- <-.
  - assert (ch_senders_open (po_jobs p) = false) as Hs.
    { unfold recv_waits, queue_len in Er. rewrite Eq in Er. simpl in Er. by rewrite andb_true_r in Er. }
    destruct I as [I1 I2 I3 I4 I5]. constructor; simpl; [| | | |done].
    + intros E. apply (f_equal length) in E. rewrite length_insert in E. by destruct (po_workers p).
    + destruct (all_exited (<[w := Exited]> (po_workers p))) eqn:Ea; [done|]. by rewrite I2, (busy_not_all _ w Idle).
    + intros _. destruct (all_exited (<[w := Exited]> (po_workers p))); simpl; [|rewrite Eq]; done.
    + by eapply pi_flight_step.
  - eapply worker_moves; try done. by rewrite Eq.
Qed.

Lemma deliver_inv w p p' tr : pool_inv p -> deliver_result w p = Some (p', tr) -> pool_inv p'.
Proof.
  intros I H. assert (F : forall o2, flow o2 p tr p') by (intros; by eapply deliver_flow).
  unfold deliver_result in H. destruct (po_workers p !! w) as [[| |o r|]|] eqn:Ew; try done.
  destruct (po_operations p !! o) as [x|] eqn:Ex; [|done]. destruct (send_waits _ _); [done|].
  destruct (push_value r (op_results x)) as [? st] eqn:Ep. injection H as <- <-.
  destruct I as [I1 I2 I3 I4 I5]. assert (w < length (po_workers p))%nat by (by eapply lookup_lt_Some).
  constructor; simpl.
  - intros E. apply (f_equal length) in E. rewrite length_insert in E. by destruct (po_workers p).
  - rewrite I2, (busy_not_all _ w (Delivering o r)), (busy_not_all _ w Idle); try done. by apply list_lookup_insert_eq.
  - intros He. apply I3. by apply (exited_insert _ w Idle).
  - by eapply pi_flight_step.
  - apply (window_step o); [done|]. simpl. by eapply I5.
Qed.

Lemma pool_act_inv a p p' tr : pool_inv p -> pool_act reserved a p = Some (p', tr) ->
  pool_inv p' /\ (forall o, Refused o ∉ tr).
Proof.
  intros I H. assert (F : forall o2, flow o2 p tr p') by (intros; by eapply act_flow).
  destruct a as [o capacity|o body|o|o| |w|w|w]; simpl in H.
  - destruct (po_operations p !! o); [done|]. destruct (bounded reserved capacity); [|done].
    destruct (Z.ltb_spec capacity 0); [done|]. injection H as <- <-. split; [|intros o2; apply not_elem_of_nil].
    destruct I as [I1 I2 I3 I4 I5]. constructor; simpl; [done..|by eapply pi_flight_step|]. by apply (window_step o).
  - apply submit_inv in H as [I' ->]; [|done]. split; [done|]. intros o2. rewrite list_elem_of_singleton. done.
  - split; [by eapply collect_inv|]. unfold collect in H. destruct (po_operations p !! o) as [x|]; [|done].
    destruct (ch_receivers_open _); [|done]. destruct (pop_value _) as [[]]; [|done]. injection H as _ <-.
    intros o2. rewrite list_elem_of_singleton. done.
  - destruct (po_operations p !! o) as [x|] eqn:Ex; [|done]. injection H as <- <-. split; [|intros o2; apply not_elem_of_nil].
    destruct I as [I1 I2 I3 I4 I5]. constructor; simpl; [done..|by eapply pi_flight_step|]. apply (window_step o); [done|]. simpl. by apply (I5 o).
  - injection H as <- <-. split; [|intros o2; apply not_elem_of_nil].
    destruct I as [I1 I2 I3 I4 I5]. constructor; simpl; [done|done| |by eapply pi_flight_step|done]. intros He. by destruct (I3 He).
  - split; [by eapply take_inv|]. unfold take_next_job in H. destruct (po_workers p !! w) as [[]|]; try done.
    destruct (recv_waits _); [done|]. destruct (pop_value _) as [[]]; injection H as _ <-; intros o2; apply not_elem_of_nil.
  - unfold finish_job in H. destruct (po_workers p !! w) as [[|j| |]|] eqn:Ew; try done. injection H as <- <-.
    split; [|intros o2; apply not_elem_of_nil]. by eapply worker_moves.
  - split; [by eapply deliver_inv|]. unfold deliver_result in H. destruct (po_workers p !! w) as [[| |o r|]|]; try done.
    destruct (po_operations p !! o) as [x|]; [|done]. destruct (send_waits _ _); [done|].
    destruct (push_value _ _). injection H as _ <-. intros o2. apply not_elem_of_nil.
Qed.

Lemma pool_run_inv acts : forall p p' tr, pool_inv p -> pool_run reserved acts p = Some (p', tr) ->
  pool_inv p' /\ (forall o, Refused o ∉ tr).
Proof.
  induction acts as [|a acts IH]; simpl; intros p p' tr I H; [injection H as <- <-; split; [done|intros o; apply not_elem_of_nil]|].
  destruct (pool_act reserved a p) as [[p1 e1]|] eqn:Ea; [|done]. apply pool_act_inv in Ea as [I1 N1]; [|done].
  destruct (pool_run reserved acts p1) as [[p2 e2]|] eqn:Er; [|done]. injection H as <- <-.
  destruct (IH _ _ _ I1 Er) as [I2 N2]. split; [done|]. intros o. rewrite elem_of_app. intros [?|?]; [by eapply N1|by eapply N2].
Qed.

(** ** Work comes to an end *)

Definition is_work (a : pool_action A) : bool := match a with Take _ | Finish _ | Deliver _ => true | _ => false end.

Definition worker_weight (x : pool_worker A) : nat := match x with Exited => 0 | Idle => 1 | Delivering _ _ => 2 | Running _ => 3 end.
Definition workload p : nat := 3 * length (ch_queue (po_jobs p)) + sum_list_with worker_weight (po_workers p).

Lemma weight_insert workers w x y : workers !! w = Some x ->
  (sum_list_with worker_weight (<[w := y]> workers) + worker_weight x = sum_list_with worker_weight workers + worker_weight y)%nat.
Proof.
  revert w. induction workers as [|z workers IH]; intros [|w] Hw; simpl in *; simplify_eq; [lia|]. specialize (IH w Hw). lia.
Qed.

Lemma weights_bound workers : (sum_list_with worker_weight workers <= 3 * length workers)%nat.
Proof. induction workers as [|x workers IH]; simpl; [lia|]. destruct x; simpl; lia. Qed.

Lemma work_shrinks a p p' tr : is_work a = true -> pool_act reserved a p = Some (p', tr) -> (workload p' < workload p)%nat.
Proof.
  intros Ha H. destruct a as [| | | | |w|w|w]; try done; simpl in H.
  - unfold take_next_job in H. destruct (po_workers p !! w) as [[]|] eqn:Ew; try done. destruct (recv_waits _); [done|].
    pose proof (fun y => weight_insert _ _ _ y Ew) as Hw. unfold pop_value in H. unfold workload.
    destruct (ch_queue (po_jobs p)) as [|j rest] eqn:Eq; injection H as <- <-; simpl.
    + specialize (Hw Exited). simpl in Hw. destruct (all_exited _); simpl; rewrite ?Eq; simpl; lia.
    + specialize (Hw (Running j)). simpl in Hw. lia.
  - unfold finish_job in H. destruct (po_workers p !! w) as [[|j| |]|] eqn:Ew; try done. injection H as <- <-.
    pose proof (weight_insert _ _ _ (Delivering (job_operation j) (job_result j)) Ew) as Hw. unfold workload. simpl in *. lia.
  - unfold deliver_result in H. destruct (po_workers p !! w) as [[| |o r|]|] eqn:Ew; try done.
    destruct (po_operations p !! o); [|done]. destruct (send_waits _ _); [done|]. destruct (push_value _ _).
    injection H as <- <-. pose proof (weight_insert _ _ _ Idle Ew) as Hw. unfold workload. simpl in *. lia.
Qed.

Lemma work_bounded work : forall p p' tr, Forall (fun a => is_work a = true) work ->
  pool_run reserved work p = Some (p', tr) -> (length work + workload p' <= workload p)%nat.
Proof.
  induction work as [|a work IH]; simpl; intros p p' tr Hf H; [by injection H as <- <-|].
  apply Forall_cons in Hf as [Ha Hf]. destruct (pool_act reserved a p) as [[p1 e1]|] eqn:Ea; [|done].
  apply work_shrinks in Ea; [|done]. destruct (pool_run reserved work p1) as [[p2 e2]|] eqn:Er; [|done].
  injection H as <- <-. specialize (IH _ _ _ Hf Er). lia.
Qed.

(** A window of results never fills up: a finished job can always be delivered. *)
Lemma deliver_enabled p w o r : pool_inv p -> po_workers p !! w = Some (Delivering o r) ->
  exists p' tr, pool_act reserved (Deliver w) p = Some (p', tr).
Proof.
  intros I Hw. simpl. unfold deliver_result. rewrite Hw.
  assert (Hlen : open_operation o p = true -> Z.of_nat (length (results_of o p)) < flight o p).
  { intros Ho. rewrite (pi_flight _ I o Ho). unfold pending. rewrite !length_app, (workers_out (of_worker o) _ _ _ Hw).
    simpl. rewrite decide_True by done. simpl. lia. }
  unfold open_operation, results_of, flight in Hlen. destruct (po_operations p !! o) as [x|] eqn:Ex.
  - assert (send_waits (op_capacity x) (op_results x) = false) as ->.
    { unfold send_waits, queue_len. destruct (ch_receivers_open (op_results x)); [|done]. simpl.
      specialize (Hlen eq_refl). pose proof (pi_window _ I o x Ex). apply Z.eqb_neq. lia. }
    destruct (push_value r (op_results x)). by eexists _, _.
  - simpl in Hlen. specialize (Hlen eq_refl). lia.
Qed.

Lemma work_done p : pool_inv p -> (forall a, is_work a = true -> pool_act reserved a p = None) ->
  ch_queue (po_jobs p) = [] /\
  (forall w x, po_workers p !! w = Some x -> x = if ch_senders_open (po_jobs p) then Idle else Exited) /\
  (forall o, pending o p = results_of o p).
Proof.
  intros I Hrest.
  assert (Hworkers : forall w x, po_workers p !! w = Some x -> x = Idle \/ x = Exited).
  { intros w x Hw. destruct x as [|j|o r|]; [by left| | |by right].
    - specialize (Hrest (Finish w) eq_refl). simpl in Hrest. unfold finish_job in Hrest. by rewrite Hw in Hrest.
    - destruct (deliver_enabled p w o r I Hw) as (p' & tr & E). by rewrite Hrest in E. }
  assert (Hidle : forall w, po_workers p !! w = Some Idle -> recv_waits (po_jobs p) = true).
  { intros w Hw. specialize (Hrest (Take w) eq_refl). simpl in Hrest. unfold take_next_job in Hrest. rewrite Hw in Hrest.
    destruct (recv_waits (po_jobs p)); [done|]. by destruct (pop_value _) as [[]]. }
  assert (Hq : ch_queue (po_jobs p) = []).
  { destruct (ch_queue (po_jobs p)) as [|j rest] eqn:Eq; [done|]. destruct (po_workers p) as [|x ws] eqn:Ews; [by destruct (pi_workers _ I)|].
    destruct (Hworkers 0%nat x eq_refl) as [->| ->].
    - specialize (Hidle 0%nat eq_refl). unfold recv_waits, queue_len in Hidle. rewrite Eq in Hidle. simpl in Hidle.
      by rewrite andb_false_r in Hidle.
    - destruct (pi_exited _ I) as [_ E]; [rewrite Ews; left|]. congruence. }
  split_and!; [done| |].
  - intros w x Hw. destruct (Hworkers w x Hw) as [->| ->].
    + apply Hidle in Hw. unfold recv_waits in Hw. apply andb_true_iff in Hw as [-> _]. done.
    + destruct (pi_exited _ I) as [-> _]; [by eapply list_elem_of_lookup_2|done].
  - intros o. unfold pending. rewrite Hq. simpl.
    assert (omap (of_worker o) (po_workers p) = []) as ->; [|done].
    clear -Hworkers. induction (po_workers p) as [|x ws IH]; [done|]. simpl.
    destruct (Hworkers 0%nat x eq_refl) as [->| ->]; simpl; apply IH; intros w; apply (Hworkers (S w)).
Qed.

Lemma spawned_idle spawned count : forall index workers failure,
  spawn_workers (A := A) spawned index count = (workers, failure) -> failure = None -> workers = replicate count Idle.
Proof.
  induction count as [|count IH]; simpl; intros index workers failure H Hf; [by injection H as <- <-|].
  destruct (spawned index); [by injection H as <- <-|].
  destruct (spawn_workers spawned (S index) count) as [ws fl] eqn:E. injection H as <- <-. by rewrite (IH _ _ _ E Hf).
Qed.

Lemma new_pool_inv spawned num_workers p : 0 < num_workers -> new_pool reserved spawned num_workers = Ok (p, None) ->
  pool_inv p /\ (forall o, pending o p = []).
Proof.
  intros Hn H. unfold new_pool in H. destruct (checked_mul num_workers QUEUED_JOBS_PER_WORKER) as [c|]; simpl in H; [|done].
  destruct (bounded reserved c) as [st|] eqn:Eb; simpl in H; [|done].
  destruct (spawn_workers spawned 0 (Z.to_nat num_workers)) as [ws fl] eqn:Es. injection H as <- ->.
  apply spawned_idle in Es; [|done]. subst ws. unfold bounded in Eb. destruct (c =? 0); [done|].
  destruct (reserved c); [done|]. injection Eb as <-.
  assert (Hp : forall n o, omap (of_worker o) (replicate n (@Idle A)) = []) by (intros n o; by induction n).
  assert (Hpending : forall o, pending o (mk_pool_state c (mk_channel [] true true) (replicate (Z.to_nat num_workers) (@Idle A)) ∅) = []).
  { intros o. unfold pending. simpl. rewrite Hp. unfold results_of. simpl. by rewrite lookup_empty. }
  destruct (Z.to_nat num_workers) as [|n] eqn:E; [lia|]. split; [|done]. constructor; simpl.
  - done.
  - done.
  - intros He. exfalso. revert He. change (Exited ∉ replicate (S n) (@Idle A)). intros He. apply elem_of_replicate in He. naive_solver.
  - intros o _. rewrite Hpending. unfold flight. simpl. by rewrite lookup_empty.
  - intros o x. by rewrite lookup_empty.
Qed.
End Invariant.

(** * The contract of the pool *)


(** Two workers and two jobs, one of which panics; the pool is dropped before the second
    result is collected. *)
Definition demo_pool_actions : list (pool_action Z) :=
  [OpenOperation 0 2; Submit 0 (Panicked (Some (lit "dependency failure"))); Submit 0 (Finished (Ok 7));
   Take 1; Take 0; Finish 0; Deliver 0; Finish 1; Deliver 1; Collect 0; DropPool; Take 0; Take 1].

