(* ===== verification/ArrowTable.v ===== *)
(** Columnar tables in record batches ([ArrowMetadata] and its reader in
    [src/src/dataset_rt/arrow_metadata.rs], the batched loops of
    [src/src/dataset_rt/samples_metadata.rs]), and that they are the flat tables of
    [Metadata] the reading side is proved with. A batch is its rows; its columns are those
    of the table. *)
From stdpp Require Import base tactics list numbers strings gmap.
From S2P Require Import Prelude Collections Records Binary64 Config Seeds Native Metadata FileSystem.
Open Scope Z_scope.

Definition METADATA_BATCH_ROWS : Z := 65536.

Abbreviation batch := (list (list cell)).

Definition rows_of (b : batch) : Z := Z.of_nat (length b).

(** [ArrowMetadata]. *)
Record ArrowMetadata := mk_arrow {
  am_columns : list (pystr * ArrowType);
  am_batches : list batch;
  am_offsets : list Z;
  am_rows : Z;
  am_selection : option (list Z) }.

(** The loop of [ArrowMetadata::new]: where each batch begins, and the number of rows. *)
Fixpoint batch_offsets (rows : Z) (batches : list batch) : CacheResult (list Z * Z) :=
  match batches with
  | [] => Ok ([], rows)
  | b :: rest =>
      next ← ok_or (checked_add rows (rows_of b)) (InvalidInput (lit "metadata row count overflowed usize"));
      '(offsets, total) ← batch_offsets next rest;
      Ok (rows :: offsets, total)
  end.

Definition arrow_new (columns : list (pystr * ArrowType)) (batches : list batch) : CacheResult ArrowMetadata :=
  '(offsets, rows) ← batch_offsets 0 batches;
  Ok (mk_arrow columns batches offsets rows None).

(** [select]: a selection array, [None] for a null. *)
Definition arrow_select (t : ArrowMetadata) (selection : list (option Z)) : CacheResult ArrowMetadata :=
  if existsb (fun x => bool_decide (x = None)) selection
  then Err (InvalidInput (lit "metadata selection contains nulls"))
  else let rows := omap id selection in
       if forallb (fun row => row <? am_rows t) rows
       then Ok (mk_arrow (am_columns t) (am_batches t) (am_offsets t) (am_rows t) (Some rows))
       else Err (InvalidInput (lit "metadata selection is out of range")).

Definition arrow_len (t : ArrowMetadata) : Z :=
  match am_selection t with Some selection => Z.of_nat (length selection) | None => am_rows t end.

(** [location]: a position of the view as a batch and a row of it. *)
Definition location (t : ArrowMetadata) (position : Z) : CacheResult (Z * Z) :=
  if arrow_len t <=? position then Err (InvalidInput (lit "metadata row is out of range"))
  else
    let row := match am_selection t with
               | Some selection => default 0 (selection !! Z.to_nat position)
               | None => position
               end in
    batch_index ← ok_or (checked_sub (partition_point (fun offset => offset <=? row) (am_offsets t)) 1)
                    (InvalidInput (lit "metadata batch is missing"));
    offset ← ok_or (am_offsets t !! Z.to_nat batch_index) WorkerFailed;
    Ok (batch_index, row - offset).

(** [row]. *)
Definition row_at (t : ArrowMetadata) (position : Z) : CacheResult (Z * batch * Z) :=
  '(batch_index, row) ← location t position;
  b ← ok_or (am_batches t !! Z.to_nat batch_index) WorkerFailed;
  Ok (batch_index, b, row).

(** * The reader *)

(** [shared_batch]: the rest of the batch the position is in, bounded. *)
Definition shared_batch (t : ArrowMetadata) (position : Z) : CacheResult (batch * Z) :=
  '(_, b, row) ← row_at t position;
  let len := Z.min (rows_of b - row) METADATA_BATCH_ROWS in
  Ok (slice row len b, position + len).

(** [selected_batch]: positions up to the first one in another batch, bounded. *)
Fixpoint gather_run (fuel : nat) (t : ArrowMetadata) (batch_index stop : Z) (indices : list Z) : CacheResult (list Z * Z) :=
  match fuel with
  | O => Ok (indices, stop)
  | S fuel =>
      if (stop <? arrow_len t) && (Z.of_nat (length indices) <? METADATA_BATCH_ROWS)
      then '(next_batch, _, row) ← row_at t stop;
           if next_batch =? batch_index then gather_run fuel t batch_index (stop + 1) (indices ++ [row])
           else Ok (indices, stop)
      else Ok (indices, stop)
  end.

(** [take_record_batch]. *)
Definition take_rows (b : batch) (indices : list Z) : batch := omap (fun i => b !! Z.to_nat i) indices.

Definition selected_batch (t : ArrowMetadata) (position : Z) : CacheResult (batch * Z) :=
  '(batch_index, b, first_row) ← row_at t position;
  '(indices, stop) ← gather_run (Z.to_nat (arrow_len t)) t batch_index (position + 1) [first_row];
  Ok (take_rows b indices, stop).

(** [MetadataReader::next]; an error ends the reader. *)
Definition reader_next (t : ArrowMetadata) (position : Z) : option (result batch pystr * Z) :=
  if arrow_len t <=? position then None
  else Some (match (match am_selection t with None => shared_batch t position | Some _ => selected_batch t position end) with
             | Ok (b, position) => (Ok b, position)
             | Err e => (Err (display e), arrow_len t)
             end).

(** The batches a reader gives from a position on; every batch takes a row at least. *)
Fixpoint read_batches (fuel : nat) (t : ArrowMetadata) (position : Z) : list (result batch pystr) :=
  match fuel with
  | O => []
  | S fuel =>
      match reader_next t position with
      | None => []
      | Some (b, position) => b :: read_batches fuel t position
      end
  end.

Definition arrow_batches (t : ArrowMetadata) : list (result batch pystr) := read_batches (Z.to_nat (arrow_len t)) t 0.

(** * Validation of an update *)

Definition identity_columns (columns : list (pystr * ArrowType)) (schema : list (pystr * MetadataKind)) (b : batch)
  : CacheResult ((nat * ArrowType) * (nat * ArrowType) * (nat * ArrowType)) :=
  let t := mk_table columns b in
  _ ← validate_required_metadata_columns t schema;
  cache_ids ← required_column t (lit "cache_id");
  sample_ids ← required_column t (lit "sample_id");
  weight_values ← required_column t (lit "weight");
  Ok (cache_ids, sample_ids, weight_values).

(** One position of the loop of [extract_metadata_arrow]. *)
Definition read_position (t : ArrowMetadata) (caches : list LoadedCache) (offsets : list Z) (lookup : gmap Z Z)
    (columns : list ((nat * ArrowType) * (nat * ArrowType) * (nat * ArrowType))) (position : Z)
  : CacheResult (Z * pyfloat) :=
  '(batch_index, row) ← location t position;
  '(cid, sid, wid) ← ok_or (columns !! Z.to_nat batch_index) WorkerFailed;
  let cells := default [] (default [] (am_batches t !! Z.to_nat batch_index) !! Z.to_nat row) in
  read_row caches offsets lookup cid sid wid cells.

Definition arrow_extract (t : ArrowMetadata) (caches : list LoadedCache) (offsets : list Z) (lookup : gmap Z Z)
    (schema : list (pystr * MetadataKind)) : CacheResult ActiveTable :=
  if arrow_len t =? 0 then Err (InvalidInput (lit "metadata table must include at least one sample"))
  else
    columns ← try_collect (identity_columns (am_columns t) schema) (am_batches t);
    xs ← try_collect (read_position t caches offsets lookup columns) (seqZ 0 (arrow_len t));
    _ ← validate_weights (map snd xs) (arrow_len t);
    Ok (mk_active (map fst xs) (map snd xs)).

(** * The original table, streamed *)

(** A batch of a cache's metadata table. *)
Record stored_batch := mk_stored { sb_fields : list (pystr * ArrowType); sb_rows : list (list MetadataValue) }.

(** [metadata_column]. *)
Fixpoint check_fields (fields : list (pystr * ArrowType)) (schema : list (pystr * MetadataKind)) : CacheResult unit :=
  match schema with
  | [] => Ok tt
  | (name, kind) :: rest =>
      match fields with
      | [] => Err (InvalidCache (lit "metadata field is out of range"))
      | (actual, ty) :: fields =>
          if bool_decide (actual = name) && bool_decide (ty = arrow_type kind) then check_fields fields rest
          else Err (InvalidCache (lit "metadata column '" ++ name ++ lit "' does not match manifest schema"))
      end
  end.

Definition metadata_columns (b : stored_batch) (schema : list (pystr * MetadataKind)) : CacheResult unit :=
  if negb (length (sb_fields b) =? length schema)%nat
  then Err (InvalidCache (lit "metadata batch column count does not match manifest"))
  else check_fields (sb_fields b) schema.

(** [samples_metadata_batch]: identity columns, stored columns, weight one. *)
Definition samples_metadata_batch (c : LoadedCache) (sample_start : Z) (schema : list (pystr * MetadataKind))
    (fields : list (pystr * ArrowType)) (rows : list (list MetadataValue)) : CacheResult batch :=
  _ ← ok_or (checked_add sample_start (Z.of_nat (length rows))) (InvalidInput (lit "sample_id range overflowed usize"));
  _ ← metadata_columns (mk_stored fields rows) schema;
  Ok (imap (fun i values => original_row c (sample_start + Z.of_nat i) values) rows).

(** The chunks of one stored batch ([step_by]); [fuel] is its number of rows. *)
Fixpoint visit_chunks (fuel : nat) (c : LoadedCache) (cache_offset sample_start : Z) (schema : list (pystr * MetadataKind))
    (fields : list (pystr * ArrowType)) (rows : list (list MetadataValue)) : CacheResult (list batch * Z) :=
  match fuel, rows with
  | S fuel, _ :: _ =>
      let chunk := take (Z.to_nat METADATA_BATCH_ROWS) rows in
      _ ← ok_or (checked_add cache_offset sample_start) (InvalidInput (lit "physical metadata offset overflowed usize"));
      b ← samples_metadata_batch c sample_start schema fields chunk;
      next ← ok_or (checked_add sample_start (Z.of_nat (length chunk))) (InvalidInput (lit "metadata row count overflowed usize"));
      '(batches, next) ← visit_chunks fuel c cache_offset next schema fields (drop (Z.to_nat METADATA_BATCH_ROWS) rows);
      Ok (b :: batches, next)
  | _, _ => Ok ([], sample_start)
  end.

Fixpoint visit_batches (c : LoadedCache) (cache_offset sample_start : Z) (schema : list (pystr * MetadataKind))
    (stored : list (CacheResult stored_batch)) : CacheResult (list batch * Z) :=
  match stored with
  | [] => Ok ([], sample_start)
  | s :: rest =>
      s ← s;
      '(batches, next) ← visit_chunks (length (sb_rows s)) c cache_offset sample_start schema (sb_fields s) (sb_rows s);
      '(more, last) ← visit_batches c cache_offset next schema rest;
      Ok (batches ++ more, last)
  end.

(** [visit_samples_metadata]: [stored] are the batches of each cache's metadata file. *)
Fixpoint visit_samples_metadata (index : Z) (caches : list LoadedCache) (cache_offsets : list Z)
    (schema : list (pystr * MetadataKind)) (stored : list (list (CacheResult stored_batch))) : CacheResult (list batch) :=
  match caches, stored with
  | c :: caches, s :: stored =>
      cache_offset ← ok_or (head cache_offsets) (InvalidCache (lit "cache offset is out of range"));
      '(batches, rows) ← visit_batches c cache_offset 0 schema s;
      _ ← ensure (rows =? sample_count c)
            (InvalidCache (lit "metadata row count for cache " ++ dec index ++ lit " expected " ++
                           dec (sample_count c) ++ lit ", got " ++ dec rows));
      more ← visit_samples_metadata (index + 1) caches (tail cache_offsets) schema stored;
      Ok (batches ++ more)
  | _, _ => Ok []
  end.

(** [build_samples_metadata] with its batches. *)
Definition build_arrow_metadata (caches : list LoadedCache) (cache_offsets : list Z) (schema : list (pystr * MetadataKind))
    (stored : list (list (CacheResult stored_batch))) : CacheResult ArrowMetadata :=
  batches ← visit_samples_metadata 0 caches cache_offsets schema stored;
  arrow_new (samples_metadata_fields schema) batches.

(** * Batched tables are flat tables *)

(** The table a view shows. *)
Definition flat (t : ArrowMetadata) : table :=
  mk_table (am_columns t)
    (match am_selection t with
     | None => concat (am_batches t)
     | Some selection => omap (fun row => concat (am_batches t) !! Z.to_nat row) selection
     end).

Record wf_arrow (t : ArrowMetadata) : Prop := mk_wf_arrow {
  wa_offsets : batch_offsets 0 (am_batches t) = Ok (am_offsets t, am_rows t);
  wa_selection : forall selection, am_selection t = Some selection -> Forall (fun row => 0 <= row < am_rows t) selection }.

Lemma batch_offsets_spec batches : forall rows offsets total, batch_offsets rows batches = Ok (offsets, total) ->
  cache_offsets_from rows (map rows_of batches) = Ok offsets /\ total = rows + Zsum (map rows_of batches).
Proof.
  induction batches as [|b batches IH]; simpl; intros rows offsets total H.
  { injection H as <- <-. split; [done|]. change (Zsum []) with 0. lia. }
  destruct (checked_add rows (rows_of b)) as [next|] eqn:Ea; simpl in H; [|done].
  destruct (batch_offsets next batches) as [[l m]|] eqn:E; simpl in H; [|done]. injection H as <- <-.
  destruct (IH _ _ _ E) as [-> ->]. split; [done|]. rewrite Zsum_cons.
  unfold checked_add in Ea. destruct (_ <=? _); [|done]. injection Ea as <-. lia.
Qed.

Lemma concat_length (batches : list batch) : Z.of_nat (length (concat batches)) = Zsum (map rows_of batches).
Proof.
  induction batches as [|b batches IH]; [done|]. simpl. rewrite length_app, Zsum_cons, Nat2Z.inj_add, IH. done.
Qed.

(** Every row of the concatenation lies in one batch. *)
Lemma locate_row (batches : list batch) : forall row, 0 <= row < Zsum (map rows_of batches) ->
  exists (k : nat) b (j : nat) cells, batches !! k = Some b /\ b !! j = Some cells /\
    row = Zsum (take k (map rows_of batches)) + Z.of_nat j /\ concat batches !! Z.to_nat row = Some cells.
Proof.
  induction batches as [|b batches IH]; intros row Hrow; simpl in Hrow; [change (Zsum []) with 0 in Hrow; lia|].
  rewrite Zsum_cons in Hrow. unfold rows_of in Hrow at 1. destruct (Z_lt_ge_dec row (Z.of_nat (length b))).
  - destruct (lookup_lt_is_Some_2 b (Z.to_nat row)) as [cells Hc]; [lia|]. exists 0%nat, b, (Z.to_nat row), cells.
    simpl. split_and!; [done|done|change (Zsum []) with 0; lia|]. by apply lookup_app_l_Some.
  - destruct (IH (row - Z.of_nat (length b))) as (k & b' & j & cells & Hk & Hj & Hr & Hl); [lia|].
    exists (S k), b', j, cells. simpl. split_and!; [done|done|rewrite Zsum_cons; unfold rows_of at 1; lia|].
    rewrite lookup_app_r by lia. rewrite <- Hl. f_equal. lia.
Qed.

Section View.
Context (t : ArrowMetadata) (Ht : wf_arrow t).

Lemma arrow_rows_length : Z.of_nat (length (concat (am_batches t))) = am_rows t.
Proof. destruct (batch_offsets_spec _ _ _ _ (wa_offsets _ Ht)) as [_ ->]. rewrite concat_length. lia. Qed.

Lemma flat_length : Z.of_nat (length (table_rows (flat t))) = arrow_len t.
Proof.
  unfold flat, arrow_len. simpl. destruct (am_selection t) as [selection|] eqn:Es; [|apply arrow_rows_length].
  pose proof (wa_selection _ Ht selection Es) as Hs. clear Es. f_equal. induction Hs as [|row selection Hrow _ IH]; [done|].
  simpl. destruct (lookup_lt_is_Some_2 (concat (am_batches t)) (Z.to_nat row)) as [cells ->]; [pose proof arrow_rows_length; lia|].
  simpl. f_equal. exact IH.
Qed.

(** The row of the underlying table a position shows. *)
Definition shown_row (position : Z) : Z :=
  match am_selection t with Some selection => default 0 (selection !! Z.to_nat position) | None => position end.

Lemma shown_row_ok position : 0 <= position < arrow_len t ->
  0 <= shown_row position < am_rows t /\
  table_rows (flat t) !! Z.to_nat position = concat (am_batches t) !! Z.to_nat (shown_row position).
Proof.
  intros Hp. unfold shown_row, flat, arrow_len in *. simpl. destruct (am_selection t) as [selection|] eqn:Es; [|done].
  pose proof (wa_selection _ Ht selection Es) as Hs. clear Es.
  assert (Hn : (Z.to_nat position < length selection)%nat) by lia. clear Hp. revert Hn.
  generalize (Z.to_nat position) as n. intros n. revert n.
  induction Hs as [|row selection Hrow _ IH]; intros n Hn; [simpl in Hn; lia|].
  destruct (lookup_lt_is_Some_2 (concat (am_batches t)) (Z.to_nat row)) as [cells Hc]; [pose proof arrow_rows_length; lia|].
  simpl. rewrite Hc. destruct n as [|n]; simpl; [done|]. apply IH. simpl in Hn. lia.
Qed.

Lemma flat_location position : 0 <= position < arrow_len t ->
  exists (k j : nat) b cells, location t position = Ok (Z.of_nat k, Z.of_nat j) /\ am_batches t !! k = Some b /\
    b !! j = Some cells /\ table_rows (flat t) !! Z.to_nat position = Some cells /\
    shown_row position = Zsum (take k (map rows_of (am_batches t))) + Z.of_nat j.
Proof.
  intros Hp. destruct (shown_row_ok position Hp) as [Hrow Hshow].
  destruct (batch_offsets_spec _ _ _ _ (wa_offsets _ Ht)) as [Hoff Htotal].
  destruct (locate_row (am_batches t) (shown_row position)) as (k & b & j & cells & Hk & Hj & Hr & Hl); [lia|].
  exists k, j, b, cells. split_and!; try done; [|by rewrite Hshow].
  assert (Hcount : map rows_of (am_batches t) !! k = Some (rows_of b)) by (by rewrite list_lookup_fmap, Hk).
  assert (HF : Forall (Z.le 0) (map rows_of (am_batches t))) by (apply Forall_map, Forall_forall; intros; unfold rows_of; lia).
  assert (Hjb : 0 <= Z.of_nat j < rows_of b) by (apply lookup_lt_Some in Hj; unfold rows_of; lia).
  pose proof (partition_point_offsets _ 0 _ k _ (Z.of_nat j) ltac:(lia) HF Hoff Hcount Hjb) as Hpp.
  destruct (cache_offsets_spec _ 0 _ ltac:(lia) HF Hoff) as [_ Ho]. destruct (Ho k _ Hcount) as (o & Eo & ->).
  rewrite !Z.add_0_l in *. rewrite <- Hr in Hpp.
  unfold location. fold (shown_row position). destruct (Z.leb_spec (arrow_len t) position); [lia|].
  rewrite Hpp. unfold checked_sub. destruct (Z.leb_spec 1 (Z.of_nat k + 1)); [|lia]. simpl.
  replace (Z.to_nat (Z.of_nat k + 1 - 1)) with k by lia. rewrite Eo. simpl. f_equal. f_equal; lia.
Qed.

Lemma flat_row_at position : 0 <= position < arrow_len t ->
  exists (k j : nat) b cells, row_at t position = Ok (Z.of_nat k, b, Z.of_nat j) /\ am_batches t !! k = Some b /\
    b !! j = Some cells /\ table_rows (flat t) !! Z.to_nat position = Some cells /\
    shown_row position = Zsum (take k (map rows_of (am_batches t))) + Z.of_nat j.
Proof.
  intros Hp. destruct (flat_location position Hp) as (k & j & b & cells & El & Hk & Hj & Hc & Hr).
  exists k, j, b, cells. split_and!; try done. unfold row_at. rewrite El. simpl. rewrite Nat2Z.id, Hk. done.
Qed.

Lemma slice_inside {A} (a b c : list A) j len : 0 <= j -> 0 <= len -> j + len <= Z.of_nat (length b) ->
  slice (Z.of_nat (length a) + j) len (a ++ b ++ c) = slice j len b.
Proof.
  intros Hj Hl Hb. unfold slice. replace (Z.to_nat (Z.of_nat (length a) + j)) with (length a + Z.to_nat j)%nat by lia.
  rewrite <- drop_drop, drop_app_length, drop_app_le by lia. apply take_app_le. rewrite length_drop. lia.
Qed.

Lemma slice_S {A} (l : list A) (start : Z) x len : 0 <= start -> 0 <= len -> l !! Z.to_nat start = Some x ->
  slice start (len + 1) l = x :: slice (start + 1) len l.
Proof.
  intros Hs Hl Hx. unfold slice. rewrite (drop_S _ _ _ Hx).
  replace (Z.to_nat (len + 1)) with (S (Z.to_nat len)) by lia. replace (Z.to_nat (start + 1)) with (S (Z.to_nat start)) by lia. done.
Qed.

(** What one call of the reader gives at [position]. *)
Definition next_ok (position : Z) (r : CacheResult (batch * Z)) : Prop :=
  exists b next, r = Ok (b, next) /\ position < next <= arrow_len t /\ next - position <= METADATA_BATCH_ROWS /\
    b = slice position (next - position) (table_rows (flat t)).

Lemma shared_ok position : am_selection t = None -> 0 <= position < arrow_len t -> next_ok position (shared_batch t position).
Proof.
  intros Hs Hp. destruct (flat_row_at position Hp) as (k & j & b & cells & Er & Hk & Hj & _ & Hrow).
  unfold shown_row in Hrow. rewrite Hs in Hrow. unfold next_ok, shared_batch. rewrite Er. simpl.
  apply lookup_lt_Some in Hj. set (len := Z.min (rows_of b - Z.of_nat j) METADATA_BATCH_ROWS).
  assert (Hlen : 0 < len <= rows_of b - Z.of_nat j) by (unfold len, rows_of, METADATA_BATCH_ROWS; lia).
  assert (Hc : concat (am_batches t) = concat (take k (am_batches t)) ++ b ++ concat (drop (S k) (am_batches t))).
  { rewrite <- (take_drop_middle _ _ _ Hk) at 1. rewrite concat_app. done. }
  assert (Hpre : Z.of_nat (length (concat (take k (am_batches t)))) = Zsum (take k (map rows_of (am_batches t)))).
  { rewrite concat_length. f_equal. apply fmap_take. }
  assert (Hflat : table_rows (flat t) = concat (am_batches t)) by (unfold flat; by rewrite Hs).
  eexists _, _. split; [done|]. split_and!; [lia| | |].
  - rewrite <- flat_length, Hflat, Hc, !length_app. unfold rows_of in Hlen. lia.
  - unfold len, METADATA_BATCH_ROWS in *. lia.
  - rewrite Hs, Hc. replace (position + len - position) with len by lia. rewrite Hrow, <- Hpre, slice_inside; [done|lia..|].
    unfold rows_of in Hlen. lia.
Qed.

Lemma take_rows_snoc b indices row cells : b !! Z.to_nat row = Some cells ->
  take_rows b (indices ++ [row]) = take_rows b indices ++ [cells].
Proof. intros H. unfold take_rows. rewrite omap_app. simpl. by rewrite H. Qed.

Lemma gather_run_ok (k : nat) b : am_batches t !! k = Some b -> forall fuel stop indices,
  0 <= stop <= arrow_len t -> Z.of_nat (length indices) <= METADATA_BATCH_ROWS ->
  exists indices' stop', gather_run fuel t (Z.of_nat k) stop indices = Ok (indices', stop') /\ stop <= stop' <= arrow_len t /\
    Z.of_nat (length indices') = Z.of_nat (length indices) + (stop' - stop) /\
    Z.of_nat (length indices') <= METADATA_BATCH_ROWS /\
    take_rows b indices' = take_rows b indices ++ slice stop (stop' - stop) (table_rows (flat t)).
Proof.
  intros Hk fuel. induction fuel as [|fuel IH]; intros stop indices Hs Hi; simpl.
  { exists indices, stop. rewrite Z.sub_diag. split_and!; try done; try lia. by rewrite app_nil_r. }
  destruct (Z.ltb_spec stop (arrow_len t)) as [Hlt|]; simpl.
  2: { exists indices, stop. rewrite Z.sub_diag. split_and!; try done; try lia. by rewrite app_nil_r. }
  destruct (Z.ltb_spec (Z.of_nat (length indices)) METADATA_BATCH_ROWS) as [Hroom|].
  2: { exists indices, stop. rewrite Z.sub_diag. split_and!; try done; try lia. by rewrite app_nil_r. }
  destruct (flat_row_at stop ltac:(lia)) as (k' & j & b' & cells & Er & Hk' & Hj & Hc & _). rewrite Er. simpl.
  destruct (Z.eqb_spec (Z.of_nat k') (Z.of_nat k)) as [E|].
  2: { exists indices, stop. rewrite Z.sub_diag. split_and!; try done; try lia. by rewrite app_nil_r. }
  apply Nat2Z.inj in E. subst k'. assert (b' = b) as -> by congruence.
  destruct (IH (stop + 1) (indices ++ [Z.of_nat j])) as (indices' & stop' & Eg & Hb & Hl & Hm & Ht'); [lia|rewrite length_app; simpl; lia|].
  exists indices', stop'. rewrite length_app in Hl. simpl in Hl. split_and!; try done; try lia.
  rewrite Ht', (take_rows_snoc b indices (Z.of_nat j) cells) by (by rewrite Nat2Z.id). rewrite <- app_assoc. f_equal.
  replace (stop' - stop) with ((stop' - (stop + 1)) + 1) by lia. rewrite (slice_S _ stop cells) by (done || lia). done.
Qed.

Lemma selected_ok position : 0 <= position < arrow_len t -> next_ok position (selected_batch t position).
Proof.
  intros Hp. destruct (flat_row_at position Hp) as (k & j & b & cells & Er & Hk & Hj & Hc & _).
  unfold next_ok, selected_batch. rewrite Er. simpl.
  destruct (gather_run_ok k b Hk (Z.to_nat (arrow_len t)) (position + 1) [Z.of_nat j]) as (indices & stop & Eg & Hb & Hl & Hm & Ht');
    [lia|unfold METADATA_BATCH_ROWS; simpl; lia|].
  rewrite Eg. simpl. eexists _, _. split; [done|]. simpl in Hl. split_and!; [lia|lia|lia|].
  rewrite Ht'. unfold take_rows. simpl. rewrite Nat2Z.id, Hj. simpl.
  replace (stop - position) with ((stop - (position + 1)) + 1) by lia. rewrite (slice_S _ position cells) by (done || lia). done.
Qed.

Lemma reader_next_ok position : 0 <= position < arrow_len t ->
  exists b next, reader_next t position = Some (Ok b, next) /\ position < next <= arrow_len t /\
    next - position <= METADATA_BATCH_ROWS /\ b = slice position (next - position) (table_rows (flat t)).
Proof.
  intros Hp. unfold reader_next. destruct (Z.leb_spec (arrow_len t) position); [lia|].
  destruct (am_selection t) as [selection|] eqn:Es.
  - destruct (selected_ok position Hp) as (b & next & -> & H'). by exists b, next.
  - destruct (shared_ok position Es Hp) as (b & next & -> & H'). by exists b, next.
Qed.

Lemma read_batches_ok fuel : forall position, 0 <= position <= arrow_len t -> arrow_len t - position <= Z.of_nat fuel ->
  exists batches, read_batches fuel t position = map Ok batches /\
    concat batches = drop (Z.to_nat position) (table_rows (flat t)) /\
    Forall (fun b => 0 < rows_of b <= METADATA_BATCH_ROWS) batches.
Proof.
  induction fuel as [|fuel IH]; intros position Hp Hf.
  { exists []. split_and!; [done| |done]. rewrite drop_ge; [done|]. pose proof flat_length. lia. }
  cbn [read_batches]. destruct (Z.eq_dec position (arrow_len t)) as [E|Hne].
  { unfold reader_next. rewrite E, Z.leb_refl. exists []. split_and!; [done| |done]. rewrite drop_ge; [done|].
    pose proof flat_length. lia. }
  destruct (reader_next_ok position ltac:(lia)) as (b & next & -> & Hn & Hm & Hb).
  destruct (IH next ltac:(lia) ltac:(lia)) as (batches & -> & Hc & HF). exists (b :: batches). split_and!; [done| |].
  - cbn [concat]. rewrite Hc, Hb. unfold slice. rewrite <- (take_drop (Z.to_nat (next - position)) (drop (Z.to_nat position) _)) at 2.
    f_equal. rewrite drop_drop. f_equal. lia.
  - constructor; [|done]. unfold rows_of. rewrite Hb. unfold slice. rewrite length_take, length_drop. pose proof flat_length. lia.
Qed.
End View.

(** ** Updates *)

Lemma arrow_new_wf columns batches t : arrow_new columns batches = Ok t ->
  wf_arrow t /\ flat t = mk_table columns (concat batches) /\ am_rows t = num_rows (flat t) /\ am_selection t = None.
Proof.
  unfold arrow_new. destruct (batch_offsets 0 batches) as [[offsets rows]|] eqn:E; simpl; [|done]. intros [= <-].
  split_and!; [by split|done| |done]. destruct (batch_offsets_spec _ _ _ _ E) as [_ ->].
  unfold num_rows. simpl. rewrite concat_length. lia.
Qed.

Lemma omap_id_some {A} (l : list A) : omap id (map Some l) = l.
Proof. induction l as [|x l IH]; [done|]. simpl. f_equal. exact IH. Qed.

Lemma arrow_select_flat t selection : wf_arrow t -> am_selection t = None -> Forall (Z.le 0) selection ->
  match arrow_select t (map Some selection), select_view (flat t) selection with
  | Ok t', Ok view => wf_arrow t' /\ flat t' = view
  | Err e, Err e' => e = e'
  | _, _ => False
  end.
Proof.
  intros Ht Hs Hpos. unfold arrow_select, select_view.
  assert (existsb (fun x => bool_decide (x = None)) (map Some selection) = false) as ->.
  { clear. induction selection as [|x l IH]; [done|]. simpl. exact IH. }
  rewrite omap_id_some. assert (num_rows (flat t) = am_rows t) as ->.
  { unfold num_rows. rewrite (flat_length t Ht). unfold arrow_len. by rewrite Hs. }
  destruct (forallb (fun row => row <? am_rows t) selection) eqn:E; [|done]. split.
  - split; [apply Ht|]. simpl. intros l [= <-]. apply Is_true_true, forallb_True in E.
    apply Forall_forall. intros row Hin. pose proof (proj1 (Forall_forall _ _) Hpos row Hin).
    pose proof (proj1 (Forall_forall _ _) E row Hin) as Hrow. apply Is_true_true, Z.ltb_lt in Hrow. lia.
  - unfold flat. simpl. by rewrite Hs.
Qed.

Lemma read_rows_collect caches offsets lookup cid sid wid rows :
  read_rows caches offsets lookup cid sid wid rows = try_collect (read_row caches offsets lookup cid sid wid) rows.
Proof. induction rows as [|row rows IH]; [done|]. simpl. destruct (read_row _ _ _ _ _ _ _); [|done]. simpl. by rewrite IH. Qed.

Lemma try_collect_ext {A B C} (f : A -> CacheResult C) (g : B -> CacheResult C) l l' :
  Forall2 (fun x y => f x = g y) l l' -> try_collect f l = try_collect g l'.
Proof. induction 1 as [|x y l l' E _ IH]; [done|]. simpl. by rewrite E, IH. Qed.

Lemma try_collect_const {A B} (f : A -> CacheResult B) r l : (forall x, f x = r) ->
  try_collect f l = match l with [] => Ok [] | _ => y ← r; Ok (replicate (length l) y) end.
Proof.
  intros H. induction l as [|x l IH]; [done|]. simpl. rewrite H. destruct r as [y|e]; [|done]. simpl.
  rewrite IH. by destruct l.
Qed.

Lemma validate_columns_only columns b b' schema :
  validate_required_metadata_columns (mk_table columns b) schema = validate_required_metadata_columns (mk_table columns b') schema.
Proof. induction schema as [|[name kind] schema IH]; [done|]. simpl. rewrite IH. done. Qed.

Lemma arrow_extract_flat t caches offsets lookup schema : wf_arrow t ->
  arrow_extract t caches offsets lookup schema = extract_metadata_arrow (flat t) caches offsets lookup schema.
Proof.
  intros Ht. unfold arrow_extract, extract_metadata_arrow.
  assert (num_rows (flat t) = arrow_len t) as -> by (apply (flat_length t Ht)).
  destruct (Z.eqb_spec (arrow_len t) 0) as [|Hne]; [done|].
  set (cols := identity_columns (am_columns t) schema (table_rows (flat t))).
  rewrite (try_collect_const _ cols).
  2: { intros b. unfold cols, identity_columns. by rewrite (validate_columns_only _ b (table_rows (flat t))). }
  assert (0 < arrow_len t) as Hpos by (pose proof (flat_length t Ht); lia).
  destruct (flat_location t Ht 0 ltac:(lia)) as (k0 & _ & b0 & _ & _ & Hb0 & _).
  destruct (am_batches t) as [|first rest] eqn:Eb; [by rewrite lookup_nil in Hb0|].
  unfold cols, identity_columns. change (mk_table (am_columns t) (table_rows (flat t))) with (flat t).
  generalize (flat_location t Ht) (flat_length t Ht). generalize (flat t) as view. intros view Hloc Hlen.
  destruct (validate_required_metadata_columns view schema) as [[]|]; simpl; [|done].
  destruct (required_column view (lit "cache_id")) as [cid|]; simpl; [|done].
  destruct (required_column view (lit "sample_id")) as [sid|]; simpl; [|done].
  destruct (required_column view (lit "weight")) as [wid|]; simpl; [|done].
  rewrite read_rows_collect.
  rewrite (try_collect_ext _ (read_row caches offsets lookup cid sid wid) _ (table_rows view)).
  { destruct (try_collect _ (table_rows view)) as [xs|]; simpl; [|done]. by destruct (validate_weights _ _). }
  change ((cid, sid, wid) :: replicate (length rest) (cid, sid, wid)) with (replicate (length (first :: rest)) (cid, sid, wid)).
  rewrite <- Eb. apply Forall2_same_length_lookup_2.
  { rewrite length_seqZ. lia. }
  intros i position cells Hi Hc. apply lookup_seqZ in Hi as [-> Hi]. rewrite Z.add_0_l.
  destruct (Hloc (Z.of_nat i) ltac:(lia)) as (k & j & b & cells' & El & Hk & Hj & Hc' & _).
  rewrite Nat2Z.id in Hc'. assert (cells' = cells) as -> by congruence.
  unfold read_position. rewrite El. simpl. rewrite !Nat2Z.id.
  rewrite lookup_replicate_2 by (by eapply lookup_lt_Some). simpl. by rewrite Hk; simpl; rewrite Hj.
Qed.

(** ** The streamed original table *)

Definition stored_fields (schema : list (pystr * MetadataKind)) : list (pystr * ArrowType) :=
  map (fun f => (f.1, arrow_type f.2)) schema.

Lemma check_fields_stored schema : check_fields (stored_fields schema) schema = Ok tt.
Proof. induction schema as [|[name kind] schema IH]; [done|]. simpl. by rewrite !bool_decide_true. Qed.

Lemma metadata_columns_stored schema rows : metadata_columns (mk_stored (stored_fields schema) rows) schema = Ok tt.
Proof. unfold metadata_columns. simpl. unfold stored_fields at 1. rewrite length_map, Nat.eqb_refl. apply check_fields_stored. Qed.

Definition public_rows (c : LoadedCache) (start : Z) (rows : list (list MetadataValue)) : batch :=
  imap (fun i values => original_row c (start + Z.of_nat i) values) rows.

Lemma public_rows_app c start rows rows' :
  public_rows c start (rows ++ rows') = public_rows c start rows ++ public_rows c (start + Z.of_nat (length rows)) rows'.
Proof.
  unfold public_rows. rewrite imap_app. f_equal. apply imap_ext. intros i values _. unfold compose. f_equal. lia.
Qed.

Lemma length_public_rows c start rows : length (public_rows c start rows) = length rows.
Proof. apply length_imap. Qed.

Lemma checked_add_fits a b : a + b <= U64_MAX -> checked_add a b = Some (a + b).
Proof. intros H. unfold checked_add. by destruct (Z.leb_spec (a + b) U64_MAX); [|lia]. Qed.

Section Stream.
Context (schema : list (pystr * MetadataKind)) (c : LoadedCache) (cache_offset : Z).
Context (Hoffset : 0 <= cache_offset).

Lemma chunk_ok start rows : 0 <= start -> start + Z.of_nat (length rows) <= U64_MAX ->
  samples_metadata_batch c start schema (stored_fields schema) rows = Ok (public_rows c start rows).
Proof.
  intros Hs Hm. unfold samples_metadata_batch, checked_add. destruct (Z.leb_spec (start + Z.of_nat (length rows)) U64_MAX); [|lia].
  simpl. by rewrite metadata_columns_stored.
Qed.

Lemma visit_chunks_ok fuel : forall start rows, (length rows <= fuel)%nat -> 0 <= start ->
  cache_offset + start + Z.of_nat (length rows) <= U64_MAX ->
  exists batches, visit_chunks fuel c cache_offset start schema (stored_fields schema) rows =
      Ok (batches, start + Z.of_nat (length rows)) /\ concat batches = public_rows c start rows.
Proof.
  induction fuel as [|fuel IH]; intros start rows Hf Hs Hm.
  { destruct rows; [|simpl in Hf; lia]. exists []. split; [|done]. simpl. f_equal. f_equal. lia. }
  destruct rows as [|row rows]; [exists []; split; [|done]; simpl; f_equal; f_equal; lia|]. cbn [visit_chunks].
  set (n := Z.to_nat METADATA_BATCH_ROWS). assert (0 < n)%nat as Hn by (unfold n, METADATA_BATCH_ROWS; lia).
  set (all := row :: rows) in *. assert (0 < length all)%nat as Hall by (simpl; lia).
  clearbody n.
  assert (Hlen : (length (take n all) + length (drop n all) = length all)%nat) by (rewrite length_take, length_drop; lia).
  assert (0 < length (take n all))%nat by (rewrite length_take; lia).
  destruct (IH (start + Z.of_nat (length (take n all))) (drop n all)) as (batches & Ev & Hc); [lia|lia|lia|].
  rewrite chunk_ok, !checked_add_fits by lia. simpl. rewrite Ev. simpl.
  exists (public_rows c start (take n all) :: batches). split.
  - f_equal. f_equal. change (S (length rows)) with (length all). lia.
  - cbn [concat]. rewrite Hc, <- public_rows_app, take_drop. done.
Qed.

Lemma visit_batches_ok stored : forall start, 0 <= start ->
  Forall (fun s => sb_fields s = stored_fields schema) stored ->
  cache_offset + start + Z.of_nat (length (concat (map sb_rows stored))) <= U64_MAX ->
  exists batches, visit_batches c cache_offset start schema (map Ok stored) =
      Ok (batches, start + Z.of_nat (length (concat (map sb_rows stored)))) /\
    concat batches = public_rows c start (concat (map sb_rows stored)).
Proof.
  induction stored as [|s stored IH]; intros start Hs HF Hm; simpl in *.
  { exists []. split; [|done]. f_equal. f_equal. lia. }
  apply Forall_cons in HF as [Hfs HF]. rewrite length_app in Hm. rewrite Hfs.
  destruct (visit_chunks_ok (length (sb_rows s)) start (sb_rows s)) as (b1 & -> & Hc1); [lia|lia|lia|]. simpl.
  destruct (IH (start + Z.of_nat (length (sb_rows s)))) as (b2 & -> & Hc2); [lia|done|lia|]. simpl.
  exists (b1 ++ b2). split; [rewrite length_app; f_equal; f_equal; lia|].
  by rewrite concat_app, Hc1, Hc2, public_rows_app.
Qed.
End Stream.

(** The files of the caches hold their rows, in batches of the caches' schema. *)
Definition stored_as (schema : list (pystr * MetadataKind)) (c : LoadedCache) (stored : list (CacheResult stored_batch)) : Prop :=
  exists batches, stored = map Ok batches /\ Forall (fun s => sb_fields s = stored_fields schema) batches /\
    concat (map sb_rows batches) = cache_rows c.

Lemma cache_offsets_tail next c caches offsets :
  0 <= next -> cache_offsets_from next (map sample_count (c :: caches)) = Ok offsets ->
  exists rest, offsets = next :: rest /\ next + sample_count c <= U64_MAX /\
    cache_offsets_from (next + sample_count c) (map sample_count caches) = Ok rest.
Proof.
  intros Hn H. simpl in H. unfold checked_add in H. destruct (Z.leb_spec (next + sample_count c) U64_MAX); [|done].
  destruct (cache_offsets_from _ _) as [rest|]; [|done]. injection H as <-. by exists rest.
Qed.

Lemma visit_samples_ok schema caches : forall index next offsets stored, 0 <= next ->
  cache_offsets_from next (map sample_count caches) = Ok offsets -> Forall2 (stored_as schema) caches stored ->
  exists batches, visit_samples_metadata index caches offsets schema stored = Ok batches /\
    concat batches = concat (map cache_table_rows caches) /\ (next <= U64_MAX -> next + Zsum (map sample_count caches) <= U64_MAX).
Proof.
  induction caches as [|c caches IH]; intros index next offsets stored Hn Ho HF; inversion HF as [|? s ? stored' Hs HF' E1 E2]; subst.
  { exists []. split_and!; [done|done|]. change (Zsum (map sample_count [])) with 0. lia. }
  destruct Hs as (batches & -> & Hfields & Hrows).
  destruct (cache_offsets_tail next c caches offsets Hn Ho) as (rest & -> & Hfit & Hrest). simpl.
  destruct (visit_batches_ok schema c next Hn batches 0) as (b1 & -> & Hc1); [lia|done|rewrite Hrows; unfold sample_count in Hfit; lia|].
  simpl. rewrite Hrows. change (Z.of_nat (length (cache_rows c))) with (sample_count c). rewrite Z.eqb_refl. simpl.
  destruct (IH (index + 1) (next + sample_count c) rest stored') as (b2 & -> & Hc2 & Hsum); [unfold sample_count; lia|done|done|].
  exists (b1 ++ b2). split_and!; [done| |].
  - rewrite concat_app, Hc1, Hc2, Hrows. f_equal.
  - intros _. rewrite Zsum_cons. lia.
Qed.

Lemma batch_offsets_total batches : forall rows, 0 <= rows -> rows + Zsum (map rows_of batches) <= U64_MAX ->
  exists r, batch_offsets rows batches = Ok r.
Proof.
  induction batches as [|b batches IH]; intros rows Hr Hm; [by eexists|]. simpl in *. rewrite Zsum_cons in Hm.
  assert (0 <= Zsum (map rows_of batches)) by (rewrite <- concat_length; lia). assert (0 <= rows_of b) by (unfold rows_of; lia).
  unfold checked_add. destruct (Z.leb_spec (rows + rows_of b) U64_MAX); [|lia]. simpl.
  destruct (IH (rows + rows_of b)) as [[offsets total] ->]; [lia|lia|]. by eexists.
Qed.

Lemma build_arrow_flat schema caches offsets stored : cache_offsets_from 0 (map sample_count caches) = Ok offsets ->
  Forall2 (stored_as schema) caches stored ->
  exists t, build_arrow_metadata caches offsets schema stored = Ok t /\ wf_arrow t /\ am_selection t = None /\
    flat t = build_samples_metadata caches schema.
Proof.
  intros Ho HF. unfold build_arrow_metadata.
  destruct (visit_samples_ok schema caches 0 0 offsets stored ltac:(lia) Ho HF) as (batches & -> & Hc & Hsum). simpl.
  destruct (batch_offsets_total batches 0) as [[offs total] E]; [lia| |].
  { rewrite <- concat_length, Hc. specialize (Hsum ltac:(vm_compute; discriminate)). clear -Hsum.
    assert (Z.of_nat (length (concat (map cache_table_rows caches))) = Zsum (map sample_count caches)) as ->; [|lia].
    induction caches as [|c caches IH]; [done|]. simpl. rewrite length_app, Zsum_cons, Nat2Z.inj_add, IH; [|].
    - f_equal. unfold cache_table_rows, sample_count. by rewrite length_imap.
    - simpl in Hsum. rewrite Zsum_cons in Hsum. unfold sample_count in Hsum at 1. lia. }
  assert (En : arrow_new (samples_metadata_fields schema) batches = Ok (mk_arrow (samples_metadata_fields schema) batches offs total None)).
  { unfold arrow_new. by rewrite E. }
  rewrite En. destruct (arrow_new_wf _ _ _ En) as (Hw & Hflat & _ & Hs). eexists. split_and!; try done.
  rewrite Hflat, Hc. done.
Qed.

(** * Refinement *)

(** C22. Tables in record batches are the flat tables the dataset is proved with, whatever
    the batches, empty ones included: streaming the metadata files of the caches gives the
    original table; a selection is accepted or refused exactly as on the flat table and shows
    the same view; an update is validated to the same population or refused with the same
    error; and the reader of a table or view ends and gives its rows in order, in nonempty
    batches of at most 65536 rows, without an error. *)
Theorem arrow_table_refines (schema : list (pystr * MetadataKind)) (caches : list LoadedCache) (offsets : list Z)
    (stored : list (list (CacheResult stored_batch))) (columns : list (pystr * ArrowType)) (batches : list batch)
    (t : ArrowMetadata) (selection : list Z) (lookup : gmap Z Z)
    (Hoffsets : cache_offsets_from 0 (map sample_count caches) = Ok offsets) (Hstored : Forall2 (stored_as schema) caches stored)
    (Hnew : arrow_new columns batches = Ok t) (Hselection : Forall (Z.le 0) selection) :
  (exists original, build_arrow_metadata caches offsets schema stored = Ok original /\
     flat original = build_samples_metadata caches schema) /\
  flat t = mk_table columns (concat batches) /\
  match arrow_select t (map Some selection), select_view (flat t) selection with
  | Ok view, Ok expected =>
      flat view = expected /\
      arrow_extract view caches offsets lookup schema = extract_metadata_arrow expected caches offsets lookup schema /\
      exists parts, arrow_batches view = map Ok parts /\ concat parts = table_rows expected /\
        Forall (fun b => 0 < rows_of b <= METADATA_BATCH_ROWS) parts
  | Err e, Err e' => e = e'
  | _, _ => False
  end /\
  arrow_extract t caches offsets lookup schema = extract_metadata_arrow (flat t) caches offsets lookup schema /\
  exists parts, arrow_batches t = map Ok parts /\ concat parts = concat batches /\
    Forall (fun b => 0 < rows_of b <= METADATA_BATCH_ROWS) parts.
Proof.
  destruct (arrow_new_wf _ _ _ Hnew) as (Hw & Hflat & _ & Hnone).
  assert (Hread : forall u, wf_arrow u -> exists parts, arrow_batches u = map Ok parts /\ concat parts = table_rows (flat u) /\
    Forall (fun b => 0 < rows_of b <= METADATA_BATCH_ROWS) parts).
  { intros u Hu. pose proof (flat_length u Hu). apply (read_batches_ok u Hu (Z.to_nat (arrow_len u)) 0); lia. }
  split_and!; [|done| |by apply arrow_extract_flat|].
  - destruct (build_arrow_flat schema caches offsets stored Hoffsets Hstored) as (original & E & _ & _ & Ef). by exists original.
  - pose proof (arrow_select_flat t selection Hw Hnone Hselection) as H.
    destruct (arrow_select t (map Some selection)) as [view|], (select_view (flat t) selection) as [expected|]; try done.
    destruct H as [Hv <-]. split_and!; [done|by apply arrow_extract_flat|by apply Hread].
  - destruct (Hread t Hw) as (parts & E & Hc & HF). exists parts. by rewrite Hc, Hflat.
Qed.

(** Two caches, a table in three batches of which one is empty, and a view of it. *)
Definition demo_stored_caches : list LoadedCache :=
  [mk_cache 5 [(lit "label", KindInt)] [[MInt 1]; [MInt 2]] []; mk_cache 9 [(lit "label", KindInt)] [[MInt 3]] []].
Definition demo_stored_batch (rows : list (list MetadataValue)) : CacheResult stored_batch :=
  Ok (mk_stored [(lit "label", Int64)] rows).
Definition demo_row (id sample label : Z) : list cell :=
  [Some (MInt id); Some (MInt sample); Some (MInt label); Some (MFloat (Finite 1 1))].
Definition demo_fields : list (pystr * ArrowType) := samples_metadata_fields [(lit "label", KindInt)].

Lemma arrow_table_refines_witness :
  exists t view, arrow_new demo_fields [[demo_row 5 0 1]; []; [demo_row 5 1 2; demo_row 9 0 3]] = Ok t /\
    arrow_select t (map Some [2; 0]) = Ok view /\ table_rows (flat view) = [demo_row 9 0 3; demo_row 5 0 1] /\
    exists parts, arrow_batches view = map Ok parts /\ concat parts = [demo_row 9 0 3; demo_row 5 0 1].
Proof.
  destruct (arrow_new demo_fields [[demo_row 5 0 1]; []; [demo_row 5 1 2; demo_row 9 0 3]]) as [t|] eqn:En;
    [|vm_compute in En; discriminate En].
  destruct (arrow_table_refines [(lit "label", KindInt)] demo_stored_caches [0; 2]
    [[demo_stored_batch [[MInt 1]]; demo_stored_batch [[MInt 2]]]; [demo_stored_batch [[MInt 3]]]]
    demo_fields [[demo_row 5 0 1]; []; [demo_row 5 1 2; demo_row 9 0 3]] t [2; 0] ∅)
    as (_ & Hflat & Hview & _).
  - vm_compute. reflexivity.
  - constructor; [|constructor; [|constructor]].
    + exists [mk_stored [(lit "label", Int64)] [[MInt 1]]; mk_stored [(lit "label", Int64)] [[MInt 2]]]. repeat constructor.
    + exists [mk_stored [(lit "label", Int64)] [[MInt 3]]]. repeat constructor.
  - exact En.
  - repeat constructor; discriminate.
  - destruct (arrow_select t (map Some [2; 0])) as [view|] eqn:Es.
    2: { injection En as <-. vm_compute in Es. discriminate Es. }
    destruct (select_view (flat t) [2; 0]) as [expected|] eqn:Ev; [|contradiction].
    destruct Hview as (Hf & _ & parts & Hp & Hc & _). rewrite Hflat in Ev.
    assert (table_rows expected = [demo_row 9 0 3; demo_row 5 0 1]) as Hrows by (vm_compute in Ev; injection Ev as <-; reflexivity).
    exists t, view. split; [reflexivity|]. split; [exact Es|]. split; [rewrite Hf; exact Hrows|].
    exists parts. split; [exact Hp|]. rewrite Hc. exact Hrows.
Defined.
