(* ===== verification/CompressionWire.v ===== *)
(** Compression policies at their boundaries: the settings a Python mapping selects
    ([RecordCompression | ShardCompression] of [src/dataset_rt/config.py]) and the JSON a
    manifest keeps ([CompressionWire] of [src/src/dataset_rt/types.rs]). *)
From stdpp Require Import base tactics list numbers strings gmap.
From S2P Require Import Prelude Collections Records Binary64 Config Seeds Native Metadata FileSystem RecordCodec.
Open Scope Z_scope.

(** * Python mappings *)

Abbreviation mapping := (gmap pystr json).

(** [extra="forbid"]. *)
Definition only_keys (m : mapping) (keys : list pystr) : bool :=
  bool_decide (map_Forall (fun k _ => k ∈ keys) m).

(** A literal field with its own text as the default. *)
Definition literal_field (m : mapping) (key text : pystr) : bool :=
  match m !! key with None => true | Some v => bool_decide (v = JText text) end.

(** A strict bounded integer field. *)
Definition strict_int (m : mapping) (key : pystr) (fallback low high : Z) : option Z :=
  match m !! key with
  | None => Some fallback
  | Some (JInteger z) => if (low <=? z) && (z <=? high) then Some z else None
  | Some _ => None
  end.

(** The tagged union: [mode] selects one model, which refuses the keys of the others. *)
Definition validate_record (m : mapping) : option Compression :=
  let fields mode algo option :=
    literal_field m (lit "algo") (lit algo) && only_keys m (lit "algo" :: lit "mode" :: option) in
  match m !! lit "mode" with
  | Some (JText mode) =>
      if bool_decide (mode = lit "none")
      then if fields "none" "none" [] then Some NoCompression else None
      else if bool_decide (mode = lit "fast")
      then if fields "fast" "lz4" [lit "acceleration"]
           then Lz4Fast <$> strict_int m (lit "acceleration") 1 1 65537 else None
      else if bool_decide (mode = lit "hc")
      then if fields "hc" "lz4" [lit "level"] then Lz4HC <$> strict_int m (lit "level") 9 1 12 else None
      else if bool_decide (mode = lit "brotli")
      then if fields "brotli" "brotli" [lit "level"] then Brotli <$> strict_int m (lit "level") 5 0 11 else None
      else None
  | _ => None
  end.

(** The fields of [ShardCompression]; further keys are ignored. [lax_float] is what the
    model library makes of a value for a float. *)
Definition legacy_fields (lax_float : json -> option pyfloat) (m : mapping) : option Compression :=
  algo ← match m !! lit "algo" with
         | None => Some AlgoNone
         | Some (JText s) => if bool_decide (s = lit "none") then Some AlgoNone
                             else if bool_decide (s = lit "lz4") then Some AlgoLz4 else None
         | Some _ => None
         end;
  ratio ← match m !! lit "ratio" with None => Some (Finite 1 1) | Some v => lax_float v end;
  if float_gt0 ratio then Some (LegacyCompression algo ratio) else None.

Definition invalid_compression : py_exc := ValidationError (lit "shard_compression").

(** The union of both: at most one member accepts. *)
Definition validate_mapping (lax_float : json -> option pyfloat) (m : mapping) : outcome (Compression * list py_warning) :=
  match validate_record m with
  | Some c => Ret (c, [])
  | None =>
      let handler := fun _ => match legacy_fields lax_float m with Some c => Ret c | None => Raise invalid_compression end in
      match validate_legacy handler (LegacyMapping (map fst (map_to_list m))) with
      | Ret r => Ret r
      | Raise _ => Raise invalid_compression
      end
  end.

(** * Manifest entries *)

Abbreviation wire := (list (pystr * json)).

Definition algo_text (a : CompressionAlgo) : pystr :=
  match a with AlgoNone => lit "none" | AlgoLz4 => lit "lz4" | AlgoBrotli => lit "brotli" end.
Definition algo_of_text (s : pystr) : option CompressionAlgo :=
  if bool_decide (s = lit "none") then Some AlgoNone
  else if bool_decide (s = lit "lz4") then Some AlgoLz4
  else if bool_decide (s = lit "brotli") then Some AlgoBrotli else None.

(** [ShardCompression::serialize]. *)
Definition compression_to_wire (c : NativeCompression) : wire :=
  let record algo mode options := (lit "algo", JText (algo_text algo)) :: (lit "mode", JText (lit mode)) :: options in
  match c with
  | NativeLegacy algo ratio => [(lit "algo", JText (algo_text algo)); (lit "ratio", JReal ratio)]
  | NativeNone => record AlgoNone "none" []
  | NativeLz4Fast acceleration => record AlgoLz4 "fast" [(lit "acceleration", JInteger acceleration)]
  | NativeLz4HC level => record AlgoLz4 "hc" [(lit "level", JInteger level)]
  | NativeBrotli level => record AlgoBrotli "brotli" [(lit "level", JInteger level)]
  end.

(** A field that must occur exactly once, and the other entries. *)
Definition take_field (key : pystr) (w : wire) : option (json * wire) :=
  match filter (fun e => e.1 = key) w with
  | [e] => Some (e.2, filter (fun e => e.1 <> key) w)
  | _ => None
  end.

Definition json_algo (v : json) : option CompressionAlgo := match v with JText s => algo_of_text s | _ => None end.
Definition json_i32 (v : json) : option Z :=
  match v with JInteger z => if (- 2 ^ 31 <=? z) && (z <? 2 ^ 31) then Some z else None | _ => None end.
Definition json_f64 (v : json) : option pyfloat :=
  match v with JReal f => Some f | JInteger z => Some (round_f64 z 1) | _ => None end.

Inductive RecordOptions := OptionsNone | OptionsFast (acceleration : Z) | OptionsHc (level : Z) | OptionsBrotli (level : Z).
Inductive wire_value := WireRecord (algo : CompressionAlgo) (options : RecordOptions) | WireLegacy (algo : CompressionAlgo) (ratio : pyfloat).

(** One option and nothing else ([deny_unknown_fields]). *)
Definition only_option (key : pystr) (w : wire) : option Z :=
  '(v, rest) ← take_field key w; match rest with [] => json_i32 v | _ => None end.

(** [RecordOptions]: the mode selects the variant; entries beside a mode without options
    are not looked at. *)
Definition record_options (w : wire) : option RecordOptions :=
  '(mode, rest) ← take_field (lit "mode") w;
  match mode with
  | JText s =>
      if bool_decide (s = lit "none") then Some OptionsNone
      else if bool_decide (s = lit "fast") then OptionsFast <$> only_option (lit "acceleration") rest
      else if bool_decide (s = lit "hc") then OptionsHc <$> only_option (lit "level") rest
      else if bool_decide (s = lit "brotli") then OptionsBrotli <$> only_option (lit "level") rest
      else None
  | _ => None
  end.

(** The untagged [CompressionWire]: the record form first, then the legacy form. *)
Definition parse_wire (w : wire) : option wire_value :=
  '(v, rest) ← take_field (lit "algo") w;
  algo ← json_algo v;
  match record_options rest with
  | Some options => Some (WireRecord algo options)
  | None =>
      '(r, others) ← take_field (lit "ratio") rest;
      match others with [] => WireLegacy algo <$> json_f64 r | _ => None end
  end.

(** [ShardCompression::deserialize]. *)
Definition compression_of_wire (w : wire) : result NativeCompression pystr :=
  match parse_wire w with
  | None => Err (lit "data did not match any variant of untagged enum CompressionWire")
  | Some (WireLegacy algo ratio) => native_legacy algo ratio
  | Some (WireRecord AlgoNone OptionsNone) => Ok NativeNone
  | Some (WireRecord AlgoLz4 (OptionsFast acceleration)) => native_fast acceleration
  | Some (WireRecord AlgoLz4 (OptionsHc level)) => native_hc level
  | Some (WireRecord AlgoBrotli (OptionsBrotli level)) => native_brotli level
  | Some (WireRecord _ _) => Err (lit "compression algorithm and mode disagree")
  end.

(** The settings the constructors accept. *)
Definition native_valid (c : NativeCompression) : bool :=
  match c with
  | NativeNone => true
  | NativeLz4Fast a => (1 <=? a) && (a <=? 65537)
  | NativeLz4HC l => (1 <=? l) && (l <=? 12)
  | NativeBrotli l => (0 <=? l) && (l <=? 11)
  | NativeLegacy algo ratio =>
      negb (bool_decide (algo = AlgoBrotli)) && float_isfinite ratio && float_gt0 ratio &&
      (negb (bool_decide (algo = AlgoNone)) || float_eq1 ratio)
  end.

(** * Lemmas *)

Ltac cases_of H :=
  repeat match type of H with
         | context [if ?b then _ else _] => destruct b eqn:?; simplify_eq/=
         | context [match ?x with _ => _ end] => destruct x eqn:?; simplify_eq/=
         end.

Lemma native_fast_ok a c : native_fast a = Ok c <-> native_valid (NativeLz4Fast a) = true /\ c = NativeLz4Fast a.
Proof. unfold native_fast; simpl; destruct (_ && _); split; intros H; destruct_and?; simplify_eq; done. Qed.
Lemma native_hc_ok l c : native_hc l = Ok c <-> native_valid (NativeLz4HC l) = true /\ c = NativeLz4HC l.
Proof. unfold native_hc; simpl; destruct (_ && _); split; intros H; destruct_and?; simplify_eq; done. Qed.
Lemma native_brotli_ok l c : native_brotli l = Ok c <-> native_valid (NativeBrotli l) = true /\ c = NativeBrotli l.
Proof. unfold native_brotli; simpl; destruct (_ && _); split; intros H; destruct_and?; simplify_eq; done. Qed.
Lemma native_legacy_ok algo ratio c :
  native_legacy algo ratio = Ok c <-> native_valid (NativeLegacy algo ratio) = true /\ c = NativeLegacy algo ratio.
Proof.
  unfold native_legacy; destruct algo; simpl;
    destruct (float_isfinite ratio), (float_gt0 ratio), (float_eq1 ratio); simpl;
    split; intros H; destruct_and?; simplify_eq; done.
Qed.

Lemma json_i32_ok z : - 2 ^ 31 <= z < 2 ^ 31 -> json_i32 (JInteger z) = Some z.
Proof. intros ?. unfold json_i32. replace (_ && _) with true; [done|]. symmetry. lia. Qed.

(** An entry taken out was there, and the rest are the other entries. *)
Lemma take_field_spec key w v rest :
  take_field key w = Some (v, rest) -> key ∈ w.*1 /\ rest = filter (fun e => e.1 <> key) w.
Proof.
  unfold take_field. destruct (filter (fun e => e.1 = key) w) as [|e [|? ?]] eqn:E; intros; simplify_eq. split; [|done].
  assert (e ∈ filter (fun e => e.1 = key) w) as Hin by (rewrite E; set_solver).
  apply list_elem_of_filter in Hin as [<- Hin]. apply list_elem_of_fmap; eauto.
Qed.

Lemma take_field_keys key other w v rest :
  take_field key w = Some (v, rest) -> other <> key -> other ∈ rest.*1 <-> other ∈ w.*1.
Proof.
  intros [_ ->]%take_field_spec Hne. rewrite !list_elem_of_fmap. split.
  - intros (e & -> & [_ Hin]%list_elem_of_filter). eauto.
  - intros (e & -> & Hin). exists e. rewrite list_elem_of_filter. done.
Qed.

(** The form of an entry is decided by the presence of its mode. *)
Lemma parse_wire_form w v :
  parse_wire w = Some v ->
  lit "mode" ∈ w.*1 <-> match v with WireRecord _ _ => True | WireLegacy _ _ => False end.
Proof.
  unfold parse_wire. destruct (take_field (lit "algo") w) as [[a rest]|] eqn:Ea; simpl; [|done].
  rewrite <- (take_field_keys _ (lit "mode") _ _ _ Ea) by done.
  destruct (json_algo a) as [algo|]; simpl; [|done].
  destruct (record_options rest) as [o|] eqn:Eo; intros; simplify_eq.
  - split; [done|]. intros _. unfold record_options in Eo.
    destruct (take_field (lit "mode") rest) as [[? ?]|] eqn:Em; [|done]. by apply take_field_spec in Em as [? _].
  - destruct (take_field (lit "ratio") rest) as [[r others]|] eqn:Er; [|done]. simpl in *.
    destruct others; [|done]. destruct (json_f64 r); simplify_eq/=.
    rewrite <- (take_field_keys _ (lit "mode") _ _ _ Er) by done. simpl. set_solver.
Qed.

(** What a manifest entry may come to is one of the policies the constructors accept. *)
Lemma compression_of_wire_accepts w c :
  compression_of_wire w = Ok c ->
  native_valid c = true /\ (whole_record c = true <-> lit "mode" ∈ w.*1).
Proof.
  unfold compression_of_wire. destruct (parse_wire w) as [v|] eqn:Ev; [|done].
  rewrite (parse_wire_form _ _ Ev). intros H.
  destruct v as [[] []|algo r]; simplify_eq; try done;
    [apply native_fast_ok in H | apply native_hc_ok in H | apply native_brotli_ok in H | apply native_legacy_ok in H];
    destruct H as [? ->]; split; try done; by split.
Qed.

(** What is written is read back. *)
Lemma compression_wire_inverse c :
  native_valid c = true -> compression_of_wire (compression_to_wire c) = Ok c.
Proof.
  intros Hc. destruct c as [|a|l|l|algo r]; [done| | | |];
    unfold compression_of_wire, compression_to_wire, parse_wire, record_options, only_option.
  - assert (json_i32 (JInteger a) = Some a) as E by (apply json_i32_ok; simpl in Hc; lia).
    rewrite <- (proj2 (native_fast_ok a _) (conj Hc eq_refl)). cbv -[json_i32 native_fast]. by rewrite E.
  - assert (json_i32 (JInteger l) = Some l) as E by (apply json_i32_ok; simpl in Hc; lia).
    rewrite <- (proj2 (native_hc_ok l _) (conj Hc eq_refl)). cbv -[json_i32 native_hc]. by rewrite E.
  - assert (json_i32 (JInteger l) = Some l) as E by (apply json_i32_ok; simpl in Hc; lia).
    rewrite <- (proj2 (native_brotli_ok l _) (conj Hc eq_refl)). cbv -[json_i32 native_brotli]. by rewrite E.
  - rewrite <- (proj2 (native_legacy_ok algo r _) (conj Hc eq_refl)). by destruct algo.
Qed.



(** The models of one mapping: a record policy needs a mode, and its settings are those
    the models bound. *)
Lemma strict_int_bounds m key fallback low high z :
  low <= fallback <= high -> strict_int m key fallback low high = Some z -> low <= z <= high.
Proof.
  unfold strict_int. intros Hf H. destruct (m !! key) as [v|]; [|by simplify_eq].
  destruct v as [| |i| |]; try discriminate.
  destruct ((low <=? i) && (i <=? high)) eqn:E; simplify_eq. lia.
Qed.

Lemma validate_record_spec m c :
  validate_record m = Some c -> compression_valid c = true /\ is_legacy c = false /\ is_Some (m !! lit "mode").
Proof.
  unfold validate_record. intros H. destruct (m !! lit "mode") as [v|]; [|done]. split_and?; [| |done];
    (destruct v; try done); cases_of H; try done;
    try (apply fmap_Some in H as (z & H & ->); try done; apply strict_int_bounds in H; simpl; lia).
Qed.

Lemma legacy_fields_spec lax m c :
  legacy_fields lax m = Some c -> compression_valid c = true /\ is_legacy c = true.
Proof.
  unfold legacy_fields. intros H.
  destruct (match m !! lit "algo" with None => _ | _ => _ end) as [algo|] eqn:Ea; simplify_eq/=.
  destruct (match m !! lit "ratio" with None => _ | _ => _ end) as [r|] eqn:Er; simplify_eq/=.
  destruct (float_gt0 r) eqn:Eg; simplify_eq/=.
  assert (algo <> AlgoBrotli) by (cases_of Ea; done). destruct algo; try done; by rewrite Eg.
Qed.

(** [validate_legacy] on a mapping: no option of a modern policy, and one warning. *)
Lemma validate_legacy_mapping handler m c ws :
  validate_legacy handler (LegacyMapping (map fst (map_to_list m))) = Ret (c, ws) ->
  handler (LegacyMapping (map fst (map_to_list m))) = Ret c /\ ws = [legacy_warning] /\
  (m : mapping) !! lit "mode" = None.
Proof.
  unfold validate_legacy. destruct (existsb _ _) eqn:E; [done|].
  destruct (handler _) as [c'|]; simpl; [|done]. intros; simplify_eq. split_and?; [done..|].
  apply eq_None_not_Some. intros [v Hv]. apply Bool.not_true_iff_false in E. apply E.
  apply existsb_exists. exists (lit "mode"). split; [by left|]. apply bool_decide_eq_true.
  apply list_elem_of_fmap. exists (lit "mode", v). by rewrite elem_of_map_to_list.
Qed.

(** A mapping the two models accept gives a policy within their bounds; it is a
    whole-record policy exactly when the mapping names a mode, and the deprecation is
    announced exactly for the others. A whole-record policy then reaches the native writer
    as itself and survives its manifest. *)
Theorem mapping_selects_policy (lax_float : json -> option pyfloat) (m : mapping) (c : Compression) (ws : list py_warning)
    (H : validate_mapping lax_float m = Ret (c, ws)) :
  compression_valid c = true /\
  (is_legacy c = false <-> is_Some (m !! lit "mode")) /\
  ws = (if is_legacy c then [legacy_warning] else []) /\
  (is_legacy c = false ->
   exists n, extract_shard_compression c = Ok n /\ whole_record n = true /\
             compression_of_wire (compression_to_wire n) = Ok n).
Proof.
  unfold validate_mapping in H. destruct (validate_record m) as [c'|] eqn:Er.
  - simplify_eq. destruct (validate_record_spec _ _ Er) as (Hv & Hl & Hm). rewrite Hl. split_and?; try done.
    intros _. destruct (proj1 (compression_reaches_native c Hv) Hl) as [He Hw].
    exists (native_of c). split_and?; [done..|]. apply compression_wire_inverse.
    destruct c; try done; simpl in *; done.
  - destruct (validate_legacy _ _) as [[c' ws']|] eqn:El; simplify_eq.
    apply validate_legacy_mapping in El as (El & -> & Hm).
    destruct (legacy_fields lax_float m) as [c'|] eqn:Ef; simplify_eq/=.
    destruct (legacy_fields_spec _ _ _ Ef) as [Hv Hl]. rewrite Hl, Hm. split_and?; try done.
Qed.

Lemma mapping_selects_policy_witness :
  let m : mapping := <[lit "mode" := JText (lit "hc")]> ∅ in
  validate_mapping (fun _ => None) m = Ret (Lz4HC 9, []) /\
  (is_legacy (Lz4HC 9) = false <-> is_Some (m !! lit "mode")) /\
  validate_mapping (fun _ => None) (<[lit "level" := JInteger 5]> ∅) = Raise invalid_compression /\
  validate_mapping (fun _ => None) ∅ = Ret (LegacyCompression AlgoNone (Finite 1 1), [legacy_warning]).
Proof.
  intros m. split; [by vm_compute|]. split; [|by vm_compute].
  refine (proj1 (proj2 (mapping_selects_policy (fun _ => None) m (Lz4HC 9) [] _))). by vm_compute.
Defined.
