(* ===== verification/Observability.v ===== *)
(** What the native writer reports about itself: the stage profiler of
    [src/src/dataset_rt/writer/profiler.rs] and the progress bars of
    [src/src/dataset_rt/writer/progress.rs]. The clock, the JSON text of a summary and
    the terminal are parameters; a bar is the list of the calls made on it. *)
From stdpp Require Import base tactics list numbers strings gmap.
From S2P Require Import Prelude Collections Records Binary64 Config Seeds Native Metadata FileSystem RecordCodec CacheStore NativeWriter Migration.
Open Scope Z_scope.

Definition saturating_add (max a b : Z) : Z := Z.min max (a + b).
Definition U128_MAX : Z := 2 ^ 128 - 1.

(** * The profiler *)

Inductive ProfileStage :=
| PythonNext | PythonExtract | IngressWait | MetadataValidate | CompressionStage | RecordEncode
| DiskWrite | ShardFlush | FinishMetadata | FinishIndex | FinishManifest | Publish.

Definition stage_name (s : ProfileStage) : pystr :=
  match s with
  | PythonNext => lit "python_next"
  | PythonExtract => lit "python_extract"
  | IngressWait => lit "ingress_wait"
  | MetadataValidate => lit "metadata_validate"
  | CompressionStage => lit "compression"
  | RecordEncode => lit "record_encode"
  | DiskWrite => lit "disk_write"
  | ShardFlush => lit "shard_flush"
  | FinishMetadata => lit "finish_metadata"
  | FinishIndex => lit "finish_index"
  | FinishManifest => lit "finish_manifest"
  | Publish => lit "publish"
  end.

Record StageStats := mk_stage_stats { stage_calls : Z; stage_total_ns : Z; stage_bytes : Z }.
Definition no_stats : StageStats := mk_stage_stats 0 0 0.

Inductive ProfilerPath := ProfilerDisabled | ProfilerEnabled (p : path).

(** [WriterProfiler]: every clone shares the table behind its lock, which a panic of its
    holder leaves poisoned. *)
Record WriterProfiler := mk_writer_profiler {
  wp_path : ProfilerPath;
  wp_poisoned : bool;
  wp_sources : gmap pystr (gmap pystr StageStats) }.

Definition new_profiler (c : WriterProfilerConfig) : WriterProfiler :=
  mk_writer_profiler (if profiler_enabled c then ProfilerEnabled (profiler_path c) else ProfilerDisabled) false ∅.

Definition is_enabled (p : WriterProfiler) : bool :=
  match wp_path p with ProfilerEnabled _ => true | ProfilerDisabled => false end.

(** One observation: the nanoseconds a stage of a source took and the bytes it handled. *)
Record stage_observation := mk_stage_observation {
  ob_source : pystr;
  ob_stage : ProfileStage;
  ob_ns : Z;
  ob_bytes : Z }.

Definition record_bytes (p : WriterProfiler) (o : stage_observation) : WriterProfiler :=
  if negb (is_enabled p) then p
  else if wp_poisoned p then p
  else
    let stages := default ∅ (wp_sources p !! ob_source o) in
    let stats := default no_stats (stages !! stage_name (ob_stage o)) in
    let stats := mk_stage_stats (saturating_add U64_MAX (stage_calls stats) 1)
                   (saturating_add U128_MAX (stage_total_ns stats) (ob_ns o))
                   (saturating_add U64_MAX (stage_bytes stats) (ob_bytes o)) in
    mk_writer_profiler (wp_path p) (wp_poisoned p)
      (<[ob_source o := <[stage_name (ob_stage o) := stats]> stages]> (wp_sources p)).

Definition record (p : WriterProfiler) (source : pystr) (stage : ProfileStage) (ns : Z) : WriterProfiler :=
  record_bytes p (mk_stage_observation source stage ns 0).

(** The timers of [PushSampleStats]; its byte counts are those of the store. *)
Record SampleTimers := mk_sample_timers {
  tm_metadata_validate : Z;
  tm_compression : Z;
  tm_record_encode : Z;
  tm_disk_write : Z }.

Definition record_push_sample_stats (p : WriterProfiler) (source : pystr) (t : SampleTimers) (s : PushSampleStats)
  : WriterProfiler :=
  let p := record p source MetadataValidate (tm_metadata_validate t) in
  let p := record_bytes p (mk_stage_observation source CompressionStage (tm_compression t) (ps_uncompressed_bytes s)) in
  let p := record_bytes p (mk_stage_observation source RecordEncode (tm_record_encode t) (ps_stored_bytes s)) in
  record_bytes p (mk_stage_observation source DiskWrite (tm_disk_write t) (ps_stored_bytes s)).

Record FinishStats := mk_finish_stats { fs_shard_flush : Z; fs_metadata : Z; fs_index : Z; fs_manifest : Z }.

Definition record_finish_stats (p : WriterProfiler) (source : pystr) (s : FinishStats) : WriterProfiler :=
  let p := record p source ShardFlush (fs_shard_flush s) in
  let p := record p source FinishMetadata (fs_metadata s) in
  let p := record p source FinishIndex (fs_index s) in
  record p source FinishManifest (fs_manifest s).

Record StageSummary := mk_stage_summary { ss_name : pystr; ss_stats : StageStats }.
Record SourceSummary := mk_source_summary { so_source_name : pystr; so_stages : list StageSummary }.
Record ProfileSummary := mk_profile_summary { su_format_version : Z; su_elapsed_ns : Z; su_sources : list SourceSummary }.

(** The entries of a [BTreeMap], by key. *)
Definition entries {A} (m : gmap pystr A) : list (pystr * A) :=
  sort_by (fun a b : pystr * A => str_leb a.1 b.1) (map_to_list m).

Definition source_summary (name : pystr) (stages : gmap pystr StageStats) : SourceSummary :=
  mk_source_summary name (map (fun e => mk_stage_summary e.1 e.2) (entries stages)).

Definition profile_summary (elapsed_ns : Z) (sources : gmap pystr (gmap pystr StageStats)) : ProfileSummary :=
  mk_profile_summary 1 elapsed_ns (map (fun e => source_summary e.1 e.2) (entries sources)).

Section Finish.
(** The pretty JSON text of a summary, and how much of a text its writer still holds when
    the serializer returns. *)
Context (render : ProfileSummary -> list Z) (still_buffered : list Z -> nat).

(** [finish]: the buffered writer is dropped without a flush of its own. *)
Definition profiler_finish (elapsed_ns : Z) (p : WriterProfiler) : io unit :=
  match wp_path p with
  | ProfilerDisabled => mret tt
  | ProfilerEnabled file =>
      if wp_poisoned p then io_result (Err WorkerFailed)
      else
        let bytes := render (profile_summary elapsed_ns (wp_sources p)) in
        let flushed := (length bytes - still_buffered bytes)%nat in
        _ ← match parent file with Some dir => create_dir_all dir | None => mret tt end;
        _ ← create_file file;
        _ ← append_file file (take flushed bytes);
        _ ← attempt (append_file file (drop flushed bytes));
        mret tt
  end.

(** [finish_with_profile]: the profile is written whatever the writer's result is. *)
Definition finish_with_profile {A} (elapsed_ns : Z) (result : CacheResult A) (p : WriterProfiler) : io A :=
  profile_result ← attempt (profiler_finish elapsed_ns p);
  match result with
  | Ok value => _ ← io_result profile_result; mret value
  | Err error => io_result (Err error)
  end.
End Finish.

(** * Progress *)

(** Calls on a bar; [PrefixSet] and [SteadyTick] are made when it is created. *)
Inductive bar_call :=
| PrefixSet (text : pystr)
| SteadyTick (milliseconds : Z)
| StyleSet (template : pystr)
| Inc (n : Z)
| MessageSet (text : pystr)
| Tick
| FinishAndClear
| FinishWithMessage (text : pystr).

(** [a / b] of [f64]; the zeros that occur are positive. *)
Definition rust_div (a b : pyfloat) : pyfloat :=
  match f64_div a b with
  | Ret r => r
  | Raise _ => if float_gt0 a then Infinite false else if float_lt0 a then Infinite true else NotANumber
  end.

(** The integer nearest to [num / den], ties to even. *)
Definition round_half_even (num den : Z) : Z :=
  let q := num / den in
  let r := num mod den in
  if (den <? 2 * r) || ((2 * r =? den) && Z.odd q) then q + 1 else q.

(** [{:.1}] of a value that is not negative. *)
Definition fixed1 (f : pyfloat) : pystr :=
  match f with
  | Finite n d => let t := round_half_even (n * 10) (Zpos d) in dec (t / 10) ++ lit "." ++ dec (t mod 10)
  | Infinite _ => lit "inf"
  | NotANumber => lit "NaN"
  end.

(** [{:02}]. *)
Definition pad2 (n : Z) : pystr := if n <? 10 then lit "0" ++ dec n else dec n.

Definition format_eta (seconds : Z) : pystr :=
  if seconds <? 60 then dec seconds ++ lit "s"
  else if seconds <? 3600 then dec (seconds / 60) ++ lit "m " ++ pad2 (seconds mod 60) ++ lit "s"
  else dec (seconds / 3600) ++ lit "h " ++ pad2 (seconds mod 3600 / 60) ++ lit "m".

(** [Duration::try_from_secs_f64(f)] and [as_secs]. *)
Definition duration_secs (f : pyfloat) : option Z :=
  match f with
  | Finite n d =>
      let secs := round_half_even (n * 10 ^ 9) (Zpos d) / 10 ^ 9 in
      if (n <? 0) || (2 ^ 64 <=? secs) then None else Some secs
  | _ => None
  end.

(** [elapsed().as_secs_f64().max(0.001)]. *)
Definition at_least_ms (elapsed : pyfloat) : pyfloat :=
  let least := round_f64 1 1000 in if float_ltb elapsed least then least else elapsed.

Record WriteProgress := mk_write_progress {
  pr_bar : option (list bar_call);
  pr_items : Z;
  pr_bytes : Z;
  pr_clear_on_finish : bool }.

Definition create_progress_bar (source_name : pystr) : list bar_call :=
  [PrefixSet (lit "writing " ++ source_name); SteadyTick 100; StyleSet (lit "{spinner:.green} {prefix} {msg}")].

(** [multi] is whether the bar belongs to the bars of a source list. *)
Definition new_write_progress (enabled : bool) (source_name : pystr) (multi : bool) : WriteProgress :=
  mk_write_progress (if enabled then Some (create_progress_bar source_name) else None) 0 0 multi.

Definition write_message (elapsed : pyfloat) (items bytes : Z) : pystr :=
  let seconds := at_least_ms elapsed in
  dec items ++ lit " items | " ++ fixed1 (rust_div (round_f64 items 1) seconds) ++ lit " items/s | " ++
  fixed1 (rust_div (rust_div (round_f64 bytes 1) (Finite 1000000 1)) seconds) ++ lit " MB/s".

Definition record_sample (elapsed : pyfloat) (p : WriteProgress) (byte_len : Z) : WriteProgress :=
  let items := saturating_add U64_MAX (pr_items p) 1 in
  let bytes := saturating_add U64_MAX (pr_bytes p) byte_len in
  mk_write_progress ((fun calls => calls ++ [Inc 1; MessageSet (write_message elapsed items bytes)]) <$> pr_bar p)
    items bytes (pr_clear_on_finish p).

Definition write_finish (elapsed : pyfloat) (p : WriteProgress) : WriteProgress :=
  mk_write_progress
    ((fun calls => calls ++ [if pr_clear_on_finish p then FinishAndClear
                             else FinishWithMessage (write_message elapsed (pr_items p) (pr_bytes p))]) <$> pr_bar p)
    (pr_items p) (pr_bytes p) (pr_clear_on_finish p).

Record SourceListProgress := mk_list_progress {
  sl_bar : option (list bar_call);
  sl_completed : Z;
  sl_total : Z }.

Definition list_message (elapsed : pyfloat) (completed total : Z) : pystr :=
  if completed =? 0 then lit "ETA --"
  else
    let rate := rust_div (round_f64 completed 1) (at_least_ms elapsed) in
    let remaining := round_f64 (Z.max 0 (total - completed)) 1 in
    match duration_secs (rust_div remaining rate) with
    | None => lit "ETA --"
    | Some eta => fixed1 rate ++ lit " sources/s | ETA " ++ format_eta eta
    end.

Definition refresh (elapsed : pyfloat) (p : SourceListProgress) : SourceListProgress :=
  mk_list_progress
    ((fun calls => calls ++ [MessageSet (list_message elapsed (sl_completed p) (sl_total p)); Tick]) <$> sl_bar p)
    (sl_completed p) (sl_total p).

Definition create_source_list_progress_bar : list bar_call :=
  [PrefixSet (lit "sources"); StyleSet (lit "{wide_bar:.cyan/blue} {prefix} {pos}/{len} {msg}")].

Definition new_list_progress (elapsed : pyfloat) (enabled : bool) (total : Z) : SourceListProgress :=
  refresh elapsed (mk_list_progress (if enabled then Some create_source_list_progress_bar else None) 0 total).

Definition record_source (elapsed : pyfloat) (p : SourceListProgress) : SourceListProgress :=
  refresh elapsed (mk_list_progress ((fun calls => calls ++ [Inc 1]) <$> sl_bar p)
                     (saturating_add U64_MAX (sl_completed p) 1) (sl_total p)).

Definition list_finish (elapsed : pyfloat) (p : SourceListProgress) : SourceListProgress :=
  mk_list_progress
    ((fun calls => calls ++ [FinishWithMessage (list_message elapsed (sl_completed p) (sl_total p))]) <$> sl_bar p)
    (sl_completed p) (sl_total p).

Example eta_texts : map format_eta [0; 59; 61; 3599; 3660; 90000] =
  map lit ["0s"; "59s"; "1m 01s"; "59m 59s"; "1h 01m"; "25h 00m"]%string.
Proof. by vm_compute. Qed.

Example message_texts :
  write_message (Finite 2 1) 3 2500000 = lit "3 items | 1.5 items/s | 1.2 MB/s" /\
  list_message (Finite 4 1) 2 5 = lit "0.5 sources/s | ETA 6s" /\
  list_message (Finite 0 1) 0 5 = lit "ETA --".
Proof. by vm_compute. Qed.

(** * Properties *)

#[export] Instance ProfileStage_eq_dec : EqDecision ProfileStage.
Proof. solve_decision. Defined.

(** The observations of one stage of one source. *)
Definition about (source : pystr) (stage : ProfileStage) (l : list stage_observation) : list stage_observation :=
  filter (fun o => ob_source o = source /\ ob_stage o = stage) l.

(** Their exact totals, at the widths of the counters. *)
Definition totals (l : list stage_observation) : option StageStats :=
  match l with
  | [] => None
  | _ => Some (mk_stage_stats (Z.min U64_MAX (Z.of_nat (length l))) (Z.min U128_MAX (foldr Z.add 0 (map ob_ns l)))
                 (Z.min U64_MAX (foldr Z.add 0 (map ob_bytes l))))
  end.

Definition measured (o : stage_observation) : Prop := 0 <= ob_ns o /\ 0 <= ob_bytes o.

Definition profile_of (p : WriterProfiler) (source : pystr) (stage : ProfileStage) : option StageStats :=
  wp_sources p !! source ≫= lookup (stage_name stage).

Definition recording (p : WriterProfiler) : Prop := is_enabled p = true /\ wp_poisoned p = false.

Lemma stage_name_inj s t : stage_name s = stage_name t -> s = t.
Proof. destruct s, t; unfold stage_name; intros E%lit_inj; done. Qed.

Lemma saturating_twice max x a b :
  0 <= b -> saturating_add max (saturating_add max x a) b = saturating_add max x (a + b).
Proof. unfold saturating_add. lia. Qed.

Lemma record_bytes_recording p o : recording p -> recording (record_bytes p o).
Proof. intros [He Hp]. unfold record_bytes. rewrite He, Hp. done. Qed.

Lemma record_bytes_profile p o source stage :
  recording p ->
  profile_of (record_bytes p o) source stage =
  if decide (ob_source o = source /\ ob_stage o = stage)
  then Some (let stats := default no_stats (profile_of p source stage) in
             mk_stage_stats (saturating_add U64_MAX (stage_calls stats) 1)
               (saturating_add U128_MAX (stage_total_ns stats) (ob_ns o))
               (saturating_add U64_MAX (stage_bytes stats) (ob_bytes o)))
  else profile_of p source stage.
Proof.
  intros [He Hp]. unfold record_bytes, profile_of. rewrite He, Hp; simpl.
  destruct (decide (ob_source o = source)) as [<-|Hs].
  - rewrite lookup_insert_eq; simpl. destruct (decide (ob_stage o = stage)) as [<-|Ht].
    + rewrite lookup_insert_eq, decide_True by done. by destruct (wp_sources p !! ob_source o).
    + rewrite lookup_insert_ne by (by intros ?%stage_name_inj). rewrite decide_False by naive_solver.
      by destruct (wp_sources p !! ob_source o).
  - rewrite lookup_insert_ne by done. by rewrite decide_False by naive_solver.
Qed.

(** Two observations may be recorded in either order. *)
Lemma record_bytes_comm p a b :
  measured a -> measured b -> record_bytes (record_bytes p a) b = record_bytes (record_bytes p b) a.
Proof.
  intros [? ?] [? ?]. unfold record_bytes. destruct p as [[|f] [] m]; try done. cbn [is_enabled wp_path wp_poisoned wp_sources negb].
  f_equal. destruct (decide (ob_source a = ob_source b)) as [E|E].
  - rewrite E, !lookup_insert_eq, !insert_insert_eq. cbn [default from_option id]. f_equal.
    destruct (decide (stage_name (ob_stage a) = stage_name (ob_stage b))) as [F|F].
    + rewrite F, !lookup_insert_eq, !insert_insert_eq. cbn [default from_option id stage_calls stage_total_ns stage_bytes].
      unfold saturating_add. do 2 f_equal; lia.
    + rewrite !lookup_insert_ne by done. by rewrite insert_insert_ne.
  - rewrite !lookup_insert_ne by done. by rewrite insert_insert_ne.
Qed.

Lemma sum_snoc l x : foldr Z.add 0 (l ++ [x]) = foldr Z.add 0 l + x.
Proof. induction l as [|y l IH]; simpl; [lia|]. rewrite IH. lia. Qed.

Lemma totals_snoc l o :
  measured o ->
  totals (l ++ [o]) =
  Some (let stats := default no_stats (totals l) in
        mk_stage_stats (saturating_add U64_MAX (stage_calls stats) 1)
          (saturating_add U128_MAX (stage_total_ns stats) (ob_ns o))
          (saturating_add U64_MAX (stage_bytes stats) (ob_bytes o))).
Proof.
  intros [Hn Hb]. unfold totals at 1. destruct (l ++ [o]) as [|y r] eqn:E; [by destruct l|]. rewrite <- E.
  rewrite !map_app; cbn [map]. rewrite !sum_snoc, length_app; cbn [length].
  destruct l as [|x l]; cbn [totals default from_option id stage_calls stage_total_ns stage_bytes no_stats];
    unfold saturating_add; [cbn [length map foldr]|]; do 2 f_equal; lia.
Qed.

Lemma records_totals c l :
  profiler_enabled c = true -> Forall measured l ->
  recording (foldl record_bytes (new_profiler c) l) /\
  forall source stage, profile_of (foldl record_bytes (new_profiler c) l) source stage = totals (about source stage l).
Proof.
  intros Hc. induction l as [|o l IH] using rev_ind; intros Hl.
  - unfold new_profiler. rewrite Hc. done.
  - apply Forall_app in Hl as [Hl [Ho _]%Forall_cons]. destruct (IH Hl) as [Hr Ht].
    rewrite foldl_snoc. split; [by apply record_bytes_recording|]. intros source stage.
    rewrite record_bytes_profile by done. unfold about. rewrite filter_app. rewrite Ht. unfold about.
    rewrite filter_cons. destruct (decide _); [by rewrite totals_snoc|]. by rewrite filter_nil, app_nil_r.
Qed.

Lemma records_permute l k p : l ≡ₚ k -> Forall measured l -> foldl record_bytes p l = foldl record_bytes p k.
Proof.
  intros H. revert p. induction H as [|o l k H IH|a b l|l k m H1 IH1 H2 IH2]; intros p Hl; simpl; [done| | |].
  - apply IH. by apply Forall_cons in Hl as [_ ?].
  - apply Forall_cons in Hl as [? [? _]%Forall_cons]. by rewrite record_bytes_comm.
  - rewrite IH1 by done. apply IH2. by rewrite <- H1.
Qed.

(** What [finish_with_profile] answers, for any disk. *)
Lemma finish_with_profile_spec render still_buffered {A} elapsed_ns (r : CacheResult A) p d :
  finish_with_profile render still_buffered elapsed_ns r p d =
  (match r with
   | Err e => Err e
   | Ok v => match (profiler_finish render still_buffered elapsed_ns p d).1 with Ok _ => Ok v | Err e => Err e end
   end, (profiler_finish render still_buffered elapsed_ns p d).2).
Proof.
  unfold finish_with_profile, attempt, mbind, io_bind, io_result.
  destruct (profiler_finish _ _ _ _ d) as [[[]|e] d']; by destruct r.
Qed.

(** The profile of a write is exact and diagnostic. An enabled profiler holds, for
    every stage of every source, the number of its observations, their nanoseconds and
    their bytes, each capped at the width of its counter, and holds nothing for a stage
    that was not observed; the order in which the writer's threads recorded them does not
    matter. Finishing never replaces the failure of the write: an error comes out as
    itself whatever the disk does to the profile, a success comes out unless the profile
    could not be written, and a disabled profiler touches no file. *)
Theorem profile_exact (c : WriterProfilerConfig) (l k : list stage_observation) (Hl : Forall measured l) (Hk : l ≡ₚ k) :
  (profiler_enabled c = true ->
   foldl record_bytes (new_profiler c) k = foldl record_bytes (new_profiler c) l /\
   forall source stage,
     profile_of (foldl record_bytes (new_profiler c) l) source stage = totals (about source stage l)) /\
  (profiler_enabled c = false -> foldl record_bytes (new_profiler c) l = new_profiler c) /\
  (forall render still_buffered (A : Type) elapsed_ns (r : CacheResult A) d,
     let p := foldl record_bytes (new_profiler c) l in
     let written := profiler_finish render still_buffered elapsed_ns p d in
     let '(answer, d') := finish_with_profile render still_buffered elapsed_ns r p d in
     d' = written.2 /\
     (forall e, r = Err e -> answer = Err e) /\
     (forall v, r = Ok v -> answer = Ok v <-> written.1 = Ok tt) /\
     (profiler_enabled c = false -> answer = r /\ d' = d)).
Proof.
  assert (Hoff : profiler_enabled c = false -> foldl record_bytes (new_profiler c) l = new_profiler c).
  { intros Hc. unfold new_profiler. rewrite Hc. clear. induction l; done. }
  split; [|split; [exact Hoff|]].
  - intros Hc. split; [symmetry; by apply records_permute|]. by apply records_totals.
  - intros render sb A ns r d p written. rewrite finish_with_profile_spec. fold written. split_and!; [done| | |].
    + by intros e ->.
    + intros v ->. destruct written as [[[]|e] ?]; simpl; split; by intros.
    + intros Hc. subst written p. rewrite (Hoff Hc). unfold new_profiler, profiler_finish. rewrite Hc. by destruct r.
Qed.

Lemma profile_exact_witness :
  let c := mk_profiler true [lit "profile.json"] in
  let o ns b := mk_stage_observation (lit "a") DiskWrite ns b in
  profile_of (foldl record_bytes (new_profiler c) [o 5 10; o 7 (2 ^ 64 - 5)]) (lit "a") DiskWrite =
    Some (mk_stage_stats 2 12 (2 ^ 64 - 1)) /\
  (finish_with_profile (fun _ => [1]) (fun _ => 1%nat) 9 (Err WorkerFailed : CacheResult unit)
     (foldl record_bytes (new_profiler c) [o 5 10]) (mk_disk ∅ [Some (mk_fault (lit "full") [] (fun _ => false))] 0)).1 =
    Err WorkerFailed.
Proof.
  intros c o. split.
  - refine (eq_trans (proj2 (proj1 (profile_exact c [o 5 10; o 7 (2 ^ 64 - 5)] [o 7 (2 ^ 64 - 5); o 5 10] _ _) eq_refl) (lit "a") DiskWrite) _).
    + repeat (apply Forall_cons; split; [by vm_compute|]). by apply Forall_nil.
    + apply perm_swap.
    + by vm_compute.
  - by vm_compute.
Defined.

(** The position a bar shows. *)
Fixpoint bar_position (calls : list bar_call) : Z :=
  match calls with
  | [] => 0
  | Inc n :: calls => n + bar_position calls
  | _ :: calls => bar_position calls
  end.

Lemma bar_position_app a b : bar_position (a ++ b) = bar_position a + bar_position b.
Proof. induction a as [|[] a IH]; simpl; lia. Qed.

(** The progress of one source counts every committed sample and its bytes once, capped
    at 64 bits; its bar, when there is one, stands at the number of samples; without a bar
    nothing is drawn. *)
Theorem progress_counts (enabled multi : bool) (name : pystr) (samples : list (pyfloat * Z))
    (Hs : Forall (fun s => 0 <= s.2) samples) :
  let p := foldl (fun p s => record_sample s.1 p s.2) (new_write_progress enabled name multi) samples in
  pr_items p = Z.min U64_MAX (Z.of_nat (length samples)) /\
  pr_bytes p = Z.min U64_MAX (foldr Z.add 0 (map snd samples)) /\
  bar_position <$> pr_bar p = (if enabled then Some (Z.of_nat (length samples)) else None) /\
  pr_clear_on_finish p = multi.
Proof.
  induction samples as [|s l IH] using rev_ind; [by destruct enabled|].
  apply Forall_app in Hs as [Hl [Hb _]%Forall_cons]. destruct (IH Hl) as (Ei & Eb & Ep & Ec).
  cbv zeta. rewrite foldl_snoc, map_app, length_app; cbn [map length]. rewrite sum_snoc.
  generalize dependent (foldl (fun p s => record_sample s.1 p s.2) (new_write_progress enabled name multi) l).
  intros p _ Ei Eb Ep Ec. unfold record_sample; cbn [pr_items pr_bytes pr_bar pr_clear_on_finish].
  rewrite Ei, Eb, Ec. unfold saturating_add. split_and!; [lia|lia| |done].
  destruct (pr_bar p) as [calls|]; simpl in *; destruct enabled; try done.
  injection Ep as Ep. rewrite bar_position_app; simpl. f_equal. lia.
Qed.

Lemma progress_counts_witness :
  pr_bytes (foldl (fun p s => record_sample s.1 p s.2) (new_write_progress true (lit "a") false)
              [(Finite 1 1, 4); (Finite 2 1, 6)]) = 10.
Proof.
  refine (eq_trans (proj1 (proj2 (progress_counts true false (lit "a") [(Finite 1 1, 4); (Finite 2 1, 6)] _))) _);
    [repeat (apply Forall_cons; split; [by vm_compute|]); by apply Forall_nil | by vm_compute].
Defined.

(** Of a source list the bar stands at the sources reported, which is also the count its
    rate is computed from. *)
Lemma list_progress_counts elapsed enabled total n :
  Z.of_nat n <= U64_MAX ->
  let p := Nat.iter n (record_source elapsed) (new_list_progress elapsed enabled total) in
  sl_completed p = Z.of_nat n /\ sl_total p = total /\
  bar_position <$> sl_bar p = if enabled then Some (Z.of_nat n) else None.
Proof.
  induction n as [|n IH]; intros Hn; [by destruct enabled|]. destruct IH as (Ec & Et & Ep); [lia|].
  cbv zeta. rewrite Nat.iter_succ.
  generalize dependent (Nat.iter n (record_source elapsed) (new_list_progress elapsed enabled total)).
  intros p Ec Et Ep. unfold record_source, refresh; cbn [sl_completed sl_total sl_bar].
  rewrite Ec, Et. unfold saturating_add. split_and!; [lia|done|].
  destruct (sl_bar p) as [calls|]; simpl in *; destruct enabled; try done.
  injection Ep as Ep. rewrite !bar_position_app; simpl. f_equal. lia.
Qed.
