(* ===== verification/Facade.v ===== *)
(** The public names of the package: the definitions of its four modules, the facade
    [src/dataset_rt/api.py] that re-exports them under the paths of existing pickles, and
    the package's own [src/dataset_rt/__init__.py]. *)
From stdpp Require Import base tactics list numbers strings gmap.
From S2P Require Import Prelude Records.
Open Scope Z_scope.

(** * Modules *)

(** An object is known by the module and the name it is defined with; a class also by the
    module it says it belongs to. *)
Abbreviation object := (pystr * pystr)%type.
Abbreviation namespace := (gmap pystr object).

Definition CONFIG : pystr := lit "dataset_rt.config".
Definition DATASET : pystr := lit "dataset_rt.dataset".
Definition RECORDS : pystr := lit "dataset_rt.records".
Definition RUNTIME : pystr := lit "dataset_rt.runtime".
Definition API : pystr := lit "dataset_rt.api".
Definition PACKAGE : pystr := lit "dataset_rt".

(** The classes of a module whose [__module__] is the facade, its other classes, and its
    aliases and constants. *)
Record source_module := mk_module {
  module_name : pystr;
  facade_classes : list pystr;
  own_classes : list pystr;
  values : list pystr }.

Definition config_module : source_module :=
  mk_module CONFIG
    (map lit ["ShardCompression"; "NoCompression"; "Lz4Fast"; "Lz4HC"; "Brotli"; "WriterProfilerConfig";
    "WriterConfig"; "ReaderConfig"]%string)
    []
    (map lit ["CompressionAlgo"; "RecordCompression"; "DEFAULT_SHARD_COMPRESSION"; "DEFAULT_WRITER_PROFILER_CONFIG";
    "DEFAULT_WRITER_CONFIG"]%string).

Definition dataset_module : source_module :=
  mk_module DATASET
    (map lit ["CachedDataset"]%string)
    []
    [].

Definition records_module : source_module :=
  mk_module RECORDS
    (map lit ["CacheInput"; "CachedSample"; "CacheWriteSuccess"; "CacheWriteError"; "CacheSourcesDatasetSuccess";
    "CacheSourcesDatasetError"; "SizedTorchIterableDataset"; "CacheSource"]%string)
    (map lit ["Ok"; "Err"; "ManifestUpdateEntry"; "ManifestUpdateReport"; "AbsentManifestTarget";
    "ManifestUpdateError"; "OriginalMetadata"; "MetadataSnapshot"; "RowSpan"; "ReaderRecipe"]%string)
    (map lit ["Result"; "MetadataValue"; "Metadata"; "BytesLike"; "CacheWriteResult";
    "CacheSourcesDatasetResult"]%string).

Definition runtime_module : source_module :=
  mk_module RUNTIME
    (map lit ["DatasetRuntime"]%string)
    []
    [].

(** The imports of the facade, in order. *)
Definition api_imports : list (pystr * pystr) :=
  let from module names := map (pair module) (map lit names) in
  from CONFIG ["DEFAULT_SHARD_COMPRESSION"; "DEFAULT_WRITER_CONFIG"; "DEFAULT_WRITER_PROFILER_CONFIG"; "Brotli";
    "CompressionAlgo"; "Lz4Fast"; "Lz4HC"; "NoCompression"; "ReaderConfig"; "RecordCompression"; "ShardCompression";
    "WriterConfig"; "WriterProfilerConfig"]%string ++
  from DATASET ["CachedDataset"]%string ++
  from RECORDS ["AbsentManifestTarget"; "BytesLike"; "CachedSample"; "CacheInput"; "CacheSource";
    "CacheSourcesDatasetError"; "CacheSourcesDatasetResult"; "CacheSourcesDatasetSuccess"; "CacheWriteError";
    "CacheWriteResult"; "CacheWriteSuccess"; "Err"; "ManifestUpdateEntry"; "ManifestUpdateError";
    "ManifestUpdateReport"; "Metadata"; "MetadataValue"; "Ok"; "Result"; "SizedTorchIterableDataset"]%string ++
  from RUNTIME ["DatasetRuntime"]%string.

Definition package_imports : list pystr :=
  map lit ["AbsentManifestTarget"; "Brotli"; "CachedDataset";
    "CachedSample"; "CacheInput"; "CacheSource"; "CacheSourcesDatasetError"; "CacheSourcesDatasetResult";
    "CacheSourcesDatasetSuccess"; "CacheWriteError"; "CacheWriteResult"; "CacheWriteSuccess"; "DatasetRuntime";
    "Err"; "Lz4Fast"; "Lz4HC"; "ManifestUpdateEntry"; "ManifestUpdateError"; "ManifestUpdateReport"; "NoCompression";
    "Ok"; "ReaderConfig"; "RecordCompression"; "Result"; "ShardCompression"; "SizedTorchIterableDataset";
    "WriterConfig"; "WriterProfilerConfig"]%string.

Definition all_names : list pystr :=
  map lit ["Brotli"; "CacheInput"; "CacheSource"; "CacheSourcesDatasetError";
    "CacheSourcesDatasetResult"; "CacheSourcesDatasetSuccess"; "CacheWriteError"; "CacheWriteResult";
    "CacheWriteSuccess"; "CachedDataset"; "CachedSample"; "DatasetRuntime"; "ReaderConfig"; "Lz4Fast"; "Lz4HC";
    "NoCompression"; "RecordCompression"; "ShardCompression"; "SizedTorchIterableDataset"; "WriterConfig";
    "WriterProfilerConfig"; "AbsentManifestTarget"; "Err"; "ManifestUpdateEntry"; "ManifestUpdateError";
    "ManifestUpdateReport"; "Ok"; "Result"]%string.

(** * Importing *)

Definition define (m : source_module) : namespace :=
  list_to_map (map (fun n => (n, (module_name m, n))) (facade_classes m ++ own_classes m ++ values m)).

(** The modules imported so far. *)
Abbreviation sys_modules := (gmap pystr namespace).

Definition sources : list source_module := [config_module; dataset_module; records_module; runtime_module].

Definition loaded_sources : sys_modules := list_to_map (map (fun m => (module_name m, define m)) sources).

(** [from module import name as name] in a module with names [ns]. *)
Definition import_from (loaded : sys_modules) (ns : namespace) (module name : pystr) : outcome namespace :=
  match loaded !! module with
  | None => Raise (OtherException (lit "ModuleNotFoundError") module)
  | Some names => match names !! name with
                  | Some o => Ret (<[name := o]> ns)
                  | None => Raise (OtherException (lit "ImportError")
                                     (lit "cannot import name '" ++ name ++ lit "' from '" ++ module ++ lit "'"))
                  end
  end.

Fixpoint import_all (loaded : sys_modules) (imports : list (pystr * pystr)) (ns : namespace) : outcome namespace :=
  match imports with
  | [] => Ret ns
  | (module, name) :: rest => ns ← import_from loaded ns module name; import_all loaded rest ns
  end.

(** [import dataset_rt]: the facade, then the package's own names. *)
Definition import_package : outcome sys_modules :=
  api ← import_all loaded_sources api_imports ∅;
  let loaded := <[API := api]> loaded_sources in
  package ← import_all loaded (map (pair API) package_imports) ∅;
  Ret (<[PACKAGE := package]> loaded).

(** * Pickling a class *)

(** [__module__] of a class, where [m] defines it. *)
Definition class_module (m : source_module) (name : pystr) : pystr :=
  if bool_decide (name ∈ facade_classes m) then API else module_name m.

(** A class is saved as its module and name after checking that they lead back to it. *)
Definition save_class (loaded : sys_modules) (m : source_module) (name : pystr) : outcome (pystr * pystr) :=
  let module := class_module m name in
  match loaded !! module ≫= lookup name with
  | Some o => if bool_decide (o = (module_name m, name)) then Ret (module, name)
              else Raise (OtherException (lit "PicklingError") name)
  | None => Raise (OtherException (lit "PicklingError") name)
  end.

Definition find_class (loaded : sys_modules) (reference : pystr * pystr) : outcome object :=
  match loaded !! reference.1 ≫= lookup reference.2 with
  | Some o => Ret o
  | None => Raise (OtherException (lit "AttributeError") reference.2)
  end.

(** * Properties *)

(** Whether a class comes back from its reference. *)
Definition restores (loaded : sys_modules) (m : source_module) (name : pystr) : bool :=
  match r ← save_class loaded m name; find_class loaded r with
  | Ret o => bool_decide (o = (module_name m, name))
  | Raise _ => false
  end.

(** The decidable content of the properties below, for computation. *)
Definition consistent (loaded : sys_modules) : bool :=
  forallb (fun m => forallb (restores loaded m) (facade_classes m ++ own_classes m)) sources &&
  match loaded !! API, loaded !! PACKAGE with
  | Some api, Some package =>
      bool_decide (dom package = list_to_set (C := gset pystr) all_names) &&
      bool_decide (map_Forall (fun name o => api !! name = Some o) package)
  | _, _ => false
  end.

Lemma package_consistent : match import_package with Ret loaded => consistent loaded | Raise _ => false end = true.
Proof. vm_compute. reflexivity. Qed.

Lemma all_names_nodup : NoDup all_names.
Proof. apply (bool_decide_unpack _). vm_compute. exact I. Qed.

Lemma restores_reference loaded m name :
  restores loaded m name = true ->
  exists r, save_class loaded m name = Ret r /\ find_class loaded r = Ret (module_name m, name) /\
            (name ∈ facade_classes m -> r = (API, name)).
Proof.
  unfold restores. destruct (save_class loaded m name) as [r|] eqn:Es; [|done]. simpl. intros Hn. exists r. split; [done|].
  destruct (find_class loaded r) as [o|]; [|done]. apply bool_decide_eq_true in Hn as ->. split; [done|].
  intros Hf. unfold save_class, class_module in Es. rewrite bool_decide_true in Es by done.
  destruct (loaded !! API ≫= lookup name); [|done]. by destruct (bool_decide _); simplify_eq.
Qed.

(** The package can be imported. Every class of its modules is then pickled by a
    reference that finds the same class again, the classes of the facade under
    [dataset_rt.api]. Every name of [__all__] is bound in the package, once, to the object
    the facade binds it to, and the package binds nothing else. *)
Theorem facade_keeps_references :
  exists loaded, import_package = Ret loaded /\
  (forall m name, m ∈ sources -> name ∈ facade_classes m ++ own_classes m ->
     exists r, save_class loaded m name = Ret r /\ find_class loaded r = Ret (module_name m, name) /\
               (name ∈ facade_classes m -> r = (API, name))) /\
  NoDup all_names /\
  (exists api package, loaded !! API = Some api /\ loaded !! PACKAGE = Some package /\
     dom package = list_to_set (C := gset pystr) all_names /\
     forall name o, package !! name = Some o -> api !! name = Some o).
Proof.
  pose proof package_consistent as H. destruct import_package as [loaded|e]; [|done].
  exists loaded. split; [done|]. apply andb_true_iff in H as [Hr Hp].
  split_and!; [|exact all_names_nodup|].
  - intros m name Hm Hn. apply restores_reference. rewrite forallb_forall in Hr.
    apply list_elem_of_In, Hr in Hm. rewrite forallb_forall in Hm. by apply list_elem_of_In, Hm in Hn.
  - destruct (loaded !! API) as [api|]; [|done]. destruct (loaded !! PACKAGE) as [package|]; [|done].
    apply andb_true_iff in Hp as [Hd Hf]. apply bool_decide_eq_true in Hd, Hf. by exists api, package.
Qed.
